(* ===== verification/_CoqProject ===== *)
-Q . S2P
Prelude.v
Mem.v
Layout.v
PageAlloc.v
Pmm.v
Heap.v
Vmm.v
Io.v
Gdt.v
Process.v
Scheduler.v
SchedSpec.v
Threads.v
Syscall.v
Pic.v
Keyboard.v
Idt.v
Isr.v
Entry.v
History.v
Text.v
Net.v
Framebuffer.v
Console.v
Shell.v
Commands.v
Pci.v
Virtio.v
VirtioNet.v
Font.v
Graphics.v
BootInfo.v
Efi.v
Kernel.v
Boot.v
Abi.v
