(* ===== verification/Prelude.v ===== *)
(** * SimpleOS: a verification library for the SimpleOS bootloader and kernel

    SimpleOS is a UEFI bootloader ([src/boot]) that loads a small x86-64 kernel
    ([src/kernel]) and passes it a [boot_info_t] ([src/include/bootinfo.h]).  The
    library translates the C code (and the assembly routines) into Rocq
    functions, state by state and branch by branch, and proves what the parts
    promise, up to a theorem that composes them from the boot menu to the shell.

    ** How C becomes Rocq

    An unsigned integer of [w] bits is a [Z], and every operation that can leave
    its width is followed by [uwrap w] ([u8] to [u64]), as the conversion in the
    source.  Memory that the code reaches through casts (heap headers, page
    tables, stacks, virtqueues, descriptors) is a map from addresses to bytes
    ([Mem.v]); static arrays are lists.  Static variables of a C file are the
    fields of one record, and an operation is a function from that state to its
    result and the new state.  A [process_t *] is the index of its slot, so
    aliasing is kept.  Faults (a division by zero, an access outside of an array
    on the stack) are the result [None] or a constructor of the result.  Devices,
    the firmware and the page allocator's clients meet at type classes: the
    signature of what is called, and the laws the caller's theorems need.

    ** Components, files and sources

    - Shared: [Prelude.v] (integers, arrays, loops, counting), [Mem.v] (bytes),
      [Text.v] (literals, numerals), [Framebuffer.v] (pixels; [put_pixel],
      [fill_rect] and [clear_screen], which kernel and loader have in common).
    - Physical pages: [Pmm.v] ([kernel/mm/pmm.c]) against the interface of
      [PageAlloc.v].  The bitmap and the counters agree in every reachable state,
      runs are allocated first fit, and the interface's laws hold.
    - Heap: [Heap.v] ([kernel/mm/heap.c]).  The linked headers implement first fit
      with splitting and coalescing on an abstract list of blocks; [kfree] undoes
      [kmalloc]; growing in place breaks the list.
    - Paging: [Vmm.v] ([kernel/mm/vmm.c]) over [PageAlloc].  Mapping and unmapping
      change one translation, the tables stay a tree of allocated pages while
      address spaces come and go, and a new one shares the kernel's half.
    - Processes and scheduling: [Process.v] ([kernel/proc/process.c], [context.S])
      and [Scheduler.v] ([kernel/proc/scheduler.c]).  Identifiers stay distinct, a
      context switch and back restores a thread, [schedule] picks the head of the
      highest queue, a tick wakes exactly the expired sleepers, and two theorems
      show processes being lost.  [SchedSpec.v] has an abstract scheduler on lists
      with a contract for its callers; the linked queues refine it over every
      sequence of calls, and inside the contract no ready process is lost.
      [Threads.v] (the demo threads of [kernel.c]) shows that threads of the
      highest ready priority take turns.
    - Processor tables and stubs: [Gdt.v] and [Idt.v] ([kernel/cpu]), [Isr.v]
      ([cpu/isr.S]: the handler gets the frame that [idt.h] declares, and the
      registers of the interrupted code are as they were), [Syscall.v]
      ([kernel/syscall]: its entry stub loses the first argument), and [Entry.v]
      ([kernel/entry.S], instruction by instruction from the loader's jump to the
      first instruction of [kernel_main]).
    - Devices: [Io.v] ([kernel/io.h]), [Pic.v] ([cpu/pic.c], [drivers/timer.c]),
      [Keyboard.v] ([drivers/keyboard.c], a bounded queue fed by a decoder),
      [Pci.v] ([kernel/pci.h]), [Virtio.v] (the queues of [kernel/virtio_net.h]
      under every interleaving with the device) and [VirtioNet.v] (the driver and
      its responder), [Net.v] ([kernel/net.h]).
    - Console and shell: [Console.v] ([kernel/kernel.c]), [History.v] and [Shell.v]
      and [Commands.v] ([kernel/shell]).  Printing stays on the screen, the history
      is a list, the line editor is an editor of strings, and a round of the shell
      reads, records and executes a line.
    - Loader: [Font.v] and [Graphics.v] ([boot/font.h], [boot/graphics.h]), [Efi.v]
      ([boot/efi.h], with the class [Firmware] and its laws), [Boot.v]
      ([boot/main.c]).  Text and shapes are painted exactly, all drawing stays in
      the framebuffer, the kernel image and the memory map are handed over, and
      the menu follows the keys.
    - Data layouts: [Layout.v] (the size, alignment and member offsets of a C
      structure) and [Abi.v] (the structures of the headers as data).  The offsets
      that the other files use are those of the declared structures, and the
      firmware's memory descriptors are the kernel's entries.
    - Composition: [BootInfo.v] ([include/bootinfo.h]) and [Kernel.v] ([kernel_main]):
      every component that is started is in a state that satisfies its invariant.
      [Boot.efi_main_starts_kernel] joins loader and kernel.

    ** Fuel and bounds

    Counting loops take as fuel the bound in their own condition ([for_up_range]
    shows that it never ends them).  Loops over linked lists take more fuel than
    the list has nodes, and their theorems show that the result is not the one of
    exhausted fuel.  The digit loops have 20 rounds for 64-bit numbers, the tick's
    loop one round per slot of the process table, the fold of the checksum as many
    as a 32-bit sum needs.  Waiting for a key takes a number of polls, and the
    theorems say how many are enough for the keys that arrive.  The hexdump's loop
    ends for the lengths its theorem names, and for the others no fuel is enough.  The delay of the demo threads has the
    100000 rounds of its bound, and their endless loop is a number of rounds.

    ** Not modelled

    The fences of [io.h]; the behaviour of firmware services that the loader does
    not call (their slots are laid out in [Abi.v]); prototypes and constants that
    nothing uses; the build files and the generated [kernel_data.h],
    whose array is a parameter of the loader.  Caches, the TLB beyond the trace of
    its flushes, timing, and interrupts in the middle of a kernel function are
    outside of the model: an interrupt is a step between operations. *)

From Stdlib Require Export ZArith Lia.
From stdpp Require Export base numbers list gmap.

#[export] Set Default Goal Selector "!".

(** ** Scopes *)

Declare Scope sos_scope.
Delimit Scope sos_scope with sos.
#[global] Open Scope Z_scope.

(** ** Machine integers

    A C unsigned integer of [w] bits is a [Z]; [uwrap w] is the conversion to
    that type (reduction modulo [2^w]).  [s32] is the conversion to a signed
    32-bit [int] as gcc defines it (two's complement). *)

Definition uwrap (w z : Z) : Z := z mod 2 ^ w.
Abbreviation u8 := (uwrap 8).
Abbreviation u16 := (uwrap 16).
Abbreviation u32 := (uwrap 32).
Abbreviation u64 := (uwrap 64).

Definition s32 (z : Z) : Z := (z + 2 ^ 31) mod 2 ^ 32 - 2 ^ 31.

Definition UINT64_MAX : Z := 2 ^ 64 - 1.

(** [z] is representable in [w] unsigned bits. *)
Definition in_u (w z : Z) : Prop := 0 <= z < 2 ^ w.

Lemma uwrap_small (w z : Z) : 0 <= z < 2 ^ w -> uwrap w z = z.
Proof. intros H. by apply Z.mod_small. Qed.

Lemma uwrap_range (w z : Z) : 0 <= w -> 0 <= uwrap w z < 2 ^ w.
Proof. intros Hw. apply Z.mod_pos_bound, Z.pow_pos_nonneg; lia. Qed.

Lemma uwrap_idemp (w z : Z) : 0 <= w -> uwrap w (uwrap w z) = uwrap w z.
Proof. intros Hw. by apply uwrap_small, uwrap_range. Qed.

Lemma s32_small (z : Z) : - 2 ^ 31 <= z < 2 ^ 31 -> s32 z = z.
Proof. unfold s32. intros H. rewrite Z.mod_small; lia. Qed.

Lemma uwrap_testbit (w z i : Z) :
  0 <= w -> Z.testbit (uwrap w z) i = (i <? w) && Z.testbit z i.
Proof.
  intros Hw. unfold uwrap. destruct (Z.ltb_spec i w) as [Hi|Hi]; simpl.
  - by apply Z.mod_pow2_bits_low.
  - by apply Z.mod_pow2_bits_high.
Qed.

Lemma testbit_high (w z i : Z) : 0 <= z < 2 ^ w -> 0 <= w <= i -> Z.testbit z i = false.
Proof.
  intros Hz Hi. rewrite <- (Z.mod_small z (2 ^ w)) by done. by apply Z.mod_pow2_bits_high.
Qed.

Lemma lor_range (w a b : Z) :
  0 <= w -> 0 <= a < 2 ^ w -> 0 <= b < 2 ^ w -> 0 <= Z.lor a b < 2 ^ w.
Proof.
  intros Hw Ha Hb. replace (Z.lor a b) with (uwrap w (Z.lor a b)); [by apply uwrap_range|].
  apply Z.bits_inj'. intros i Hi. rewrite uwrap_testbit by done. destruct (Z.ltb_spec i w); [done|].
  by rewrite Z.lor_spec, !(testbit_high w) by lia.
Qed.

Lemma land_range (w a b : Z) : 0 <= w -> 0 <= a < 2 ^ w -> 0 <= Z.land a b < 2 ^ w.
Proof.
  intros Hw Ha. replace (Z.land a b) with (uwrap w (Z.land a b)); [by apply uwrap_range|].
  apply Z.bits_inj'. intros i Hi. rewrite uwrap_testbit by done. destruct (Z.ltb_spec i w); [done|].
  by rewrite Z.land_spec, (testbit_high w) by lia.
Qed.

(** [x & (2^k - 1)] *)
Lemma land_mask (k x : Z) : 0 <= k -> Z.land x (2 ^ k - 1) = x mod 2 ^ k.
Proof. intros Hk. rewrite <- Z.land_ones, Z.ones_equiv by done. by rewrite Z.sub_1_r. Qed.

Lemma land_ffff (x : Z) : Z.land x 0xFFFF = x mod 2 ^ 16.
Proof. exact (land_mask 16 x ltac:(lia)). Qed.
Lemma land_ff (x : Z) : Z.land x 0xFF = x mod 2 ^ 8.
Proof. exact (land_mask 8 x ltac:(lia)). Qed.
Lemma land_0f (x : Z) : Z.land x 0x0F = x mod 2 ^ 4.
Proof. exact (land_mask 4 x ltac:(lia)). Qed.
Lemma land_ffffffff (x : Z) : Z.land x 0xFFFFFFFF = x mod 2 ^ 32.
Proof. exact (land_mask 32 x ltac:(lia)). Qed.

(** [|] of disjoint bit sets is [+]. *)
Lemma lor_add (a b : Z) : Z.land a b = 0 -> Z.lor a b = a + b.
Proof. intros H. by rewrite Z.add_nocarry_lxor, Z.lxor_lor. Qed.

(** [a << k | b] when [b] fits in the low [k] bits. *)
Lemma lor_low (k a b : Z) : 0 <= k -> 0 <= b < 2 ^ k -> Z.lor (a * 2 ^ k) b = a * 2 ^ k + b.
Proof.
  intros Hk Hb. apply lor_add. apply Z.bits_inj'. intros i Hi.
  rewrite Z.land_spec, Z.bits_0, <- Z.shiftl_mul_pow2, Z.shiftl_spec by lia.
  destruct (Z.ltb_spec i k); [by rewrite Z.testbit_neg_r by lia|].
  by rewrite (testbit_high k b), andb_false_r by lia.
Qed.

(** [x & ~(2^k - 1)] on a [uint64_t] rounds down to a multiple of [2^k]. *)
Lemma land_align_down (k x : Z) :
  0 <= k <= 64 -> 0 <= x < 2 ^ 64 ->
  Z.land x (u64 (Z.lnot (2 ^ k - 1))) = x / 2 ^ k * 2 ^ k.
Proof.
  intros Hk Hx. rewrite <- Z.shiftr_div_pow2, <- Z.shiftl_mul_pow2 by lia.
  apply Z.bits_inj'. intros i Hi.
  rewrite Z.land_spec, uwrap_testbit, Z.lnot_spec, Z.shiftl_spec by lia.
  replace (2 ^ k - 1) with (Z.ones k) by (rewrite Z.ones_equiv; lia).
  rewrite Z.testbit_ones_nonneg by lia.
  destruct (Z.ltb_spec i k).
  - rewrite (Z.testbit_neg_r _ (i - k)) by lia. by rewrite !andb_false_r.
  - rewrite Z.shiftr_spec by lia. replace (i - k + k) with i by lia.
    destruct (Z.ltb_spec i 64); simpl; [by rewrite andb_true_r|].
    by rewrite (testbit_high 64 x i), andb_false_r by lia.
Qed.

(** [1 << k] has the single bit [k]. *)
Lemma shiftl_1_testbit (k i : Z) : 0 <= k -> 0 <= i -> Z.testbit (Z.shiftl 1 k) i = (k =? i).
Proof.
  intros Hk Hi. rewrite Z.shiftl_1_l. destruct (Z.eqb_spec k i) as [->|Hne].
  - by apply Z.pow2_bits_true.
  - by apply Z.pow2_bits_false.
Qed.

(** ** Tactics

    [ulia] closes linear goals in which small machine integers were wrapped;
    [dlia] also knows Euclid's equations of [/] and [mod] by constants. *)

Ltac unwrap :=
  repeat match goal with
  | |- context [uwrap ?w ?z] => rewrite (uwrap_small w z) by lia
  | H : context [uwrap ?w ?z] |- _ => rewrite (uwrap_small w z) in H by lia
  end.
Ltac ulia := unwrap; lia.
Ltac dlia := Z.div_mod_to_equations; lia.

(** Splits every boolean comparison of integers in sight. *)
Ltac zcases :=
  repeat match goal with
  | |- context [Z.ltb ?a ?b] => destruct (Z.ltb_spec a b)
  | |- context [Z.leb ?a ?b] => destruct (Z.leb_spec a b)
  | |- context [Z.eqb ?a ?b] => destruct (Z.eqb_spec a b)
  end.

(** ** Arrays

    A C array is a list; [zget]/[zset] are the subscript operations, with the
    index a machine integer.  A subscript outside of the array is not a
    behaviour of the source: it reads 0 and writes nothing here, and the
    well-formedness theorems show that no subscript of the code is outside. *)

Definition zget (l : list Z) (i : Z) : Z := default 0 (l !! Z.to_nat i).
Definition zset (l : list Z) (i v : Z) : list Z := <[Z.to_nat i := v]> l.

(** The length of a list as a machine integer. *)
Definition zlen {A} (l : list A) : Z := Z.of_nat (length l).

Lemma zlen_zset (l : list Z) (i v : Z) : zlen (zset l i v) = zlen l.
Proof. unfold zlen, zset. by rewrite length_insert. Qed.

Lemma zget_zset (l : list Z) (i j v : Z) :
  0 <= i < zlen l -> 0 <= j ->
  zget (zset l i v) j = if i =? j then v else zget l j.
Proof.
  unfold zget, zset, zlen. intros Hi Hj. destruct (Z.eqb_spec i j) as [->|Hne].
  - rewrite list_lookup_insert_eq by lia. done.
  - rewrite list_lookup_insert_ne by lia. done.
Qed.

Lemma zget_zset_eq (l : list Z) (i v : Z) :
  0 <= i < zlen l -> zget (zset l i v) i = v.
Proof. intros Hi. rewrite zget_zset by lia. by rewrite Z.eqb_refl. Qed.

Lemma zget_zset_ne (l : list Z) (i j v : Z) :
  0 <= i -> 0 <= j -> i <> j -> zget (zset l i v) j = zget l j.
Proof.
  unfold zget, zset. intros Hi Hj Hne. rewrite list_lookup_insert_ne by lia. done.
Qed.

Lemma zset_zset (l : list Z) (i v w : Z) : zset (zset l i v) i w = zset l i w.
Proof. unfold zset. by rewrite list_insert_insert_eq. Qed.

Lemma zset_get (l : list Z) (i : Z) : zset l i (zget l i) = l.
Proof.
  unfold zset, zget. destruct (l !! Z.to_nat i) as [x|] eqn:E; simpl.
  - by apply list_insert_id.
  - apply list_insert_ge. by apply lookup_ge_None.
Qed.

Lemma zget_ext (l k : list Z) :
  zlen l = zlen k -> (forall i, 0 <= i < zlen l -> zget l i = zget k i) -> l = k.
Proof.
  unfold zlen, zget. intros Hlen H. apply list_eq_same_length with (length k); [done|lia|].
  intros i x y Hi Hx Hy. specialize (H (Z.of_nat i)).
  rewrite Nat2Z.id, Hx, Hy in H. apply H. lia.
Qed.

(** ** C strings

    A [char *] is the list of the bytes from where it points; the string ends at
    the first 0, and the end of the list counts as one. *)

Fixpoint cstr (l : list Z) : list Z :=
  match l with
  | [] => []
  | c :: l' => if c =? 0 then [] else c :: cstr l'
  end.

(** [for (i = 0; i < n && src[i]; i++) dst[i] = src[i]; dst[i] = 0], from index
    [i] of [dst] on. *)
Fixpoint copy_cstr (n : nat) (src : list Z) (i : Z) (dst : list Z) : list Z :=
  match n, src with
  | S n', c :: src' =>
      if c =? 0 then zset dst i 0 else copy_cstr n' src' (i + 1) (zset dst i c)
  | _, _ => zset dst i 0
  end.

Lemma copy_cstr_spec (n : nat) : forall (src dst : list Z) (i : nat),
  (i + n < length dst)%nat ->
  let r := copy_cstr n src (Z.of_nat i) dst in
  length r = length dst /\ take i r = take i dst /\ cstr (drop i r) = take n (cstr src).
Proof.
  assert (Hend : forall (dst : list Z) (i : nat), (i < length dst)%nat ->
    let r := zset dst (Z.of_nat i) 0 in
    length r = length dst /\ take i r = take i dst /\ cstr (drop i r) = []).
  { intros dst i Hi. unfold zset. rewrite Nat2Z.id. rewrite length_insert.
    split_and!; [done|by apply take_insert_ge|].
    erewrite drop_S; [|by apply list_lookup_insert_eq]. done. }
  induction n as [|n IH]; intros src dst i Hi; cbn [copy_cstr take].
  { destruct src; apply Hend; lia. }
  destruct src as [|c src]; [apply Hend; lia|]. cbn [cstr]. destruct (Z.eqb_spec c 0) as [->|Hc].
  { apply Hend. lia. }
  replace (Z.of_nat i + 1) with (Z.of_nat (S i)) by lia.
  destruct (IH src (zset dst (Z.of_nat i) c) (S i)) as (H1 & H2 & H3);
    [unfold zset; rewrite length_insert; lia|].
  set (r := copy_cstr n src _ _) in *. unfold zset in *. rewrite Nat2Z.id in *.
  rewrite length_insert in H1. split_and!; [done| |].
  - apply (f_equal (take i)) in H2. rewrite !take_take, Nat.min_l in H2 by lia.
    rewrite H2. by apply take_insert_ge.
  - assert (Hr : r !! i = Some c).
    { rewrite <- (lookup_take_lt r (S i)) by lia. rewrite H2, lookup_take_lt by lia.
      apply list_lookup_insert_eq. lia. }
    rewrite (drop_S _ _ _ Hr). cbn [cstr take]. rewrite (proj2 (Z.eqb_neq c 0) Hc). by rewrite H3.
Qed.

(** ** Counting loops

    [for (; cond(i); i++) body(i)], with at most [fuel] rounds.  The loops of the
    source have a condition that bounds [i] by the fuel they are given here, so
    the fuel never ends one ([for_up_range]). *)

Fixpoint for_up {A} (fuel : nat) (cond : Z -> bool) (body : Z -> A -> A) (i : Z) (s : A) : A :=
  match fuel with
  | O => s
  | S f => if cond i then for_up f cond body (i + 1) (body i s) else s
  end.

(** A loop whose condition is [i < b] runs over the numbers from [i] to [b - 1]. *)
Lemma for_up_range {A} (fuel : nat) (cond : Z -> bool) (body : Z -> A -> A) (b : Z) : forall (i : Z) (s : A),
  (forall k, i <= k -> cond k = (k <? b)) -> b - i <= Z.of_nat fuel ->
  for_up fuel cond body i s = foldl (fun s k => body k s) s (seqZ i (b - i)).
Proof.
  induction fuel as [|fuel IH]; intros i s Hc Hf; cbn [for_up].
  { by rewrite seqZ_nil by lia. }
  rewrite Hc by lia. destruct (Z.ltb_spec i b).
  - rewrite seqZ_cons by lia. cbn [foldl]. rewrite IH; [|intros k Hk; apply Hc; lia|lia].
    replace (b - (i + 1)) with (Z.pred (b - i)) by lia. by replace (Z.succ i) with (i + 1) by lia.
  - by rewrite seqZ_nil by lia.
Qed.

(** An invariant of the body is one of the loop. *)
Lemma for_up_inv {A} (I : A -> Prop) (fuel : nat) (cond : Z -> bool) (body : Z -> A -> A) : forall (i : Z) (s : A),
  (forall k s, i <= k -> cond k = true -> I s -> I (body k s)) -> I s ->
  I (for_up fuel cond body i s).
Proof.
  induction fuel as [|fuel IH]; intros i s Hb Hs; cbn [for_up]; [done|].
  destruct (cond i) eqn:E; [|done]. apply IH; [intros k s' Hk; apply Hb; lia|]. by apply Hb.
Qed.

(** ** Bounded counting

    [count_below p n] is the number of [i] with [0 <= i < n] and [p i]. *)

Fixpoint count_nat (p : Z -> bool) (n : nat) : Z :=
  match n with
  | O => 0
  | S m => count_nat p m + (if p (Z.of_nat m) then 1 else 0)
  end.
(** Sealed: it occurs in invariants only, and no conversion may unfold it at
    the large constants it is used with. *)
Definition count_below_def (p : Z -> bool) (n : Z) : Z := count_nat p (Z.to_nat n).
Definition count_below_aux : seal count_below_def. Proof. by eexists. Qed.
Definition count_below : (Z -> bool) -> Z -> Z := unseal count_below_aux.
Lemma count_below_eq (p : Z -> bool) (n : Z) : count_below p n = count_nat p (Z.to_nat n).
Proof. unfold count_below. by rewrite (seal_eq count_below_aux). Qed.

Lemma count_nat_ext (p q : Z -> bool) (n : nat) :
  (forall i, 0 <= i < Z.of_nat n -> p i = q i) -> count_nat p n = count_nat q n.
Proof.
  induction n as [|n IH]; intros H; simpl; [done|].
  rewrite IH by (intros i Hi; apply H; lia). rewrite (H (Z.of_nat n)) by lia. done.
Qed.

Lemma count_below_ext (p q : Z -> bool) (n : Z) :
  (forall i, 0 <= i < n -> p i = q i) -> count_below p n = count_below q n.
Proof. intros H. rewrite !count_below_eq. apply count_nat_ext. intros i Hi. apply H. lia. Qed.

Lemma count_nat_range (p : Z -> bool) (n : nat) : 0 <= count_nat p n <= Z.of_nat n.
Proof. induction n as [|n IH]; simpl; [lia|]. destruct (p _); lia. Qed.

Lemma count_below_range (p : Z -> bool) (n : Z) : 0 <= n -> 0 <= count_below p n <= n.
Proof. intros Hn. pose proof (count_nat_range p (Z.to_nat n)). rewrite count_below_eq. lia. Qed.

Lemma count_nat_flip (p q : Z -> bool) (n : nat) (i : Z) :
  0 <= i < Z.of_nat n -> p i = false -> q i = true ->
  (forall j, j <> i -> p j = q j) -> count_nat q n = count_nat p n + 1.
Proof.
  induction n as [|n IH]; intros Hi Hp Hq Hne; [lia|]. simpl.
  destruct (Z.eq_dec i (Z.of_nat n)) as [->|Hni].
  - rewrite Hp, Hq, (count_nat_ext q p n); [lia|].
    intros j Hj. symmetry. apply Hne. lia.
  - rewrite (IH ltac:(lia) Hp Hq Hne), (Hne (Z.of_nat n)) by lia. lia.
Qed.

(** Setting one more point raises the count by one. *)
Lemma count_below_flip (p q : Z -> bool) (n i : Z) :
  0 <= i < n -> p i = false -> q i = true ->
  (forall j, j <> i -> p j = q j) -> count_below q n = count_below p n + 1.
Proof. intros Hi. rewrite !count_below_eq. apply count_nat_flip. lia. Qed.

Lemma count_nat_const (b : bool) (n : nat) :
  count_nat (fun _ => b) n = if b then Z.of_nat n else 0.
Proof. induction n as [|n IH]; destruct b; cbn -[Z.of_nat] in *; lia. Qed.

Lemma count_below_true (n : Z) : 0 <= n -> count_below (fun _ => true) n = n.
Proof. intros Hn. rewrite count_below_eq, count_nat_const. lia. Qed.

Lemma count_nat_negb (p : Z -> bool) (n : nat) :
  count_nat (fun i => negb (p i)) n = Z.of_nat n - count_nat p n.
Proof. induction n as [|n IH]; cbn -[Z.of_nat]; [lia|]. destruct (p _); simpl; lia. Qed.

Lemma count_below_negb (p : Z -> bool) (n : Z) :
  0 <= n -> count_below (fun i => negb (p i)) n = n - count_below p n.
Proof. intros Hn. rewrite !count_below_eq, count_nat_negb. lia. Qed.

(** A point where [p] holds makes the count positive. *)
Lemma count_below_pos (p : Z -> bool) (n i : Z) :
  0 <= i < n -> p i = true -> 0 < count_below p n.
Proof.
  intros Hi Hp. set (q := fun j => if j =? i then false else p j).
  pose proof (count_below_range q n ltac:(lia)).
  rewrite (count_below_flip q p n i); [lia|done|by unfold q; rewrite Z.eqb_refl|done|].
  intros j Hj. unfold q. by rewrite (proj2 (Z.eqb_neq j i) Hj).
Qed.

(** ** Hints *)

Create HintDb sos discriminated.
Create Rewrite HintDb sos.
#[export] Hint Rewrite zlen_zset zset_zset Z.eqb_refl Z.ltb_irrefl : sos.
