(* ===== verification/Mem.v ===== *)
(** * Byte-addressed memory

    The kernel runs on identity-mapped memory, and the heap, the page tables and
    the kernel stacks are read and written through casts of addresses.  Memory
    is a finite map from addresses to bytes; [rdN]/[wrN] are the little-endian
    accesses of x86-64 at a width of [n] bytes. *)

From S2P Require Import Prelude.

Abbreviation memory := (gmap Z Z).

Definition rd8 (m : memory) (a : Z) : Z := u8 (default 0 (m !! a)).
Definition wr8 (m : memory) (a v : Z) : memory := <[a := u8 v]> m.

Fixpoint rdN (n : nat) (m : memory) (a : Z) : Z :=
  match n with
  | O => 0
  | S n' => rd8 m a + 2 ^ 8 * rdN n' m (a + 1)
  end.

Fixpoint wrN (n : nat) (m : memory) (a v : Z) : memory :=
  match n with
  | O => m
  | S n' => wrN n' (wr8 m a v) (a + 1) (v / 2 ^ 8)
  end.

Abbreviation rd16 := (rdN 2).
Abbreviation rd32 := (rdN 4).
Abbreviation rd64 := (rdN 8).
Abbreviation wr16 := (wrN 2).
Abbreviation wr32 := (wrN 4).
Abbreviation wr64 := (wrN 8).

(** [for (i = 0; i < n; i++) dst[i] = src[i]] on byte pointers. *)
Fixpoint copy_bytes (n : nat) (m : memory) (dst src : Z) : memory :=
  match n with
  | O => m
  | S n' => copy_bytes n' (wr8 m dst (rd8 m src)) (dst + 1) (src + 1)
  end.

(** [for (i = 0; i < n; i++) words[i] = 0] on a [uint64_t] pointer. *)
Fixpoint zero_words (n : nat) (m : memory) (a : Z) : memory :=
  match n with
  | O => m
  | S n' => zero_words n' (wr64 m a 0) (a + 8)
  end.

(** ** Laws *)

Lemma rd8_range (m : memory) (a : Z) : 0 <= rd8 m a < 2 ^ 8.
Proof. by apply uwrap_range. Qed.

Lemma rd8_wr8 (m : memory) (a b v : Z) : rd8 (wr8 m a v) b = if a =? b then u8 v else rd8 m b.
Proof.
  unfold rd8, wr8. destruct (Z.eqb_spec a b) as [->|Hne].
  - rewrite lookup_insert_eq. simpl. by apply uwrap_idemp.
  - by rewrite lookup_insert_ne.
Qed.

Lemma rdN_range (n : nat) (m : memory) : forall a, 0 <= rdN n m a < 2 ^ (8 * Z.of_nat n).
Proof.
  induction n as [|n IH]; intros a; [simpl; lia|]. cbn -[Z.of_nat Z.pow Z.mul].
  specialize (IH (a + 1)). pose proof (rd8_range m a).
  replace (8 * Z.of_nat (S n)) with (8 + 8 * Z.of_nat n) by lia.
  rewrite Z.pow_add_r by lia. change (2 ^ 8) with 256 in *. lia.
Qed.

Lemma rd8_wrN (n : nat) : forall (m : memory) (a b v : Z),
  rd8 (wrN n m a v) b
  = if (a <=? b) && (b <? a + Z.of_nat n) then u8 (v / 2 ^ (8 * (b - a))) else rd8 m b.
Proof.
  induction n as [|n IH]; intros m a b v.
  { cbn -[Z.div Z.pow Z.mul]. zcases; cbn -[Z.div Z.pow Z.mul]; (lia || done). }
  cbn -[Z.of_nat Z.pow Z.mul Z.div]. rewrite IH, rd8_wr8. destruct (Z.eqb_spec a b) as [->|Hne].
  - rewrite Z.sub_diag, Z.mul_0_r, Z.pow_0_r, Z.div_1_r. zcases; cbn [andb]; (lia || done).
  - replace (b <? a + Z.of_nat (S n)) with (b <? a + 1 + Z.of_nat n) by (f_equal; lia).
    replace (a <=? b) with (a + 1 <=? b) by (zcases; lia).
    destruct (Z.leb_spec (a + 1) b); cbn [andb]; [|done]. destruct (_ <? _); [|done].
    rewrite Z.div_div by lia. rewrite <- Z.pow_add_r by lia. do 3 f_equal. lia.
Qed.

(** An access sees only the bytes it covers. *)
Lemma rdN_ext (n : nat) (m m' : memory) : forall a,
  (forall x, a <= x < a + Z.of_nat n -> rd8 m' x = rd8 m x) -> rdN n m' a = rdN n m a.
Proof.
  induction n as [|n IH]; intros a H; [done|]. cbn -[Z.of_nat Z.pow Z.mul].
  rewrite (H a) by lia. rewrite IH; [done|]. intros x Hx. apply H. lia.
Qed.

Lemma rdN_wrN_disj (n k : nat) (m : memory) (a b v : Z) :
  a + Z.of_nat n <= b \/ b + Z.of_nat k <= a -> rdN k (wrN n m a v) b = rdN k m b.
Proof.
  intros H. apply rdN_ext. intros x Hx. rewrite rd8_wrN. zcases; simpl; (lia || done).
Qed.

Lemma rdN_wrN_same (n : nat) : forall (m : memory) (a v : Z),
  rdN n (wrN n m a v) a = v mod 2 ^ (8 * Z.of_nat n).
Proof.
  induction n as [|n IH]; intros m a v; [by rewrite Z.mod_1_r|].
  cbn -[Z.of_nat Z.pow Z.mul Z.div]. rewrite IH, rd8_wrN.
  rewrite (proj2 (Z.leb_gt (a + 1) a)) by lia. simpl andb. cbv iota.
  rewrite rd8_wr8, Z.eqb_refl. unfold uwrap.
  replace (8 * Z.of_nat (S n)) with (8 + 8 * Z.of_nat n) by lia.
  rewrite Z.pow_add_r by lia. rewrite Z.rem_mul_r by lia. lia.
Qed.

Lemma rd64_wr64 (m : memory) (a v : Z) : 0 <= v < 2 ^ 64 -> rd64 (wr64 m a v) a = v.
Proof. intros H. rewrite rdN_wrN_same. by apply Z.mod_small. Qed.

Lemma rd32_wr32 (m : memory) (a v : Z) : 0 <= v < 2 ^ 32 -> rd32 (wr32 m a v) a = v.
Proof. intros H. rewrite rdN_wrN_same. by apply Z.mod_small. Qed.

Lemma rd64_range (m : memory) (a : Z) : 0 <= rd64 m a < 2 ^ 64.
Proof. apply (rdN_range 8). Qed.

Lemma copy_bytes_spec (n : nat) : forall (m : memory) (dst src x : Z),
  dst + Z.of_nat n <= src \/ src + Z.of_nat n <= dst ->
  rd8 (copy_bytes n m dst src) x
  = if (dst <=? x) && (x <? dst + Z.of_nat n) then rd8 m (src + (x - dst)) else rd8 m x.
Proof.
  induction n as [|n IH]; intros m dst src x Hd.
  { cbn -[Z.div Z.pow Z.mul]. zcases; cbn -[Z.div Z.pow Z.mul]; (lia || done). }
  cbn -[Z.of_nat]. rewrite IH by lia. rewrite !rd8_wr8.
  assert (H8 : forall y, u8 (rd8 m y) = rd8 m y) by (intros; apply uwrap_idemp; lia).
  destruct (Z.eqb_spec dst x) as [->|Hne].
  - rewrite H8, Z.sub_diag, Z.add_0_r. zcases; cbn [andb]; (lia || done).
  - replace (x <? dst + Z.of_nat (S n)) with (x <? dst + 1 + Z.of_nat n) by (f_equal; lia).
    replace (dst <=? x) with (dst + 1 <=? x) by (zcases; lia).
    destruct (Z.leb_spec (dst + 1) x); simpl; [|done].
    destruct (Z.ltb_spec x (dst + 1 + Z.of_nat n)); [|done].
    rewrite (proj2 (Z.eqb_neq dst _)) by lia. f_equal. lia.
Qed.

Lemma rd8_zero_words (n : nat) : forall (m : memory) (a x : Z),
  rd8 (zero_words n m a) x
  = if (a <=? x) && (x <? a + 8 * Z.of_nat n) then 0 else rd8 m x.
Proof.
  induction n as [|n IH]; intros m a x.
  { cbn -[Z.div Z.pow Z.mul]. zcases; cbn -[Z.div Z.pow Z.mul]; (lia || done). }
  cbn -[Z.of_nat Z.mul wrN]. rewrite IH, rd8_wrN, Zdiv_0_l.
  zcases; simpl; (lia || done).
Qed.

Lemma rd64_zero_words_in (n : nat) (m : memory) (a b : Z) :
  a <= b -> b + 8 <= a + 8 * Z.of_nat n -> rd64 (zero_words n m a) b = 0.
Proof.
  intros H1 H2. rewrite (rdN_ext 8 ∅); [reflexivity|]. intros x Hx. rewrite rd8_zero_words.
  rewrite (proj2 (Z.leb_le _ _)), (proj2 (Z.ltb_lt _ _)) by lia. reflexivity.
Qed.

Lemma rd64_zero_words_out (n : nat) (m : memory) (a b : Z) :
  b + 8 <= a \/ a + 8 * Z.of_nat n <= b -> rd64 (zero_words n m a) b = rd64 m b.
Proof.
  intros H. apply rdN_ext. intros x Hx. rewrite rd8_zero_words. zcases; simpl; (lia || done).
Qed.

Lemma rd8_wrN_out (n : nat) (m : memory) (a x v : Z) :
  x < a \/ a + Z.of_nat n <= x -> rd8 (wrN n m a v) x = rd8 m x.
Proof. intros H. rewrite rd8_wrN. zcases; simpl; (lia || done). Qed.

(** Reads after writes: the same address, or disjoint ranges. *)
Ltac memsimp :=
  repeat first
    [ rewrite rd64_wr64 by lia
    | rewrite rd32_wr32 by lia
    | rewrite rdN_wrN_disj by lia
    | rewrite rd8_wrN_out by lia ].
Ltac memsimp_in H :=
  repeat first
    [ rewrite rd64_wr64 in H by lia
    | rewrite rd32_wr32 in H by lia
    | rewrite rdN_wrN_disj in H by lia ].

#[global] Opaque rdN wrN zero_words.
