(* ===== verification/Layout.v ===== *)
(** * Structures in memory

    The layout that the compilers of loader and kernel give a C structure on
    x86-64: members in order, each at the next multiple of its alignment, the
    size rounded up to the largest alignment; a packed structure has no padding.
    The structures themselves are in [Abi.v]. *)

From Stdlib Require Import String Sorted.
From S2P Require Import Prelude Mem.

#[local] Open Scope string_scope.
#[local] Open Scope Z_scope.

(** Integers and pointers of [n] bytes, arrays, structures. *)
Inductive ctype :=
  | CInt (n : Z)
  | CArray (n : Z) (t : ctype)
  | CStruct (packed : bool) (members : list (string * ctype)).

Definition round_up (p a : Z) : Z := (p + a - 1) / a * a.

Fixpoint align_of (t : ctype) : Z :=
  match t with
  | CInt n => n
  | CArray _ t => align_of t
  | CStruct true _ => 1
  | CStruct false ms =>
      (fix go ms := match ms with [] => 1 | (_, t) :: ms => Z.max (align_of t) (go ms) end) ms
  end.

Fixpoint size_of (t : ctype) : Z :=
  match t with
  | CInt n => n
  | CArray n t => n * size_of t
  | CStruct packed ms =>
      let fin := (fix go pos ms :=
                    match ms with
                    | [] => pos
                    | (_, t) :: ms => go ((if packed then pos else round_up pos (align_of t)) + size_of t) ms
                    end) 0 ms in
      if packed then fin else round_up fin (align_of (CStruct packed ms))
  end.

(** The members with their offsets. *)
Fixpoint place (packed : bool) (pos : Z) (ms : list (string * ctype)) : list (string * Z * ctype) :=
  match ms with
  | [] => []
  | (n, t) :: ms =>
      let o := if packed then pos else round_up pos (align_of t) in
      (n, o, t) :: place packed (o + size_of t) ms
  end.
Definition members_of (t : ctype) : list (string * Z * ctype) :=
  match t with CStruct packed ms => place packed 0 ms | _ => [] end.
Definition offsets (t : ctype) : list (string * Z) := fst <$> members_of t.

(** [offsetof] *)
Definition offset_of (t : ctype) (name : string) : option Z :=
  snd ∘ fst ∘ snd <$> list_find (fun m => m.1.1 = name) (members_of t).

(** The integer members of the structure at [a], in order. *)
Definition read_members (t : ctype) (m : memory) (a : Z) : list Z :=
  omap (fun '(_, o, t) => match t with CInt n => Some (rdN (Z.to_nat n) m (a + o)) | _ => None end)
    (members_of t).

(** ** Every layout is sound *)

Lemma round_up_spec (p a : Z) : 0 < a -> p <= round_up p a < p + a /\ round_up p a mod a = 0.
Proof.
  intros Ha. unfold round_up. split; [|apply Z_mod_mult].
  pose proof (Z.div_mod (p + a - 1) a ltac:(lia)). pose proof (Z.mod_pos_bound (p + a - 1) a Ha). lia.
Qed.

(** Members follow one another without overlap inside the structure, and each is aligned
    unless the structure is packed. *)
Record sound_layout (packed : bool) (lo hi : Z) (l : list (string * Z * ctype)) : Prop := SoundLayout {
  sl_inside : forall n o t, (n, o, t) ∈ l -> lo <= o /\ o + size_of t <= hi;
  sl_order : StronglySorted (fun x y => x.1.2 + size_of x.2 <= y.1.2) l;
  sl_aligned : packed = false -> forall n o t, (n, o, t) ∈ l -> o mod align_of t = 0
}.

Definition sane (ms : list (string * ctype)) : bool :=
  forallb (fun m => (0 <? align_of m.2) && (0 <=? size_of m.2)) ms.

Definition place_end (packed : bool) : Z -> list (string * ctype) -> Z :=
  fix go pos ms :=
    match ms with
    | [] => pos
    | (_, t) :: ms => go ((if packed then pos else round_up pos (align_of t)) + size_of t) ms
    end.

Lemma place_sound (packed : bool) (ms : list (string * ctype)) : forall pos,
  sane ms = true -> pos <= place_end packed pos ms /\
  sound_layout packed pos (place_end packed pos ms) (place packed pos ms).
Proof.
  induction ms as [|[n t] ms IH]; intros pos Hs; cbn [place place_end].
  { split; [lia|]. split; [intros ??? []%not_elem_of_nil|constructor|intros _ ??? []%not_elem_of_nil]. }
  cbn in Hs. rewrite !andb_true_iff, Z.ltb_lt, Z.leb_le in Hs. destruct Hs as [[Ha Hz] Hs].
  set (o := if packed then pos else round_up pos (align_of t)).
  assert (Ho : pos <= o /\ (packed = false -> o mod align_of t = 0)).
  { unfold o. destruct packed; [split; [lia|done]|]. pose proof (round_up_spec pos (align_of t) Ha). split; [lia|tauto]. }
  destruct (IH (o + size_of t) Hs) as [Hle [Hin Hord Hal]]. split; [lia|]. split.
  - intros n' o' t' [[= -> -> ->]|H]%elem_of_cons; [lia|]. destruct (Hin _ _ _ H). lia.
  - constructor; [done|]. rewrite Forall_forall. intros [[n' o'] t'] H. cbn. by destruct (Hin _ _ _ H).
  - intros Hp n' o' t' [[= -> -> ->]|H]%elem_of_cons; [by apply Ho|by eapply Hal].
Qed.

Lemma struct_sound (packed : bool) (ms : list (string * ctype)) :
  sane ms = true -> 0 < align_of (CStruct packed ms) ->
  let t := CStruct packed ms in
  sound_layout packed 0 (size_of t) (members_of t) /\ size_of t mod align_of t = 0.
Proof.
  intros Hs Ha. cbv zeta. destruct (place_sound packed ms 0 Hs) as [Hle [Hin Hord Hal]].
  assert (Hsz : place_end packed 0 ms <= size_of (CStruct packed ms) /\
    size_of (CStruct packed ms) mod align_of (CStruct packed ms) = 0).
  { change (size_of (CStruct packed ms)) with
      (if packed then place_end packed 0 ms else round_up (place_end packed 0 ms) (align_of (CStruct packed ms))).
    destruct packed; [split; [lia|apply Z.mod_1_r]|].
    pose proof (round_up_spec (place_end false 0 ms) _ Ha). split; [lia|tauto]. }
  split; [|tauto]. split; [|done|done]. intros n o t H. destruct (Hin n o t H). lia.
Qed.
