(* ===== verification/PageAlloc.v ===== *)
(** * The page allocator's interface

    What the physical memory manager promises to its clients (the paging code
    and the process table): the two entry points they call, the set of pages in
    use, and the laws that relate them.  The clients' theorems are proved from
    these laws; [Pmm.v] discharges them for the bitmap allocator. *)

From S2P Require Import Prelude.

Class PageAllocator (S : Type) := {
  pa_alloc : S -> Z * S;          (** address of a page (0: none), new state *)
  pa_free : Z -> S -> S;          (** give back the page at an address *)
  pa_used : S -> Z -> bool;       (** is the page of this number in use? *)
  pa_ok : S -> Prop               (** the allocator's invariant *)
}.

Class PageAllocatorLaws (S : Type) `{PageAllocator S} : Prop := {
  pa_alloc_ok : forall s a s', pa_ok s -> pa_alloc s = (a, s') -> pa_ok s';
  pa_alloc_fail : forall s s', pa_ok s -> pa_alloc s = (0, s') -> s' = s;
  pa_alloc_fresh : forall s a s', pa_ok s -> pa_alloc s = (a, s') -> a <> 0 ->
    exists page, a = page * 4096 /\ 0 < page < 2 ^ 16 /\ pa_used s page = false /\
      forall q, 0 <= q -> pa_used s' q = (q =? page) || pa_used s q;
  pa_free_ok : forall s a, pa_ok s -> 0 <= a < 2 ^ 64 -> pa_ok (pa_free a s);
  pa_free_page : forall s a q, pa_ok s -> 0 <= a < 2 ^ 28 -> 0 <= q ->
    pa_used (pa_free a s) q = negb (q =? a / 4096) && pa_used s q
}.

(** Runs of contiguous pages. *)
Class RunAllocator (S : Type) := {
  ra_alloc : Z -> S -> Z * S;     (** address of a run of [n] pages (0: none) *)
  ra_free : Z -> Z -> S -> S      (** give back the [n] pages from an address on *)
}.

(** Is page [q] one of the [n] pages from [page] on? *)
Definition in_run (page n q : Z) : bool := (page <=? q) && (q <? page + n).

Class RunAllocatorLaws (S : Type) `{PageAllocator S, RunAllocator S} : Prop := {
  ra_alloc_ok : forall s n a s', pa_ok s -> 0 < n <= 256 -> ra_alloc n s = (a, s') -> pa_ok s';
  ra_alloc_fail : forall s n s', pa_ok s -> 0 < n <= 256 -> ra_alloc n s = (0, s') -> s' = s;
  ra_alloc_fresh : forall s n a s', pa_ok s -> 0 < n <= 256 -> ra_alloc n s = (a, s') -> a <> 0 ->
    exists page, a = page * 4096 /\ 0 < page /\ page + n <= 2 ^ 16 /\
      (forall q, in_run page n q = true -> pa_used s q = false) /\
      forall q, 0 <= q -> pa_used s' q = pa_used s q || in_run page n q;
  ra_free_ok : forall s a n, pa_ok s -> 0 <= a < 2 ^ 64 -> pa_ok (ra_free a n s);
  ra_free_run : forall s page n q, pa_ok s -> 0 <= page -> 0 <= n -> page + n <= 2 ^ 16 -> 0 <= q ->
    pa_used (ra_free (page * 4096) n s) q = pa_used s q && negb (in_run page n q)
}.

(** ** A reference allocator

    The pages in use as a list, with a first-fit search of the 64 pages from
    2 MB on: a small implementation of both interfaces, which the examples of
    the client components run on. *)

Record pages := Pages { in_use : list Z }.

Definition page_in_use (s : pages) (q : Z) : bool := existsb (Z.eqb q) (in_use s).
Definition take_run (page n : Z) (s : pages) : pages := Pages (seqZ page n ++ in_use s).
Definition give_run (page n : Z) (s : pages) : pages :=
  Pages (List.filter (fun q => negb (in_run page n q)) (in_use s)).
(** The first run of [n] free pages. *)
Definition find_run (n : Z) (s : pages) : option Z :=
  List.find (fun page => negb (existsb (in_run page n) (in_use s))) (seqZ 512 64).
Definition pages_alloc (n : Z) (s : pages) : Z * pages :=
  match find_run n s with
  | Some page => (page * 4096, take_run page n s)
  | None => (0, s)
  end.

#[export] Instance pages_allocator : PageAllocator pages := {
  pa_alloc := pages_alloc 1;
  pa_free a := give_run (a / 4096) 1;
  pa_used := page_in_use;
  pa_ok _ := True
}.
#[export] Instance pages_runs : RunAllocator pages := {
  ra_alloc := pages_alloc;
  ra_free a n := give_run (a / 4096) n
}.

Lemma page_in_use_spec (s : pages) (q : Z) : page_in_use s q = true <-> q ∈ in_use s.
Proof.
  unfold page_in_use. rewrite existsb_exists, list_elem_of_In. split.
  - by intros (x & Hx & ->%Z.eqb_eq).
  - intros H. exists q. by rewrite Z.eqb_refl.
Qed.

Lemma take_run_used (page n q : Z) (s : pages) :
  0 <= n -> page_in_use (take_run page n s) q = page_in_use s q || in_run page n q.
Proof.
  intros Hn. apply eq_true_iff_eq. rewrite orb_true_iff, !page_in_use_spec. cbn [take_run in_use].
  rewrite elem_of_app, elem_of_seqZ. unfold in_run. rewrite andb_true_iff, Z.leb_le, Z.ltb_lt. tauto.
Qed.

Lemma give_run_used (page n q : Z) (s : pages) :
  page_in_use (give_run page n s) q = page_in_use s q && negb (in_run page n q).
Proof.
  apply eq_true_iff_eq. rewrite andb_true_iff, !page_in_use_spec. cbn [give_run in_use].
  by rewrite !list_elem_of_In, filter_In.
Qed.

Lemma pages_alloc_cases (n a : Z) (s s' : pages) :
  pages_alloc n s = (a, s') ->
  (a = 0 /\ s' = s) \/
  exists page, a = page * 4096 /\ 512 <= page < 576 /\ s' = take_run page n s /\
    forall q, in_run page n q = true -> page_in_use s q = false.
Proof.
  unfold pages_alloc. destruct (find_run n s) as [page|] eqn:E; intros [= <- <-]; [right|by left].
  exists page. apply find_some in E as [Hin Hf]. apply list_elem_of_In, elem_of_seqZ in Hin.
  split_and!; [done|lia|lia|done|]. intros q Hq. apply negb_true_iff in Hf.
  destruct (page_in_use s q) eqn:Eu; [|done]. apply page_in_use_spec, list_elem_of_In in Eu.
  rewrite <- Hf. symmetry. apply existsb_exists. by exists q.
Qed.

#[export] Instance pages_allocator_laws : PageAllocatorLaws pages.
Proof.
  constructor; cbn [pa_alloc pa_free pa_used pa_ok ra_alloc ra_free pages_allocator pages_runs].
  - done.
  - intros s s' _ H. apply pages_alloc_cases in H as [[_ ->]|(page & H & Hp & _)]; [done|lia].
  - intros s a s' _ H Hne. apply pages_alloc_cases in H as [[-> _]|(page & -> & Hp & -> & Hf)]; [done|].
    exists page. split_and!; [done|lia|lia|apply Hf|].
    + unfold in_run. zcases; (lia || done).
    + intros q Hq. rewrite take_run_used, orb_comm by lia. f_equal. unfold in_run. zcases; cbn [andb]; (lia || done).
  - done.
  - intros s a q _ _ _. rewrite give_run_used, andb_comm. do 2 f_equal.
    unfold in_run. zcases; cbn [andb]; (lia || done).
Qed.

#[export] Instance pages_runs_laws : RunAllocatorLaws pages.
Proof.
  constructor; cbn [pa_alloc pa_free pa_used pa_ok ra_alloc ra_free pages_allocator pages_runs].
  - done.
  - intros s n s' _ _ H. apply pages_alloc_cases in H as [[_ ->]|(page & H & Hp & _)]; [done|lia].
  - intros s n a s' _ Hn H Hne. apply pages_alloc_cases in H as [[-> _]|(page & -> & Hp & -> & Hf)]; [done|].
    exists page. split_and!; [done|lia|lia|exact Hf|]. intros q Hq. apply take_run_used. lia.
  - done.
  - intros s page n q _ _ _ _ _. by rewrite Z.div_mul, give_run_used by lia.
Qed.
