(* ===== verification/Pmm.v ===== *)
(** * Physical memory manager (src/kernel/mm/pmm.c)

    The static bitmap with its two counters, every operation of [pmm.c] as a
    function of that state, and the allocator's contract: the bitmap and the
    counters stay consistent, [pmm_init] frees exactly the usable pages above
    2 MB, single pages and runs are allocated first fit, and freeing what was
    allocated gives the state back. *)

From S2P Require Import Prelude PageAlloc.

(** ** Constants and state *)

Definition PAGE_SIZE : Z := 4096.
Definition PMM_MAX_MEMORY : Z := 256 * 1024 * 1024.
Definition PMM_MAX_PAGES : Z := PMM_MAX_MEMORY / PAGE_SIZE.
Definition PMM_BITMAP_SIZE : Z := PMM_MAX_PAGES / 8.

(** The first page after the 2 MB of the kernel. *)
Definition FIRST_PAGE : Z := 2 * 1024 * 1024 / PAGE_SIZE.

Definition MEMORY_BOOT_CODE : Z := 3.
Definition MEMORY_BOOT_DATA : Z := 4.
Definition MEMORY_CONVENTIONAL : Z := 7.

Record memory_map_entry := MemoryMapEntry {
  mm_type : Z;
  mm_pad : Z;
  physical_start : Z;
  virtual_start : Z;
  num_pages : Z;
  attribute : Z
}.

Record pmm := Pmm {
  bitmap : list Z;
  total_pages : Z;
  used_pages : Z
}.

(** The state in BSS before [pmm_init]. *)
Definition pmm_bss : pmm := Pmm (replicate (Z.to_nat PMM_BITMAP_SIZE) 0) 0 0.

(** [used_pages++] and [used_pages--] on a [uint64_t]. *)
Definition inc_used (p : pmm) : pmm :=
  Pmm (bitmap p) (total_pages p) (u64 (used_pages p + 1)).
Definition dec_used (p : pmm) : pmm :=
  Pmm (bitmap p) (total_pages p) (u64 (used_pages p - 1)).

(** ** The bitmap *)

Definition bitmap_set (page : Z) (p : pmm) : pmm :=
  if page <? PMM_MAX_PAGES then
    Pmm (zset (bitmap p) (page / 8)
           (u8 (Z.lor (zget (bitmap p) (page / 8)) (Z.shiftl 1 (page mod 8)))))
        (total_pages p) (used_pages p)
  else p.

Definition bitmap_clear (page : Z) (p : pmm) : pmm :=
  if page <? PMM_MAX_PAGES then
    Pmm (zset (bitmap p) (page / 8)
           (u8 (Z.land (zget (bitmap p) (page / 8)) (Z.lnot (Z.shiftl 1 (page mod 8))))))
        (total_pages p) (used_pages p)
  else p.

Definition bitmap_test (page : Z) (p : pmm) : Z :=
  if page <? PMM_MAX_PAGES then
    Z.land (Z.shiftr (zget (bitmap p) (page / 8)) (page mod 8)) 1
  else 1.

(** [if (bitmap_test(page))] *)
Definition page_used (p : pmm) (page : Z) : bool := negb (bitmap_test page p =? 0).

(** ** Operations *)

(** The loop [for (j = 0; j < num_pages && start_page + j < PMM_MAX_PAGES; j++)]
    that frees a range, in [pmm_init] and in [pmm_free_pages]. *)
Fixpoint free_range_loop (fuel : nat) (start_page j n : Z) (p : pmm) : pmm :=
  match fuel with
  | O => p
  | S fuel' =>
      if (j <? n) && (u64 (start_page + j) <? PMM_MAX_PAGES) then
        let page := u64 (start_page + j) in
        let p := if page_used p page then dec_used (bitmap_clear page p) else p in
        free_range_loop fuel' start_page (j + 1) n p
      else p
  end.

(** One round of the loop of [pmm_init] over the memory map. *)
Definition pmm_init_entry (e : memory_map_entry) (p : pmm) : pmm :=
  if (mm_type e =? MEMORY_CONVENTIONAL) || (mm_type e =? MEMORY_BOOT_CODE)
     || (mm_type e =? MEMORY_BOOT_DATA) then
    let start := physical_start e in
    let n := if PMM_MAX_PAGES <? num_pages e then PMM_MAX_PAGES else num_pages e in
    let start_page := start / PAGE_SIZE in
    free_range_loop (Z.to_nat PMM_MAX_PAGES) start_page 0 n p
  else p.

(** [for (page = 0; page < 2MB / PAGE_SIZE; page++)]: the last loop of [pmm_init]. *)
Fixpoint reserve_loop (n : nat) (page : Z) (p : pmm) : pmm :=
  match n with
  | O => p
  | S n' =>
      let p := if page_used p page then p else inc_used (bitmap_set page p) in
      reserve_loop n' (page + 1) p
  end.

(** [for (i = 0; i < PMM_BITMAP_SIZE; i++) bitmap[i] = 0xFF] *)
Fixpoint fill_loop (n : nat) (i : Z) (l : list Z) : list Z :=
  match n with
  | O => l
  | S n' => fill_loop n' (i + 1) (zset l i 0xFF)
  end.

(** [mmap] is [None] for a null pointer. *)
Definition pmm_init (mmap : option (list memory_map_entry)) (entries : Z) (p : pmm) : pmm :=
  match mmap with
  | None => Pmm (bitmap p) 0 0
  | Some es =>
      if (entries =? 0) || (256 <? entries) then Pmm (bitmap p) 0 0
      else
        let p := Pmm (fill_loop (Z.to_nat PMM_BITMAP_SIZE) 0 (bitmap p))
                   PMM_MAX_PAGES PMM_MAX_PAGES in
        let p := fold_left (fun p e => pmm_init_entry e p) (take (Z.to_nat entries) es) p in
        reserve_loop (Z.to_nat FIRST_PAGE) 0 p
  end.

Fixpoint alloc_page_loop (n : nat) (page : Z) (p : pmm) : Z * pmm :=
  match n with
  | O => (0, p)
  | S n' =>
      if page_used p page then alloc_page_loop n' (page + 1) p
      else (page * PAGE_SIZE, inc_used (bitmap_set page p))
  end.

Definition pmm_alloc_page (p : pmm) : Z * pmm :=
  alloc_page_loop (Z.to_nat (PMM_MAX_PAGES - FIRST_PAGE)) FIRST_PAGE p.

Definition pmm_free_page (addr : Z) (p : pmm) : pmm :=
  let page := addr / PAGE_SIZE in
  if (page <? PMM_MAX_PAGES) && page_used p page then dec_used (bitmap_clear page p) else p.

(** The inner loop of [pmm_alloc_pages]: the first [i < count] with
    [start_page + i] in use, if there is one. *)
Fixpoint first_used_loop (n : nat) (start_page i : Z) (p : pmm) : option Z :=
  match n with
  | O => None
  | S n' =>
      if page_used p (start_page + i) then Some i
      else first_used_loop n' start_page (i + 1) p
  end.

(** [for (i = 0; i < count; i++) { bitmap_set(start_page + i); used_pages++; }] *)
Fixpoint take_loop (n : nat) (start_page i : Z) (p : pmm) : pmm :=
  match n with
  | O => p
  | S n' => take_loop n' start_page (i + 1) (inc_used (bitmap_set (start_page + i) p))
  end.

Fixpoint alloc_pages_loop (fuel : nat) (start_page count : Z) (p : pmm) : Z * pmm :=
  match fuel with
  | O => (0, p)
  | S fuel' =>
      if start_page + count <=? PMM_MAX_PAGES then
        match first_used_loop (Z.to_nat count) start_page 0 p with
        | Some i => alloc_pages_loop fuel' (start_page + i + 1) count p
        | None => (start_page * PAGE_SIZE, take_loop (Z.to_nat count) start_page 0 p)
        end
      else (0, p)
  end.

Definition pmm_alloc_pages (count : Z) (p : pmm) : Z * pmm :=
  if (count =? 0) || (256 <? count) then (0, p)
  else alloc_pages_loop (Z.to_nat PMM_MAX_PAGES) FIRST_PAGE count p.

Definition pmm_free_pages (addr count : Z) (p : pmm) : pmm :=
  free_range_loop (Z.to_nat PMM_MAX_PAGES) (addr / PAGE_SIZE) 0 count p.

Definition pmm_get_total_pages (p : pmm) : Z := total_pages p.
Definition pmm_get_free_pages (p : pmm) : Z :=
  if used_pages p <? total_pages p then total_pages p - used_pages p else 0.
Definition pmm_get_used_pages (p : pmm) : Z := used_pages p.

(** ** The invariant

    The bitmap has its static size and holds bytes, and the counters agree
    with it. *)

Record pmm_inv (p : pmm) : Prop := {
  inv_len : zlen (bitmap p) = PMM_BITMAP_SIZE;
  inv_bytes : forall i, 0 <= i < PMM_BITMAP_SIZE -> 0 <= zget (bitmap p) i < 2 ^ 8;
  inv_total : total_pages p = PMM_MAX_PAGES;
  inv_used : used_pages p = count_below (page_used p) PMM_MAX_PAGES
}.

(** The part of the invariant that is about the bitmap's shape only. *)
Definition bitmap_ok (p : pmm) : Prop :=
  zlen (bitmap p) = PMM_BITMAP_SIZE /\
  forall i, 0 <= i < PMM_BITMAP_SIZE -> 0 <= zget (bitmap p) i < 2 ^ 8.

(** All pages of [s, s + count) are free. *)
Definition free_run (p : pmm) (s count : Z) : Prop :=
  forall q, s <= q < s + count -> page_used p q = false.

(** ** Bits of the bitmap *)

Lemma PMM_MAX_PAGES_eq : PMM_MAX_PAGES = 65536. Proof. reflexivity. Qed.
Lemma PMM_BITMAP_SIZE_eq : PMM_BITMAP_SIZE = 8192. Proof. reflexivity. Qed.
Lemma FIRST_PAGE_eq : FIRST_PAGE = 512. Proof. reflexivity. Qed.

(** Linear arithmetic with the values of the PMM's constants, which stay
    folded in the goal. *)
Ltac plia :=
  pose proof PMM_MAX_PAGES_eq; pose proof PMM_BITMAP_SIZE_eq; pose proof FIRST_PAGE_eq; lia.
#[global] Opaque PMM_MAX_PAGES PMM_BITMAP_SIZE FIRST_PAGE.

Lemma page_byte (page : Z) :
  0 <= page < PMM_MAX_PAGES -> 0 <= page / 8 < PMM_BITMAP_SIZE /\ 0 <= page mod 8 < 8.
Proof. rewrite PMM_MAX_PAGES_eq, PMM_BITMAP_SIZE_eq. dlia. Qed.

Lemma inv_ok (p : pmm) : pmm_inv p -> bitmap_ok p.
Proof. intros []. by split. Qed.

Lemma page_used_testbit (p : pmm) (page : Z) :
  0 <= page < PMM_MAX_PAGES ->
  page_used p page = Z.testbit (zget (bitmap p) (page / 8)) (page mod 8).
Proof.
  intros Hp. destruct (page_byte page Hp) as [_ Hm].
  unfold page_used, bitmap_test. rewrite (proj2 (Z.ltb_lt _ _)) by lia.
  rewrite Z.shiftr_div_pow2 by lia. change 1 with (Z.ones 1) at 1.
  rewrite Z.land_ones by lia. rewrite <- Z.testbit_spec' by lia.
  by destruct (Z.testbit _ _).
Qed.

Lemma page_used_high (p : pmm) (page : Z) : PMM_MAX_PAGES <= page -> page_used p page = true.
Proof.
  intros Hp. unfold page_used, bitmap_test. by rewrite (proj2 (Z.ltb_ge _ _)) by lia.
Qed.

(** Two pages are the same page iff they have the same byte and bit. *)
Lemma page_eqb (a b : Z) : (a =? b) = (a / 8 =? b / 8) && (a mod 8 =? b mod 8).
Proof. zcases; simpl; dlia. Qed.

Lemma bitmap_set_ok (page : Z) (p : pmm) :
  0 <= page -> bitmap_ok p -> bitmap_ok (bitmap_set page p).
Proof.
  intros Hp [Hlen Hb]. unfold bitmap_set. destruct (Z.ltb_spec page PMM_MAX_PAGES); [|done].
  destruct (page_byte page) as [Hq Hr]; [lia|]. split; simpl; [by rewrite zlen_zset|].
  intros i Hi. rewrite zget_zset by lia. zcases; [by apply uwrap_range|by apply Hb].
Qed.

Lemma bitmap_clear_ok (page : Z) (p : pmm) :
  0 <= page -> bitmap_ok p -> bitmap_ok (bitmap_clear page p).
Proof.
  intros Hp [Hlen Hb]. unfold bitmap_clear. destruct (Z.ltb_spec page PMM_MAX_PAGES); [|done].
  destruct (page_byte page) as [Hq Hr]; [lia|]. split; simpl; [by rewrite zlen_zset|].
  intros i Hi. rewrite zget_zset by lia. zcases; [by apply uwrap_range|by apply Hb].
Qed.

Lemma page_used_set (p : pmm) (page q : Z) :
  bitmap_ok p -> 0 <= page < PMM_MAX_PAGES -> 0 <= q ->
  page_used (bitmap_set page p) q = (q =? page) || page_used p q.
Proof.
  intros [Hlen _] Hp Hq. destruct (Z_lt_ge_dec q PMM_MAX_PAGES) as [Hlt|Hge].
  2: { rewrite !page_used_high by lia. by rewrite orb_true_r. }
  destruct (page_byte page) as [Hpb Hpm]; [lia|]. destruct (page_byte q) as [Hqb Hqm]; [lia|].
  rewrite !page_used_testbit by lia. unfold bitmap_set.
  rewrite (proj2 (Z.ltb_lt page _)) by lia. simpl. rewrite zget_zset by lia.
  rewrite (page_eqb q page), (Z.eqb_sym (q / 8)). destruct (Z.eqb_spec (page / 8) (q / 8)) as [->|]; simpl; [|done].
  rewrite uwrap_testbit, Z.lor_spec, shiftl_1_testbit by lia.
  rewrite (proj2 (Z.ltb_lt _ 8)) by lia. simpl. rewrite Z.eqb_sym. apply orb_comm.
Qed.

Lemma page_used_clear (p : pmm) (page q : Z) :
  bitmap_ok p -> 0 <= page < PMM_MAX_PAGES -> 0 <= q ->
  page_used (bitmap_clear page p) q = negb (q =? page) && page_used p q.
Proof.
  intros [Hlen _] Hp Hq. destruct (Z_lt_ge_dec q PMM_MAX_PAGES) as [Hlt|Hge].
  2: { rewrite !page_used_high by lia. rewrite (proj2 (Z.eqb_neq q page)) by lia. done. }
  destruct (page_byte page) as [Hpb Hpm]; [lia|]. destruct (page_byte q) as [Hqb Hqm]; [lia|].
  rewrite !page_used_testbit by lia. unfold bitmap_clear.
  rewrite (proj2 (Z.ltb_lt page _)) by lia. simpl. rewrite zget_zset by lia.
  rewrite (page_eqb q page), (Z.eqb_sym (q / 8)). destruct (Z.eqb_spec (page / 8) (q / 8)) as [->|]; simpl; [|done].
  rewrite uwrap_testbit, Z.land_spec, Z.lnot_spec, shiftl_1_testbit by lia.
  rewrite (proj2 (Z.ltb_lt _ 8)) by lia. simpl. rewrite Z.eqb_sym. apply andb_comm.
Qed.

(** The bitmap is determined by the set of used pages. *)
Lemma bitmap_ext (p r : pmm) :
  bitmap_ok p -> bitmap_ok r ->
  (forall q, 0 <= q < PMM_MAX_PAGES -> page_used p q = page_used r q) ->
  bitmap p = bitmap r.
Proof.
  intros [Hl Hb] [Hl' Hb'] Heq. apply zget_ext; [congruence|]. intros i Hi.
  apply Z.bits_inj'. intros k Hk. destruct (Z_lt_ge_dec k 8) as [Hlt|Hge].
  - specialize (Heq (8 * i + k)).
    rewrite !page_used_testbit in Heq by (plia).
    replace ((8 * i + k) / 8) with i in Heq by dlia.
    replace ((8 * i + k) mod 8) with k in Heq by dlia.
    apply Heq. plia.
  - rewrite <- (Z.mod_small (zget (bitmap p) i) (2 ^ 8)) by (apply Hb; lia).
    rewrite <- (Z.mod_small (zget (bitmap r) i) (2 ^ 8)) by (apply Hb'; lia).
    by rewrite !Z.mod_pow2_bits_high by lia.
Qed.

(** ** Taking and giving back one page *)

Lemma bitmap_set_counters (page : Z) (p : pmm) :
  total_pages (bitmap_set page p) = total_pages p /\
  used_pages (bitmap_set page p) = used_pages p.
Proof. unfold bitmap_set. destruct (page <? PMM_MAX_PAGES); split; reflexivity. Qed.

Lemma bitmap_clear_counters (page : Z) (p : pmm) :
  total_pages (bitmap_clear page p) = total_pages p /\
  used_pages (bitmap_clear page p) = used_pages p.
Proof. unfold bitmap_clear. destruct (page <? PMM_MAX_PAGES); split; reflexivity. Qed.

Lemma used_range (p : pmm) : pmm_inv p -> 0 <= used_pages p <= PMM_MAX_PAGES.
Proof. intros []. rewrite inv_used0. apply count_below_range. plia. Qed.

Lemma take_page_inv (p : pmm) (page : Z) :
  pmm_inv p -> 0 <= page < PMM_MAX_PAGES -> page_used p page = false ->
  pmm_inv (inc_used (bitmap_set page p)) /\
  used_pages (inc_used (bitmap_set page p)) = used_pages p + 1.
Proof.
  intros Hinv Hp Hfree. pose proof (used_range p Hinv) as Hr.
  pose proof (bitmap_set_ok page p ltac:(lia) (inv_ok p Hinv)) as [Hl Hb].
  assert (Hcnt : count_below (page_used (bitmap_set page p)) PMM_MAX_PAGES
                 = count_below (page_used p) PMM_MAX_PAGES + 1).
  { rewrite (count_below_ext _ (fun q => (q =? page) || page_used p q))
      by (intros; apply page_used_set; [by apply inv_ok|lia|lia]).
    apply count_below_flip with page; [done|done|by rewrite Z.eqb_refl|].
    intros j Hj. by rewrite (proj2 (Z.eqb_neq j page)) by done. }
  destruct (bitmap_set_counters page p) as [Ht Hu].
  destruct Hinv as [_ _ Htot Hused]. pose proof PMM_MAX_PAGES_eq.
  assert (Hu1 : u64 (used_pages p + 1) = used_pages p + 1) by (apply uwrap_small; lia).
  split; [constructor|]; simpl; rewrite ?Hu, ?Hu1, ?Ht; try assumption; [|reflexivity].
  change (page_used (inc_used (bitmap_set page p))) with (page_used (bitmap_set page p)). lia.
Qed.

Lemma give_page_inv (p : pmm) (page : Z) :
  pmm_inv p -> 0 <= page < PMM_MAX_PAGES -> page_used p page = true ->
  pmm_inv (dec_used (bitmap_clear page p)) /\
  used_pages (dec_used (bitmap_clear page p)) = used_pages p - 1.
Proof.
  intros Hinv Hp Huse. pose proof (used_range p Hinv) as Hr.
  pose proof (bitmap_clear_ok page p ltac:(lia) (inv_ok p Hinv)) as [Hl Hb].
  assert (Hcnt : count_below (page_used (bitmap_clear page p)) PMM_MAX_PAGES
                 = count_below (page_used p) PMM_MAX_PAGES - 1).
  { rewrite (count_below_ext _ (fun q => negb (q =? page) && page_used p q))
      by (intros; apply page_used_clear; [by apply inv_ok|lia|lia]).
    rewrite (count_below_flip (fun q => negb (q =? page) && page_used p q) (page_used p) _ page);
      [lia|done|by rewrite Z.eqb_refl|done|].
    intros j Hj. by rewrite (proj2 (Z.eqb_neq j page)) by done. }
  destruct (bitmap_clear_counters page p) as [Ht Hu].
  pose proof (count_below_range (page_used (bitmap_clear page p)) PMM_MAX_PAGES ltac:(plia)).
  destruct Hinv as [_ _ Htot Hused]. pose proof PMM_MAX_PAGES_eq.
  assert (Hu1 : u64 (used_pages p - 1) = used_pages p - 1) by (apply uwrap_small; lia).
  split; [constructor|]; simpl; rewrite ?Hu, ?Hu1, ?Ht; try assumption; [|reflexivity].
  change (page_used (dec_used (bitmap_clear page p))) with (page_used (bitmap_clear page p)). lia.
Qed.

Lemma page_used_take (p : pmm) (page q : Z) :
  pmm_inv p -> 0 <= page < PMM_MAX_PAGES -> 0 <= q ->
  page_used (inc_used (bitmap_set page p)) q = (q =? page) || page_used p q.
Proof. intros Hinv. apply page_used_set. by apply inv_ok. Qed.

Lemma page_used_give (p : pmm) (page q : Z) :
  pmm_inv p -> 0 <= page < PMM_MAX_PAGES -> 0 <= q ->
  page_used (dec_used (bitmap_clear page p)) q = negb (q =? page) && page_used p q.
Proof. intros Hinv. apply page_used_clear. by apply inv_ok. Qed.

(** Two consistent states with the same used pages are the same state. *)
Lemma pmm_ext (p r : pmm) :
  pmm_inv p -> pmm_inv r ->
  (forall q, 0 <= q < PMM_MAX_PAGES -> page_used p q = page_used r q) -> p = r.
Proof.
  intros Hp Hr Heq. pose proof (bitmap_ext p r (inv_ok p Hp) (inv_ok r Hr) Heq) as Hb.
  destruct Hp as [_ _ Ht Hu], Hr as [_ _ Ht' Hu'].
  rewrite (count_below_ext _ (page_used r)) in Hu by done.
  destruct p, r; simpl in *; congruence.
Qed.

(** ** Loops *)

(** The range [a, b) of pages below the limit. *)
Definition in_range (a b q : Z) : bool := (a <=? q) && (q <? b) && (q <? PMM_MAX_PAGES).

Lemma in_range_step (a b q : Z) :
  a < b -> a < PMM_MAX_PAGES -> in_range a b q = (q =? a) || in_range (a + 1) b q.
Proof. intros Hb Hm. unfold in_range. zcases; simpl; lia. Qed.

Lemma in_range_empty (a b q : Z) : b <= a \/ PMM_MAX_PAGES <= a -> in_range a b q = false.
Proof. intros H. unfold in_range. zcases; simpl; lia. Qed.

Lemma free_range_loop_spec (fuel : nat) (s n : Z) : forall (j : Z) (p : pmm),
  pmm_inv p -> 0 <= s < 2 ^ 63 -> 0 <= j <= PMM_MAX_PAGES ->
  PMM_MAX_PAGES - (s + j) <= Z.of_nat fuel ->
  let r := free_range_loop fuel s j n p in
  pmm_inv r /\
  forall q, 0 <= q -> page_used r q = page_used p q && negb (in_range (s + j) (s + n) q).
Proof.
  induction fuel as [|fuel IH]; intros j p Hinv Hs Hj Hf; simpl.
  { split; [done|]. intros q Hq. rewrite in_range_empty by lia. by rewrite andb_true_r. }
  rewrite (uwrap_small 64 (s + j)) by plia.
  destruct (Z.ltb_spec j n) as [Hjn|Hjn]; simpl.
  2: { split; [done|]. intros q Hq. rewrite in_range_empty by lia. by rewrite andb_true_r. }
  destruct (Z.ltb_spec (s + j) PMM_MAX_PAGES) as [Hlt|Hge].
  2: { split; [done|]. intros q Hq. rewrite in_range_empty by lia. by rewrite andb_true_r. }
  set (p' := if page_used p (s + j) then _ else _).
  assert (pmm_inv p' /\ forall q, 0 <= q -> page_used p' q = negb (q =? s + j) && page_used p q)
    as [Hinv' Hp'].
  { unfold p'. destruct (page_used p (s + j)) eqn:E.
    - split; [apply give_page_inv|intros; apply page_used_give]; (done || lia).
    - split; [done|]. intros q Hq. destruct (Z.eqb_spec q (s + j)) as [->|]; [by rewrite E|done]. }
  destruct (IH (j + 1) p' Hinv' Hs ltac:(lia) ltac:(lia)) as [Hr Hu]. split; [done|].
  intros q Hq. rewrite Hu, Hp' by done. rewrite (in_range_step (s + j)), Z.add_assoc by lia.
  by destruct (q =? s + j), (page_used p q), (in_range (s + j + 1) (s + n) q).
Qed.

Lemma reserve_loop_spec (n : nat) : forall (page : Z) (p : pmm),
  pmm_inv p -> 0 <= page -> page + Z.of_nat n <= PMM_MAX_PAGES ->
  let r := reserve_loop n page p in
  pmm_inv r /\
  forall q, 0 <= q -> page_used r q = page_used p q || in_range page (page + Z.of_nat n) q.
Proof.
  induction n as [|n IH]; intros page p Hinv Hp Hn; cbn -[Z.of_nat].
  { split; [done|]. intros q Hq. rewrite in_range_empty by lia. by rewrite orb_false_r. }
  set (p' := if page_used p page then _ else _).
  assert (pmm_inv p' /\ forall q, 0 <= q -> page_used p' q = (q =? page) || page_used p q)
    as [Hinv' Hp'].
  { unfold p'. destruct (page_used p page) eqn:E.
    - split; [done|]. intros q Hq. destruct (Z.eqb_spec q page) as [->|]; [by rewrite E|done].
    - split; [apply take_page_inv|intros; apply page_used_take]; (done || lia). }
  destruct (IH (page + 1) p' Hinv' ltac:(lia) ltac:(lia)) as [Hr Hu]. split; [done|].
  intros q Hq. rewrite Hu, Hp' by done. rewrite (in_range_step page) by lia.
  replace (page + 1 + Z.of_nat n) with (page + Z.of_nat (S n)) by lia.
  by destruct (q =? page), (page_used p q), (in_range (page + 1) (page + Z.of_nat (S n)) q).
Qed.

Lemma alloc_page_loop_spec (n : nat) : forall (page : Z) (p : pmm),
  pmm_inv p -> 0 <= page -> page + Z.of_nat n <= PMM_MAX_PAGES ->
  match alloc_page_loop n page p with
  | (a, r) =>
      (a = 0 /\ r = p /\ forall q, page <= q < page + Z.of_nat n -> page_used p q = true) \/
      (exists s, a = s * PAGE_SIZE /\ page <= s < page + Z.of_nat n /\
         page_used p s = false /\ (forall q, page <= q < s -> page_used p q = true) /\
         r = inc_used (bitmap_set s p))
  end.
Proof.
  induction n as [|n IH]; intros page p Hinv Hp Hn; simpl.
  { left. split_and!; [done|done|lia]. }
  destruct (page_used p page) eqn:E.
  2: { right. exists page. split_and!; (done || lia). }
  specialize (IH (page + 1) p Hinv ltac:(lia) ltac:(lia)).
  destruct (alloc_page_loop n (page + 1) p) as [a r].
  destruct IH as [(-> & -> & Hall)|(s & -> & Hs & Hf & Hall & ->)].
  - left. split_and!; [done|done|]. intros q Hq.
    destruct (Z.eq_dec q page) as [->|]; [done|apply Hall; lia].
  - right. exists s. split_and!; [done|lia|lia|done| |done]. intros q Hq.
    destruct (Z.eq_dec q page) as [->|]; [done|apply Hall; lia].
Qed.

Lemma first_used_loop_spec (n : nat) (s : Z) (p : pmm) : forall i,
  match first_used_loop n s i p with
  | Some k => i <= k < i + Z.of_nat n /\ page_used p (s + k) = true
  | None => forall k, i <= k < i + Z.of_nat n -> page_used p (s + k) = false
  end.
Proof.
  induction n as [|n IH]; intros i; simpl; [lia|].
  destruct (page_used p (s + i)) eqn:E; [split; [lia|done]|].
  specialize (IH (i + 1)). destruct (first_used_loop n s (i + 1) p) as [k|].
  - destruct IH. split; [lia|done].
  - intros k Hk. destruct (Z.eq_dec k i) as [->|]; [done|apply IH; lia].
Qed.

Lemma take_loop_spec (n : nat) (s : Z) : forall (i : Z) (p : pmm),
  pmm_inv p -> 0 <= s + i -> s + i + Z.of_nat n <= PMM_MAX_PAGES ->
  (forall q, s + i <= q < s + i + Z.of_nat n -> page_used p q = false) ->
  let r := take_loop n s i p in
  pmm_inv r /\ used_pages r = used_pages p + Z.of_nat n /\
  forall q, 0 <= q -> page_used r q = page_used p q || in_range (s + i) (s + i + Z.of_nat n) q.
Proof.
  induction n as [|n IH]; intros i p Hinv Hs Hn Hfree; cbn -[Z.of_nat].
  { split_and!; [done|lia|]. intros q Hq. rewrite in_range_empty by lia. by rewrite orb_false_r. }
  destruct (take_page_inv p (s + i) Hinv ltac:(lia) (Hfree (s + i) ltac:(lia))) as [Hinv' Hc].
  pose proof (page_used_take p (s + i)) as Hp'.
  destruct (IH (i + 1) (inc_used (bitmap_set (s + i) p)) Hinv' ltac:(lia) ltac:(lia))
    as (Hr & Hu & Hq').
  { intros q Hq. rewrite Hp' by (done || lia). rewrite (proj2 (Z.eqb_neq q (s + i))) by lia.
    apply Hfree. lia. }
  split_and!; [done|lia|]. intros q Hq. rewrite Hq', Hp' by (done || lia).
  rewrite (in_range_step (s + i)) by lia.
  replace (s + (i + 1)) with (s + i + 1) by lia.
  replace (s + i + 1 + Z.of_nat n) with (s + i + Z.of_nat (S n)) by lia.
  by destruct (q =? s + i), (page_used p q), (in_range (s + i + 1) (s + i + Z.of_nat (S n)) q).
Qed.

Lemma alloc_pages_loop_spec (fuel : nat) (count : Z) (p : pmm) : forall (s : Z),
  pmm_inv p -> 0 < count -> 0 <= s -> PMM_MAX_PAGES - s < Z.of_nat fuel ->
  match alloc_pages_loop fuel s count p with
  | (a, r) =>
      (a = 0 /\ r = p /\
         forall t, s <= t -> t + count <= PMM_MAX_PAGES -> ~ free_run p t count) \/
      (exists t, a = t * PAGE_SIZE /\ s <= t /\ t + count <= PMM_MAX_PAGES /\
         free_run p t count /\ (forall t', s <= t' < t -> ~ free_run p t' count) /\
         r = take_loop (Z.to_nat count) t 0 p)
  end.
Proof.
  induction fuel as [|fuel IH]; intros s Hinv Hc Hs Hf; simpl.
  { left. split_and!; [done|done|lia]. }
  destruct (Z.leb_spec (s + count) PMM_MAX_PAGES) as [Hle|Hgt].
  2: { left. split_and!; [done|done|lia]. }
  pose proof (first_used_loop_spec (Z.to_nat count) s p 0) as Hfu.
  destruct (first_used_loop _ s 0 p) as [k|].
  2: { right. exists s. split_and!; [done|lia|lia| |lia|done].
       intros q Hq. replace q with (s + (q - s)) by lia. apply Hfu. lia. }
  destruct Hfu as [Hk Huse].
  assert (Hskip : forall t, s <= t <= s + k -> ~ free_run p t count).
  { intros t Ht Hrun. rewrite (Hrun (s + k)) in Huse; [done|lia]. }
  specialize (IH (s + k + 1) Hinv Hc ltac:(lia) ltac:(lia)).
  destruct (alloc_pages_loop fuel (s + k + 1) count p) as [a r].
  destruct IH as [(-> & -> & Hno)|(t & -> & Ht & Htm & Hrun & Hno & ->)].
  - left. split_and!; [done|done|]. intros t Ht Htc.
    destruct (Z_le_gt_dec t (s + k)); [apply Hskip|apply Hno]; lia.
  - right. exists t. split_and!; [done|lia|done|done| |done]. intros t' Ht'.
    destruct (Z_le_gt_dec t' (s + k)); [apply Hskip|apply Hno]; lia.
Qed.

Lemma zlen_fill_loop (n : nat) : forall (i : Z) (l : list Z), zlen (fill_loop n i l) = zlen l.
Proof. induction n as [|n IH]; intros i l; simpl; [done|]. by rewrite IH, zlen_zset. Qed.

Lemma fill_loop_get (n : nat) : forall (i k : Z) (l : list Z),
  0 <= i -> i + Z.of_nat n <= zlen l -> 0 <= k < zlen l ->
  zget (fill_loop n i l) k = if (i <=? k) && (k <? i + Z.of_nat n) then 0xFF else zget l k.
Proof.
  induction n as [|n IH]; intros i k l Hi Hn Hk.
  { simpl. zcases; simpl; (lia || done). }
  cbn -[Z.of_nat]. rewrite IH; [|lia|rewrite zlen_zset; lia|rewrite zlen_zset; lia].
  rewrite zget_zset by lia. zcases; simpl; (lia || done).
Qed.

(** After the first loop of [pmm_init] every page is in use. *)
Lemma fill_inv (l : list Z) :
  zlen l = PMM_BITMAP_SIZE ->
  let p := Pmm (fill_loop (Z.to_nat PMM_BITMAP_SIZE) 0 l) PMM_MAX_PAGES PMM_MAX_PAGES in
  pmm_inv p /\ forall q, 0 <= q -> page_used p q = true.
Proof.
  intros Hl p. assert (Hget : forall i, 0 <= i < PMM_BITMAP_SIZE -> zget (bitmap p) i = 0xFF).
  { intros i Hi. simpl. rewrite fill_loop_get by plia. zcases; simpl; (lia || done). }
  assert (Hall : forall q, 0 <= q -> page_used p q = true).
  { intros q Hq. destruct (Z_lt_ge_dec q PMM_MAX_PAGES); [|apply page_used_high; lia].
    destruct (page_byte q) as [Hb Hm]; [lia|]. rewrite page_used_testbit, Hget by lia.
    change 0xFF with (Z.ones 8). by apply Z.ones_spec_low. }
  split; [|done]. constructor.
  - simpl. by rewrite zlen_fill_loop.
  - intros i Hi. rewrite Hget by done. lia.
  - reflexivity.
  - rewrite (count_below_ext _ (fun _ => true)) by (intros; apply Hall; lia).
    rewrite count_below_true by plia. reflexivity.
Qed.

(** ** Initialisation *)

(** [pmm_init] treats the entry's memory as usable. *)
Definition entry_usable (e : memory_map_entry) : bool :=
  (mm_type e =? MEMORY_CONVENTIONAL) || (mm_type e =? MEMORY_BOOT_CODE)
  || (mm_type e =? MEMORY_BOOT_DATA).

(** The page lies in a usable region of the map. *)
Definition entry_covers (q : Z) (e : memory_map_entry) : bool :=
  entry_usable e && (physical_start e / PAGE_SIZE <=? q)
  && (q <? physical_start e / PAGE_SIZE + num_pages e).

Definition entry_ok (e : memory_map_entry) : Prop :=
  0 <= physical_start e < 2 ^ 64 /\ 0 <= num_pages e < 2 ^ 64.

Lemma pmm_init_entry_spec (e : memory_map_entry) (p : pmm) :
  pmm_inv p -> entry_ok e ->
  pmm_inv (pmm_init_entry e p) /\
  forall q, 0 <= q < PMM_MAX_PAGES ->
    page_used (pmm_init_entry e p) q = page_used p q && negb (entry_covers q e).
Proof.
  intros Hinv [Hs Hn]. unfold pmm_init_entry, entry_covers. fold (entry_usable e).
  destruct (entry_usable e); simpl.
  2: { split; [done|]. intros q _. by rewrite andb_true_r. }
  set (s := physical_start e / PAGE_SIZE).
  assert (Hs' : 0 <= s < 2 ^ 63) by (unfold s, PAGE_SIZE; dlia).
  set (n := if _ <? _ then _ else _).
  destruct (free_range_loop_spec (Z.to_nat PMM_MAX_PAGES) s n 0 p Hinv Hs') as [Hr Hu];
    [plia|plia|].
  split; [done|]. intros q Hq. rewrite Hu by lia. f_equal. f_equal.
  unfold in_range, n. destruct (Z.ltb_spec PMM_MAX_PAGES (num_pages e)); zcases; simpl; (lia || done).
Qed.

Lemma pmm_init_entries_spec (es : list memory_map_entry) : forall (p : pmm),
  pmm_inv p -> Forall entry_ok es ->
  let r := fold_left (fun p e => pmm_init_entry e p) es p in
  pmm_inv r /\
  forall q, 0 <= q < PMM_MAX_PAGES ->
    page_used r q = page_used p q && negb (existsb (entry_covers q) es).
Proof.
  induction es as [|e es IH]; intros p Hinv Hes; simpl.
  { split; [done|]. intros q _. by rewrite andb_true_r. }
  apply Forall_cons in Hes as [He Hes].
  destruct (pmm_init_entry_spec e p Hinv He) as [Hinv' Hu].
  destruct (IH _ Hinv' Hes) as [Hr Hru]. split; [done|].
  intros q Hq. rewrite Hru, Hu, negb_orb by done. by rewrite andb_assoc.
Qed.

Lemma pmm_init_spec (es : list memory_map_entry) (entries : Z) (p : pmm) :
  zlen (bitmap p) = PMM_BITMAP_SIZE -> 0 < entries <= 256 -> Forall entry_ok es ->
  let r := pmm_init (Some es) entries p in
  pmm_inv r /\
  forall q, 0 <= q < PMM_MAX_PAGES ->
    page_used r q = (q <? FIRST_PAGE) || negb (existsb (entry_covers q) (take (Z.to_nat entries) es)).
Proof.
  intros Hl He Hes. unfold pmm_init.
  rewrite (proj2 (Z.eqb_neq entries 0)), (proj2 (Z.ltb_ge 256 entries)) by lia. cbn [orb].
  destruct (fill_inv (bitmap p) Hl) as [Hinv0 Hu0].
  destruct (pmm_init_entries_spec (take (Z.to_nat entries) es) _ Hinv0) as [Hinv1 Hu1].
  { by apply Forall_take. }
  destruct (reserve_loop_spec (Z.to_nat FIRST_PAGE) 0 _ Hinv1) as [Hinv2 Hu2]; [plia|plia|].
  split; [done|]. intros q Hq. rewrite Hu2, Hu1, Hu0 by lia. cbn [andb].
  rewrite orb_comm. f_equal. unfold in_range. pose proof FIRST_PAGE_eq. zcases; simpl; (lia || done).
Qed.

(** ** Reachable states: any sequence of calls after a successful [pmm_init] *)

Inductive pmm_step : pmm -> pmm -> Prop :=
  | step_alloc_page p : pmm_step p (snd (pmm_alloc_page p))
  | step_alloc_pages p count : 0 <= count < 2 ^ 64 -> pmm_step p (snd (pmm_alloc_pages count p))
  | step_free_page p addr : 0 <= addr < 2 ^ 64 -> pmm_step p (pmm_free_page addr p)
  | step_free_pages p addr count :
      0 <= addr < 2 ^ 64 -> 0 <= count < 2 ^ 64 -> pmm_step p (pmm_free_pages addr count p).

Inductive pmm_reachable : pmm -> Prop :=
  | reach_init es entries :
      0 < entries <= 256 -> Forall entry_ok es ->
      pmm_reachable (pmm_init (Some es) entries pmm_bss)
  | reach_step p r : pmm_reachable p -> pmm_step p r -> pmm_reachable r.

Lemma alloc_page_cases (p : pmm) :
  pmm_inv p ->
  match pmm_alloc_page p with
  | (a, r) =>
      (a = 0 /\ r = p /\
         forall q, FIRST_PAGE <= q < PMM_MAX_PAGES -> page_used p q = true) \/
      (exists s, a = s * PAGE_SIZE /\ FIRST_PAGE <= s < PMM_MAX_PAGES /\
         page_used p s = false /\ (forall q, FIRST_PAGE <= q < s -> page_used p q = true) /\
         r = inc_used (bitmap_set s p))
  end.
Proof.
  intros Hinv. unfold pmm_alloc_page.
  pose proof (alloc_page_loop_spec (Z.to_nat (PMM_MAX_PAGES - FIRST_PAGE)) FIRST_PAGE p
                Hinv ltac:(plia) ltac:(plia)) as H.
  replace (FIRST_PAGE + Z.of_nat (Z.to_nat (PMM_MAX_PAGES - FIRST_PAGE)))
    with PMM_MAX_PAGES in H by plia.
  exact H.
Qed.

Lemma alloc_pages_cases (count : Z) (p : pmm) :
  pmm_inv p -> 0 < count <= 256 ->
  match pmm_alloc_pages count p with
  | (a, r) =>
      (a = 0 /\ r = p /\
         forall t, FIRST_PAGE <= t -> t + count <= PMM_MAX_PAGES -> ~ free_run p t count) \/
      (exists t, a = t * PAGE_SIZE /\ FIRST_PAGE <= t /\ t + count <= PMM_MAX_PAGES /\
         free_run p t count /\ (forall t', FIRST_PAGE <= t' < t -> ~ free_run p t' count) /\
         r = take_loop (Z.to_nat count) t 0 p)
  end.
Proof.
  intros Hinv Hc. unfold pmm_alloc_pages.
  rewrite (proj2 (Z.eqb_neq count 0)), (proj2 (Z.ltb_ge 256 count)) by lia. cbn [orb].
  apply alloc_pages_loop_spec; [done|plia..].
Qed.

Lemma alloc_pages_taken (count t : Z) (p : pmm) :
  pmm_inv p -> 0 < count -> 0 <= t -> t + count <= PMM_MAX_PAGES -> free_run p t count ->
  let r := take_loop (Z.to_nat count) t 0 p in
  pmm_inv r /\ used_pages r = used_pages p + count /\
  forall q, 0 <= q -> page_used r q = page_used p q || in_range t (t + count) q.
Proof.
  intros Hinv Hc Ht Hle Hrun.
  destruct (take_loop_spec (Z.to_nat count) t 0 p Hinv) as (Hr & Hu & Hq); [lia|lia| |].
  { intros q Hq. apply Hrun. lia. }
  split_and!; [done|lia|]. intros q H0. rewrite Hq by done.
  by rewrite Z.add_0_r, Z2Nat.id by lia.
Qed.

Lemma free_pages_cases (addr count : Z) (p : pmm) :
  pmm_inv p -> 0 <= addr < 2 ^ 64 ->
  let r := pmm_free_pages addr count p in
  pmm_inv r /\
  forall q, 0 <= q ->
    page_used r q
    = page_used p q && negb (in_range (addr / PAGE_SIZE) (addr / PAGE_SIZE + count) q).
Proof.
  intros Hinv Ha.
  destruct (free_range_loop_spec (Z.to_nat PMM_MAX_PAGES) (addr / PAGE_SIZE) count 0 p Hinv)
    as [Hr Hu]; [unfold PAGE_SIZE; dlia|plia|unfold PAGE_SIZE; plia || (unfold PAGE_SIZE; Z.div_mod_to_equations; plia)|].
  split; [done|]. intros q Hq. rewrite Z.add_0_r in Hu. by apply Hu.
Qed.

Lemma free_page_cases (addr : Z) (p : pmm) :
  pmm_inv p -> 0 <= addr < 2 ^ 64 ->
  let r := pmm_free_page addr p in
  pmm_inv r /\
  forall q, 0 <= q < PMM_MAX_PAGES ->
    page_used r q = negb (q =? addr / PAGE_SIZE) && page_used p q.
Proof.
  intros Hinv Ha. unfold pmm_free_page.
  assert (0 <= addr / PAGE_SIZE) by (unfold PAGE_SIZE; dlia).
  destruct (Z.ltb_spec (addr / PAGE_SIZE) PMM_MAX_PAGES); cbn [andb].
  2: { split; [done|]. intros q Hq. by rewrite (proj2 (Z.eqb_neq q _)) by lia. }
  destruct (page_used p (addr / PAGE_SIZE)) eqn:E.
  - split; [apply give_page_inv|intros; apply page_used_give]; (done || lia).
  - split; [done|]. intros q Hq. destruct (Z.eqb_spec q (addr / PAGE_SIZE)) as [->|]; done.
Qed.

Lemma pmm_step_inv (p r : pmm) : pmm_inv p -> pmm_step p r -> pmm_inv r.
Proof.
  intros Hinv Hs. destruct Hs as [p|p count Hc|p addr Ha|p addr count Ha Hc].
  - pose proof (alloc_page_cases p Hinv) as H. destruct (pmm_alloc_page p) as [a r].
    destruct H as [(_ & -> & _)|(s & _ & Hs & Hf & _ & ->)]; [done|].
    apply take_page_inv; [done|plia|done].
  - destruct (decide (0 < count <= 256)) as [H|H].
    + pose proof (alloc_pages_cases count p Hinv H) as Hc'.
      destruct (pmm_alloc_pages count p) as [a r].
      destruct Hc' as [(_ & -> & _)|(t & _ & Ht & Htc & Hrun & _ & ->)]; [done|].
      apply alloc_pages_taken; [done|lia|plia|done|done].
    + unfold pmm_alloc_pages.
      replace ((count =? 0) || (256 <? count)) with true by (zcases; simpl; (done || lia)). done.
  - by apply free_page_cases.
  - by apply free_pages_cases.
Qed.

Lemma pmm_bss_len : zlen (bitmap pmm_bss) = PMM_BITMAP_SIZE.
Proof. unfold zlen, pmm_bss. cbn [bitmap]. rewrite length_replicate. plia. Qed.

Lemma pmm_reachable_ok (p : pmm) : pmm_reachable p -> pmm_inv p.
Proof.
  induction 1 as [es entries He Hes|p r _ IH Hs]; [|by eapply pmm_step_inv].
  by apply pmm_init_spec; [apply pmm_bss_len| |].
Qed.

(** ** The allocator's contract *)

(** [pmm_init] on a memory map of 1 to 256 entries establishes the
    invariant, and the free pages are exactly the pages at or above 2 MB (and
    below the 256 MB limit) that lie in a usable region of the map. *)
Theorem pmm_init_correct (es : list memory_map_entry) (entries : Z) :
  0 < entries <= 256 -> Forall entry_ok es ->
  let p := pmm_init (Some es) entries pmm_bss in
  pmm_inv p /\
  forall q, 0 <= q < PMM_MAX_PAGES ->
    (page_used p q = false <->
     FIRST_PAGE <= q /\ exists e, e ∈ take (Z.to_nat entries) es /\ entry_covers q e = true).
Proof.
  intros He Hes p. destruct (pmm_init_spec es entries pmm_bss pmm_bss_len He Hes) as [Hinv Hu].
  split; [done|]. intros q Hq. unfold p. rewrite Hu by done.
  rewrite orb_false_iff, Z.ltb_ge, negb_false_iff, existsb_exists.
  by setoid_rewrite list_elem_of_In.
Qed.

(** C18: in every state that a successful [pmm_init] and any sequence of
    allocations and frees (with any arguments) can reach, the bitmap keeps its
    size and holds bytes, [used_pages] is the number of set bits,
    [pmm_get_free_pages] is the number of clear ones, and they add up to
    [pmm_get_total_pages]. *)
Theorem pmm_reachable_inv (p : pmm) :
  pmm_reachable p ->
  pmm_inv p /\
  pmm_get_free_pages p = count_below (fun q => negb (page_used p q)) PMM_MAX_PAGES /\
  pmm_get_used_pages p + pmm_get_free_pages p = pmm_get_total_pages p.
Proof.
  intros Hr. pose proof (pmm_reachable_ok p Hr) as Hinv. pose proof (used_range p Hinv) as Hu.
  destruct Hinv as [Hl Hb Ht Hc]. split; [by constructor|].
  unfold pmm_get_free_pages, pmm_get_used_pages, pmm_get_total_pages.
  rewrite count_below_negb by plia. destruct (Z.ltb_spec (used_pages p) (total_pages p)); lia.
Qed.

(** [pmm_alloc_page] returns NULL exactly when no page at or above 2 MB is
    free, and then changes nothing; otherwise it returns the address of the
    lowest free page at or above 2 MB, marks that page and no other, and counts
    it. *)
Theorem pmm_alloc_page_correct (p : pmm) :
  pmm_inv p ->
  match pmm_alloc_page p with
  | (a, r) =>
      pmm_inv r /\
      ((a = 0 /\ r = p /\ forall q, FIRST_PAGE <= q < PMM_MAX_PAGES -> page_used p q = true) \/
       (exists s, a = s * PAGE_SIZE /\ FIRST_PAGE <= s < PMM_MAX_PAGES /\
          page_used p s = false /\ (forall q, FIRST_PAGE <= q < s -> page_used p q = true) /\
          (forall q, 0 <= q -> page_used r q = (q =? s) || page_used p q) /\
          used_pages r = used_pages p + 1))
  end.
Proof.
  intros Hinv. pose proof (alloc_page_cases p Hinv) as H.
  destruct (pmm_alloc_page p) as [a r].
  destruct H as [(-> & -> & Hall)|(s & -> & Hs & Hf & Hall & ->)]; [by eauto 6|].
  destruct (take_page_inv p s Hinv ltac:(plia) Hf) as [Hi Hc]. split; [done|].
  right. exists s. split_and!; [done|lia|lia|done|done| |done].
  intros q Hq. apply page_used_take; [done|plia|done].
Qed.

(** C1: the skip-ahead search of [pmm_alloc_pages] is a first-fit search: for
    1 to 256 pages it returns the address of the lowest run of [count] free
    pages at or above 2 MB and marks exactly that run, or returns NULL, without
    an effect, exactly when there is no such run. *)
Theorem pmm_alloc_pages_first_fit (count : Z) (p : pmm) :
  pmm_inv p -> 0 < count <= 256 ->
  match pmm_alloc_pages count p with
  | (a, r) =>
      pmm_inv r /\
      ((a = 0 /\ r = p /\
          forall t, FIRST_PAGE <= t -> t + count <= PMM_MAX_PAGES -> ~ free_run p t count) \/
       (exists s, a = s * PAGE_SIZE /\ FIRST_PAGE <= s /\ s + count <= PMM_MAX_PAGES /\
          free_run p s count /\ (forall t, FIRST_PAGE <= t < s -> ~ free_run p t count) /\
          (forall q, 0 <= q -> page_used r q = page_used p q || in_range s (s + count) q) /\
          used_pages r = used_pages p + count))
  end.
Proof.
  intros Hinv Hc. pose proof (alloc_pages_cases count p Hinv Hc) as H.
  destruct (pmm_alloc_pages count p) as [a r].
  destruct H as [(-> & -> & Hall)|(s & -> & Hs & Hsc & Hrun & Hall & ->)]; [by eauto 6|].
  destruct (alloc_pages_taken count s p Hinv ltac:(lia) ltac:(plia) Hsc Hrun) as (Hi & Hu & Hq).
  split; [done|]. right. exists s. by split_and!.
Qed.

(** [pmm_free_pages] on what [pmm_alloc_pages] returned gives the state
    before the allocation back, bitmap and counters. *)
Theorem pmm_alloc_free_roundtrip (count : Z) (p r : pmm) (a : Z) :
  pmm_inv p -> 0 < count <= 256 -> pmm_alloc_pages count p = (a, r) -> a <> 0 ->
  pmm_free_pages a count r = p.
Proof.
  intros Hinv Hc Ha Hne. pose proof (alloc_pages_cases count p Hinv Hc) as H. rewrite Ha in H.
  destruct H as [(-> & _)|(s & -> & Hs & Hsc & Hrun & Hall & ->)]; [done|].
  destruct (alloc_pages_taken count s p Hinv ltac:(lia) ltac:(plia) Hsc Hrun) as (Hi & _ & Hq).
  assert (Hdiv : s * PAGE_SIZE / PAGE_SIZE = s) by (apply Z.div_mul; done).
  destruct (free_pages_cases (s * PAGE_SIZE) count _ Hi) as [Hi' Hq'].
  { unfold PAGE_SIZE. plia. }
  apply pmm_ext; [done|done|]. intros q Hlt. rewrite Hq', Hdiv, Hq by lia.
  destruct (in_range s (s + count) q) eqn:E; [|by rewrite orb_false_r, andb_true_r].
  rewrite andb_false_r. symmetry. apply Hrun. unfold in_range in E. lia.
Qed.

(** ** The page allocator interface *)

#[export] Instance pmm_allocator : PageAllocator pmm := {
  pa_alloc := pmm_alloc_page;
  pa_free := pmm_free_page;
  pa_used := page_used;
  pa_ok := pmm_inv
}.

#[export] Instance pmm_allocator_laws : PageAllocatorLaws pmm.
Proof.
  constructor; simpl.
  - intros s a s' Hinv Ha. apply (pmm_step_inv s); [done|].
    replace s' with (snd (pmm_alloc_page s)) by (by rewrite Ha). constructor.
  - intros s s' Hinv Ha. pose proof (alloc_page_cases s Hinv) as H. rewrite Ha in H.
    destruct H as [(_ & -> & _)|(t & Ht & Ht' & _)]; [done|].
    exfalso. unfold PAGE_SIZE in Ht. plia.
  - intros s a s' Hinv Ha Hne. pose proof (alloc_page_cases s Hinv) as H. rewrite Ha in H.
    destruct H as [(-> & _)|(t & -> & Ht & Hf & _ & ->)]; [done|]. exists t.
    split_and!; [done|plia|plia|done|]. intros q Hq. apply page_used_take; [done|plia|done].
  - intros s a Hinv Ha. by apply free_page_cases.
  - intros s a q Hinv Ha Hq. destruct (free_page_cases a s Hinv) as [_ Hu]; [lia|].
    assert (a / 4096 < PMM_MAX_PAGES) by (pose proof PMM_MAX_PAGES_eq; dlia).
    destruct (Z_lt_ge_dec q PMM_MAX_PAGES); [by apply Hu|].
    rewrite !page_used_high by lia. by rewrite (proj2 (Z.eqb_neq q _)) by lia.
Qed.

#[export] Instance pmm_runs : RunAllocator pmm := {
  ra_alloc := pmm_alloc_pages;
  ra_free := pmm_free_pages
}.

Lemma in_run_range (page n q : Z) :
  page + n <= PMM_MAX_PAGES -> in_range page (page + n) q = in_run page n q.
Proof. intros H. unfold in_range, in_run. zcases; cbn [andb]; (done || lia). Qed.

#[export] Instance pmm_runs_laws : RunAllocatorLaws pmm.
Proof.
  constructor; simpl.
  - intros s n a s' Hinv Hn Ha. apply (pmm_step_inv s); [done|].
    replace s' with (snd (pmm_alloc_pages n s)) by (by rewrite Ha). constructor; lia.
  - intros s n s' Hinv Hn Ha. pose proof (alloc_pages_cases n s Hinv Hn) as H. rewrite Ha in H.
    destruct H as [(_ & -> & _)|(t & Ht & Ht' & _)]; [done|].
    exfalso. unfold PAGE_SIZE in Ht. plia.
  - intros s n a s' Hinv Hn Ha Hne. pose proof (alloc_pages_cases n s Hinv Hn) as H. rewrite Ha in H.
    destruct H as [(-> & _)|(t & -> & Ht & Hf & Hrun & _ & ->)]; [done|]. exists t.
    destruct (alloc_pages_taken n t s Hinv ltac:(lia) ltac:(plia) Hf Hrun) as (_ & _ & Hq).
    split_and!; [done|plia|plia| |].
    + intros q Hr. apply Hrun. unfold in_run in Hr. lia.
    + intros q H0. rewrite Hq by done. by rewrite in_run_range.
  - intros s a n Hinv Ha. by apply free_pages_cases.
  - intros s page n q Hinv Hp Hn0 Hn Hq. change 4096 with PAGE_SIZE.
    destruct (free_pages_cases (page * PAGE_SIZE) n s Hinv) as [_ Hu]; [unfold PAGE_SIZE; plia|].
    rewrite Hu by done. rewrite Z.div_mul by done. by rewrite in_run_range by plia.
Qed.

(** ** Concrete instances *)

(** 8 MB of conventional memory from 1 MB on. *)
Definition demo_map : list memory_map_entry := [MemoryMapEntry 7 0 0x100000 0 2048 0].
Definition demo_pmm : pmm := pmm_init (Some demo_map) 1 pmm_bss.

Lemma demo_map_ok : Forall entry_ok demo_map.
Proof. repeat constructor; simpl; lia. Qed.

Lemma demo_pmm_inv : pmm_inv demo_pmm.
Proof. apply pmm_init_spec; [apply pmm_bss_len|lia|apply demo_map_ok]. Qed.

Lemma demo_pmm_reachable : pmm_reachable demo_pmm.
Proof. apply reach_init; [lia|apply demo_map_ok]. Qed.

Lemma pmm_init_correct_witness :
  Forall entry_ok demo_map /\ pmm_inv demo_pmm /\ page_used demo_pmm 512 = false.
Proof.
  split; [apply demo_map_ok|].
  destruct (pmm_init_correct demo_map 1 ltac:(lia) demo_map_ok) as [Hi Hq].
  split; [exact Hi|]. apply Hq; [plia|]. split; [plia|].
  exists (MemoryMapEntry 7 0 0x100000 0 2048 0). split; [|reflexivity]. by left.
Defined.

Lemma pmm_reachable_inv_witness :
  pmm_reachable demo_pmm /\
  pmm_get_used_pages demo_pmm + pmm_get_free_pages demo_pmm = pmm_get_total_pages demo_pmm.
Proof.
  split; [apply demo_pmm_reachable|].
  exact (proj2 (proj2 (pmm_reachable_inv demo_pmm demo_pmm_reachable))).
Defined.

(** The 2048 pages from 1 MB on, without those below 2 MB, are free. *)
Lemma demo_pmm_free (q : Z) : 512 <= q < 2304 -> page_used demo_pmm q = false.
Proof.
  intros Hq. destruct (pmm_init_spec demo_map 1 pmm_bss pmm_bss_len ltac:(lia) demo_map_ok) as [_ Hu].
  unfold demo_pmm. rewrite Hu by plia. rewrite orb_false_iff, Z.ltb_ge, negb_false_iff.
  split; [exact (proj1 Hq)|]. change ((256 <=? q) && (q <? 2304) || false = true).
  zcases; cbn; (lia || done).
Qed.

Lemma demo_alloc_three : fst (pmm_alloc_pages 3 demo_pmm) = 0x200000.
Proof.
  pose proof (alloc_pages_cases 3 demo_pmm demo_pmm_inv ltac:(lia)) as H.
  assert (Hrun : free_run demo_pmm 512 3) by (intros q Hq; apply demo_pmm_free; lia).
  destruct (pmm_alloc_pages 3 demo_pmm) as [a r].
  destruct H as [(_ & _ & Hall)|(s & -> & Hs & _ & _ & Hall & _)].
  - exfalso. apply (Hall 512); [done|plia|exact Hrun].
  - destruct (Z.eq_dec s 512) as [->|Hne]; [reflexivity|].
    exfalso. change FIRST_PAGE with 512 in *. apply (Hall 512); [lia|exact Hrun].
Qed.

Lemma pmm_alloc_page_correct_witness :
  pmm_inv demo_pmm /\ pmm_inv (snd (pmm_alloc_page demo_pmm)) /\
  fst (pmm_alloc_page demo_pmm) = 0x200000.
Proof.
  split; [apply demo_pmm_inv|].
  pose proof (pmm_alloc_page_correct demo_pmm demo_pmm_inv) as H.
  destruct (pmm_alloc_page demo_pmm) as [a r]. destruct H as [Hi H]. split; [exact Hi|].
  destruct H as [(_ & _ & Hall)|(s & -> & Hs & _ & Hall & _)].
  - specialize (Hall 512 ltac:(plia)). rewrite demo_pmm_free in Hall by lia. discriminate Hall.
  - destruct (Z.eq_dec s 512) as [->|Hne]; [reflexivity|].
    change FIRST_PAGE with 512 in *. specialize (Hall 512 ltac:(lia)).
    rewrite demo_pmm_free in Hall by lia. discriminate Hall.
Defined.

Lemma pmm_alloc_pages_first_fit_witness :
  pmm_inv demo_pmm /\ pmm_inv (snd (pmm_alloc_pages 3 demo_pmm)) /\
  fst (pmm_alloc_pages 3 demo_pmm) = 0x200000.
Proof.
  split; [apply demo_pmm_inv|]. split; [|apply demo_alloc_three].
  pose proof (pmm_alloc_pages_first_fit 3 demo_pmm demo_pmm_inv ltac:(lia)) as H.
  destruct (pmm_alloc_pages 3 demo_pmm) as [a r]. exact (proj1 H).
Defined.

Lemma pmm_alloc_free_roundtrip_witness :
  pmm_free_pages 0x200000 3 (snd (pmm_alloc_pages 3 demo_pmm)) = demo_pmm.
Proof.
  apply (pmm_alloc_free_roundtrip 3 demo_pmm (snd (pmm_alloc_pages 3 demo_pmm)) 0x200000).
  - apply demo_pmm_inv.
  - lia.
  - rewrite <- demo_alloc_three. by destruct (pmm_alloc_pages 3 demo_pmm).
  - lia.
Defined.

(** A rejected memory map (here: a null one) leaves the zeroed bitmap of BSS in
    place, in which every page is free: [pmm_alloc_page] then hands out pages of
    memory the manager knows nothing about, with [pmm_get_total_pages] 0. *)
Theorem pmm_rejected_map_allocates :
  let p := pmm_init None 0 pmm_bss in
  pmm_get_total_pages p = 0 /\ fst (pmm_alloc_page p) = 0x200000.
Proof. vm_compute. split; reflexivity. Qed.
