(* ===== verification/Heap.v ===== *)
(** * Kernel heap (src/kernel/mm/heap.c)

    The heap's state is byte memory with the three static variables; block
    headers are read and written in memory at their C layout.  The abstract
    heap is the list of the blocks' sizes and free flags, and the theorems show
    that the pointer code of [kmalloc] and [kfree] implements first-fit
    allocation with splitting and coalescing on that list. *)

From S2P Require Import Prelude Mem.

(** ** State and header layout *)

Record heap := Heap {
  hmem : memory;
  heap_start : Z;
  heap_total_size : Z;
  heap_used_size : Z
}.

(** [heap_block_t]: [size] at offset 0, [free] (an [int]) at 8, [next] at 16,
    [prev] at 24. *)
Abbreviation HEADER := 32.
Definition MIN_BLOCK_SIZE : Z := HEADER + 16.
Definition ALIGN_SIZE : Z := 8.

Definition blk_size (b : Z) (h : heap) : Z := rd64 (hmem h) b.
Definition blk_free (b : Z) (h : heap) : Z := rd32 (hmem h) (b + 8).
Definition blk_next (b : Z) (h : heap) : Z := rd64 (hmem h) (b + 16).
Definition blk_prev (b : Z) (h : heap) : Z := rd64 (hmem h) (b + 24).

Definition with_mem (f : memory -> memory) (h : heap) : heap :=
  Heap (f (hmem h)) (heap_start h) (heap_total_size h) (heap_used_size h).
Definition set_size (b v : Z) : heap -> heap := with_mem (fun m => wr64 m b v).
Definition set_free (b v : Z) : heap -> heap := with_mem (fun m => wr32 m (b + 8) v).
Definition set_next (b v : Z) : heap -> heap := with_mem (fun m => wr64 m (b + 16) v).
Definition set_prev (b v : Z) : heap -> heap := with_mem (fun m => wr64 m (b + 24) v).
Definition set_used (v : Z) (h : heap) : heap :=
  Heap (hmem h) (heap_start h) (heap_total_size h) (u64 v).

(** ** Operations

    Pointers are addresses, 0 is NULL.  Operations that walk the block list
    return [None] when the walk does not end within [walk_fuel] steps. *)

Definition align_size (size : Z) : Z :=
  Z.land (u64 (size + ALIGN_SIZE - 1)) (u64 (Z.lnot (ALIGN_SIZE - 1))).

Definition heap_init (start size : Z) (h : heap) : heap :=
  if (start =? 0) || (size <? MIN_BLOCK_SIZE) then h
  else
    let aligned_start := Z.land (u64 (start + ALIGN_SIZE - 1)) (u64 (Z.lnot (ALIGN_SIZE - 1))) in
    let size := u64 (size - u64 (aligned_start - start)) in
    let size := Z.land size (u64 (Z.lnot (ALIGN_SIZE - 1))) in
    let h := Heap (hmem h) aligned_start (heap_total_size h) (heap_used_size h) in
    let h := set_size aligned_start (u64 (size - HEADER)) h in
    let h := set_free aligned_start 1 h in
    let h := set_next aligned_start 0 h in
    let h := set_prev aligned_start 0 h in
    Heap (hmem h) (heap_start h) size 0.

Definition walk_fuel (h : heap) : nat := S (Z.to_nat (heap_total_size h / HEADER)).

Fixpoint find_free_loop (fuel : nat) (current size : Z) (h : heap) : option Z :=
  match fuel with
  | O => None
  | S fuel' =>
      if current =? 0 then Some 0
      else if negb (blk_free current h =? 0) && (size <=? blk_size current h) then Some current
      else find_free_loop fuel' (blk_next current h) size h
  end.

Definition find_free_block (size : Z) (h : heap) : option Z :=
  find_free_loop (walk_fuel h) (heap_start h) size h.

Definition split_block (block size : Z) (h : heap) : heap :=
  if blk_size block h <? u64 (size + MIN_BLOCK_SIZE) then h
  else
    let new_block := u64 (block + HEADER + size) in
    let h := set_size new_block (u64 (blk_size block h - size - HEADER)) h in
    let h := set_free new_block 1 h in
    let h := set_next new_block (blk_next block h) h in
    let h := set_prev new_block block h in
    let h := if blk_next block h =? 0 then h else set_prev (blk_next block h) new_block h in
    let h := set_size block size h in
    set_next block new_block h.

Definition coalesce_blocks (block : Z) (h : heap) : heap :=
  let next := blk_next block h in
  let h :=
    if negb (next =? 0) && negb (blk_free next h =? 0) then
      let h := set_size block (u64 (blk_size block h + (HEADER + blk_size next h))) h in
      let h := set_next block (blk_next next h) h in
      if blk_next block h =? 0 then h else set_prev (blk_next block h) block h
    else h in
  let prev := blk_prev block h in
  if negb (prev =? 0) && negb (blk_free prev h =? 0) then
    let h := set_size prev (u64 (blk_size prev h + (HEADER + blk_size block h))) h in
    let h := set_next prev (blk_next block h) h in
    if blk_next block h =? 0 then h else set_prev (blk_next block h) prev h
  else h.

Definition kmalloc (size : Z) (h : heap) : option (Z * heap) :=
  if size =? 0 then Some (0, h)
  else
    let size := align_size size in
    match find_free_block size h with
    | None => None
    | Some block =>
        if block =? 0 then Some (0, h)
        else
          let h := split_block block size h in
          let h := set_free block 0 h in
          let h := set_used (heap_used_size h + (blk_size block h + HEADER)) h in
          Some (u64 (block + HEADER), h)
    end.

Definition kmalloc_aligned (size align : Z) (h : heap) : option (Z * heap) :=
  let align := if align <? ALIGN_SIZE then ALIGN_SIZE else align in
  if negb (Z.land align (align - 1) =? 0) then Some (0, h)
  else
    let total_size := u64 (size + align + HEADER) in
    match kmalloc total_size h with
    | None => None
    | Some (ptr, h) =>
        if ptr =? 0 then Some (0, h)
        else
          let aligned_ptr := Z.land (u64 (ptr + align - 1)) (u64 (Z.lnot (align - 1))) in
          Some (aligned_ptr, with_mem (fun m => wr64 m (aligned_ptr - 8) ptr) h)
    end.

Definition kfree (ptr : Z) (h : heap) : heap :=
  if ptr =? 0 then h
  else
    let block := u64 (ptr - HEADER) in
    if negb (blk_free block h =? 0) then h
    else
      let h := set_free block 1 h in
      let h := set_used (heap_used_size h - (blk_size block h + HEADER)) h in
      coalesce_blocks block h.

Definition krealloc (ptr size : Z) (h : heap) : option (Z * heap) :=
  if ptr =? 0 then kmalloc size h
  else if size =? 0 then Some (0, kfree ptr h)
  else
    let block := u64 (ptr - HEADER) in
    let old_size := blk_size block h in
    let size := align_size size in
    if size <=? old_size then Some (ptr, split_block block size h)
    else
      let next := blk_next block h in
      let available := u64 (old_size + HEADER + blk_size next h) in
      if negb (next =? 0) && negb (blk_free next h =? 0) && (size <=? available) then
        let h := set_free next 0 h in
        let h := set_size block size h in
        Some (ptr, split_block block size h)
      else
        match kmalloc size h with
        | None => None
        | Some (new_ptr, h) =>
            if new_ptr =? 0 then Some (0, h)
            else
              let copy_size := if old_size <? size then old_size else size in
              let h := with_mem (fun m => copy_bytes (Z.to_nat copy_size) m new_ptr ptr) h in
              Some (new_ptr, kfree ptr h)
        end.

Definition kmalloc_size (ptr : Z) (h : heap) : Z :=
  if ptr =? 0 then 0 else blk_size (u64 (ptr - HEADER)) h.

Definition heap_get_total_size (h : heap) : Z := heap_total_size h.
Definition heap_get_used_size (h : heap) : Z := heap_used_size h.
Definition heap_get_free_size (h : heap) : Z := u64 (heap_total_size h - heap_used_size h).

(** ** The abstract heap

    A heap is the list of its blocks in address order: payload size and free
    flag.  The blocks tile the heap: each occupies [HEADER] bytes and its
    payload. *)

Definition block := (Z * bool)%type.

Fixpoint span (bs : list block) : Z :=
  match bs with
  | [] => 0
  | (sz, _) :: r => HEADER + sz + span r
  end.

(** Bytes in allocated blocks, headers included: what [heap_used_size] counts. *)
Fixpoint used_span (bs : list block) : Z :=
  match bs with
  | [] => 0
  | (sz, fr) :: r => (if fr then 0 else sz + HEADER) + used_span r
  end.

(** First fit: the blocks before, the size of the block chosen, the blocks after. *)
Fixpoint first_fit (size : Z) (bs : list block) : option (list block * Z * list block) :=
  match bs with
  | [] => None
  | (sz, fr) :: r =>
      if fr && (size <=? sz) then Some ([], sz, r)
      else match first_fit size r with
           | Some (l1, z, l2) => Some ((sz, fr) :: l1, z, l2)
           | None => None
           end
  end.

(** What an allocation of [size] makes of a free block of [sz] bytes. *)
Definition carve (size sz : Z) : list block :=
  if sz <? size + MIN_BLOCK_SIZE then [(sz, false)]
  else [(size, false); (sz - size - HEADER, true)].

(** Merging a free block of [sz] bytes with the blocks after and before it. *)
Definition absorb_next (sz : Z) (l2 : list block) : Z * list block :=
  match l2 with
  | (sz2, true) :: r => (sz + (HEADER + sz2), r)
  | _ => (sz, l2)
  end.
Definition absorb_prev (l1 : list block) (sz : Z) : list block * Z :=
  match rev l1 with
  | (sz1, true) :: r => (rev r, sz1 + (HEADER + sz))
  | _ => (l1, sz)
  end.
Definition release (l1 : list block) (sz : Z) (l2 : list block) : list block :=
  let '(sz', l2') := absorb_next sz l2 in
  let '(l1', sz'') := absorb_prev l1 sz' in
  l1' ++ (sz'', true) :: l2'.

(** No two neighbouring blocks are free. *)
Fixpoint coalesced (bs : list block) : Prop :=
  match bs with
  | (_, fr) :: (((_, fr') :: _) as r) => ~ (fr = true /\ fr' = true) /\ coalesced r
  | _ => True
  end.

(** ** The representation of the abstract heap in memory *)

Definition header (m : memory) (a sz : Z) (fr : bool) (nx pv : Z) : Prop :=
  rd64 m a = sz /\ rd32 m (a + 8) = Z.b2z fr /\ rd64 m (a + 16) = nx /\ rd64 m (a + 24) = pv.

(** The address a chain [l] that starts at [a] continues at, [nx] if it is empty. *)
Definition next_addr (a : Z) (l : list block) (nx : Z) : Z :=
  match l with [] => nx | _ :: _ => a end.

(** The address of the last block of the chain [l] from [a] on, [pv] if it is empty. *)
Fixpoint last_addr (pv a : Z) (l : list block) : Z :=
  match l with
  | [] => pv
  | (sz, _) :: r => last_addr a (a + HEADER + sz) r
  end.

(** The chain of headers of [bs] from address [a] on: [pv] is the first block's
    predecessor and [nx] the last block's successor (0 for none). *)
Fixpoint chain (m : memory) (pv a : Z) (bs : list block) (nx : Z) : Prop :=
  match bs with
  | [] => True
  | (sz, fr) :: r =>
      header m a sz fr (next_addr (a + HEADER + sz) r nx) pv /\
      chain m a (a + HEADER + sz) r nx
  end.

Definition block_ok (b : block) : Prop := 0 <= b.1 /\ b.1 mod 8 = 0.

Record heap_inv (h : heap) (bs : list block) : Prop := {
  hi_start : 0 < heap_start h /\ heap_start h mod 8 = 0;
  hi_end : heap_start h + heap_total_size h + 64 <= 2 ^ 64;
  hi_total : heap_total_size h = span bs;
  hi_used : heap_used_size h = used_span bs;
  hi_nonempty : bs <> [];
  hi_blocks : Forall block_ok bs;
  hi_chain : chain (hmem h) 0 (heap_start h) bs 0
}.

(** ** Lists of blocks *)

Lemma span_app (l1 l2 : list block) : span (l1 ++ l2) = span l1 + span l2.
Proof. induction l1 as [|[sz fr] l1 IH]; simpl; lia. Qed.

Lemma used_span_app (l1 l2 : list block) : used_span (l1 ++ l2) = used_span l1 + used_span l2.
Proof. induction l1 as [|[sz fr] l1 IH]; simpl; lia. Qed.

Lemma span_nonneg (bs : list block) : Forall block_ok bs -> 0 <= span bs.
Proof.
  induction 1 as [|[sz fr] bs [Hsz _] _ IH]; simpl in *; [lia|]. lia.
Qed.

Lemma used_span_range (bs : list block) : Forall block_ok bs -> 0 <= used_span bs <= span bs.
Proof.
  induction 1 as [|[sz fr] bs [Hsz _] _ IH]; simpl in *; [lia|].
  destruct fr; lia.
Qed.


Lemma span_length (bs : list block) :
  Forall block_ok bs -> HEADER * zlen bs <= span bs.
Proof.
  unfold zlen. induction 1 as [|[sz fr] bs [Hsz _] _ IH]; simpl in *; [lia|].
 lia.
Qed.

Lemma first_fit_Some (size : Z) (bs l1 l2 : list block) (sz : Z) :
  first_fit size bs = Some (l1, sz, l2) ->
  bs = l1 ++ (sz, true) :: l2 /\ size <= sz /\ Forall (fun b => b.2 = false \/ b.1 < size) l1.
Proof.
  revert l1. induction bs as [|[z fr] bs IH]; intros l1; simpl; [done|].
  destruct fr; simpl.
  - destruct (Z.leb_spec size z) as [Hle|Hlt].
    + intros [= <- <- <-]. by split_and!.
    + destruct (first_fit size bs) as [[[k1 k] k2]|]; [|done]. intros [= <- -> ->].
      destruct (IH k1 eq_refl) as (-> & Hk & Hall). split_and!; [done|done|].
      constructor; [by right|done].
  - destruct (first_fit size bs) as [[[k1 k] k2]|]; [|done]. intros [= <- -> ->].
    destruct (IH k1 eq_refl) as (-> & Hk & Hall). split_and!; [done|done|].
    constructor; [by left|done].
Qed.

Lemma first_fit_None (size : Z) (bs : list block) :
  first_fit size bs = None <-> Forall (fun b => b.2 = false \/ b.1 < size) bs.
Proof.
  induction bs as [|[z fr] bs IH]; simpl; [by split|]. rewrite Forall_cons. simpl.
  destruct fr; simpl; [destruct (Z.leb_spec size z)|].
  - split; [done|]. intros [[?|?] _]; [done|lia].
  - rewrite <- IH. by destruct (first_fit size bs) as [[[? ?] ?]|]; intuition (auto || congruence).
  - rewrite <- IH. by destruct (first_fit size bs) as [[[? ?] ?]|]; intuition (auto || congruence).
Qed.

(** ** Chains *)

Lemma chain_app (m : memory) (l1 l2 : list block) : forall (pv a nx : Z),
  chain m pv a (l1 ++ l2) nx <->
  chain m pv a l1 (next_addr (a + span l1) l2 nx) /\
  chain m (last_addr pv a l1) (a + span l1) l2 nx.
Proof.
  induction l1 as [|[sz fr] l1 IH]; intros pv a nx; simpl.
  { rewrite Z.add_0_r. tauto. }
  rewrite IH. replace (a + HEADER + sz + span l1) with (a + (HEADER + sz + span l1)) by lia.
  destruct l1 as [|b l1]; [|simpl; tauto]. simpl.
  replace (a + (HEADER + sz + 0)) with (a + HEADER + sz) by lia. tauto.
Qed.

Lemma last_addr_snoc (l : list block) (sz : Z) (fr : bool) : forall (pv a : Z),
  last_addr pv a (l ++ [(sz, fr)]) = a + span l.
Proof.
  induction l as [|[z f] l IH]; intros pv a; simpl; [lia|]. rewrite IH. lia.
Qed.

(** Memory that agrees on the bytes of the chain's blocks has the same chain. *)
Lemma chain_ext (m m' : memory) (l : list block) : forall (pv a nx : Z),
  Forall block_ok l ->
  (forall x, a <= x < a + span l -> rd8 m' x = rd8 m x) ->
  chain m pv a l nx -> chain m' pv a l nx.
Proof.
  induction l as [|[sz fr] l IH]; intros pv a nx Hok H; simpl; [done|].
  apply Forall_cons in Hok as [[Hsz _] Hok]. simpl in *. pose proof (span_nonneg l Hok).
 intros [(H1 & H2 & H3 & H4) Hc]. split.
  - split_and!; rewrite (rdN_ext _ m); try done; intros x Hx; apply H; lia.
  - apply IH; [done| |done]. intros x Hx. apply H. lia.
Qed.

(** A new predecessor for the first block of a chain. *)
Lemma chain_repoint (m m' : memory) (l : list block) (pv pv' a nx : Z) :
  Forall block_ok l -> chain m pv a l nx -> (l <> [] -> rd64 m' (a + 24) = pv') ->
  (forall x, a <= x < a + span l -> ~ a + 24 <= x < a + 32 -> rd8 m' x = rd8 m x) ->
  chain m' pv' a l nx.
Proof.
  destruct l as [|[sz fr] l]; [done|]. intros Hok. apply Forall_cons in Hok as [[Hsz _] Hok].
  simpl in *. pose proof (span_nonneg l Hok). intros [(H1 & H2 & H3 & H4) Hc] Hpv H'. split.
  - split_and!; [rewrite (rdN_ext _ m)..|by apply Hpv]; try done; intros x Hx; apply H'; lia.
  - apply (chain_ext m); [done| |done]. intros x Hx. apply H'; lia.
Qed.

(** A chain with one more block at its end. *)
Lemma chain_snoc (m : memory) (l : list block) (sz : Z) (fr : bool) (pv a nx : Z) :
  chain m pv a (l ++ [(sz, fr)]) nx <->
  chain m pv a l (a + span l) /\ header m (a + span l) sz fr nx (last_addr pv a l).
Proof. rewrite chain_app. simpl. tauto. Qed.

(** ** The walk of [find_free_block] *)

Lemma find_free_loop_spec (size : Z) (h : heap) (bs : list block) : forall (fuel : nat) (pv a : Z),
  chain (hmem h) pv a bs 0 -> Forall block_ok bs -> 0 < a -> (length bs < fuel)%nat ->
  find_free_loop fuel (next_addr a bs 0) size h
  = Some (match first_fit size bs with Some (l1, _, _) => a + span l1 | None => 0 end).
Proof.
  induction bs as [|[sz fr] bs IH]; intros fuel pv a Hc Hok Ha Hf;
    (destruct fuel as [|fuel]; [simpl in Hf; lia|]); simpl; [done|].
  apply Forall_cons in Hok as [[Hsz _] Hok]. simpl in Hc, Hsz, Hf.
  destruct Hc as [(H1 & H2 & H3 & H4) Hc].
  rewrite (proj2 (Z.eqb_neq a 0)) by lia. unfold blk_free, blk_size, blk_next.
  rewrite H1, H2, H3. replace (negb (Z.b2z fr =? 0)) with fr by (by destruct fr).
  destruct (fr && (size <=? sz)); simpl; [f_equal; lia|].
  rewrite (IH fuel a) by (done || lia).
  destruct (first_fit size bs) as [[[l1 z] l2]|]; [|done]. simpl. f_equal. lia.
Qed.

(** The walk ends within its fuel and finds the first fit. *)
Lemma find_free_block_spec (size : Z) (h : heap) (bs : list block) :
  heap_inv h bs ->
  find_free_block size h
  = Some (match first_fit size bs with Some (l1, _, _) => heap_start h + span l1 | None => 0 end).
Proof.
  intros [[Hs _] _ Ht _ Hne Hok Hc]. unfold find_free_block, walk_fuel.
  pose proof (span_length bs Hok) as Hl. unfold zlen in Hl.
  replace (heap_start h) with (next_addr (heap_start h) bs 0) at 1 by (by destruct bs).
  apply find_free_loop_spec with 0; [done|done|done|].
  assert (Z.of_nat (length bs) <= heap_total_size h / HEADER); [|lia].
  rewrite Ht. apply Z.div_le_lower_bound; [done|lia].
Qed.

(** ** Splitting *)

(** Unfolds the header accessors down to reads and writes of memory. *)
Ltac headers :=
  unfold blk_size, blk_free, blk_next, blk_prev, set_size, set_free, set_next, set_prev,
    set_used, with_mem in *; cbn [hmem heap_start heap_total_size heap_used_size] in *.

(** The writes of [split_block] at block [b] of [sz] bytes with successor [nx]. *)
Definition split_mem (m : memory) (b size sz nx : Z) : memory :=
  let nb := b + 32 + size in
  let m := wr64 (wr64 (wr32 (wr64 m nb (sz - size - 32)) (nb + 8) 1) (nb + 16) nx) (nb + 24) b in
  let m := if nx =? 0 then m else wr64 m (nx + 24) nb in
  wr64 (wr64 m b size) (b + 16) nb.

Lemma split_block_mem (h : heap) (b size sz nx : Z) :
  0 < b -> b + HEADER + sz < 2 ^ 64 -> 0 <= size -> size + MIN_BLOCK_SIZE <= sz ->
  rd64 (hmem h) b = sz -> rd64 (hmem h) (b + 16) = nx ->
  split_block b size h
  = with_mem (fun m => split_mem m b size sz nx) h.
Proof.
  unfold MIN_BLOCK_SIZE. intros Hb Hend Hsize Hle Hsz Hnx.
  unfold split_block, MIN_BLOCK_SIZE, split_mem. headers.
  rewrite Hsz, (uwrap_small 64 (size + (32 + 16))) by lia.
  rewrite (proj2 (Z.ltb_ge sz (size + (32 + 16)))) by lia.
  rewrite (uwrap_small 64 (b + 32 + size)), (uwrap_small 64 (sz - size - 32)) by lia.
  memsimp. rewrite Hnx. destruct (nx =? 0); reflexivity.
Qed.

(** The bytes a split may write. *)
Definition split_area (b size nx : Z) (x : Z) : Prop :=
  b <= x < b + 32 \/ b + 32 + size <= x < b + 64 + size \/ (nx <> 0 /\ nx + 24 <= x < nx + 32).

Lemma split_mem_frame (m : memory) (b size sz nx x : Z) :
  ~ split_area b size nx x -> rd8 (split_mem m b size sz nx) x = rd8 m x.
Proof.
  unfold split_area, split_mem. intros H. destruct (Z.eqb_spec nx 0); by memsimp.
Qed.

Lemma chain_split (m : memory) (pv s : Z) (l1 l2 : list block) (sz size : Z) (fr : bool) :
  let b := s + span l1 in
  0 < s -> b + HEADER + sz + span l2 < 2 ^ 64 -> Forall block_ok l1 -> Forall block_ok l2 ->
  0 <= size -> size + MIN_BLOCK_SIZE <= sz ->
  chain m pv s (l1 ++ (sz, fr) :: l2) 0 ->
  chain (split_mem m b size sz (next_addr (b + HEADER + sz) l2 0)) pv s
    (l1 ++ (size, fr) :: (sz - size - HEADER, true) :: l2) 0.
Proof.
  intros b Hs Hend Hok1 Hok2 Hsize Hle Hc.
  pose proof (span_nonneg l1 Hok1) as Hn1. pose proof (span_nonneg l2 Hok2) as Hn2.
  apply chain_app in Hc as [Hc1 Hc2]. cbn [chain] in Hc2. fold b in Hc1, Hc2.
  destruct Hc2 as [(G1 & G2 & G3 & G4) Hc2].
  unfold MIN_BLOCK_SIZE in *. set (nx := next_addr _ l2 0) in *.
  assert (Hnx : nx = 0 /\ l2 = [] \/ nx = b + 32 + sz /\ l2 <> [])
    by (unfold nx; destruct l2; [left|right]; done).
  apply chain_app. fold b. split; [|cbn [chain]; split_and!].
  - apply (chain_ext m); [done| |done]. intros x Hx. apply split_mem_frame.
    unfold split_area. lia.
  - unfold split_mem, header. destruct (Z.eqb_spec nx 0); memsimp; split_and!; auto; lia.
  - unfold split_mem, header. destruct (Z.eqb_spec nx 0); memsimp; split_and!; try done; try lia.
    + unfold nx, next_addr. destruct l2; lia.
    + unfold nx, next_addr. destruct l2; lia.
  - replace (b + 32 + size + 32 + (sz - size - 32)) with (b + 32 + sz) by lia.
    apply (chain_repoint m _ l2 b); [done|done| |].
    + intros Hne. destruct Hnx as [[_ ?]|[Hnx _]]; [done|]. unfold split_mem.
      rewrite (proj2 (Z.eqb_neq nx 0)), Hnx by lia. by memsimp.
    + intros x Hx Hnp. apply split_mem_frame. unfold split_area. lia.
Qed.

(** ** [kmalloc] *)

Lemma align_size_spec (size : Z) :
  0 <= size <= 2 ^ 64 - 8 -> align_size size = (size + 7) / 8 * 8.
Proof.
  intros H. unfold align_size, ALIGN_SIZE. rewrite (uwrap_small 64 (size + 8 - 1)) by lia.
  replace (size + 8 - 1) with (size + 7) by lia. apply (land_align_down 3); lia.
Qed.

Lemma align_size_ok (size : Z) :
  0 <= size <= 2 ^ 64 - 8 -> 0 <= align_size size /\ align_size size mod 8 = 0.
Proof. intros H. rewrite align_size_spec by done. split; [dlia|]. by rewrite Z.mod_mul. Qed.

(** Setting the free flag of one block. *)
Lemma chain_set_free (m : memory) (pv s : Z) (l1 l2 : list block) (sz : Z) (fr fr' : bool) (nx : Z) :
  Forall block_ok l1 -> Forall block_ok l2 -> 0 <= sz ->
  chain m pv s (l1 ++ (sz, fr) :: l2) nx ->
  chain (wr32 m (s + span l1 + 8) (Z.b2z fr')) pv s (l1 ++ (sz, fr') :: l2) nx.
Proof.
  intros Hok1 Hok2 Hsz Hc. apply chain_app in Hc as [Hc1 Hc2]. apply chain_app.
  pose proof (span_nonneg l1 Hok1). pose proof (span_nonneg l2 Hok2).
  cbn [chain next_addr] in *. destruct Hc2 as [(G1 & G2 & G3 & G4) Hc2].
  split; [|split].
  - apply (chain_ext m); [done| |done]. intros x Hx. by memsimp.
  - unfold header. rewrite rd32_wr32 by (destruct fr'; simpl; lia). by memsimp.
  - apply (chain_ext m); [done| |done]. intros x Hx. by memsimp.
Qed.

(** Where the header of the block at position [l1] of the heap is. *)
Lemma chain_header (m : memory) (pv s : Z) (l1 l2 : list block) (sz : Z) (fr : bool) (nx : Z) :
  chain m pv s (l1 ++ (sz, fr) :: l2) nx ->
  header m (s + span l1) sz fr (next_addr (s + span l1 + HEADER + sz) l2 nx) (last_addr pv s l1).
Proof. intros Hc. apply chain_app in Hc as [_ Hc]. apply Hc. Qed.

Lemma chain_header2 (m : memory) (pv s : Z) (l1 l2 : list block) (z1 z2 : Z) (f1 f2 : bool) (nx : Z) :
  let b := s + span l1 in
  chain m pv s (l1 ++ (z1, f1) :: (z2, f2) :: l2) nx ->
  header m (b + HEADER + z1) z2 f2 (next_addr (b + HEADER + z1 + HEADER + z2) l2 nx) b.
Proof. intros b Hc. apply chain_app in Hc as [_ [_ Hc]]. apply Hc. Qed.

Lemma carve_ok (size sz : Z) :
  0 <= size <= sz -> size mod 8 = 0 -> sz mod 8 = 0 -> Forall block_ok (carve size sz).
Proof.
  intros Hle Hs Hz. unfold carve, MIN_BLOCK_SIZE.
  destruct (Z.ltb_spec sz (size + (HEADER + 16))); repeat constructor; simpl; try lia; dlia.
Qed.

Lemma carve_span (size sz : Z) (l : list block) :
  span (carve size sz ++ l) = HEADER + sz + span l.
Proof. unfold carve. destruct (_ <? _); simpl; lia. Qed.

(** [x] is a payload byte of an allocated block of the heap [bs] at [s]. *)
Definition allocated_byte (s : Z) (bs : list block) (x : Z) : Prop :=
  exists l z r, bs = l ++ (z, false) :: r /\
    s + span l + HEADER <= x < s + span l + HEADER + z.

(** Two ways to point at a block of the same heap. *)
Lemma split_compare (l1 l2 l r : list block) (b c : block) :
  l1 ++ b :: l2 = l ++ c :: r ->
  (l = l1 /\ b = c /\ r = l2) \/
  (exists k, l1 = l ++ c :: k /\ r = k ++ b :: l2) \/
  (exists k, l = l1 ++ b :: k /\ l2 = k ++ c :: r).
Proof.
  revert l. induction l1 as [|x l1 IH]; intros [|y l] H; simpl in H; injection H as -> H';
    subst.
  - by left.
  - right; right. by exists l.
  - right; left. by exists l1.
  - destruct (IH l H') as [(-> & -> & ->)|[(k & -> & ->)|(k & -> & ->)]].
    + by left.
    + right; left. by exists k.
    + right; right. by exists k.
Qed.

(** An allocated byte lies before a given free block or after its payload and
    the header of the block that follows. *)
Lemma allocated_byte_far (s : Z) (l1 l2 : list block) (sz x : Z) :
  Forall block_ok (l1 ++ (sz, true) :: l2) ->
  allocated_byte s (l1 ++ (sz, true) :: l2) x ->
  x < s + span l1 \/ s + span l1 + HEADER + sz + HEADER <= x.
Proof.
  intros Hok (l & z & r & Heq & Hx).
  destruct (split_compare _ _ _ _ _ _ Heq) as [(_ & ? & _)|[(k & -> & _)|(k & -> & ->)]]; [done| |].
  - left. rewrite span_app. simpl. apply Forall_app in Hok as [Hok _].
    apply Forall_app in Hok as [_ Hok]. apply Forall_cons in Hok as [_ Hok].
    pose proof (span_nonneg k Hok). lia.
  - right. rewrite span_app in Hx. simpl in Hx. apply Forall_app in Hok as [_ Hok].
    apply Forall_cons in Hok as [_ Hok]. apply Forall_app in Hok as [Hok _].
    pose proof (span_nonneg k Hok). lia.
Qed.

(** The memory side of [kmalloc]'s success: the block chosen is carved. *)
Lemma carve_chain (h : heap) (l1 l2 : list block) (sz size : Z) :
  let b := heap_start h + span l1 in
  heap_inv h (l1 ++ (sz, true) :: l2) -> 0 <= size <= sz -> size mod 8 = 0 ->
  let h' := set_free b 0 (split_block b size h) in
  chain (hmem h') 0 (heap_start h) (l1 ++ carve size sz ++ l2) 0 /\
  blk_size b h' = (if sz <? size + MIN_BLOCK_SIZE then sz else size) /\
  (heap_start h' = heap_start h /\ heap_total_size h' = heap_total_size h /\
   heap_used_size h' = heap_used_size h) /\
  forall x, x < b \/ b + HEADER + sz + HEADER <= x -> rd8 (hmem h') x = rd8 (hmem h) x.
Proof.
  intros b [[Hs _] Hend Htot _ _ Hok Hc] Hsize Hal h'.
  rewrite Htot, span_app in Hend. simpl in Hend.
  apply Forall_app in Hok as [Hok1 Hok2]. apply Forall_cons in Hok2 as [[Hsz Hsz8] Hok2].
  simpl in Hsz, Hsz8. pose proof (span_nonneg l1 Hok1). pose proof (span_nonneg l2 Hok2).
  destruct (chain_header _ _ _ _ _ _ _ _ Hc) as (G1 & _ & G3 & _). fold b in G1, G3.
  assert (Hb : 0 < b) by (unfold b; lia). unfold h', carve.
  destruct (Z.ltb_spec sz (size + MIN_BLOCK_SIZE)) as [Hlt|Hge].
  - assert (Hns : split_block b size h = h).
    { unfold split_block. headers. rewrite G1, (uwrap_small 64) by (unfold MIN_BLOCK_SIZE; lia).
      by rewrite (proj2 (Z.ltb_lt _ _)). }
    rewrite Hns. split_and!; [by apply (chain_set_free _ 0 _ l1 l2 sz true false 0)| |done..|].
    + headers. by memsimp.
    + intros x Hx. headers. by memsimp.
  - rewrite (split_block_mem h b size sz _ Hb) by (done || lia).
    pose proof (chain_split (hmem h) 0 (heap_start h) l1 l2 sz size true) as Hcs.
    fold b in Hcs. specialize (Hcs Hs ltac:(lia) Hok1 Hok2 ltac:(lia) Hge Hc).
    unfold MIN_BLOCK_SIZE in Hge. split_and!; [|..|done|done|done|].
    + apply (chain_set_free _ 0 _ l1 (_ :: l2) size true false 0); [done| |lia|done].
      constructor; [|done]. split; simpl; [lia|dlia].
    + headers. memsimp. unfold split_mem. by memsimp.
    + intros x Hx. headers. memsimp. apply split_mem_frame. unfold split_area, next_addr.
      destruct l2; lia.
Qed.

(** [kmalloc] when a free block fits. *)
Lemma kmalloc_Some (h : heap) (bs l1 l2 : list block) (size sz : Z) :
  heap_inv h bs -> size <> 0 -> 0 <= align_size size -> align_size size mod 8 = 0 ->
  first_fit (align_size size) bs = Some (l1, sz, l2) ->
  exists h', kmalloc size h = Some (heap_start h + span l1 + HEADER, h') /\
    heap_start h' = heap_start h /\
    heap_inv h' (l1 ++ carve (align_size size) sz ++ l2) /\
    blk_size (heap_start h + span l1) h'
    = (if sz <? align_size size + MIN_BLOCK_SIZE then sz else align_size size) /\
    forall x, x < heap_start h + span l1 \/ heap_start h + span l1 + HEADER + sz + HEADER <= x ->
      rd8 (hmem h') x = rd8 (hmem h) x.
Proof.
  intros Hinv Hsize Ha0 Ha8 Hff. destruct (first_fit_Some _ _ _ _ _ Hff) as (-> & Hle & _).
  unfold kmalloc. rewrite (proj2 (Z.eqb_neq size 0)) by lia. cbv zeta.
  rewrite (find_free_block_spec _ h _ Hinv), Hff.
  set (asz := align_size size) in *.
  set (b := heap_start h + span l1).
  destruct (carve_chain h l1 l2 sz asz Hinv ltac:(lia) ltac:(lia)) as (Hc & Hbs & (E1 & E2 & E3) & Hfr).
  fold b in Hc, Hbs, E1, E2, E3, Hfr.
  destruct Hinv as [[Hs Hs8] Hend Htot Hused Hne Hok _].
  rewrite Htot, span_app in Hend. simpl in Hend.
  pose proof (used_span_range _ Hok) as Hur. rewrite <- Hused in Hur.
  rewrite used_span_app in Hused. rewrite span_app in Hur. simpl in Hused, Hur.
  apply Forall_app in Hok as [Hok1 Hok2]. apply Forall_cons in Hok2 as [[Hsz Hsz8] Hok2].
  simpl in Hsz, Hsz8. pose proof (span_nonneg l1 Hok1). pose proof (span_nonneg l2 Hok2).
  pose proof (used_span_range l1 Hok1). pose proof (used_span_range l2 Hok2).
  assert (Hb : 0 < b) by (unfold b; lia). rewrite (proj2 (Z.eqb_neq b 0)) by lia.
  set (h1 := set_free b 0 (split_block b asz h)) in *.
  exists (set_used (heap_used_size h1 + (blk_size b h1 + HEADER)) h1).
  rewrite (uwrap_small 64 (b + HEADER)) by (unfold b; lia).
  split_and!; [done|done| |done|done].
  rewrite Hbs, E3. constructor; cbn [hmem heap_start heap_total_size heap_used_size set_used].
  - by rewrite E1.
  - rewrite E1, E2, Htot, span_app. simpl. lia.
  - rewrite E2, Htot, (span_app l1 (carve _ _ ++ l2)), carve_span, span_app. done.
  - rewrite used_span_app, used_span_app, Hused. unfold carve.
    destruct (Z.ltb_spec sz (asz + MIN_BLOCK_SIZE)); simpl;
      rewrite uwrap_small by (unfold MIN_BLOCK_SIZE in *; lia); lia.
  - destruct l1; [|done]. unfold carve. by destruct (_ <? _).
  - apply Forall_app; split; [done|]. apply Forall_app; split; [apply carve_ok; lia|done].
  - by rewrite E1.
Qed.

Lemma kmalloc_None (h : heap) (bs : list block) (size : Z) :
  heap_inv h bs -> 0 < size -> first_fit (align_size size) bs = None ->
  kmalloc size h = Some (0, h).
Proof.
  intros Hinv Hsize Hff. unfold kmalloc. rewrite (proj2 (Z.eqb_neq size 0)) by lia. cbv zeta.
  by rewrite (find_free_block_spec _ h _ Hinv), Hff.
Qed.

(** ** [kfree] *)

(** The writes that merge the block at [a] with its successor: the new size and
    the successor's successor [nx]. *)
Definition merge_mem (m : memory) (a size nx : Z) : memory :=
  let m := wr64 (wr64 m a size) (a + 16) nx in
  if nx =? 0 then m else wr64 m (nx + 24) a.

Lemma merge_mem_frame (m : memory) (a size nx x : Z) :
  (x < a \/ a + 32 <= x) -> (nx = 0 \/ x < nx \/ nx + 32 <= x) ->
  rd8 (merge_mem m a size nx) x = rd8 m x.
Proof. intros Ha Hn. unfold merge_mem. destruct (Z.eqb_spec nx 0); by memsimp. Qed.

Lemma chain_merge (m : memory) (pv s : Z) (l1 l2 : list block) (z1 z2 : Z) (f1 f2 : bool) :
  let a := s + span l1 in
  0 < s -> a + HEADER + z1 + HEADER + z2 + span l2 < 2 ^ 64 ->
  Forall block_ok l1 -> Forall block_ok l2 -> 0 <= z1 -> 0 <= z2 ->
  chain m pv s (l1 ++ (z1, f1) :: (z2, f2) :: l2) 0 ->
  chain (merge_mem m a (z1 + (HEADER + z2)) (next_addr (a + HEADER + z1 + HEADER + z2) l2 0))
    pv s (l1 ++ (z1 + (HEADER + z2), f1) :: l2) 0.
Proof.
  intros a Hs Hend Hok1 Hok2 Hz1 Hz2 Hc.
  pose proof (span_nonneg l1 Hok1) as Hn1. pose proof (span_nonneg l2 Hok2) as Hn2.
  apply chain_app in Hc as [Hc1 Hc2]. cbn [chain next_addr] in Hc1, Hc2. fold a in Hc1, Hc2.
  destruct Hc2 as [(G1 & G2 & G3 & G4) [_ Hc2]].
  set (nx := next_addr _ l2 0) in *.
  assert (Hnx : nx = 0 /\ l2 = [] \/ nx = a + 32 + z1 + 32 + z2 /\ l2 <> [])
    by (unfold nx; destruct l2; [left|right]; done).
  apply chain_app. fold a. cbn [chain next_addr]. split; [|split].
  - apply (chain_ext m); [done| |done]. intros x Hx. apply merge_mem_frame; lia.
  - unfold merge_mem, header. destruct (Z.eqb_spec nx 0); memsimp; split_and!; auto;
      unfold nx, next_addr; destruct l2; lia.
  - replace (a + 32 + (z1 + (32 + z2))) with (a + 32 + z1 + 32 + z2) by lia.
    apply (chain_repoint m _ l2 (a + 32 + z1)); [done|done| |].
    + intros Hne. destruct Hnx as [[_ ?]|[Hnx _]]; [done|]. unfold merge_mem.
      rewrite (proj2 (Z.eqb_neq nx 0)), Hnx by lia. by memsimp.
    + intros x Hx Hnp. unfold merge_mem. destruct (Z.eqb_spec nx 0); by memsimp.
Qed.

(** First half of [coalesce_blocks]: the block after. *)
Definition coalesce_next (block : Z) (h : heap) : heap :=
  let next := blk_next block h in
  if negb (next =? 0) && negb (blk_free next h =? 0) then
    let h := set_size block (u64 (blk_size block h + (HEADER + blk_size next h))) h in
    let h := set_next block (blk_next next h) h in
    if blk_next block h =? 0 then h else set_prev (blk_next block h) block h
  else h.

(** Second half: the block before. *)
Definition coalesce_prev (block : Z) (h : heap) : heap :=
  let prev := blk_prev block h in
  if negb (prev =? 0) && negb (blk_free prev h =? 0) then
    let h := set_size prev (u64 (blk_size prev h + (HEADER + blk_size block h))) h in
    let h := set_next prev (blk_next block h) h in
    if blk_next block h =? 0 then h else set_prev (blk_next block h) prev h
  else h.

Lemma coalesce_blocks_eq (block : Z) (h : heap) :
  coalesce_blocks block h = coalesce_prev block (coalesce_next block h).
Proof. reflexivity. Qed.

Lemma coalesce_next_spec (h : heap) (s : Z) (l1 l2 : list block) (sz : Z) :
  let b := s + span l1 in
  let r := absorb_next sz l2 in
  0 < s -> b + HEADER + sz + span l2 < 2 ^ 64 ->
  Forall block_ok l1 -> Forall block_ok l2 -> 0 <= sz ->
  chain (hmem h) 0 s (l1 ++ (sz, true) :: l2) 0 ->
  chain (hmem (coalesce_next b h)) 0 s (l1 ++ (r.1, true) :: r.2) 0 /\
  (heap_start (coalesce_next b h) = heap_start h /\
   heap_total_size (coalesce_next b h) = heap_total_size h /\
   heap_used_size (coalesce_next b h) = heap_used_size h) /\
  forall x, ~ (b <= x < b + HEADER) ->
    (forall z f k, r.2 = (z, f) :: k ->
       x < b + HEADER + r.1 \/ b + HEADER + r.1 + HEADER <= x) ->
    rd8 (hmem (coalesce_next b h)) x = rd8 (hmem h) x.
Proof.
  intros b r Hs Hend Hok1 Hok2 Hsz Hc.
  pose proof (span_nonneg l1 Hok1) as Hn1.
  destruct (chain_header _ _ _ _ _ _ _ _ Hc) as (G1 & _ & G3 & _). fold b in G1, G3.
  destruct l2 as [|[z2 f2] l2].
  { unfold coalesce_next. headers. rewrite G3. done. }
  simpl in G3. apply Forall_cons in Hok2 as [[Hz2 _] Hok2]. simpl in Hz2, Hend.
  pose proof (span_nonneg l2 Hok2) as Hn2.
  destruct (chain_header2 _ _ _ _ _ _ _ _ _ _ Hc) as (K1 & K2 & K3 & _). fold b in K1, K2, K3.
  unfold coalesce_next. headers. rewrite G3, K1, K2, G1.
  rewrite (proj2 (Z.eqb_neq (b + 32 + sz) 0)) by (unfold b; lia).
  destruct f2; simpl Z.b2z; cbn [negb andb Z.eqb].
  2: { unfold r. simpl. done. }
  rewrite (uwrap_small 64 (sz + (32 + z2))) by (unfold b in *; lia).
  rewrite (rdN_wrN_disj 8 8 (hmem h)), K3 by lia.
  set (nx := next_addr _ l2 0) in *.
  assert (0 <= nx < 2 ^ 64) by (rewrite <- K3; apply rd64_range).
  rewrite rd64_wr64 by done.
  pose proof (chain_merge (hmem h) 0 s l1 l2 sz z2 true true) as Hm. fold b in Hm.
  specialize (Hm Hs ltac:(lia) Hok1 Hok2 Hsz Hz2 Hc).
  assert (Heq : forall h', h' = with_mem (fun m => merge_mem m b (sz + (32 + z2)) nx) h ->
     chain (hmem h') 0 s (l1 ++ (sz + (32 + z2), true) :: l2) 0 /\
     (heap_start h' = heap_start h /\ heap_total_size h' = heap_total_size h /\
      heap_used_size h' = heap_used_size h) /\
     forall x, ~ (b <= x < b + 32) ->
       (forall z f k, l2 = (z, f) :: k ->
          x < b + 32 + (sz + (32 + z2)) \/ b + 32 + (sz + (32 + z2)) + 32 <= x) ->
       rd8 (hmem h') x = rd8 (hmem h) x).
  { intros h' ->. split_and!; [exact Hm|done|done|done|]. intros x Hx Hk. headers.
    apply merge_mem_frame; [lia|]. unfold nx. destruct l2 as [|[z f] k]; [by left|right].
    simpl. specialize (Hk z f k eq_refl). lia. }
  apply Heq. unfold merge_mem, with_mem. destruct (nx =? 0); reflexivity.
Qed.

Lemma absorb_prev_snoc (k : list block) (z1 sz : Z) (f1 : bool) :
  absorb_prev (k ++ [(z1, f1)]) sz
  = if f1 then (k, z1 + (HEADER + sz)) else (k ++ [(z1, f1)], sz).
Proof. unfold absorb_prev. rewrite rev_unit. destruct f1; [by rewrite rev_involutive|done]. Qed.

Lemma coalesce_prev_spec (h : heap) (s : Z) (l1 l2 : list block) (sz : Z) :
  let b := s + span l1 in
  let r := absorb_prev l1 sz in
  0 < s -> b + HEADER + sz + span l2 < 2 ^ 64 ->
  Forall block_ok l1 -> Forall block_ok l2 -> 0 <= sz ->
  chain (hmem h) 0 s (l1 ++ (sz, true) :: l2) 0 ->
  chain (hmem (coalesce_prev b h)) 0 s (r.1 ++ (r.2, true) :: l2) 0 /\
  (heap_start (coalesce_prev b h) = heap_start h /\
   heap_total_size (coalesce_prev b h) = heap_total_size h /\
   heap_used_size (coalesce_prev b h) = heap_used_size h) /\
  forall x, (forall k z, l1 = k ++ [(z, true)] -> x < s + span k \/ s + span k + HEADER <= x) ->
    (forall z f k, l2 = (z, f) :: k -> x < b + HEADER + sz \/ b + HEADER + sz + HEADER <= x) ->
    rd8 (hmem (coalesce_prev b h)) x = rd8 (hmem h) x.
Proof.
  intros b r Hs Hend Hok1 Hok2 Hsz Hc.
  pose proof (span_nonneg l2 Hok2) as Hn2.
  destruct (chain_header _ _ _ _ _ _ _ _ Hc) as (G1 & _ & G3 & G4). fold b in G1, G3, G4.
  destruct l1 as [|[z1 f1] k _] using rev_ind.
  { unfold coalesce_prev. headers. rewrite G4. done. }
  rewrite last_addr_snoc in G4. apply Forall_app in Hok1 as [Hok1 Hz1].
  apply Forall_cons in Hz1 as [[Hz1 _] _]. simpl in Hz1.
  pose proof (span_nonneg k Hok1) as Hn1. set (a := s + span k) in *.
  assert (Hb : b = a + 32 + z1) by (unfold b, a; rewrite span_app; simpl; lia).
  rewrite <- app_assoc in Hc. cbn [app] in Hc.
  destruct (chain_header _ _ _ _ _ _ _ _ Hc) as (K1 & K2 & _ & _). fold a in K1, K2.
  unfold coalesce_prev. headers. rewrite G4, K1, K2, G1.
  rewrite (proj2 (Z.eqb_neq a 0)) by (unfold a; lia). unfold r. rewrite absorb_prev_snoc.
  destruct f1; simpl Z.b2z; cbn [negb andb Z.eqb].
  2: { cbn [fst snd]. rewrite <- app_assoc. done. }
  rewrite (uwrap_small 64 (z1 + (32 + sz))) by (unfold a in *; lia).
  rewrite (rdN_wrN_disj 8 8 (hmem h) a (b + 16)), G3 by lia.
  set (nx := next_addr _ l2 0) in *.
  rewrite (rdN_wrN_disj 8 8 _ (a + 16) (b + 16)), (rdN_wrN_disj 8 8 (hmem h) a (b + 16)), G3 by lia.
  fold nx.
  pose proof (chain_merge (hmem h) 0 s k l2 z1 sz true true) as Hm. fold a in Hm.
  specialize (Hm Hs ltac:(lia) Hok1 Hok2 Hz1 Hsz Hc). rewrite <- Hb in Hm.
  assert (Heq : forall h', h' = with_mem (fun m => merge_mem m a (z1 + (32 + sz)) nx) h ->
     chain (hmem h') 0 s (k ++ (z1 + (32 + sz), true) :: l2) 0 /\
     (heap_start h' = heap_start h /\ heap_total_size h' = heap_total_size h /\
      heap_used_size h' = heap_used_size h) /\
     forall x, (forall k' z, k ++ [(z1, true)] = k' ++ [(z, true)] ->
                  x < s + span k' \/ s + span k' + 32 <= x) ->
       (forall z f k, l2 = (z, f) :: k -> x < b + 32 + sz \/ b + 32 + sz + 32 <= x) ->
       rd8 (hmem h') x = rd8 (hmem h) x).
  { intros h' ->. split_and!; [exact Hm|done|done|done|]. intros x Hx Hk. headers.
    apply merge_mem_frame; [apply (Hx k z1 eq_refl)|].
    unfold nx. destruct l2 as [|[z f] k']; [by left|right]. simpl. apply (Hk z f k' eq_refl). }
  apply Heq. unfold merge_mem, with_mem. destruct (nx =? 0); reflexivity.
Qed.

(** ** [release] on the abstract side *)

Lemma absorb_next_facts (sz : Z) (l2 : list block) :
  0 <= sz -> sz mod 8 = 0 -> Forall block_ok l2 ->
  let r := absorb_next sz l2 in
  block_ok (r.1, true) /\ Forall block_ok r.2 /\ HEADER + r.1 + span r.2 = HEADER + sz + span l2 /\
  used_span r.2 = used_span l2 /\ sz <= r.1.
Proof.
  intros Hsz H8 Hok. destruct l2 as [|[z2 [|]] l2]; cbn [absorb_next fst snd].
  - by split_and!.
  - apply Forall_cons in Hok as [[Hz Hz8] Hok]. simpl in *.
    split_and!; [split; simpl; [lia|dlia]|done|lia|lia|lia].
  - by split_and!.
Qed.

Lemma absorb_prev_facts (l1 : list block) (sz : Z) :
  0 <= sz -> sz mod 8 = 0 -> Forall block_ok l1 ->
  let r := absorb_prev l1 sz in
  block_ok (r.2, true) /\ Forall block_ok r.1 /\ span r.1 + HEADER + r.2 = span l1 + HEADER + sz /\
  used_span r.1 = used_span l1.
Proof.
  intros Hsz H8 Hok. destruct l1 as [|[z1 f1] l1 _] using rev_ind; [by split_and!|].
  rewrite absorb_prev_snoc. apply Forall_app in Hok as [Hok Hz].
  apply Forall_cons in Hz as [[Hz Hz8] _]. simpl in Hz, Hz8.
  destruct f1; simpl.
  - rewrite span_app, used_span_app. simpl. split_and!; [split; simpl; [lia|dlia]|done|lia|lia].
  - split_and!; [done| |done|done]. apply Forall_app. split; [done|]. by repeat constructor.
Qed.

(** Merging backwards never moves the start of the merged block up. *)
Lemma absorb_prev_low (l : list block) (sz : Z) :
  Forall block_ok l -> span (absorb_prev l sz).1 <= span l.
Proof.
  intros Hok. destruct l as [|[z f] l _] using rev_ind; [done|]. rewrite absorb_prev_snoc.
  destruct f; [|done]. apply Forall_app in Hok as [_ Hz]. apply Forall_cons in Hz as [[Hz _] _].
  rewrite span_app. simpl in *. lia.
Qed.

(** [kfree] before any merging: the block is marked free and no longer counted. *)
Lemma kfree_mark (h : heap) (l1 l2 : list block) (sz : Z) :
  let b := heap_start h + span l1 in
  heap_inv h (l1 ++ (sz, false) :: l2) ->
  exists h1, kfree (b + HEADER) h = coalesce_blocks b h1 /\
    chain (hmem h1) 0 (heap_start h) (l1 ++ (sz, true) :: l2) 0 /\
    heap_used_size h1 = used_span l1 + used_span l2 /\ heap_start h1 = heap_start h /\
    heap_total_size h1 = heap_total_size h /\
    forall x, x < b \/ b + HEADER <= x -> rd8 (hmem h1) x = rd8 (hmem h) x.
Proof.
  intros b [[Hs Hs8] Hend Htot Hused Hne Hok Hc].
  rewrite Htot, span_app in Hend. simpl in Hend. rewrite used_span_app in Hused. simpl in Hused.
  pose proof Hok as Hok'. apply Forall_app in Hok' as [Hok1 Hok2].
  apply Forall_cons in Hok2 as [[Hsz Hsz8] Hok2]. simpl in Hsz, Hsz8.
  pose proof (span_nonneg l1 Hok1). pose proof (span_nonneg l2 Hok2).
  pose proof (used_span_range l1 Hok1). pose proof (used_span_range l2 Hok2).
  destruct (chain_header _ _ _ _ _ _ _ _ Hc) as (G1 & G2 & _ & _). fold b in G1, G2.
  unfold kfree. rewrite (proj2 (Z.eqb_neq _ 0)) by (unfold b; lia). cbv zeta.
  replace (u64 (b + HEADER - HEADER)) with b by (rewrite uwrap_small; unfold b; lia).
  assert (Hfb : blk_free b h = 0) by (unfold blk_free; by rewrite G2).
  rewrite Hfb. cbn [Z.eqb negb]. eexists. split; [reflexivity|]. split_and!; try done.
  - apply (chain_set_free _ 0 _ l1 l2 sz false true 0); done.
  - headers. memsimp. rewrite G1, Hused. rewrite uwrap_small; lia.
  - intros x Hx. headers. by memsimp.
Qed.

(** [kfree] on the pointer of an allocated block. *)
Lemma kfree_spec (h : heap) (l1 l2 : list block) (sz : Z) :
  let p := heap_start h + span l1 + HEADER in
  heap_inv h (l1 ++ (sz, false) :: l2) ->
  heap_inv (kfree p h) (release l1 sz l2) /\ heap_start (kfree p h) = heap_start h /\
  forall x, allocated_byte (heap_start h) (release l1 sz l2) x ->
    rd8 (hmem (kfree p h)) x = rd8 (hmem h) x.
Proof.
  intros p Hinv. subst p. destruct (kfree_mark h l1 l2 sz Hinv) as (h1 & -> & Hc1 & Hu1 & S1 & T1 & F1).
  destruct Hinv as [[Hs Hs8] Hend Htot _ _ Hok _]. rewrite Htot, span_app in Hend. simpl in Hend.
  apply Forall_app in Hok as [Hok1 Hok2].
  apply Forall_cons in Hok2 as [[Hsz Hsz8] Hok2]. simpl in Hsz, Hsz8.
  pose proof (span_nonneg l1 Hok1). pose proof (span_nonneg l2 Hok2).
  set (b := heap_start h + span l1) in *. rewrite coalesce_blocks_eq.
  destruct (coalesce_next_spec h1 (heap_start h) l1 l2 sz) as (Hc2 & (E1 & E2 & E3) & Hf2);
    [done|unfold b in *; lia|done..|].
  destruct (absorb_next_facts sz l2 Hsz Hsz8 Hok2) as ([Ha1 Ha8] & Hokn & Hspn & Husn & Hge).
  fold b in Hc2, E1, E2, E3, Hf2. set (h2 := coalesce_next b h1) in *.
  unfold release. destruct (absorb_next sz l2) as [sz' l2'] eqn:En. simpl in *.
  destruct (coalesce_prev_spec h2 (heap_start h) l1 l2' sz') as (Hc3 & (E4 & E5 & E6) & Hf3);
    [done|unfold b in *; lia|done..|].
  destruct (absorb_prev_facts l1 sz' Ha1 Ha8 Hok1) as (Hb3 & Hokp & Hspp & Husp).
  pose proof (absorb_prev_low l1 sz' Hok1) as Hlow.
  fold b in Hc3, E4, E5, E6, Hf3. set (h3 := coalesce_prev b h2) in *.
  destruct (absorb_prev l1 sz') as [l1' sz''] eqn:Ep. simpl in *.
  assert (Hok3 : Forall block_ok (l1' ++ (sz'', true) :: l2'))
    by (apply Forall_app; split; [done|by constructor]).
  rewrite S1 in E1. rewrite T1 in E2.
  split_and!; [|by rewrite E4|].
  - constructor; [by rewrite E4, E1| | | |by destruct l1'|done|by rewrite E4, E1].
    + rewrite E4, E5, E1, E2, Htot, span_app. simpl. lia.
    + rewrite E5, E2, Htot, !span_app. simpl. lia.
    + rewrite E6, E3, Hu1, used_span_app. simpl. lia.
  - intros x Hx. apply allocated_byte_far in Hx; [|done].
    pose proof (span_nonneg l1' Hokp). destruct Hb3 as [Hb3 _]. simpl in Hb3.
    rewrite Hf3, Hf2; [apply F1; unfold b; lia|lia|intros; unfold b; lia| |intros; unfold b; lia].
    intros k z ->. rewrite absorb_prev_snoc in Ep. injection Ep as <- <-.
    pose proof Hspp as Hs'. unfold b in *. rewrite span_app in *. simpl in *. lia.
Qed.

(** ** Coalesced heaps *)

(** A free block never ends [l1] where a free block starts [l2]. *)
Definition seam_ok (l1 l2 : list block) : Prop :=
  forall z z', last l1 = Some (z, true) -> head l2 = Some (z', true) -> False.

Lemma coalesced_cons (b : block) (l : list block) :
  coalesced (b :: l) <-> seam_ok [b] l /\ coalesced l.
Proof.
  destruct b as [z f], l as [|[z' f'] l]; simpl; unfold seam_ok; simpl; [naive_solver|].
  split; intros [H1 H2]; (split; [|done]).
  - intros y y' [= -> ->] [= -> ->]. by apply H1.
  - intros [-> ->]. by apply (H1 z z').
Qed.

#[local] Arguments coalesced : simpl never.

Lemma coalesced_app (l1 l2 : list block) :
  coalesced (l1 ++ l2) <-> coalesced l1 /\ coalesced l2 /\ seam_ok l1 l2.
Proof.
  induction l1 as [|b l1 IH]; cbn [app].
  { unfold seam_ok. simpl. naive_solver. }
  rewrite !coalesced_cons, IH. destruct l1 as [|c l1]; cbn [app].
  - unfold seam_ok. simpl. naive_solver.
  - unfold seam_ok. rewrite !last_cons_cons. simpl. naive_solver.
Qed.

Lemma carve_coalesced (l1 l2 : list block) (size sz : Z) :
  coalesced (l1 ++ (sz, true) :: l2) -> coalesced (l1 ++ carve size sz ++ l2).
Proof.
  rewrite !coalesced_app, coalesced_cons. unfold carve, seam_ok.
  intros (H1 & (H2 & H3) & H4). simpl in *.
  destruct (_ <? _); cbn [app last head]; rewrite ?coalesced_cons; unfold seam_ok;
    split_and!; try done; naive_solver.
Qed.

Lemma absorb_next_coalesced (sz : Z) (fr : bool) (l1 l2 : list block) :
  coalesced (l1 ++ (sz, fr) :: l2) ->
  let r := absorb_next sz l2 in coalesced l1 /\ coalesced ((r.1, true) :: r.2).
Proof.
  rewrite coalesced_app, coalesced_cons. intros (H1 & (H2 & H3) & H4). split; [done|].
  apply coalesced_cons. destruct l2 as [|[z2 [|]] l2]; simpl.
  - by split; [|done].
  - apply coalesced_cons in H3 as [H3 H5]. split; [|done]. intros y y' _ Hh.
    by apply (H3 z2 y').
  - split; [|done]. intros y y' _ Hh. done.
Qed.

Lemma release_coalesced (l1 l2 : list block) (sz : Z) (fr : bool) :
  coalesced (l1 ++ (sz, fr) :: l2) -> coalesced (release l1 sz l2).
Proof.
  intros H. unfold release. pose proof (absorb_next_coalesced sz fr l1 l2 H) as [H1 H2].
  destruct (absorb_next sz l2) as [sz' l2']. simpl in H2.
  apply coalesced_cons in H2 as [H2 H3].
  destruct l1 as [|[z1 f1] k _] using rev_ind.
  { simpl. by apply coalesced_cons. }
  rewrite absorb_prev_snoc. apply coalesced_app in H1 as (Hk & _ & Hs).
  destruct f1; apply coalesced_app; rewrite coalesced_cons.
  - split_and!; [done| |done|].
    + intros y y' _ Hh. by apply (H2 sz' y').
    + intros y y' Hl _. by apply (Hs y z1).
  - split_and!; [by apply coalesced_app| |done|].
    + intros y y' _ Hh. by apply (H2 sz' y').
    + intros y y' Hl _. rewrite last_snoc in Hl. done.
Qed.

(** Giving a carved block back restores the block it was carved from. *)
Lemma release_carve (l1 l2 : list block) (size sz : Z) :
  coalesced (l1 ++ (sz, true) :: l2) ->
  match carve size sz ++ l2 with
  | (z, _) :: l2' => release l1 z l2' = l1 ++ (sz, true) :: l2
  | [] => False
  end.
Proof.
  rewrite coalesced_app, coalesced_cons. intros (_ & (H2 & _) & H4).
  assert (Hp : absorb_prev l1 sz = (l1, sz)).
  { destruct l1 as [|[z1 [|]] k _] using rev_ind; [done| |by rewrite absorb_prev_snoc].
    exfalso. apply (H4 z1 sz); [by rewrite last_snoc|done]. }
  unfold carve. destruct (_ <? _); simpl; unfold release; simpl.
  - assert (Hn : absorb_next sz l2 = (sz, l2)).
    { destruct l2 as [|[z2 [|]] l2]; [done| |done]. exfalso. by apply (H2 sz z2). }
    by rewrite Hn, Hp.
  - replace (size + (32 + (sz - size - 32))) with sz by lia. by rewrite Hp.
Qed.

(** ** Initialisation *)

Lemma heap_init_spec (start size : Z) (h : heap) :
  0 < start -> MIN_BLOCK_SIZE <= size -> start + size + 64 <= 2 ^ 64 ->
  exists n, heap_inv (heap_init start size h) [(n, true)] /\ size - HEADER - 16 < n <= size - HEADER.
Proof.
  unfold MIN_BLOCK_SIZE. intros Hs Hm He. unfold heap_init, MIN_BLOCK_SIZE, ALIGN_SIZE.
  rewrite (proj2 (Z.eqb_neq start 0)), (proj2 (Z.ltb_ge size (32 + 16))) by lia. cbn [orb]. cbv zeta.
  rewrite (uwrap_small 64 (start + 8 - 1)) by lia. change (8 - 1) with (2 ^ 3 - 1).
  rewrite !land_align_down by (lia || apply uwrap_range; lia).
  set (al := (start + 8 - 1) / 2 ^ 3 * 2 ^ 3).
  assert (Hal : start <= al < start + 8) by (unfold al; change (2 ^ 3) with 8; dlia).
  rewrite (uwrap_small 64 (al - start)), (uwrap_small 64 (size - _)) by lia.
  set (n := (size - (al - start)) / 2 ^ 3 * 2 ^ 3).
  assert (Hn : size - (al - start) - 8 < n <= size - (al - start))
    by (unfold n; change (2 ^ 3) with 8; dlia).
  rewrite (uwrap_small 64 (n - 32)) by lia.
  exists (n - 32). split; [|lia].
  constructor; headers.
  - split; [lia|]. unfold al. change (2 ^ 3) with 8. by rewrite Z.mod_mul.
  - lia.
  - simpl. lia.
  - done.
  - done.
  - repeat constructor; simpl; [lia|]. unfold n. change (2 ^ 3) with 8. dlia.
  - simpl. unfold header. by memsimp.
Qed.

(** The block list of a heap is determined by its memory. *)
Lemma chain_unique (m : memory) (l k : list block) : forall (pv a : Z),
  0 < a -> Forall block_ok l -> Forall block_ok k -> l <> [] -> k <> [] ->
  chain m pv a l 0 -> chain m pv a k 0 -> l = k.
Proof.
  revert k. induction l as [|[z f] l IH]; intros [|[z' f'] k] pv a Ha Hl Hk Hnl Hnk; [done..|].
  apply Forall_cons in Hl as [[Hz _] Hl]. apply Forall_cons in Hk as [_ Hk]. simpl in Hz.
  intros [(G1 & G2 & G3 & _) Hc] [(K1 & K2 & K3 & _) Hc'].
  assert (z' = z) as -> by congruence.
  assert (f' = f) as -> by (destruct f, f'; simpl in *; congruence).
  f_equal. rewrite G3 in K3. destruct l as [|b l], k as [|c k]; simpl in K3; [done|lia|lia|].
  by apply (IH (c :: k) a (a + HEADER + z)); try done; lia.
Qed.

Lemma heap_inv_unique (h : heap) (l k : list block) : heap_inv h l -> heap_inv h k -> l = k.
Proof. intros [] []. apply (chain_unique (hmem h) l k 0 (heap_start h)); by try apply hi_start0. Qed.

(** ** Reachable heaps *)

(** [p] is the pointer of an allocated block. *)
Definition live (h : heap) (p : Z) : Prop :=
  exists l1 sz l2, heap_inv h (l1 ++ (sz, false) :: l2) /\ p = heap_start h + span l1 + HEADER.

(** Only payload bytes of allocated blocks differ: what the heap's clients do. *)
Definition client_write (h : heap) (m : memory) : Prop :=
  forall bs, heap_inv h bs ->
    forall x, ~ allocated_byte (heap_start h) bs x -> rd8 m x = rd8 (hmem h) x.

Inductive heap_reachable : heap -> Prop :=
  | hr_init start size h :
      0 < start -> MIN_BLOCK_SIZE <= size -> start + size + 64 <= 2 ^ 64 ->
      heap_reachable (heap_init start size h)
  | hr_kmalloc h size p h' :
      heap_reachable h -> 0 <= size <= 2 ^ 64 - 8 -> kmalloc size h = Some (p, h') ->
      heap_reachable h'
  | hr_kfree h p : heap_reachable h -> p = 0 \/ live h p -> heap_reachable (kfree p h)
  | hr_write h m :
      heap_reachable h -> client_write h m -> heap_reachable (with_mem (fun _ => m) h).

(** Payload writes do not touch the headers. *)
Lemma chain_client (m m' : memory) (l : list block) : forall (pv a nx : Z),
  Forall block_ok l -> (forall x, a <= x -> ~ allocated_byte a l x -> rd8 m' x = rd8 m x) ->
  chain m pv a l nx -> chain m' pv a l nx.
Proof.
  induction l as [|[z f] l IH]; intros pv a nx Hok H; [done|].
  apply Forall_cons in Hok as [[Hz _] Hok]. simpl in Hz. cbn [chain].
  assert (Hhd : forall x, a <= x < a + 32 -> rd8 m' x = rd8 m x).
  { intros x Hx. apply H; [lia|]. intros (k & y & r & Heq & Hb). destruct k as [|[zk fk] k]; simpl in *.
    - lia.
    - injection Heq as -> -> ->. apply Forall_app in Hok as [Hk _].
      pose proof (span_nonneg k Hk). lia. }
  intros [(G1 & G2 & G3 & G4) Hc]. split.
  - split_and!; rewrite (rdN_ext _ m); try done; intros x Hx; apply Hhd; lia.
  - apply IH; [done| |done]. intros x Hx Hna. apply H; [lia|]. intros (k & y & r & Heq & Hb).
    destruct k as [|[zk fk] k]; simpl in *; [injection Heq as -> -> ->; lia|].
    injection Heq as -> -> ->. apply Hna. exists k, y, r. split; [done|lia].
Qed.

Lemma client_write_inv (h : heap) (m : memory) (bs : list block) :
  heap_inv h bs -> client_write h m -> heap_inv (with_mem (fun _ => m) h) bs.
Proof.
  intros Hinv Hw. pose proof (Hw bs Hinv) as H. destruct Hinv.
  constructor; cbn [with_mem hmem heap_start heap_total_size heap_used_size]; try done.
  by apply (chain_client (hmem h)); [|auto|].
Qed.

Lemma kmalloc_total (h : heap) (bs : list block) (size : Z) :
  heap_inv h bs -> 0 <= size <= 2 ^ 64 - 8 ->
  exists p h', kmalloc size h = Some (p, h') /\
    ((h' = h /\ p = 0 /\ (size = 0 \/ first_fit (align_size size) bs = None)) \/
     (exists l1 sz l2, 0 < size /\ first_fit (align_size size) bs = Some (l1, sz, l2) /\
        p = heap_start h + span l1 + HEADER /\ heap_start h' = heap_start h /\
        heap_inv h' (l1 ++ carve (align_size size) sz ++ l2) /\
        forall x, allocated_byte (heap_start h) bs x -> rd8 (hmem h') x = rd8 (hmem h) x)).
Proof.
  intros Hinv Hs. destruct (decide (size = 0)) as [->|Hne].
  { exists 0, h. split; [done|]. left. by split_and!; [| |left]. }
  destruct (first_fit (align_size size) bs) as [[[l1 sz] l2]|] eqn:Hff.
  - pose proof (align_size_ok size ltac:(lia)) as [Ha0 Ha8].
    destruct (kmalloc_Some h bs l1 l2 size sz Hinv Hne Ha0 Ha8 Hff)
      as (h' & Hk & Hst & Hinv' & _ & Hfr).
    exists (heap_start h + span l1 + HEADER), h'. split; [done|]. right. exists l1, sz, l2.
    split_and!; [lia|done..|]. intros x Hx. apply Hfr.
    destruct (first_fit_Some _ _ _ _ _ Hff) as (-> & _ & _).
    apply allocated_byte_far in Hx; [done|]. by destruct Hinv.
  - exists 0, h. rewrite (kmalloc_None h bs size Hinv) by (done || lia). split; [done|].
    left. by split_and!; [| |right].
Qed.

Lemma heap_reachable_ok (h : heap) :
  heap_reachable h -> exists bs, heap_inv h bs /\ coalesced bs.
Proof.
  induction 1 as [start size h Hs Hm He|h size p h' _ (bs & Hinv & Hco) Hs Hk
                 |h p _ (bs & Hinv & Hco) Hp|h m _ (bs & Hinv & Hco) Hw].
  - destruct (heap_init_spec start size h Hs Hm He) as (n & Hi & _). by exists [(n, true)].
  - destruct (kmalloc_total h bs size Hinv Hs) as (p' & h'' & Hk' & Hcases).
    rewrite Hk in Hk'. injection Hk' as <- <-.
    destruct Hcases as [(-> & _)|(l1 & sz & l2 & _ & Hff & _ & _ & Hi & _)]; [by exists bs|].
    eexists. split; [exact Hi|]. apply carve_coalesced.
    by destruct (first_fit_Some _ _ _ _ _ Hff) as (<- & _ & _).
  - destruct Hp as [->|(l1 & sz & l2 & Hi & ->)]; [by exists bs|].
    rewrite (heap_inv_unique h bs _ Hinv Hi) in Hco.
    exists (release l1 sz l2). split; [by apply kfree_spec|by apply release_coalesced in Hco].
  - exists bs. split; [by apply client_write_inv|done].
Qed.

(** ** [krealloc] *)

Lemma allocated_app_l (s : Z) (l r : list block) (x : Z) :
  allocated_byte s l x -> allocated_byte s (l ++ r) x.
Proof.
  intros (k & z & t & -> & Hx). exists k, z, (t ++ r). split; [by rewrite <- app_assoc|done].
Qed.

Lemma allocated_app_r (s : Z) (l r : list block) (x : Z) :
  allocated_byte (s + span l) r x -> allocated_byte s (l ++ r) x.
Proof.
  intros (k & z & t & -> & Hx). exists (l ++ k), z, t. split; [by rewrite <- app_assoc|].
  rewrite span_app. lia.
Qed.

Lemma absorb_prev_allocated (s : Z) (l : list block) (sz x : Z) :
  allocated_byte s l x -> allocated_byte s (absorb_prev l sz).1 x.
Proof.
  destruct l as [|[z1 [|]] l _] using rev_ind; [done| |by rewrite absorb_prev_snoc].
  rewrite absorb_prev_snoc. simpl. intros (k & z & t & Heq & Hx).
  destruct t as [|b t _] using rev_ind.
  { apply app_inj_tail in Heq as [_ ?]. done. }
  rewrite app_comm_cons, app_assoc in Heq. apply app_inj_tail in Heq as [-> _].
  by exists k, z, t.
Qed.

(** Releasing a block keeps the other blocks allocated. *)
Lemma release_allocated (s : Z) (l1 l2 : list block) (sz x : Z) :
  Forall block_ok (l1 ++ (sz, false) :: l2) ->
  allocated_byte s (l1 ++ (sz, false) :: l2) x ->
  ~ (s + span l1 + HEADER <= x < s + span l1 + HEADER + sz) ->
  allocated_byte s (release l1 sz l2) x.
Proof.
  intros Hok (k & z & t & Heq & Hx) Hout.
  apply Forall_app in Hok as [Hok1 Hok2]. apply Forall_cons in Hok2 as [[Hsz Hsz8] Hok2].
  simpl in Hsz, Hsz8.
  destruct (absorb_next_facts sz l2 Hsz Hsz8 Hok2) as ([Ha1 Ha8] & _ & Hspn & _).
  unfold release. destruct (absorb_next sz l2) as [sz' l2'] eqn:En. simpl in *.
  destruct (absorb_prev_facts l1 sz' Ha1 Ha8 Hok1) as (_ & _ & Hspp & _).
  destruct (split_compare _ _ _ _ _ _ Heq) as [(-> & [= ->] & _)|[(k' & -> & _)|(k' & -> & ->)]].
  - lia.
  - assert (Ha : allocated_byte s (k ++ (z, false) :: k') x) by (by exists k, z, k').
    apply (absorb_prev_allocated _ _ sz') in Ha.
    destruct (absorb_prev _ sz') as [l1' sz'']. by apply allocated_app_l.
  - destruct (absorb_prev l1 sz') as [l1' sz'']. simpl in *.
    replace (l1' ++ (sz'', true) :: l2') with ((l1' ++ [(sz'', true)]) ++ l2')
      by (by rewrite <- app_assoc).
    apply allocated_app_r. rewrite span_app in *. simpl in *.
    destruct k' as [|[y [|]] k']; simpl in En; injection En as <- <-; simpl in *.
    + exists [], z, t. simpl. split; [done|lia].
    + exists k', z, t. split; [done|lia].
    + exists ((y, false) :: k'), z, t. simpl. split; [done|lia].
Qed.

(** The chain of a prefix of the heap fixes the first blocks of any heap there. *)
Lemma chain_prefix (m : memory) (l : list block) : forall (k : list block) (pv pv' a nx : Z),
  0 < a -> nx <> 0 -> Forall block_ok l -> k <> [] ->
  chain m pv a l nx -> chain m pv' a k 0 -> exists r, k = l ++ r /\ r <> [].
Proof.
  induction l as [|[z f] l IH]; intros k pv pv' a nx Ha Hnx Hl Hnk; [by exists k|].
  apply Forall_cons in Hl as [[Hz _] Hl]. simpl in Hz.
  destruct k as [|[z' f'] k]; [done|].
  intros [(G1 & G2 & G3 & _) Hc] [(K1 & K2 & K3 & _) Hc'].
  assert (z' = z) as -> by congruence.
  assert (f' = f) as -> by (destruct f, f'; simpl in *; congruence).
  destruct k as [|c k].
  { exfalso. rewrite G3 in K3. simpl in K3. destruct l; simpl in K3; lia. }
  destruct (IH (c :: k) a a (a + 32 + z) nx) as (r & -> & Hr); [lia|done..|].
  by exists r.
Qed.

Lemma align_size_idem (size : Z) :
  0 <= size <= 2 ^ 64 - 8 ->
  align_size (align_size size) = align_size size /\ size <= align_size size <= 2 ^ 64 - 8.
Proof.
  intros H. assert (Ha : size <= align_size size <= 2 ^ 64 - 8)
    by (rewrite align_size_spec by done; dlia).
  split; [|done]. rewrite (align_size_spec (align_size size)) by lia.
  destruct (align_size_ok size H). dlia.
Qed.

(** When the successor cannot be used, a growing [krealloc] allocates. *)
Lemma krealloc_reduces (h : heap) (l1 l2 : list block) (sz size : Z) :
  let p := heap_start h + span l1 + HEADER in
  heap_inv h (l1 ++ (sz, false) :: l2) -> 0 < size <= 2 ^ 64 - 8 -> sz < align_size size ->
  (forall z r, l2 = (z, true) :: r -> sz + HEADER + z < align_size size) ->
  krealloc p size h
  = match kmalloc (align_size size) h with
    | None => None
    | Some (q, h1) =>
        if q =? 0 then Some (0, h1)
        else Some (q, kfree p (with_mem (fun m => copy_bytes (Z.to_nat sz) m q p) h1))
    end.
Proof.
  intros p [[Hs _] Hend Htot _ _ Hok Hc] Hsize Hgrow Hnext.
  rewrite Htot, span_app in Hend. simpl in Hend.
  apply Forall_app in Hok as [Hok1 Hok2]. apply Forall_cons in Hok2 as [[Hsz _] Hok2].
  simpl in Hsz. pose proof (span_nonneg l1 Hok1). pose proof (span_nonneg l2 Hok2).
  destruct (chain_header _ _ _ _ _ _ _ _ Hc) as (G1 & _ & G3 & _).
  unfold krealloc. rewrite (proj2 (Z.eqb_neq p 0)), (proj2 (Z.eqb_neq size 0)) by (unfold p; lia).
  cbv zeta. replace (u64 (p - 32)) with (heap_start h + span l1)
    by (unfold p; rewrite uwrap_small; lia).
  unfold blk_size, blk_next, blk_free. rewrite G1, G3.
  rewrite (proj2 (Z.leb_gt (align_size size) sz)), (proj2 (Z.ltb_lt sz (align_size size))) by done.
  assert (Hno : negb (next_addr (heap_start h + span l1 + 32 + sz) l2 0 =? 0)
    && negb (rd32 (hmem h) (next_addr (heap_start h + span l1 + 32 + sz) l2 0 + 8) =? 0)
    && (align_size size <=? u64 (sz + 32 + rd64 (hmem h) (next_addr (heap_start h + span l1 + 32 + sz) l2 0)))
    = false); [|rewrite Hno; done].
  destruct l2 as [|[z f] l2]; [done|]. simpl next_addr.
  destruct (chain_header2 _ _ _ _ _ _ _ _ _ _ Hc) as (K1 & K2 & _ & _). rewrite K1, K2.
  destruct f; simpl; [|by rewrite andb_false_r]. apply andb_false_intro2, Z.leb_gt.
  apply Forall_cons in Hok2 as [[Hz _] Hok2]. simpl in *.
  pose proof (span_nonneg l2 Hok2). rewrite uwrap_small by lia. by apply (Hnext z l2).
Qed.

(** The old block, and the new one, in the heap after the allocation. *)
Lemma move_facts (h h1 : heap) (l1 l2 m1 m2 : list block) (sz z asz : Z) :
  let p := heap_start h + span l1 + HEADER in
  let q := heap_start h + span m1 + HEADER in
  heap_inv h (l1 ++ (sz, false) :: l2) -> heap_start h1 = heap_start h ->
  l1 ++ (sz, false) :: l2 = m1 ++ (z, true) :: m2 -> sz < asz <= z ->
  heap_inv h1 (m1 ++ carve asz z ++ m2) ->
  exists k1 k2 : list block, m1 ++ carve asz z ++ m2 = k1 ++ (sz, false) :: k2 /\ span k1 = span l1 /\
    0 < q /\
    (forall x, q <= x < q + sz -> allocated_byte (heap_start h) (m1 ++ carve asz z ++ m2) x) /\
    (q + sz <= p \/ p + sz <= q).
Proof.
  intros p q [[Hs _] _ _ _ _ Hok _] Hst Heq Hle _.
  pose proof Hok as Hok'. rewrite Heq in Hok'. apply Forall_app in Hok' as [Hom1 _].
  pose proof (span_nonneg m1 Hom1). apply Forall_app in Hok as [Hok1 Hok2].
  apply Forall_cons in Hok2 as [[Hsz _] _]. simpl in Hsz. pose proof (span_nonneg l1 Hok1).
  assert (Hnew : forall x, q <= x < q + sz ->
    allocated_byte (heap_start h) (m1 ++ carve asz z ++ m2) x).
  { intros x Hx. unfold q in Hx. unfold carve. destruct (_ <? _); cbn [app].
    - exists m1, z, m2. split; [done|lia].
    - exists m1, asz, ((z - asz - 32, true) :: m2). split; [done|lia]. }
  destruct (split_compare _ _ _ _ _ _ Heq) as [(_ & ? & _)|[(k & -> & ->)|(k & -> & ->)]]; [done| |].
  - exists (m1 ++ carve asz z ++ k), l2. split_and!.
    + by rewrite <- !app_assoc.
    + rewrite !span_app, Z.add_assoc. unfold carve. destruct (_ <? _); simpl; lia.
    + unfold q. lia.
    + done.
    + apply Forall_app in Hok1 as [_ Hk]. apply Forall_cons in Hk as [_ Hk].
      pose proof (span_nonneg k Hk). unfold p, q. rewrite span_app. simpl. left. lia.
  - exists l1, (k ++ carve asz z ++ m2). split_and!.
    + by rewrite <- app_assoc.
    + done.
    + unfold q. lia.
    + done.
    + apply Forall_app in Hom1 as [_ Hk]. apply Forall_cons in Hk as [_ Hk].
      pose proof (span_nonneg k Hk). unfold p, q. rewrite span_app. simpl. right. lia.
Qed.

(** ** The heap's contract *)


(** C3: [kfree] of an allocated block's pointer refines release on the list of
    blocks: the block becomes free and is merged with a free successor and a
    free predecessor, links and accounting are those of the new list, and no
    payload byte of a block that stays allocated changes. *)
Theorem kfree_refines_release (h : heap) (l1 l2 : list block) (sz : Z) :
  heap_inv h (l1 ++ (sz, false) :: l2) ->
  let h' := kfree (heap_start h + span l1 + HEADER) h in
  heap_inv h' (release l1 sz l2) /\
  forall x, allocated_byte (heap_start h) (release l1 sz l2) x ->
    rd8 (hmem h') x = rd8 (hmem h) x.
Proof.
  intros Hinv h'. destruct (kfree_spec h l1 l2 sz Hinv) as (H1 & _ & H2). by split.
Qed.

(** C4: after [heap_init], any sequence of [kmalloc], [kfree] of NULL or of
    allocated pointers, and writes of the clients to their blocks leaves a heap
    whose blocks tile it without gaps, are linked in both directions, are never
    two free neighbours, and whose [heap_used_size] is the space of the
    allocated blocks; [heap_get_free_size] is the rest. *)
Theorem heap_reachable_inv (h : heap) :
  heap_reachable h ->
  exists bs, heap_inv h bs /\ coalesced bs /\
    heap_get_used_size h = used_span bs /\
    heap_get_free_size h = heap_get_total_size h - used_span bs.
Proof.
  intros Hr. destruct (heap_reachable_ok h Hr) as (bs & Hinv & Hco). exists bs.
  split_and!; [done..|by destruct Hinv|].
  unfold heap_get_free_size, heap_get_total_size. destruct Hinv as [[Hs _] He Ht Hu _ Hok _].
  pose proof (used_span_range bs Hok). rewrite Hu. apply uwrap_small. lia.
Qed.

(** C37: [kfree] directly after [kmalloc] undoes it: the heap has the same
    blocks and the same accounting as before. *)
Theorem kmalloc_kfree_roundtrip (h h' : heap) (bs : list block) (size p : Z) :
  heap_inv h bs -> coalesced bs -> 0 <= size <= 2 ^ 64 - 8 ->
  kmalloc size h = Some (p, h') ->
  heap_inv (kfree p h') bs.
Proof.
  intros Hinv Hco Hs Hk. destruct (kmalloc_total h bs size Hinv Hs) as (p' & h'' & Hk' & Hcases).
  rewrite Hk in Hk'. injection Hk' as <- <-.
  destruct Hcases as [(-> & -> & _)|(l1 & sz & l2 & _ & Hff & -> & Hst & Hi & _)]; [done|].
  destruct (first_fit_Some _ _ _ _ _ Hff) as (-> & _ & _).
  pose proof (release_carve l1 l2 (align_size size) sz Hco) as Hr. rewrite <- Hst.
  unfold carve in *. destruct (_ <? _); cbn [app] in *; rewrite <- Hr; by apply kfree_spec.
Qed.

(** [krealloc] to a larger size that cannot grow in place moves the block:
    it returns NULL and leaves the heap alone when no free block fits, and
    otherwise returns a block whose first bytes are the old contents, in a
    well-formed heap where the old block has been released. *)
Theorem krealloc_moves (h : heap) (l1 l2 : list block) (sz size : Z) :
  let p := heap_start h + span l1 + HEADER in
  let bs := l1 ++ (sz, false) :: l2 in
  heap_inv h bs -> 0 < size <= 2 ^ 64 - 8 -> sz < align_size size ->
  (forall z r, l2 = (z, true) :: r -> sz + HEADER + z < align_size size) ->
  (first_fit (align_size size) bs = None /\ krealloc p size h = Some (0, h)) \/
  (exists q h' bs', krealloc p size h = Some (q, h') /\ q <> 0 /\ heap_inv h' bs' /\
     forall i, 0 <= i < sz -> rd8 (hmem h') (q + i) = rd8 (hmem h) (p + i)).
Proof.
  intros p bs Hinv Hsize Hgrow Hnext.
  pose proof (krealloc_reduces h l1 l2 sz size Hinv Hsize Hgrow Hnext) as Hred.
  cbv zeta in Hred. fold p in Hred. rewrite Hred. clear Hred.
  destruct (align_size_idem size ltac:(lia)) as [Hidem Hbound]. set (asz := align_size size) in *.
  destruct (kmalloc_total h bs asz Hinv ltac:(lia)) as (q & h1 & -> & Hcases).
  rewrite Hidem in Hcases.
  destruct Hcases as [(-> & -> & [?|Hff])|(m1 & z & m2 & _ & Hff & Hq & Hst & Hi1 & Hfr1)];
    [lia|left; by split|right].
  destruct (first_fit_Some _ _ _ _ _ Hff) as (Hbs & Hle & _).
  destruct (move_facts h h1 l1 l2 m1 m2 sz z asz Hinv Hst Hbs ltac:(lia) Hi1)
    as (k1 & k2 & Hk & Hspan & Hq0 & Hnew & Hdisj).
  rewrite <- Hq in Hq0, Hnew, Hdisj. fold p in Hdisj.
  rewrite (proj2 (Z.eqb_neq q 0)) by lia. set (h2 := with_mem _ h1).
  assert (Hsz0 : 0 <= sz).
  { destruct Hinv as [_ _ _ _ _ Hok _]. apply Forall_app in Hok as [_ Hok].
    by apply Forall_cons in Hok as [[Hok _] _]. }
  assert (Hi2 : heap_inv h2 (k1 ++ (sz, false) :: k2)).
  { rewrite <- Hk. apply client_write_inv; [done|]. intros bs' Hbs' x Hx.
    rewrite (heap_inv_unique h1 bs' _ Hbs' Hi1), Hst in Hx.
    rewrite copy_bytes_spec by lia. destruct (Z.leb_spec q x), (Z.ltb_spec x (q + Z.of_nat (Z.to_nat sz)));
      simpl; try done. exfalso. apply Hx, Hnew. lia. }
  assert (Hp : p = heap_start h2 + span k1 + 32) by (unfold p; simpl; lia).
  destruct (kfree_spec h2 k1 k2 sz Hi2) as (Hi3 & _ & Hfr3). rewrite <- Hp in Hi3, Hfr3.
  exists q, (kfree p h2), (release k1 sz k2). split_and!; [done|lia|done|].
  intros i Hi. rewrite Hfr3.
  - unfold h2. cbn [with_mem hmem]. rewrite copy_bytes_spec by lia.
    rewrite (proj2 (Z.leb_le q (q + i))), (proj2 (Z.ltb_lt (q + i) _)) by lia. simpl.
    replace (p + (q + i - q)) with (p + i) by lia. apply Hfr1.
    exists l1, sz, l2. split; [done|unfold p; lia].
  - apply release_allocated; [by destruct Hi2| |simpl; rewrite Hst; lia].
    rewrite <- Hk. simpl. rewrite Hst. apply Hnew. lia.
Qed.

(** C27: defect of [krealloc]: growing in place into a free successor sets the
    block's size but keeps the successor in the list, with its header inside the
    grown payload; no list of blocks describes the result, whatever the heap. *)
Theorem krealloc_grow_in_place_breaks (h : heap) (l1 l2 : list block) (sz z2 size : Z) :
  let b := heap_start h + span l1 in
  let p := b + HEADER in
  heap_inv h (l1 ++ (sz, false) :: (z2, true) :: l2) ->
  0 < size <= 2 ^ 64 - 8 -> sz < align_size size <= sz + HEADER + z2 ->
  exists h', krealloc p size h = Some (p, h') /\
    kmalloc_size p h' = align_size size /\
    (blk_next b h' = p + sz /\ p <= blk_next b h' < p + align_size size) /\
    forall bs, ~ heap_inv h' bs.
Proof.
  intros b p [[Hs _] Hend Htot _ _ Hok Hc] Hsize Hasz.
  rewrite Htot, span_app in Hend. simpl in Hend.
  apply Forall_app in Hok as [Hok1 Hok2]. apply Forall_cons in Hok2 as [[Hsz _] Hok2].
  apply Forall_cons in Hok2 as [[Hz2 _] Hok2]. simpl in Hsz, Hz2.
  pose proof (span_nonneg l1 Hok1). pose proof (span_nonneg l2 Hok2).
  destruct (chain_header _ _ _ _ _ _ _ _ Hc) as (G1 & _ & G3 & _). simpl in G3.
  destruct (chain_header2 _ _ _ _ _ _ _ _ _ _ Hc) as (K1 & K2 & _ & _).
  fold b in G1, G3, K1, K2. set (asz := align_size size) in *.
  assert (Hb : 0 < b /\ b + 32 + sz + 32 + z2 + span l2 + 64 <= 2 ^ 64) by (unfold b; lia).
  unfold krealloc. rewrite (proj2 (Z.eqb_neq p 0)), (proj2 (Z.eqb_neq size 0)) by (unfold p; lia).
  cbv zeta. fold asz. replace (u64 (p - 32)) with b by (unfold p; rewrite uwrap_small; lia).
  assert (Gs : blk_size b h = sz) by done. assert (Gn : blk_next b h = b + 32 + sz) by done.
  assert (Kf : blk_free (b + 32 + sz) h = 1) by done.
  assert (Ks : blk_size (b + 32 + sz) h = z2) by done.
  rewrite Gs, Gn, Kf, Ks, (uwrap_small 64 (sz + 32 + z2)) by lia.
  rewrite (proj2 (Z.leb_gt asz sz)), (proj2 (Z.eqb_neq (b + 32 + sz) 0)) by lia.
  rewrite (proj2 (Z.leb_le asz (sz + 32 + z2))) by lia. cbn [negb andb Z.eqb].
  set (h1 := set_size b asz (set_free (b + 32 + sz) 0 h)).
  assert (Hns : split_block b asz h1 = h1).
  { unfold split_block, h1, MIN_BLOCK_SIZE. headers. memsimp. rewrite uwrap_small by lia.
    by rewrite (proj2 (Z.ltb_lt _ _)) by lia. }
  rewrite Hns. exists h1.
  assert (H1s : blk_size b h1 = asz) by (unfold h1; headers; by memsimp).
  assert (H1n : blk_next b h1 = b + 32 + sz) by (unfold h1; headers; by memsimp).
  split_and!.
  - done.
  - unfold kmalloc_size. rewrite (proj2 (Z.eqb_neq p 0)) by (unfold p; lia).
    replace (u64 (p - 32)) with b by (unfold p; rewrite uwrap_small; lia). done.
  - rewrite H1n. unfold p. lia.
  - rewrite H1n. unfold p. lia.
  - rewrite H1n. unfold p. lia.
  - intros bs [[_ _] _ _ _ Hne Hokb Hcb]. change (heap_start h1) with (heap_start h) in Hcb.
    assert (Hc1 : chain (hmem h1) 0 (heap_start h) l1 b).
    { apply (chain_ext (hmem h)); [done| |].
      - intros x Hx. unfold h1. headers. by memsimp.
      - apply chain_app in Hc as [Hc _]. exact Hc. }
    destruct (chain_prefix (hmem h1) l1 bs 0 0 (heap_start h) b) as (r & -> & Hr);
      [done|lia|done..|].
    destruct r as [|[z f] r]; [done|].
    destruct (chain_header _ _ _ _ _ _ _ _ Hcb) as (R1 & _ & R3 & _). fold b in R1, R3.
    unfold blk_size in H1s. unfold blk_next in H1n. rewrite H1s in R1. rewrite H1n in R3.
    destruct r; simpl in R3; lia.
Qed.

(** [krealloc] to a smaller size keeps the pointer and the contents and
    splits the block when enough remains, leaving a well-linked heap; defect: it
    does not give the space back in [heap_used_size], which from then on exceeds
    the space of the allocated blocks by exactly what was cut off. *)
Theorem krealloc_shrink (h : heap) (l1 l2 : list block) (sz size : Z) :
  let p := heap_start h + span l1 + HEADER in
  let asz := align_size size in
  heap_inv h (l1 ++ (sz, false) :: l2) -> 0 < size <= 2 ^ 64 - 8 -> asz + MIN_BLOCK_SIZE <= sz ->
  exists h', krealloc p size h = Some (p, h') /\
    let bs' := l1 ++ (asz, false) :: (sz - asz - HEADER, true) :: l2 in
    chain (hmem h') 0 (heap_start h') bs' 0 /\ heap_total_size h' = span bs' /\
    heap_used_size h' = used_span bs' + (sz - asz) /\
    forall i, 0 <= i < asz -> rd8 (hmem h') (p + i) = rd8 (hmem h) (p + i).
Proof.
  intros p asz [[Hs _] Hend Htot Hused _ Hok Hc] Hsize Hle.
  destruct (align_size_ok size ltac:(lia)) as [Ha0 _]. fold asz in Ha0.
  rewrite Htot, span_app in Hend. simpl in Hend.
  apply Forall_app in Hok as [Hok1 Hok2]. apply Forall_cons in Hok2 as [[Hsz _] Hok2]. simpl in Hsz.
  pose proof (span_nonneg l1 Hok1). pose proof (span_nonneg l2 Hok2).
  destruct (chain_header _ _ _ _ _ _ _ _ Hc) as (G1 & _ & G3 & _).
  unfold krealloc. rewrite (proj2 (Z.eqb_neq p 0)), (proj2 (Z.eqb_neq size 0)) by (unfold p; lia).
  cbv zeta. fold asz. replace (u64 (p - 32)) with (heap_start h + span l1)
    by (unfold p; rewrite uwrap_small; lia).
  unfold blk_size at 1. rewrite G1, (proj2 (Z.leb_le asz sz)) by (unfold MIN_BLOCK_SIZE in *; lia).
  rewrite (split_block_mem h (heap_start h + span l1) asz sz _ ltac:(lia) ltac:(lia) Ha0 Hle G1 G3).
  eexists. split; [reflexivity|]. cbn [with_mem hmem heap_start heap_total_size heap_used_size].
  unfold MIN_BLOCK_SIZE in Hle. split_and!.
  - apply chain_split; (done || unfold MIN_BLOCK_SIZE; lia).
  - rewrite Htot, !span_app. simpl. lia.
  - rewrite Hused, !used_span_app. simpl. lia.
  - intros i Hi. apply split_mem_frame. unfold p, split_area.
    destruct l2 as [|b l2]; simpl; lia.
Qed.

(** Defect of [kmalloc]: a size within 7 of [2^64] wraps to 0 when it is
    aligned, and any free block then satisfies the request. *)
Theorem kmalloc_size_wraps (h : heap) (l1 l2 : list block) (sz size : Z) :
  heap_inv h (l1 ++ (sz, true) :: l2) -> Forall (fun b => b.2 = false) l1 ->
  2 ^ 64 - 7 <= size < 2 ^ 64 ->
  exists p h', kmalloc size h = Some (p, h') /\ p <> 0 /\
    kmalloc_size p h' < MIN_BLOCK_SIZE < size.
Proof.
  intros Hinv Hused Hsize.
  assert (Ha : align_size size = 0).
  { unfold align_size, ALIGN_SIZE.
    replace (u64 (size + 8 - 1)) with (size + 7 - 2 ^ 64) by (unfold uwrap; dlia).
    rewrite (land_align_down 3) by lia. change (2 ^ 3) with 8. dlia. }
  assert (Hff : first_fit (align_size size) (l1 ++ (sz, true) :: l2) = Some (l1, sz, l2)).
  { rewrite Ha. destruct Hinv as [_ _ _ _ _ Hok _].
    apply Forall_app in Hok as [_ Hok]. apply Forall_cons in Hok as [[Hsz _] _]. simpl in Hsz.
    induction Hused as [|[z f] l1 Hf _ IH]; simpl in *.
    - by rewrite (proj2 (Z.leb_le 0 sz)).
    - subst f. simpl. by rewrite IH. }
  destruct (kmalloc_Some h _ l1 l2 size sz Hinv ltac:(lia) ltac:(lia) ltac:(by rewrite Ha) Hff)
    as (h' & Hk & Hst & Hi & Hbs & _).
  destruct Hinv as [[Hs _] Hend Htot _ _ Hok _]. rewrite Htot, span_app in Hend. simpl in Hend.
  apply Forall_app in Hok as [Hok1 Hok2]. apply Forall_cons in Hok2 as [[Hsz _] Hok2]. simpl in Hsz.
  pose proof (span_nonneg l1 Hok1). pose proof (span_nonneg l2 Hok2).
  eexists _, h'. split; [exact Hk|]. split; [lia|]. unfold kmalloc_size.
  rewrite (proj2 (Z.eqb_neq _ 0)) by lia.
  replace (u64 (heap_start h + span l1 + 32 - 32)) with (heap_start h + span l1)
    by (rewrite uwrap_small; lia).
  rewrite Hbs, Ha. unfold MIN_BLOCK_SIZE. destruct (Z.ltb_spec sz (0 + (32 + 16))); lia.
Qed.

(** Defect of [kmalloc_aligned]: when the pointer [kmalloc] returned is already
    aligned (always so for [align <= 8]), the word stored in front of it is the
    [prev] field of its own block header, which is overwritten with the pointer. *)
Theorem kmalloc_aligned_clobbers_header (h h1 : heap) (size p : Z) :
  0 <= size -> size + 8 + HEADER < 2 ^ 64 -> kmalloc (size + 8 + HEADER) h = Some (p, h1) ->
  0 < p < 2 ^ 64 - 8 -> p mod 8 = 0 ->
  exists h2, kmalloc_aligned size 8 h = Some (p, h2) /\ blk_prev (p - HEADER) h2 = p.
Proof.
  intros Hs Hs2 Hk Hp Hp8. unfold kmalloc_aligned, ALIGN_SIZE. cbn [Z.ltb Z.compare Pos.compare Pos.compare_cont].
  change (negb (Z.land 8 (8 - 1) =? 0)) with false. cbv iota zeta.
  rewrite (uwrap_small 64 (size + 8 + 32)), Hk, (proj2 (Z.eqb_neq p 0)) by lia.
  rewrite (uwrap_small 64 (p + 8 - 1)) by lia. change (8 - 1) with (2 ^ 3 - 1).
  rewrite land_align_down by lia. replace ((p + 8 - 1) / 2 ^ 3 * 2 ^ 3) with p
    by (change (2 ^ 3) with 8; dlia).
  eexists. split; [reflexivity|]. headers. replace (p - 32 + 24) with (p - 8) by lia. by memsimp.
Qed.

(** ** Concrete instances *)

(** The heap of [kernel_main]: 1 MB at 4 MB. *)
Definition demo_heap : heap := heap_init 0x400000 0x100000 (Heap ∅ 0 0 0).
Definition demo_heap1 : heap :=
  match kmalloc 100 demo_heap with Some (_, h) => h | None => demo_heap end.
Definition demo_heap2 : heap :=
  match kmalloc 24 demo_heap1 with Some (_, h) => h | None => demo_heap1 end.

(** Checks the invariant of a concrete heap by evaluation. *)
Ltac eval_heap_inv :=
  constructor; [vm_compute; split; reflexivity|vm_compute; discriminate|vm_compute; reflexivity
    |vm_compute; reflexivity|discriminate
    |repeat constructor; simpl; try lia; reflexivity
    |vm_compute; repeat (split; [repeat split; reflexivity|]); exact I].

Lemma demo_heap_inv : heap_inv demo_heap [(1048544, true)].
Proof. eval_heap_inv. Qed.

Lemma demo_heap1_inv : heap_inv demo_heap1 [(104, false); (1048408, true)].
Proof. eval_heap_inv. Qed.

Lemma demo_heap2_inv : heap_inv demo_heap2 [(104, false); (24, false); (1048352, true)].
Proof. eval_heap_inv. Qed.


Lemma kfree_refines_release_witness :
  heap_inv (kfree 0x400020 demo_heap1) [(1048544, true)].
Proof. exact (proj1 (kfree_refines_release demo_heap1 [] [(1048408, true)] 104 demo_heap1_inv)). Defined.

Lemma heap_reachable_inv_witness :
  heap_reachable demo_heap /\ exists bs, heap_inv demo_heap bs /\ coalesced bs.
Proof.
  assert (H : heap_reachable demo_heap) by (apply hr_init; unfold MIN_BLOCK_SIZE; lia).
  split; [exact H|]. destruct (heap_reachable_inv demo_heap H) as (bs & H1 & H2 & _).
  by exists bs.
Defined.

Lemma kmalloc_kfree_roundtrip_witness :
  heap_inv (kfree 0x400020 demo_heap1) [(1048544, true)].
Proof.
  apply (kmalloc_kfree_roundtrip demo_heap demo_heap1 [(1048544, true)] 100 0x400020).
  - apply demo_heap_inv.
  - exact I.
  - lia.
  - vm_compute. reflexivity.
Defined.

Lemma demo_start : heap_start demo_heap1 + span [] + HEADER = 0x400020 /\
  heap_start demo_heap2 + span [] + HEADER = 0x400020.
Proof. vm_compute. split; reflexivity. Qed.

Lemma krealloc_moves_witness :
  exists q h' bs', krealloc 0x400020 200 demo_heap2 = Some (q, h') /\ q <> 0 /\ heap_inv h' bs'.
Proof.
  destruct (krealloc_moves demo_heap2 [] [(24, false); (1048352, true)] 104 200 demo_heap2_inv)
    as [[H _]|(q & h' & bs' & H1 & H2 & H3 & _)].
  - lia.
  - vm_compute. reflexivity.
  - intros z r [=].
  - vm_compute in H. discriminate.
  - rewrite (proj2 demo_start) in H1. exact (ex_intro _ q (ex_intro _ h' (ex_intro _ bs' (conj H1 (conj H2 H3))))).
Defined.

Lemma krealloc_grow_in_place_breaks_witness :
  exists h', krealloc 0x400020 200 demo_heap1 = Some (0x400020, h') /\ forall bs, ~ heap_inv h' bs.
Proof.
  destruct (krealloc_grow_in_place_breaks demo_heap1 [] [] 104 1048408 200 demo_heap1_inv)
    as (h' & H1 & _ & _ & H2).
  - lia.
  - vm_compute. split; [reflexivity|discriminate].
  - rewrite (proj1 demo_start) in H1. exact (ex_intro _ h' (conj H1 H2)).
Defined.

Lemma krealloc_shrink_witness :
  exists h', krealloc 0x400020 8 demo_heap1 = Some (0x400020, h') /\
    heap_used_size h' = used_span [(8, false); (64, true); (1048408, true)] + 96.
Proof.
  destruct (krealloc_shrink demo_heap1 [] [(1048408, true)] 104 8 demo_heap1_inv)
    as (h' & H1 & _ & _ & H2 & _).
  - lia.
  - vm_compute. discriminate.
  - rewrite (proj1 demo_start) in H1. exists h'. split; [exact H1|]. rewrite H2.
    vm_compute. reflexivity.
Defined.
