(* ===== verification/Vmm.v ===== *)
(** * The virtual memory manager ([kernel/mm/vmm.c])

    Four-level paging over identity-mapped table pages.  The state is the
    kernel's PML4 pointer, the CR3 register, the memory that holds the tables
    and the page allocator the code calls, which is used through its interface
    ([PageAlloc.v]) only.  The invariant [vmm_inv] says that the tables reachable
    from the PML4 form a tree of depth four; under it the mapping that
    [vmm_get_physical] computes is the abstract map that [vmm_map_page] and
    [vmm_unmap_page] update at one page and nowhere else. *)

From S2P Require Import Prelude Mem PageAlloc.

(** ** Page table entries *)

Definition VMM_PRESENT : Z := Z.shiftl 1 0.
Definition VMM_WRITABLE : Z := Z.shiftl 1 1.
Definition VMM_USER : Z := Z.shiftl 1 2.
Definition VMM_HUGE : Z := Z.shiftl 1 7.
Definition VMM_NX : Z := Z.shiftl 1 63.

(** [~0xFFF], an [int] converted to [uint64_t]. *)
Definition FRAME_MASK : Z := u64 (Z.lnot 0xFFF).

Definition pml4_index (virt : Z) : Z := Z.land (Z.shiftr virt 39) 0x1FF.
Definition pdpt_index (virt : Z) : Z := Z.land (Z.shiftr virt 30) 0x1FF.
Definition pd_index (virt : Z) : Z := Z.land (Z.shiftr virt 21) 0x1FF.
Definition pt_index (virt : Z) : Z := Z.land (Z.shiftr virt 12) 0x1FF.

(** [!(entry & VMM_PRESENT)], negated. *)
Definition present (entry : Z) : bool := negb (Z.land entry VMM_PRESENT =? 0).

(** [&table->entries[i]] *)
Definition slot (table i : Z) : Z := table + 8 * i.

Record vmm (S : Type) := Vmm {
  kernel_pml4 : Z;      (** [pml4_t *kernel_pml4]; 0 is NULL *)
  cr3 : Z;              (** the CR3 register *)
  vmem : memory;        (** physical memory, identity mapped *)
  frames : S;           (** the state of the page allocator *)
  flushed : list Z      (** the addresses given to [invlpg], newest first *)
}.
Arguments Vmm {S}.
Arguments kernel_pml4 {S}.
Arguments cr3 {S}.
Arguments vmem {S}.
Arguments frames {S}.
Arguments flushed {S}.

Section Operations.
  Context {S : Type} `{PageAllocator S}.
  Implicit Types s : vmm S.

Definition with_vmem (m : memory) s : vmm S := Vmm (kernel_pml4 s) (cr3 s) m (frames s) (flushed s).
Definition with_frames (f : S) s : vmm S := Vmm (kernel_pml4 s) (cr3 s) (vmem s) f (flushed s).
Definition set_kernel_pml4 (a : Z) s : vmm S := Vmm a (cr3 s) (vmem s) (frames s) (flushed s).
Definition vmm_set_cr3 (a : Z) s : vmm S := Vmm (kernel_pml4 s) a (vmem s) (frames s) (flushed s).
Definition vmm_invalidate_tlb (virt : Z) s : vmm S :=
  Vmm (kernel_pml4 s) (cr3 s) (vmem s) (frames s) (virt :: flushed s).

Definition vmm_alloc_page_table s : Z * vmm S :=
  let '(page, f) := pa_alloc (frames s) in
  if page =? 0 then (0, with_frames f s)
  else (page, with_vmem (zero_words 512 (vmem s) page) (with_frames f s)).

(** One level of [vmm_get_or_create_entry]: the table that entry [idx] of
    [table] points to, allocated when the entry is not present.  [None] is the
    early [return NULL]. *)
Definition vmm_next_table (table idx : Z) s : option Z * vmm S :=
  let entry := rd64 (vmem s) (slot table idx) in
  if negb (present entry) then
    let '(phys, s1) := vmm_alloc_page_table s in
    if phys =? 0 then (None, s1)
    else
      let entry := Z.lor (Z.lor phys VMM_PRESENT) VMM_WRITABLE in
      (Some phys, with_vmem (wr64 (vmem s1) (slot table idx) entry) s1)
  else (Some (Z.land entry FRAME_MASK), s).

Definition vmm_get_or_create_entry (virt : Z) s : option Z * vmm S :=
  let pml4 := kernel_pml4 s in
  if pml4 =? 0 then (None, s)
  else
    match vmm_next_table pml4 (pml4_index virt) s with
    | (None, s1) => (None, s1)
    | (Some pdpt, s1) =>
      match vmm_next_table pdpt (pdpt_index virt) s1 with
      | (None, s2) => (None, s2)
      | (Some pd, s2) =>
        match vmm_next_table pd (pd_index virt) s2 with
        | (None, s3) => (None, s3)
        | (Some pt, s3) => (Some (slot pt (pt_index virt)), s3)
        end
      end
    end.

(** [None]: no memory for a PML4, the processor halts. *)
Definition vmm_init s : option (vmm S) :=
  let s1 := set_kernel_pml4 (cr3 s) s in
  if kernel_pml4 s1 =? 0 then
    let '(page, f) := pa_alloc (frames s1) in
    if page =? 0 then None
    else
      let s2 := set_kernel_pml4 page (with_frames f s1) in
      let s3 := with_vmem (zero_words 512 (vmem s2) page) s2 in
      Some (vmm_set_cr3 (kernel_pml4 s3) s3)
  else Some s1.

Definition vmm_map_page (virt phys flags : Z) s : vmm S :=
  match vmm_get_or_create_entry virt s with
  | (None, s1) => s1
  | (Some entry, s1) =>
      vmm_invalidate_tlb virt
        (with_vmem (wr64 (vmem s1) entry
           (Z.lor (Z.lor (Z.land phys FRAME_MASK) flags) VMM_PRESENT)) s1)
  end.

Definition vmm_unmap_page (virt : Z) s : vmm S :=
  match vmm_get_or_create_entry virt s with
  | (None, s1) => s1
  | (Some entry, s1) => vmm_invalidate_tlb virt (with_vmem (wr64 (vmem s1) entry 0) s1)
  end.

Definition vmm_get_physical (virt : Z) s : Z :=
  let pml4 := kernel_pml4 s in
  if pml4 =? 0 then 0
  else
    let pml4_entry := rd64 (vmem s) (slot pml4 (pml4_index virt)) in
    if negb (present pml4_entry) then 0
    else
      let pdpt := Z.land pml4_entry FRAME_MASK in
      let pdpt_entry := rd64 (vmem s) (slot pdpt (pdpt_index virt)) in
      if negb (present pdpt_entry) then 0
      else
        let pd := Z.land pdpt_entry FRAME_MASK in
        let pd_entry := rd64 (vmem s) (slot pd (pd_index virt)) in
        if negb (present pd_entry) then 0
        else
          let pt := Z.land pd_entry FRAME_MASK in
          let pt_entry := rd64 (vmem s) (slot pt (pt_index virt)) in
          if negb (present pt_entry) then 0
          else Z.lor (Z.land pt_entry FRAME_MASK) (Z.land virt 0xFFF).

Definition vmm_get_kernel_pml4 s : Z := kernel_pml4 s.

(** [for (i = lo; i < lo + n; i++) new->entries[i] = kernel->entries[i]] *)
Fixpoint copy_entries (n : nat) (i new kernel : Z) (m : memory) : memory :=
  match n with
  | O => m
  | Datatypes.S n' =>
      copy_entries n' (i + 1) new kernel (wr64 m (slot new i) (rd64 m (slot kernel i)))
  end.

Definition vmm_create_address_space s : Z * vmm S :=
  let '(page, f) := pa_alloc (frames s) in
  if page =? 0 then (0, with_frames f s)
  else
    let m := zero_words 512 (vmem s) page in
    let m := if kernel_pml4 s =? 0 then m else copy_entries 256 256 page (kernel_pml4 s) m in
    (page, with_vmem m (with_frames f s)).

Definition vmm_switch_address_space (pml4 : Z) s : vmm S :=
  if pml4 =? 0 then s else vmm_set_cr3 pml4 s.

(** [for (i = lo; i < lo + n; i++) if (present) pml4->entries[i] = 0] *)
Fixpoint clear_entries (n : nat) (i pml4 : Z) (m : memory) : memory :=
  match n with
  | O => m
  | Datatypes.S n' =>
      let m' := if present (rd64 m (slot pml4 i)) then wr64 m (slot pml4 i) 0 else m in
      clear_entries n' (i + 1) pml4 m'
  end.

Definition vmm_destroy_address_space (pml4 : Z) s : vmm S :=
  if pml4 =? 0 then s
  else
    let m := clear_entries 256 0 pml4 (vmem s) in
    with_vmem m (with_frames (pa_free pml4 (frames s)) s).

End Operations.

(** ** Arithmetic of entries and indices *)

Lemma mask_eq (e : Z) : 0 <= e < 2 ^ 64 -> Z.land e FRAME_MASK = e / 4096 * 4096.
Proof. intros He. exact (land_align_down 12 e ltac:(lia) He). Qed.

Lemma index_eq (k virt : Z) : 0 <= k -> Z.land (Z.shiftr virt k) 0x1FF = virt / 2 ^ k mod 512.
Proof. intros Hk. rewrite Z.shiftr_div_pow2 by done. exact (Z.land_ones _ 9 ltac:(lia)). Qed.

Lemma offset_eq (virt : Z) : Z.land virt 0xFFF = virt mod 4096.
Proof. exact (Z.land_ones _ 12 ltac:(lia)). Qed.

Lemma present_testbit (e : Z) : present e = Z.testbit e 0.
Proof.
  unfold present. change VMM_PRESENT with (Z.ones 1). rewrite Z.land_ones by lia.
  rewrite Z.bit0_odd. change (2 ^ 1) with 2. rewrite Zmod_odd. by destruct (Z.odd e).
Qed.

(** An entry that was built from a table's address leads back to it. *)
Lemma table_entry (a : Z) :
  0 <= a < 2 ^ 64 -> a mod 4096 = 0 ->
  let e := Z.lor (Z.lor a VMM_PRESENT) VMM_WRITABLE in
  Z.land e FRAME_MASK = a /\ present e = true /\ 0 <= e < 2 ^ 64.
Proof.
  intros Ha Hal e.
  assert (He : e = a + 3).
  { unfold e. rewrite <- Z.lor_assoc. apply (lor_add a 3).
    apply Z.bits_inj'; intros i Hi. rewrite Z.land_spec, Z.bits_0.
    change (Z.testbit 3 i) with (Z.testbit (Z.ones 2) i).
    rewrite Z.testbit_ones_nonneg by lia. destruct (Z.ltb_spec i 2); [|by rewrite andb_false_r].
    rewrite <- (Z.mod_pow2_bits_low a 12 i) by lia. change (2 ^ 12) with 4096.
    by rewrite Hal, Z.bits_0. }
  assert (a / 4096 * 4096 = a) by dlia.
  split; [|split].
  - rewrite mask_eq by (rewrite He; dlia). rewrite He. dlia.
  - rewrite present_testbit, He, Z.bit0_odd. rewrite Z.odd_add.
    replace a with (2 * (a / 4096 * 2048)) by lia. by rewrite Z.odd_mul.
  - rewrite He. dlia.
Qed.

(** The entry [vmm_map_page] stores. *)
Definition map_entry (phys flags : Z) : Z :=
  Z.lor (Z.lor (Z.land phys FRAME_MASK) flags) VMM_PRESENT.

Lemma map_entry_ok (phys flags : Z) :
  0 <= phys < 2 ^ 64 -> 0 <= flags < 2 ^ 64 ->
  0 <= map_entry phys flags < 2 ^ 64 /\ present (map_entry phys flags) = true /\
  Z.land (map_entry phys flags) FRAME_MASK
  = Z.lor (Z.land phys FRAME_MASK) (Z.land flags FRAME_MASK).
Proof.
  intros Hp Hf. unfold map_entry. split; [|split].
  - apply lor_range; [lia| |by split]. apply lor_range; [lia|by apply land_range|done].
  - rewrite present_testbit, Z.lor_spec. apply orb_true_r.
  - rewrite !Z.land_lor_distr_l, <- Z.land_assoc, Z.land_diag.
    change (Z.land VMM_PRESENT FRAME_MASK) with 0. apply Z.lor_0_r.
Qed.

Lemma mask_flags (flags : Z) : 0 <= flags < 4096 -> Z.land flags FRAME_MASK = 0.
Proof. intros H. rewrite mask_eq by lia. by rewrite Z.div_small. Qed.

(** [frame | offset] *)
Lemma frame_offset (p v : Z) :
  0 <= p < 2 ^ 64 ->
  Z.lor (Z.land p FRAME_MASK) (Z.land v 0xFFF) = p / 4096 * 4096 + v mod 4096.
Proof.
  intros Hp. rewrite lor_add; [by rewrite mask_eq, offset_eq|].
  rewrite (Z.land_comm v), Z.land_assoc, <- (Z.land_assoc p).
  change (Z.land FRAME_MASK 0xFFF) with 0. by rewrite Z.land_0_r, Z.land_0_l.
Qed.

(** ** The tree of tables *)

(** The index of a virtual address in a table of level [l] (4: PML4, 1: PT). *)
Definition idx (l : nat) (virt : Z) : Z := virt / 2 ^ (9 * Z.of_nat l + 3) mod 512.

Lemma idx_range (l : nat) (v : Z) : 0 <= idx l v < 512.
Proof. apply Z.mod_pos_bound. lia. Qed.

Lemma idx_levels (v : Z) :
  pml4_index v = idx 4 v /\ pdpt_index v = idx 3 v /\ pd_index v = idx 2 v /\ pt_index v = idx 1 v.
Proof.
  unfold pml4_index, pdpt_index, pd_index, pt_index. rewrite !index_eq by lia. by split_and!.
Qed.

(** The page number of a 48-bit virtual address: all four indices. *)
Definition vpage (virt : Z) : Z := virt / 4096 mod 2 ^ 36.

Lemma vpage_idx (v w : Z) :
  vpage v = vpage w <-> forall l : nat, (1 <= l <= 4)%nat -> idx l v = idx l w.
Proof.
  assert (Hd : forall x, vpage x = idx 1 x + 512 * idx 2 x + 512 ^ 2 * idx 3 x + 512 ^ 3 * idx 4 x).
  { intros x. unfold vpage, idx.
    change (9 * Z.of_nat 1 + 3) with 12. change (9 * Z.of_nat 2 + 3) with (12 + 9).
    change (9 * Z.of_nat 3 + 3) with (12 + 18). change (9 * Z.of_nat 4 + 3) with (12 + 27). rewrite !Z.pow_add_r by lia. rewrite <- !Z.div_div by lia.
    change (2 ^ 12) with 4096. set (y := x / 4096).
    change (2 ^ 9) with 512. change (2 ^ 18) with (512 * 512). change (2 ^ 27) with (512 * 512 * 512).
    rewrite <- !Z.div_div by lia. dlia. }
  split.
  - intros E. rewrite !Hd in E.
    pose proof (idx_range 1 v). pose proof (idx_range 2 v). pose proof (idx_range 3 v).
    pose proof (idx_range 4 v). pose proof (idx_range 1 w). pose proof (idx_range 2 w).
    pose proof (idx_range 3 w). pose proof (idx_range 4 w).
    intros l Hl. destruct l as [|[|[|[|[|l]]]]]; lia.
  - intros E. rewrite !Hd, !E by lia. done.
Qed.

(** The walk of the processor (and of [vmm_get_physical]) from a table of level
    [l]: the entry that maps [virt], if it is present. *)
Fixpoint walk (m : memory) (l : nat) (table virt : Z) : option Z :=
  match l with
  | O => None
  | S l' =>
      let e := rd64 m (slot table (idx l virt)) in
      if present e then
        match l' with O => Some e | _ => walk m l' (Z.land e FRAME_MASK) virt end
      else None
  end.

(** The address of the level-1 entry of [virt], when its tables exist. *)
Fixpoint leaf (m : memory) (l : nat) (table virt : Z) : option Z :=
  match l with
  | O => None
  | S O => Some (slot table (idx 1 virt))
  | S l' =>
      let e := rd64 m (slot table (idx l virt)) in
      if present e then leaf m l' (Z.land e FRAME_MASK) virt else None
  end.

(** [lvl] maps the address of each table to its level. *)
Abbreviation levels := (gmap Z nat).

(** A present entry [i] of table [t] (above level 1) that leads to [c]. *)
Definition child (m : memory) (lvl : levels) (t i c : Z) : Prop :=
  (exists l, lvl !! t = Some (S (S l))) /\ 0 <= i < 512 /\
  present (rd64 m (slot t i)) = true /\ Z.land (rd64 m (slot t i)) FRAME_MASK = c.

Lemma child_intro (m : memory) (lvl : levels) (t i : Z) (l : nat) :
  lvl !! t = Some (S (S l)) -> 0 <= i < 512 -> present (rd64 m (slot t i)) = true ->
  child m lvl t i (Z.land (rd64 m (slot t i)) FRAME_MASK).
Proof. intros Hl Hi Hp. split; [by exists l|by split]. Qed.

Record tree (m : memory) (lvl : levels) : Prop := Tree {
  tree_table : forall t l, lvl !! t = Some l -> (1 <= l <= 4)%nat /\ 0 < t < 2 ^ 52 /\ t mod 4096 = 0;
  tree_child : forall t i c l, child m lvl t i c -> lvl !! t = Some (S l) -> lvl !! c = Some l;
  tree_parent : forall t1 i1 t2 i2 c, child m lvl t1 i1 c -> child m lvl t2 i2 c -> t1 = t2 /\ i1 = i2
}.

Lemma slot_disj (t1 i1 t2 i2 : Z) :
  t1 mod 4096 = 0 -> t2 mod 4096 = 0 -> 0 <= i1 < 512 -> 0 <= i2 < 512 ->
  t1 <> t2 \/ i1 <> i2 -> slot t1 i1 + 8 <= slot t2 i2 \/ slot t2 i2 + 8 <= slot t1 i1.
Proof. unfold slot. intros. dlia. Qed.

Lemma slot_inj (t1 i1 t2 i2 : Z) :
  t1 mod 4096 = 0 -> t2 mod 4096 = 0 -> 0 <= i1 < 512 -> 0 <= i2 < 512 ->
  slot t1 i1 = slot t2 i2 -> t1 = t2 /\ i1 = i2.
Proof. unfold slot. intros. dlia. Qed.

Lemma walk_leaf (m : memory) (l : nat) : forall t v,
  walk m l t v
  = match leaf m l t v with
    | Some a => if present (rd64 m a) then Some (rd64 m a) else None
    | None => None
    end.
Proof.
  induction l as [|l IH]; intros t v; [done|]. cbn [walk leaf].
  destruct l as [|l]; [done|]. destruct (present _); [apply IH|done].
Qed.

Section Tree.
  Context (m : memory) (lvl : levels) (Htree : tree m lvl).

Lemma walk_child (l : nat) (t v : Z) :
  lvl !! t = Some (S (S l)) -> present (rd64 m (slot t (idx (S (S l)) v))) = true ->
  lvl !! Z.land (rd64 m (slot t (idx (S (S l)) v))) FRAME_MASK = Some (S l).
Proof.
  intros Ht Hp. eapply (tree_child m lvl Htree); [|done]. eapply child_intro; eauto using idx_range.
Qed.

Lemma leaf_table (l : nat) : forall t v a,
  lvl !! t = Some l -> leaf m l t v = Some a ->
  exists p, lvl !! p = Some 1%nat /\ a = slot p (idx 1 v).
Proof.
  induction l as [|l IH]; intros t v a Ht Hl; [done|]. cbn [leaf] in Hl.
  destruct l as [|l]; [eexists; split; [done|]; by simplify_eq|].
  destruct (present _) eqn:Hp; [|done]. eapply IH; [|done]. by apply walk_child.
Qed.

(** Two addresses that share their level-1 entry have the same indices. *)
Lemma leaf_unique (l : nat) : forall t1 t2 v w a,
  lvl !! t1 = Some l -> lvl !! t2 = Some l ->
  leaf m l t1 v = Some a -> leaf m l t2 w = Some a ->
  t1 = t2 /\ forall k : nat, (1 <= k <= l)%nat -> idx k v = idx k w.
Proof.
  induction l as [|l IH]; intros t1 t2 v w a H1 H2 E1 E2; [done|]. cbn [leaf] in E1, E2.
  destruct (tree_table m lvl Htree _ _ H1) as (_ & _ & A1).
  destruct (tree_table m lvl Htree _ _ H2) as (_ & _ & A2).
  destruct l as [|l].
  - assert (Es : slot t1 (idx 1 v) = slot t2 (idx 1 w)) by congruence.
    apply slot_inj in Es as [-> Ei]; auto using idx_range.
    split; [done|]. intros k Hk. by replace k with 1%nat by lia.
  - destruct (present (rd64 m (slot t1 _))) eqn:P1; [|done].
    destruct (present (rd64 m (slot t2 _))) eqn:P2; [|done].
    destruct (IH _ _ _ _ _ (walk_child _ _ _ H1 P1) (walk_child _ _ _ H2 P2) E1 E2) as [Ec Hk].
    destruct (tree_parent m lvl Htree t1 (idx (S (S l)) v) t2 (idx (S (S l)) w) _
      (child_intro _ _ _ _ _ H1 (idx_range _ _) P1)
      ltac:(rewrite Ec; exact (child_intro _ _ _ _ _ H2 (idx_range _ _) P2)))
      as [-> Ei].
    split; [done|]. intros k Hk'. destruct (decide (k = S (S l))) as [->|]; [done|]. apply Hk. lia.
Qed.

(** A change of memory that leaves the tables above level 1 alone. *)
Section Agree.
  Context (m' : memory).
  Context (Hagree : forall t l i, lvl !! t = Some (S (S l)) -> 0 <= i < 512 ->
             rd64 m' (slot t i) = rd64 m (slot t i)).

Lemma child_agree (t i c : Z) : child m' lvl t i c -> child m lvl t i c.
Proof.
  intros ((l & Hl) & Hi & Hp & Hc). rewrite (Hagree _ _ _ Hl Hi) in Hp, Hc. split; [by exists l|by split].
Qed.

Lemma tree_agree : tree m' lvl.
Proof.
  destruct Htree as [H1 H2 H3]. split; [done| |].
  - intros t i c l Hc. by apply (H2 t i c), child_agree.
  - intros t1 i1 t2 i2 c ?%child_agree ?%child_agree. by apply (H3 t1 i1 t2 i2 c).
Qed.

Lemma leaf_agree (l : nat) : forall t v, lvl !! t = Some l -> leaf m' l t v = leaf m l t v.
Proof.
  induction l as [|l IH]; intros t v Ht; [done|]. cbn [leaf]. destruct l as [|l]; [done|].
  rewrite (Hagree _ _ _ Ht (idx_range _ _)). destruct (present _) eqn:Hp; [|done].
  by apply IH, walk_child.
Qed.
End Agree.

(** Writing an entry of a level-1 table. *)
Section LeafWrite.
  Context (p i e : Z) (Hp : lvl !! p = Some 1%nat) (Hi : 0 <= i < 512) (He : 0 <= e < 2 ^ 64).
Let m' := wr64 m (slot p i) e.

Lemma leaf_write_agree (t : Z) (l : nat) (j : Z) :
  lvl !! t = Some (S (S l)) -> 0 <= j < 512 -> rd64 m' (slot t j) = rd64 m (slot t j).
Proof.
  intros Ht Hj. apply rdN_wrN_disj. change (Z.of_nat 8) with 8.
  destruct (tree_table m lvl Htree _ _ Hp) as (_ & _ & ?).
  destruct (tree_table m lvl Htree _ _ Ht) as (_ & _ & ?).
  apply slot_disj; auto. left. intros ->. rewrite Hp in Ht. done.
Qed.

Lemma leaf_write_tree : tree m' lvl.
Proof. apply tree_agree, leaf_write_agree. Qed.

Lemma leaf_write_walk (l : nat) (t v : Z) :
  lvl !! t = Some l ->
  walk m' l t v = if decide (leaf m l t v = Some (slot p i)) then
                    if present e then Some e else None
                  else walk m l t v.
Proof.
  intros Ht. rewrite !walk_leaf, (leaf_agree m' leaf_write_agree l t v Ht).
  destruct (leaf m l t v) as [a|] eqn:El; [|by rewrite decide_False].
  destruct (decide _) as [[= ->]|Hne]; unfold m'; [by rewrite !rd64_wr64 by done|].
  destruct (leaf_table _ _ _ _ Ht El) as (q & Hq & ->).
  destruct (tree_table m lvl Htree _ _ Hp) as (_ & _ & ?).
  destruct (tree_table m lvl Htree _ _ Hq) as (_ & _ & ?).
  rewrite !rdN_wrN_disj; [done|]. change (Z.of_nat 8) with 8. apply slot_disj; auto using idx_range.
  destruct (decide (p = q)) as [->|]; [|by left]. right. intros ->. done.
Qed.
End LeafWrite.

(** Hooking a fresh, cleared table [c] into entry [i] of table [t]. *)
Section Grow.
  Context (t i c : Z) (k : nat) (Ht : lvl !! t = Some (S (S k))) (Hi : 0 <= i < 512).
  Context (Hfree : present (rd64 m (slot t i)) = false).
  Context (Hc : lvl !! c = None) (Hrange : 0 < c < 2 ^ 52) (Hal : c mod 4096 = 0).
Let m1 := zero_words 512 m c.
Let m' := wr64 m1 (slot t i) (Z.lor (Z.lor c VMM_PRESENT) VMM_WRITABLE).
Let lvl' := <[c := S k]> lvl.

Lemma grow_hook :
  present (rd64 m' (slot t i)) = true /\ Z.land (rd64 m' (slot t i)) FRAME_MASK = c.
Proof.
  destruct (table_entry c ltac:(lia) Hal) as (E1 & E2 & E3). unfold m'. by rewrite rd64_wr64.
Qed.

Lemma grow_new (j : Z) : 0 <= j < 512 -> rd64 m' (slot c j) = 0.
Proof.
  intros Hj. destruct (tree_table m lvl Htree _ _ Ht) as (_ & _ & ?).
  unfold m', m1. rewrite rdN_wrN_disj.
  - apply rd64_zero_words_in; unfold slot; lia.
  - change (Z.of_nat 8) with 8. apply slot_disj; auto. left. intros ->. by rewrite Hc in Ht.
Qed.

Lemma grow_other (t' : Z) (l : nat) (j : Z) :
  lvl !! t' = Some l -> 0 <= j < 512 -> t' <> t \/ j <> i ->
  rd64 m' (slot t' j) = rd64 m (slot t' j).
Proof.
  intros Ht' Hj Hne. destruct (tree_table m lvl Htree _ _ Ht) as (_ & _ & ?).
  destruct (tree_table m lvl Htree _ _ Ht') as (_ & _ & ?).
  assert (t' <> c) by (intros ->; by rewrite Hc in Ht').
  unfold m', m1. rewrite rdN_wrN_disj.
  - apply rd64_zero_words_out. unfold slot. change (Z.of_nat 512) with 512. dlia.
  - change (Z.of_nat 8) with 8. apply slot_disj; auto; lia.
Qed.

Lemma grow_child (t' i' c' : Z) :
  child m' lvl' t' i' c' -> (t' = t /\ i' = i /\ c' = c) \/ child m lvl t' i' c'.
Proof.
  intros ((l & Hl) & Hi' & Hp & <-). unfold lvl' in Hl.
  apply lookup_insert_Some in Hl as [[<- El]|[Hne Hl]].
  { rewrite grow_new in Hp by done. by rewrite present_testbit in Hp. }
  destruct (decide (t' = t /\ i' = i)) as [[-> ->]|Hother].
  { left. exact (conj eq_refl (conj eq_refl (proj2 grow_hook))). }
  assert (t' <> t \/ i' <> i) by lia.
  right. rewrite (grow_other _ _ _ Hl) in Hp |- * by done. by apply (child_intro _ _ _ _ l).
Qed.

Lemma grow_tree : tree m' lvl'.
Proof.
  destruct (tree_table m lvl Htree _ _ Ht) as (Hk & _ & _).
  split.
  - intros t' l [[<- <-]|[_ H]]%lookup_insert_Some; [split_and!; try done; lia|].
    by apply (tree_table m lvl Htree).
  - intros t' i' c' l Hch Hl. unfold lvl' in Hl |- *.
    destruct (grow_child _ _ _ Hch) as [(-> & -> & ->)|Hch'].
    + rewrite lookup_insert_ne in Hl by (intros ->; by rewrite Hc in Ht).
      rewrite lookup_insert_eq. congruence.
    + destruct Hch' as ((k' & Hk') & Hrest).
      assert (t' <> c) by (intros ->; by rewrite Hc in Hk').
      rewrite lookup_insert_ne in Hl by done.
      pose proof (tree_child m lvl Htree t' i' c' l ltac:(by split; eauto) Hl) as Hcl.
      rewrite lookup_insert_ne; [done|]. intros ->. by rewrite Hc in Hcl.
  - assert (Hnc : forall t' i', child m lvl t' i' c -> False).
    { intros t' i' Hch. destruct Hch as ((l & Hl) & Hrest).
      pose proof (tree_child m lvl Htree t' i' c _ ltac:(by split; eauto) Hl) as Hcl.
      by rewrite Hc in Hcl. }
    intros t1 i1 t2 i2 c' H1 H2.
    destruct (grow_child _ _ _ H1) as [(-> & -> & ->)|H1'],
      (grow_child _ _ _ H2) as [(-> & -> & E2)|H2']; subst; try done.
    + by destruct (Hnc _ _ H2').
    + by destruct (Hnc _ _ H1').
    + by apply (tree_parent m lvl Htree t1 i1 t2 i2 c').
Qed.

Lemma grow_walk (l : nat) : forall t' v, lvl !! t' = Some l -> walk m' l t' v = walk m l t' v.
Proof.
  induction l as [|l IH]; intros t' v Ht'; [done|]. cbn [walk].
  destruct (decide (t' = t /\ idx (S l) v = i)) as [[-> Ei]|Hother].
  - rewrite Ht in Ht'. injection Ht' as <-. destruct grow_hook as [G1 G2].
    rewrite Ei, G1, Hfree, G2. cbn [walk]. rewrite grow_new by apply idx_range. done.
  - rewrite (grow_other _ _ _ Ht' (idx_range _ _)).
    2: lia.
    destruct (present (rd64 m (slot t' _))) eqn:Hp; [|done].
    destruct l as [|l]; [done|]. by apply IH, walk_child.
Qed.
End Grow.
End Tree.

(** Memory that agrees on every table describes the same tree and the same
    translation. *)
Lemma walk_agree (m m' : memory) (lvl : levels) :
  tree m lvl ->
  (forall t l i, lvl !! t = Some l -> 0 <= i < 512 -> rd64 m' (slot t i) = rd64 m (slot t i)) ->
  tree m' lvl /\ forall l t v, lvl !! t = Some l -> walk m' l t v = walk m l t v.
Proof.
  intros Ht Ha. split; [by apply (tree_agree m lvl Ht); eauto|].
  intros l t v Hl. rewrite !walk_leaf, (leaf_agree m lvl Ht m') by eauto.
  destruct (leaf m l t v) as [a|] eqn:E; [|done].
  destruct (leaf_table m lvl Ht _ _ _ _ Hl E) as (p & Hp & ->).
  by rewrite (Ha _ _ _ Hp (idx_range _ _)).
Qed.

Section Vmm.
  Context {S : Type} `{PL : PageAllocatorLaws S}.
  Implicit Types s : vmm S.

(** The invariant: the PML4 and the tables below it, all pages in use. *)
Record vmm_inv s (lvl : levels) : Prop := VmmInv {
  vi_root : lvl !! kernel_pml4 s = Some 4%nat;
  vi_tree : tree (vmem s) lvl;
  vi_ok : pa_ok (frames s);
  vi_used : forall t l, lvl !! t = Some l -> pa_used (frames s) (t / 4096) = true
}.

(** The mapping the tables describe: the entry of each virtual address. *)
Definition xlate s (v : Z) : option Z := walk (vmem s) 4 (kernel_pml4 s) v.

(** What every operation of the manager respects: the tables stay tables, the
    memory of pages in use that are not tables stays as it was. *)
Record evolves s (lvl : levels) s' (lvl' : levels) : Prop := Evolves {
  ev_root : kernel_pml4 s' = kernel_pml4 s;
  ev_inv : vmm_inv s' lvl';
  ev_lvl : forall t l, lvl !! t = Some l -> lvl' !! t = Some l;
  ev_used : forall q, 0 <= q -> pa_used (frames s) q = true -> pa_used (frames s') q = true;
  ev_entries : forall t l i, lvl !! t = Some (Datatypes.S (Datatypes.S l)) -> 0 <= i < 512 ->
    present (rd64 (vmem s) (slot t i)) = true -> rd64 (vmem s') (slot t i) = rd64 (vmem s) (slot t i);
  ev_frame : forall a, 0 <= a -> pa_used (frames s) (a / 4096) = true ->
    lvl !! (a / 4096 * 4096) = None ->
    lvl' !! (a / 4096 * 4096) = None /\ rd8 (vmem s') a = rd8 (vmem s) a
}.

Lemma evolves_refl s lvl : vmm_inv s lvl -> evolves s lvl s lvl.
Proof. intros Hi. by split. Qed.

Lemma evolves_trans s1 l1 s2 l2 s3 l3 :
  evolves s1 l1 s2 l2 -> evolves s2 l2 s3 l3 -> evolves s1 l1 s3 l3.
Proof.
  intros [A1 A2 A3 A4 A5 A6] [B1 B2 B3 B4 B5 B6]. split; eauto; [congruence| |].
  - intros t l i Ht Hi Hp. rewrite (B5 t l i); [by eauto|by eauto|done|]. by rewrite (A5 t l i).
  - intros a Ha Hu Hn. destruct (A6 a Ha Hu Hn) as [C1 C2].
    destruct (B6 a Ha) as [D1 D2]; [apply A4; [dlia|done]|done|]. split; congruence.
Qed.

Lemma get_physical_xlate s (v : Z) :
  kernel_pml4 s <> 0 ->
  vmm_get_physical v s
  = match xlate s v with
    | Some e => Z.lor (Z.land e FRAME_MASK) (Z.land v 0xFFF)
    | None => 0
    end.
Proof.
  intros Hr. unfold vmm_get_physical, xlate. rewrite (proj2 (Z.eqb_neq _ 0) Hr).
  destruct (idx_levels v) as (-> & -> & -> & ->). cbn [walk].
  repeat (destruct (present _); [|done]; cbn [negb]). done.
Qed.

Lemma inv_root_nonzero s lvl : vmm_inv s lvl -> kernel_pml4 s <> 0.
Proof. intros [Hr Ht _ _]. destruct (tree_table _ _ Ht _ _ Hr) as (_ & ? & _). lia. Qed.

(** A page the allocator hands out is not a table. *)
Lemma fresh_page s lvl (a : Z) (f : S) :
  vmm_inv s lvl -> pa_alloc (frames s) = (a, f) -> a <> 0 ->
  lvl !! a = None /\ 0 < a < 2 ^ 52 /\ a mod 4096 = 0 /\ pa_ok f /\
  pa_used (frames s) (a / 4096) = false /\
  forall q, 0 <= q -> pa_used f q = (q =? a / 4096) || pa_used (frames s) q.
Proof.
  intros [_ Ht Hok Hu] Ha Hne.
  destruct (pa_alloc_fresh _ _ _ Hok Ha Hne) as (page & -> & Hp & Hfree & Hused).
  rewrite Z.div_mul by lia. split_and!; try lia; try done.
  - destruct (lvl !! (page * 4096)) as [l|] eqn:E; [|done].
    apply Hu in E. rewrite Z.div_mul in E by lia. congruence.
  - by rewrite Z.mod_mul by lia.
  - by eapply pa_alloc_ok.
Qed.

(** One level of the descent. *)
Lemma next_table_spec s lvl (t i : Z) (k : nat) :
  vmm_inv s lvl -> lvl !! t = Some (Datatypes.S (Datatypes.S k)) -> 0 <= i < 512 ->
  exists o s' lvl', vmm_next_table t i s = (o, s') /\ evolves s lvl s' lvl' /\
    (forall v, xlate s' v = xlate s v) /\ flushed s' = flushed s /\
    match o with
    | Some c => lvl' !! c = Some (Datatypes.S k) /\
        present (rd64 (vmem s') (slot t i)) = true /\
        Z.land (rd64 (vmem s') (slot t i)) FRAME_MASK = c
    | None => pa_alloc (frames s') = (0, frames s')
    end.
Proof.
  intros Hinv Ht Hi. pose proof Hinv as [Hr Htree Hok Hu]. unfold vmm_next_table, vmm_alloc_page_table.
  destruct (present _) eqn:Hp; cbn [negb].
  { eexists _, s, lvl. split; [done|]. split; [by apply evolves_refl|]. split_and!; try done.
    by apply (tree_child _ _ Htree t i); [apply (child_intro _ _ _ _ k)|]. }
  destruct (pa_alloc (frames s)) as [a f] eqn:Ha. destruct (Z.eqb_spec a 0) as [->|Hne].
  { pose proof (pa_alloc_fail _ _ Hok Ha) as ->. eexists _, s, lvl.
    split; [by destruct s|]. split; [by apply evolves_refl|]. by split_and!. }
  destruct (fresh_page _ _ _ _ Hinv Ha Hne) as (Hn & Hra & Hal & Hok' & Hfree & Hused).
  rewrite (proj2 (Z.eqb_neq _ _) Hne). eexists _, _, _. split; [reflexivity|].
  pose proof (grow_tree _ _ Htree t i a k Ht Hi Hp Hn Hra Hal) as Gt.
  pose proof (grow_walk _ _ Htree t i a k Ht Hi Hp Hn Hra Hal) as Gw.
  pose proof (grow_other _ _ Htree t i a k Ht Hi Hn Hal) as Go.
  destruct (tree_table _ _ Htree _ _ Ht) as (_ & _ & Hta).
  split; [|split_and!; try apply grow_hook; try done; [|by rewrite lookup_insert_eq]].
  - split; cbn [kernel_pml4 vmem frames with_vmem with_frames].
    + done.
    + split; [|exact Gt|done|].
      * rewrite lookup_insert_ne; [done|]. cbn. congruence.
      * intros t' l Hl. cbn. rewrite Hused by (apply lookup_insert_Some in Hl as [[<- _]|[_ Hl]];
          [dlia|destruct (tree_table _ _ Htree _ _ Hl); dlia]).
        apply lookup_insert_Some in Hl as [[<- _]|[_ Hl]]; [by rewrite Z.eqb_refl|].
        by rewrite (Hu _ _ Hl), orb_true_r.
    + intros t' l Hl. rewrite lookup_insert_ne; [done|]. intros ->. congruence.
    + intros q Hq Huq. by rewrite Hused, Huq, orb_true_r.
    + intros t' l j Hl Hj Hp'. apply (Go _ _ _ Hl Hj).
      destruct (decide (t' = t)) as [->|]; [|by left]. right. intros ->. congruence.
    + intros x Hx Hux Hlx. assert (x / 4096 <> a / 4096) by (intros E; congruence).
      split; [rewrite lookup_insert_ne; [done|dlia]|].
      assert (x / 4096 * 4096 <> t) by (intros E; congruence).
      rewrite rd8_wrN_out by (unfold slot; change (Z.of_nat 8) with 8; dlia).
      rewrite rd8_zero_words. change (8 * Z.of_nat 512) with 4096.
      destruct (Z.leb_spec a x), (Z.ltb_spec x (a + 4096)); cbn [andb]; try done. exfalso; dlia.
  - intros v. unfold xlate. cbn [kernel_pml4 vmem frames with_vmem with_frames]. by apply Gw.
Qed.

(** The descent: the level-1 entry of [v], all translations as before; or no
    page was left for a table. *)
Lemma get_or_create_spec s lvl (v : Z) :
  vmm_inv s lvl ->
  exists o s' lvl', vmm_get_or_create_entry v s = (o, s') /\ evolves s lvl s' lvl' /\
    (forall w, xlate s' w = xlate s w) /\ flushed s' = flushed s /\
    match o with
    | Some a => leaf (vmem s') 4 (kernel_pml4 s') v = Some a
    | None => pa_alloc (frames s') = (0, frames s')
    end.
Proof.
  intros Hinv. destruct (tree_table _ _ (vi_tree _ _ Hinv) _ _ (vi_root _ _ Hinv)) as (_ & Hr & _).
  unfold vmm_get_or_create_entry. rewrite (proj2 (Z.eqb_neq _ 0)) by lia.
  destruct (idx_levels v) as (-> & -> & -> & ->).
  destruct (next_table_spec s lvl (kernel_pml4 s) (idx 4 v) 2 Hinv (vi_root _ _ Hinv) (idx_range _ _))
    as (o1 & s1 & l1 & -> & E1 & X1 & F1 & R1).
  destruct o1 as [c1|]; [|by eauto 10]. destruct R1 as (L1 & P1 & <-).
  destruct (next_table_spec s1 l1 _ (idx 3 v) 1 (ev_inv _ _ _ _ E1) L1 (idx_range _ _))
    as (o2 & s2 & l2 & -> & E2 & X2 & F2 & R2).
  pose proof (evolves_trans _ _ _ _ _ _ E1 E2) as E12.
  destruct o2 as [c2|].
  2: { exists None, s2, l2. split_and!; try done; [|congruence]. intros w. by rewrite X2, X1. }
  destruct R2 as (L2 & P2 & <-).
  destruct (next_table_spec s2 l2 _ (idx 2 v) 0 (ev_inv _ _ _ _ E2) L2 (idx_range _ _))
    as (o3 & s3 & l3 & -> & E3 & X3 & F3 & R3).
  pose proof (evolves_trans _ _ _ _ _ _ E12 E3) as E123.
  assert (X123 : forall w, xlate s3 w = xlate s w) by (intros w; by rewrite X3, X2, X1).
  destruct o3 as [c3|]; [|exists None, s3, l3; split_and!; try done; congruence].
  destruct R3 as (L3 & P3 & <-).
  eexists _, s3, l3. split; [reflexivity|]. split_and!; try done; [congruence|].
  rewrite (ev_root _ _ _ _ E123). cbn [leaf].
  pose proof (ev_lvl _ _ _ _ E1 _ _ (vi_root _ _ Hinv)) as Hr1.
  pose proof (evolves_trans _ _ _ _ _ _ E2 E3) as E23.
  rewrite (ev_entries _ _ _ _ E23 _ _ _ Hr1 (idx_range _ _) P1), P1.
  by rewrite (ev_entries _ _ _ _ E3 _ _ _ (ev_lvl _ _ _ _ E2 _ _ L1) (idx_range _ _) P2), P2, P3.
Qed.

(** Storing [e] in the level-1 entry of [v]: the common part of
    [vmm_map_page] and [vmm_unmap_page]. *)
Definition store_entry (v e : Z) s : vmm S :=
  match vmm_get_or_create_entry v s with
  | (None, s1) => s1
  | (Some entry, s1) => vmm_invalidate_tlb v (with_vmem (wr64 (vmem s1) entry e) s1)
  end.

Lemma map_page_store s (virt phys flags : Z) :
  vmm_map_page virt phys flags s = store_entry virt (map_entry phys flags) s.
Proof. reflexivity. Qed.

Lemma store_entry_spec s lvl (v e : Z) :
  vmm_inv s lvl -> 0 <= e < 2 ^ 64 ->
  let s' := store_entry v e s in
  exists lvl', evolves s lvl s' lvl' /\
    ((pa_alloc (frames s') = (0, frames s') /\ flushed s' = flushed s /\
        forall w, xlate s' w = xlate s w) \/
     (flushed s' = v :: flushed s /\ forall w, xlate s' w =
        if decide (vpage w = vpage v) then if present e then Some e else None else xlate s w)).
Proof.
  intros Hinv He s'. unfold s', store_entry. clear s'.
  destruct (get_or_create_spec s lvl v Hinv) as (o & s1 & l1 & -> & E1 & X1 & F1 & R1).
  destruct o as [a|]; [|by eauto 10]. pose proof (ev_inv _ _ _ _ E1) as [Ir It Iok Iu].
  destruct (leaf_table _ _ It _ _ _ _ Ir R1) as (p & Hp & ->).
  pose proof (leaf_write_walk _ _ It p (idx 1 v) e Hp (idx_range _ _) He) as W.
  pose proof (leaf_write_tree _ _ It p (idx 1 v) e Hp (idx_range _ _)) as T.
  pose proof (leaf_write_agree _ _ It p (idx 1 v) e Hp (idx_range _ _)) as A.
  destruct (tree_table _ _ It _ _ Hp) as (_ & _ & Hpa).
  exists l1. split.
  - eapply evolves_trans; [exact E1|]. split; cbn; try done; [by eauto|].
    intros x Hx Hu Hl. split; [done|]. pose proof (idx_range 1 v).
    assert (x / 4096 * 4096 <> p) by (intros E; congruence).
    rewrite rd8_wrN_out; [done|]. unfold slot. change (Z.of_nat 8) with 8. dlia.
  - right. split; [cbn; congruence|]. intros w. unfold xlate at 1. cbn [kernel_pml4 vmem
      vmm_invalidate_tlb with_vmem]. rewrite (W 4%nat (kernel_pml4 s1) w Ir).
    rewrite <- (X1 w).
    destruct (decide (leaf _ _ _ w = _)) as [El|Hl].
    + rewrite decide_True; [done|]. apply vpage_idx.
      by apply (leaf_unique _ _ It _ _ _ _ _ _ Ir Ir El R1).
    + rewrite decide_False; [done|]. intros Ev. apply Hl. rewrite <- R1.
      pose proof (proj1 (vpage_idx w v) Ev) as Hidx. cbn [leaf].
      by rewrite !Hidx by lia.
Qed.

(** ** Theorems *)

(** C5: [vmm_map_page] under the paging invariant, for any flags: either no page was
    left for a table and no translation changed, or [vmm_get_physical] of the mapped
    page is the physical page plus the offset with the flag bits from 12 on set in it,
    the translation of every other page is as before, and the TLB entry was flushed.
    So for flags below bit 12 it is the physical address, and for [VMM_NX] it is not:
    bit 63 is set.  The invariant is kept and no byte of a page in use outside the
    tables is written. *)
Theorem vmm_map_page_correct s lvl (virt phys flags : Z) :
  vmm_inv s lvl -> 0 <= phys < 2 ^ 64 -> 0 <= flags < 2 ^ 64 ->
  let s' := vmm_map_page virt phys flags s in
  exists lvl', evolves s lvl s' lvl' /\
    ((pa_alloc (frames s') = (0, frames s') /\
        forall v, vmm_get_physical v s' = vmm_get_physical v s) \/
     (flushed s' = virt :: flushed s /\
      (forall v, vpage v = vpage virt ->
         vmm_get_physical v s' = Z.lor (phys / 4096 * 4096 + v mod 4096) (flags / 4096 * 4096) /\
         (flags < 4096 -> vmm_get_physical v s' = phys / 4096 * 4096 + v mod 4096)) /\
      forall v, vpage v <> vpage virt -> vmm_get_physical v s' = vmm_get_physical v s)).
Proof.
  intros Hinv Hphys Hflags s'.
  destruct (map_entry_ok phys flags Hphys ltac:(lia)) as (He & Hpres & Hmask).
  destruct (store_entry_spec s lvl virt _ Hinv He) as (lvl' & Hev & Hcase).
  change (store_entry virt (map_entry phys flags) s) with s' in Hev, Hcase.
  exists lvl'. split; [exact Hev|].
  assert (Hr : kernel_pml4 s <> 0) by by apply (inv_root_nonzero s lvl).
  assert (Hr' : kernel_pml4 s' <> 0) by by rewrite (ev_root _ _ _ _ Hev).
  destruct Hcase as [(Ha & _ & Hx)|(Hf & Hx)]; [left|right]; (split; [done|]).
  - intros v. by rewrite !get_physical_xlate, Hx.
  - split; intros v Hv; rewrite !get_physical_xlate, Hx by done.
    + rewrite decide_True, Hpres, Hmask by done. rewrite (mask_eq flags) by done.
      rewrite <- Z.lor_assoc, (Z.lor_comm (_ * _)), Z.lor_assoc, frame_offset by done.
      split; [done|]. intros Hlow. by rewrite (Z.div_small flags), Z.mul_0_l, Z.lor_0_r by lia.
    + by rewrite decide_False.
Qed.

(** [vmm_unmap_page] under the paging invariant: [vmm_get_physical] of the
    page is 0 afterwards and every other translation is as before, unless no
    page was left for a table, in which case no translation changed. *)
Theorem vmm_unmap_page_correct s lvl (virt : Z) :
  vmm_inv s lvl ->
  let s' := vmm_unmap_page virt s in
  exists lvl', evolves s lvl s' lvl' /\
    ((pa_alloc (frames s') = (0, frames s') /\
        forall v, vmm_get_physical v s' = vmm_get_physical v s) \/
     (flushed s' = virt :: flushed s /\
      (forall v, vpage v = vpage virt -> vmm_get_physical v s' = 0) /\
      forall v, vpage v <> vpage virt -> vmm_get_physical v s' = vmm_get_physical v s)).
Proof.
  intros Hinv s'.
  destruct (store_entry_spec s lvl virt 0 Hinv ltac:(lia)) as (lvl' & Hev & Hcase).
  change (store_entry virt 0 s) with s' in Hev, Hcase.
  exists lvl'. split; [exact Hev|].
  assert (Hr : kernel_pml4 s <> 0) by by apply (inv_root_nonzero s lvl).
  assert (Hr' : kernel_pml4 s' <> 0) by by rewrite (ev_root _ _ _ _ Hev).
  destruct Hcase as [(Ha & _ & Hx)|(Hf & Hx)]; [left|right]; (split; [done|]).
  - intros v. by rewrite !get_physical_xlate, Hx.
  - split; intros v Hv; rewrite !get_physical_xlate, Hx by done.
    + by rewrite decide_True.
    + by rewrite decide_False.
Qed.

(** defect of [vmm_get_physical]: it removes the low twelve bits of the
    entry only, so for a page mapped no-execute the physical address it returns
    has bit 63 set. *)
Theorem vmm_get_physical_keeps_nx s lvl (virt phys flags : Z) :
  vmm_inv s lvl -> 0 <= phys < 2 ^ 52 -> 0 <= flags < 4096 ->
  let s' := vmm_map_page virt phys (Z.lor flags VMM_NX) s in
  pa_alloc (frames s') <> (0, frames s') ->
  vmm_get_physical virt s' = phys / 4096 * 4096 + virt mod 4096 + 2 ^ 63.
Proof.
  intros Hinv Hphys Hflags s' Halloc.
  assert (Hfl : 0 <= Z.lor flags VMM_NX < 2 ^ 64) by (apply lor_range; [lia|lia|by split]).
  destruct (map_entry_ok phys _ ltac:(lia) Hfl) as (He & Hpres & Hmask).
  destruct (store_entry_spec s lvl virt _ Hinv He) as (lvl' & Hev & Hcase).
  change (store_entry virt (map_entry phys (Z.lor flags VMM_NX)) s) with s' in Hev, Hcase.
  assert (Hr' : kernel_pml4 s' <> 0).
  { rewrite (ev_root _ _ _ _ Hev). by apply (inv_root_nonzero s lvl). }
  destruct Hcase as [(Ha & _)|(_ & Hx)]; [done|].
  rewrite get_physical_xlate, Hx, decide_True, Hpres, Hmask by done.
  rewrite Z.land_lor_distr_l, (mask_flags flags), Z.lor_0_l by done.
  rewrite <- Z.lor_assoc, (Z.lor_comm _ (Z.land virt _)), Z.lor_assoc, frame_offset by lia.
  change (Z.land VMM_NX FRAME_MASK) with (2 ^ 63). apply lor_add.
  apply Z.bits_inj'. intros i Hi. rewrite Z.land_spec, Z.bits_0.
  destruct (Z.eqb_spec i 63) as [->|Hne].
  - rewrite (testbit_high 63); [done| |lia]. dlia.
  - by rewrite (Z.pow2_bits_false 63 i), andb_false_r by lia.
Qed.

(** defect of the walk: a present PD entry is taken for the address of a
    page table even when it maps a 2 MB page ([VMM_HUGE]), so the result is made
    from the eight bytes of data found in the mapped page. *)
Theorem vmm_get_physical_ignores_huge s (virt pdpte pde : Z) :
  kernel_pml4 s <> 0 ->
  let pml4e := rd64 (vmem s) (slot (kernel_pml4 s) (pml4_index virt)) in
  present pml4e = true ->
  rd64 (vmem s) (slot (Z.land pml4e FRAME_MASK) (pdpt_index virt)) = pdpte -> present pdpte = true ->
  rd64 (vmem s) (slot (Z.land pdpte FRAME_MASK) (pd_index virt)) = pde -> present pde = true ->
  Z.land pde VMM_HUGE <> 0 ->
  let data := rd64 (vmem s) (slot (Z.land pde FRAME_MASK) (pt_index virt)) in
  vmm_get_physical virt s
  = if present data then data / 4096 * 4096 + virt mod 4096 else 0.
Proof.
  intros Hr pml4e P4 E3 P3 E2 P2 _ data. unfold vmm_get_physical.
  rewrite (proj2 (Z.eqb_neq _ 0) Hr). cbv zeta. fold pml4e. rewrite P4, E3, P3, E2, P2. fold data.
  cbn [negb]. destruct (present data); [|done]. cbn [negb]. apply frame_offset, rd64_range.
Qed.

(** ** Address spaces *)

Lemma copy_entries_spec (n : nat) : forall (i new kernel : Z) (m : memory),
  new mod 4096 = 0 -> kernel mod 4096 = 0 -> new <> kernel -> 0 <= i -> i + Z.of_nat n <= 512 ->
  let m' := copy_entries n i new kernel m in
  (forall j, 0 <= j < 512 -> rd64 m' (slot new j)
     = if (i <=? j) && (j <? i + Z.of_nat n) then rd64 m (slot kernel j) else rd64 m (slot new j)) /\
  forall x, x < new \/ new + 4096 <= x -> rd8 m' x = rd8 m x.
Proof.
  induction n as [|n IH]; intros i new kernel m Hn Hk Hne Hi Hb m'.
  { split; [|done]. intros j Hj. destruct (Z.leb_spec i j), (Z.ltb_spec j (i + Z.of_nat 0));
      cbn [andb]; try done. lia. }
  unfold m'. cbn [copy_entries].
  destruct (IH (i + 1) new kernel (wr64 m (slot new i) (rd64 m (slot kernel i)))) as [A B];
    [done|done|done|lia|lia|].
  split.
  - intros j Hj. rewrite (A j Hj). clear A B m'. destruct (Z.eqb_spec j i) as [->|Hji].
    + rewrite (proj2 (Z.leb_gt (i + 1) i)), (proj2 (Z.leb_le i i)), (proj2 (Z.ltb_lt i (i + _)))
        by lia. cbn [andb]. apply rd64_wr64, rd64_range.
    + rewrite !(rdN_wrN_disj 8) by (apply slot_disj; auto; lia).
      destruct (Z.leb_spec (i + 1) j), (Z.leb_spec i j), (Z.ltb_spec j (i + 1 + Z.of_nat n)),
        (Z.ltb_spec j (i + Z.of_nat (Datatypes.S n))); cbn [andb]; try done; lia.
  - intros x Hx. rewrite (B x Hx), rd8_wrN_out; [done|]. unfold slot. change (Z.of_nat 8) with 8. lia.
Qed.

Lemma clear_entries_spec (n : nat) : forall (i pml4 : Z) (m : memory),
  pml4 mod 4096 = 0 -> 0 <= i -> i + Z.of_nat n <= 512 ->
  let m' := clear_entries n i pml4 m in
  (forall j, 0 <= j < 512 -> rd64 m' (slot pml4 j)
     = if (i <=? j) && (j <? i + Z.of_nat n) && present (rd64 m (slot pml4 j)) then 0
       else rd64 m (slot pml4 j)) /\
  forall x, x < pml4 \/ pml4 + 4096 <= x -> rd8 m' x = rd8 m x.
Proof.
  induction n as [|n IH]; intros i pml4 m Hp Hi Hb m'.
  { split; [|done]. intros j Hj. destruct (Z.leb_spec i j), (Z.ltb_spec j (i + Z.of_nat 0));
      cbn [andb]; try done. lia. }
  unfold m'. cbn [clear_entries].
  set (m1 := if present _ then _ else _).
  assert (Hm1 : (forall j, 0 <= j < 512 -> rd64 m1 (slot pml4 j) =
      if (j =? i) && present (rd64 m (slot pml4 j)) then 0 else rd64 m (slot pml4 j)) /\
    forall x, x < pml4 \/ pml4 + 4096 <= x -> rd8 m1 x = rd8 m x).
  { unfold m1. destruct (present (rd64 m (slot pml4 i))) eqn:E; split; try done.
    - intros j Hj. destruct (Z.eqb_spec j i) as [->|Hne]; [rewrite E; cbn [andb]; apply rd64_wr64; lia|].
      apply (rdN_wrN_disj 8 8). apply slot_disj; auto; lia.
    - intros x Hx. rewrite rd8_wrN_out; [done|]. unfold slot. change (Z.of_nat 8) with 8. lia.
    - intros j Hj. destruct (Z.eqb_spec j i) as [->|Hne]; [by rewrite E|done]. }
  clearbody m1. destruct Hm1 as [M1 M2].
  destruct (IH (i + 1) pml4 m1 Hp ltac:(lia) ltac:(lia)) as [A B]. split.
  - intros j Hj. rewrite (A j Hj), (M1 j Hj). clear A B IH m'.
    destruct (Z.eqb_spec j i), (Z.leb_spec (i + 1) j), (Z.leb_spec i j),
      (Z.ltb_spec j (i + 1 + Z.of_nat n)), (Z.ltb_spec j (i + Z.of_nat (Datatypes.S n)));
      cbn [andb]; try done; try lia.
    all: by destruct (present _).
  - intros x Hx. by rewrite (B x Hx), M2.
Qed.

(** A change of memory inside one page that is not a table. *)
Lemma off_table s lvl (a : Z) (m' : memory) :
  vmm_inv s lvl -> a mod 4096 = 0 -> lvl !! a = None ->
  (forall x, x < a \/ a + 4096 <= x -> rd8 m' x = rd8 (vmem s) x) ->
  tree m' lvl /\ (forall l t v, lvl !! t = Some l -> walk m' l t v = walk (vmem s) l t v) /\
  forall t l i, lvl !! t = Some l -> 0 <= i < 512 -> rd64 m' (slot t i) = rd64 (vmem s) (slot t i).
Proof.
  intros [_ Ht _ _] Ha Hn Hm.
  assert (Hag : forall t l i, lvl !! t = Some l -> 0 <= i < 512 ->
    rd64 m' (slot t i) = rd64 (vmem s) (slot t i)).
  { intros t l i Hl Hi. destruct (tree_table _ _ Ht _ _ Hl) as (_ & _ & Hta).
    assert (t <> a) by (intros ->; congruence).
    apply rdN_ext. change (Z.of_nat 8) with 8. unfold slot. intros x Hx. apply Hm. dlia. }
  destruct (walk_agree _ _ _ Ht Hag). by split_and!.
Qed.

(** What the operation writes, and what it keeps. *)
Lemma create_spec s lvl :
  vmm_inv s lvl ->
  let '(a, s') := vmm_create_address_space s in
  evolves s lvl s' lvl /\ (forall v, xlate s' v = xlate s v) /\
  if a =? 0 then s' = s /\ pa_alloc (frames s) = (0, frames s)
  else
    lvl !! a = None /\ pa_used (frames s) (a / 4096) = false /\
    pa_used (frames s') (a / 4096) = true /\
    (forall j, 256 <= j < 512 ->
       rd64 (vmem s') (slot a j) = rd64 (vmem s') (slot (kernel_pml4 s) j)) /\
    (forall j, 0 <= j < 256 -> rd64 (vmem s') (slot a j) = 0).
Proof.
  intros Hinv. unfold vmm_create_address_space. destruct (pa_alloc (frames s)) as [a f] eqn:Ha.
  pose proof Hinv as [Hr Ht Hok Hu]. destruct (Z.eqb_spec a 0) as [->|Hne]; cbn [Z.eqb].
  { pose proof (pa_alloc_fail _ _ Hok Ha) as ->.
    replace (with_frames (frames s) s) with s by by destruct s.
    split; [by apply evolves_refl|done]. }
  rewrite (proj2 (Z.eqb_neq a 0) Hne), (proj2 (Z.eqb_neq _ 0) (inv_root_nonzero _ _ Hinv)).
  destruct (fresh_page _ _ _ _ Hinv Ha Hne) as (Hn & Hra & Hal & Hok' & Hfree & Hused).
  destruct (tree_table _ _ Ht _ _ Hr) as (_ & Hr0 & Hra').
  set (m1 := zero_words 512 (vmem s) a).
  destruct (copy_entries_spec 256 256 a (kernel_pml4 s) m1 Hal Hra' ltac:(congruence) ltac:(lia)
    ltac:(lia)) as [Hcopy Hout].
  set (m' := copy_entries _ _ _ _ _) in *. clearbody m'. change (256 + Z.of_nat 256) with 512 in Hcopy.
  assert (Hout' : forall x, x < a \/ a + 4096 <= x -> rd8 m' x = rd8 (vmem s) x).
  { intros x Hx. rewrite (Hout x Hx). unfold m1. rewrite rd8_zero_words.
    change (8 * Z.of_nat 512) with 4096.
    destruct (Z.leb_spec a x), (Z.ltb_spec x (a + 4096)); cbn [andb]; try done; lia. }
  destruct (off_table s lvl a m' Hinv Hal Hn Hout') as (Ht' & Hw & Hent).
  assert (Hupper : forall j, 256 <= j < 512 -> rd64 m' (slot a j) = rd64 (vmem s) (slot (kernel_pml4 s) j)).
  { intros j Hj. rewrite (Hcopy j) by lia.
    rewrite (proj2 (Z.leb_le _ _)), (proj2 (Z.ltb_lt _ _)) by lia. cbn [andb]. unfold m1.
    apply rd64_zero_words_out. assert (kernel_pml4 s <> a) by congruence.
    change (8 * Z.of_nat 512) with 4096. unfold slot. dlia. }
  assert (Hlower : forall j, 0 <= j < 256 -> rd64 m' (slot a j) = 0).
  { intros j Hj. rewrite (Hcopy j) by lia. rewrite (proj2 (Z.leb_gt _ _)) by lia. cbn [andb].
    apply rd64_zero_words_in; unfold slot; lia. }
  split; [|split_and!; try done].
  - split; cbn; eauto.
    + by split; [| | |intros t l Hl; cbn; rewrite Hused, (Hu _ _ Hl), orb_true_r
        by (destruct (tree_table _ _ Ht _ _ Hl); dlia)].
    + intros q Hq Huq. by rewrite Hused, Huq, orb_true_r.
    + intros x Hx Hux Hlx. split; [done|]. apply Hout'.
      assert (x / 4096 <> a / 4096) by (intros E; congruence). dlia.
  - intros v. unfold xlate. cbn. by apply (Hw 4%nat).
  - cbn. rewrite Hused by dlia. by rewrite Z.eqb_refl.
  - intros j Hj. cbn. rewrite Hupper by lia. symmetry. apply (Hent _ _ _ Hr). lia.
Qed.

Lemma create_evolves s lvl :
  vmm_inv s lvl -> evolves s lvl (snd (vmm_create_address_space s)) lvl.
Proof.
  intros Hinv. pose proof (create_spec s lvl Hinv) as H'.
  destruct (vmm_create_address_space s) as [a s']. by destruct H'.
Qed.

(** C21: [vmm_create_address_space] returns NULL only when no page is left;
    otherwise a fresh page whose PML4 translates the upper half as the kernel's
    and the lower half to nothing, with the kernel's own mapping unchanged. *)
Theorem vmm_create_address_space_correct s lvl :
  vmm_inv s lvl ->
  let '(a, s') := vmm_create_address_space s in
  evolves s lvl s' lvl /\ (forall v, xlate s' v = xlate s v) /\
  if a =? 0 then s' = s /\ pa_alloc (frames s) = (0, frames s)
  else
    lvl !! a = None /\ pa_used (frames s) (a / 4096) = false /\
    pa_used (frames s') (a / 4096) = true /\
    (forall v, 256 <= pml4_index v -> walk (vmem s') 4 a v = xlate s v) /\
    (forall v, pml4_index v < 256 -> walk (vmem s') 4 a v = None).
Proof.
  intros Hinv. pose proof (create_spec s lvl Hinv) as Hspec.
  destruct (vmm_create_address_space s) as [a s']. destruct Hspec as (Hev & Hx & Hcase).
  split; [exact Hev|]. split; [exact Hx|]. destruct (a =? 0); [exact Hcase|].
  destruct Hcase as (H1 & H2 & H3 & Hup & Hlow). split_and!; try done; intros v Hv;
    rewrite (proj1 (idx_levels v)) in Hv; pose proof (idx_range 4 v).
  - rewrite <- Hx. unfold xlate. rewrite (ev_root _ _ _ _ Hev). cbn [walk]. by rewrite Hup by lia.
  - cbn [walk]. by rewrite Hlow by lia.
Qed.

Lemma destroy_spec s lvl (a : Z) :
  vmm_inv s lvl -> 0 < a < 2 ^ 28 -> a mod 4096 = 0 -> lvl !! a = None ->
  let s' := vmm_destroy_address_space a s in
  vmm_inv s' lvl /\ (forall v, xlate s' v = xlate s v) /\
  (forall i, 0 <= i < 256 -> present (rd64 (vmem s') (slot a i)) = false) /\
  (forall t l i, lvl !! t = Some l -> 0 <= i < 512 -> rd64 (vmem s') (slot t i) = rd64 (vmem s) (slot t i)) /\
  (forall x, x < a \/ a + 4096 <= x -> rd8 (vmem s') x = rd8 (vmem s) x) /\
  forall q, 0 <= q -> pa_used (frames s') q = negb (q =? a / 4096) && pa_used (frames s) q.
Proof.
  intros Hinv Ha Hal Hn s'. pose proof Hinv as [Hr Ht Hok Hu].
  unfold s', vmm_destroy_address_space. rewrite (proj2 (Z.eqb_neq a 0)) by lia.
  destruct (clear_entries_spec 256 0 a (vmem s) Hal ltac:(lia) ltac:(lia)) as [Hclear Hout].
  set (m' := clear_entries _ _ _ _) in *. clearbody m'. change (0 + Z.of_nat 256) with 256 in Hclear.
  destruct (off_table s lvl a m' Hinv Hal Hn Hout) as (Ht' & Hw & Hent).
  split_and!.
  - split; cbn; [done|done|apply pa_free_ok; [done|lia]|]. intros t l Hl.
    destruct (tree_table _ _ Ht _ _ Hl) as (_ & ? & ?).
    rewrite pa_free_page, (Hu _ _ Hl) by (done || dlia || lia).
    assert (t <> a) by (intros ->; congruence). rewrite (proj2 (Z.eqb_neq _ _)); [done|]. dlia.
  - intros v. unfold xlate. cbn. by apply (Hw 4%nat).
  - intros i Hi. cbn. rewrite (Hclear i) by lia.
    rewrite (proj2 (Z.leb_le _ _)), (proj2 (Z.ltb_lt _ _)) by lia. cbn [andb].
    by destruct (present (rd64 (vmem s) (slot a i))) eqn:E.
  - intros t l i Hl Hi. cbn. by apply (Hent t l).
  - intros x Hx. cbn. by apply Hout.
  - intros q Hq. cbn. apply pa_free_page; [done|lia|done].
Qed.

(** [vmm_destroy_address_space] of a PML4 that is not one of the kernel's
    tables: the kernel's mapping and invariant are kept, the present entries of
    the lower half are cleared, and of all pages only that of the PML4 itself is
    given back (the tables below it stay allocated). *)
Theorem vmm_destroy_address_space_correct s lvl (a : Z) :
  vmm_inv s lvl -> 0 < a < 2 ^ 28 -> a mod 4096 = 0 -> lvl !! a = None ->
  let s' := vmm_destroy_address_space a s in
  vmm_inv s' lvl /\ (forall v, xlate s' v = xlate s v) /\
  (forall i, 0 <= i < 256 -> present (rd64 (vmem s') (slot a i)) = false) /\
  forall q, 0 <= q -> pa_used (frames s') q = negb (q =? a / 4096) && pa_used (frames s) q.
Proof.
  intros Hinv Ha Hal Hn. destruct (destroy_spec s lvl a Hinv Ha Hal Hn) as (H1 & H2 & H3 & _ & _ & H4).
  by split_and!.
Qed.

(** ** Initialisation and reachability *)

(** A cleared PML4 alone is a tree that maps nothing. *)
Lemma tree_cleared (m : memory) (a : Z) :
  0 < a < 2 ^ 52 -> a mod 4096 = 0 ->
  tree (zero_words 512 m a) {[a := 4%nat]} /\
  forall v, walk (zero_words 512 m a) 4 a v = None.
Proof.
  intros Ha Hal. set (m' := zero_words 512 m a).
  assert (Hz : forall i, 0 <= i < 512 -> rd64 m' (slot a i) = 0).
  { intros i Hi. apply rd64_zero_words_in; unfold slot; lia. }
  clearbody m'.
  assert (Hc : forall t i c, child m' {[a := 4%nat]} t i c -> False).
  { intros t i c ((l & Hl) & Hi & Hp & _). apply lookup_singleton_Some in Hl as [<- _].
    by rewrite Hz in Hp. }
  split; [split|].
  - intros t l [<- <-]%lookup_singleton_Some. split_and!; try done; lia.
  - intros t i c l Hch. by destruct (Hc _ _ _ Hch).
  - intros t1 i1 t2 i2 c Hch. by destruct (Hc _ _ _ Hch).
  - intros v. cbn [walk]. by rewrite Hz by apply idx_range.
Qed.

Lemma vmm_init_fresh s :
  pa_ok (frames s) -> cr3 s = 0 -> fst (pa_alloc (frames s)) <> 0 ->
  exists s', vmm_init s = Some s' /\ cr3 s' = kernel_pml4 s' /\
    vmm_inv s' {[kernel_pml4 s' := 4%nat]} /\ forall v, xlate s' v = None.
Proof.
  intros Hok Hcr3 Hne. unfold vmm_init. cbn. rewrite Hcr3. cbn [Z.eqb].
  destruct (pa_alloc (frames s)) as [a f] eqn:Ha. cbn in Hne.
  rewrite (proj2 (Z.eqb_neq a 0) Hne). eexists. split; [reflexivity|]. split; [done|].
  cbn [kernel_pml4 vmm_set_cr3 with_vmem set_kernel_pml4 vmem with_frames].
  destruct (pa_alloc_fresh _ _ _ Hok Ha Hne) as (page & -> & Hp & Hfree & Hused).
  destruct (tree_cleared (vmem s) (page * 4096)) as [Ht Hw]; [lia|by rewrite Z.mod_mul|].
  split; [|exact Hw]. split; [by apply lookup_singleton_Some|exact Ht|by eapply pa_alloc_ok|].
  intros t l [<- <-]%lookup_singleton_Some. cbn. rewrite Z.div_mul, Hused by lia.
  by rewrite Z.eqb_refl.
Qed.

(** The operations a kernel performs on its tables after [vmm_init]. *)
(** The spaces that exist are distinct pages in use apart from the kernel's tables. *)
Record spaces_ok s (lvl : levels) (L : list Z) : Prop := SpacesOk {
  sp_nodup : NoDup L;
  sp_page : forall a, a ∈ L -> 0 < a < 2 ^ 28 /\ a mod 4096 = 0 /\ lvl !! a = None /\
    pa_used (frames s) (a / 4096) = true
}.

(** A step of the kernel, with the address spaces that exist: a space is destroyed by
    whoever has it from [vmm_create_address_space], once. *)
Inductive vmm_step : vmm S * list Z -> vmm S * list Z -> Prop :=
| step_map s L virt phys flags : 0 <= phys < 2 ^ 64 -> 0 <= flags < 2 ^ 64 ->
    vmm_step (s, L) (vmm_map_page virt phys flags s, L)
| step_unmap s L virt : vmm_step (s, L) (vmm_unmap_page virt s, L)
| step_create s L a s' : vmm_create_address_space s = (a, s') ->
    vmm_step (s, L) (s', if a =? 0 then L else a :: L)
| step_switch s L a : vmm_step (s, L) (vmm_switch_address_space a s, L)
| step_destroy s L1 a L2 : vmm_step (s, L1 ++ a :: L2) (vmm_destroy_address_space a s, L1 ++ L2).

(** What a sequence of steps keeps: [evolves] up to the pages of the spaces [L] that
    existed at its start. *)
Record keeps s (lvl : levels) (L : list Z) s' (lvl' : levels) (L' : list Z) : Prop := Keeps {
  kp_root : kernel_pml4 s' = kernel_pml4 s;
  kp_inv : vmm_inv s' lvl';
  kp_spaces : spaces_ok s' lvl' L';
  kp_lvl : forall t l, lvl !! t = Some l -> lvl' !! t = Some l;
  kp_entries : forall t l i, lvl !! t = Some (Datatypes.S (Datatypes.S l)) -> 0 <= i < 512 ->
    present (rd64 (vmem s) (slot t i)) = true -> rd64 (vmem s') (slot t i) = rd64 (vmem s) (slot t i);
  kp_used : forall q, 0 <= q -> pa_used (frames s) q = true -> q * 4096 ∉ L ->
    pa_used (frames s') q = true /\ q * 4096 ∉ L';
  kp_frame : forall a, 0 <= a -> pa_used (frames s) (a / 4096) = true ->
    lvl !! (a / 4096 * 4096) = None -> a / 4096 * 4096 ∉ L ->
    lvl' !! (a / 4096 * 4096) = None /\ rd8 (vmem s') a = rd8 (vmem s) a
}.

Lemma keeps_trans s1 l1 L1 s2 l2 L2 s3 l3 L3 :
  keeps s1 l1 L1 s2 l2 L2 -> keeps s2 l2 L2 s3 l3 L3 -> keeps s1 l1 L1 s3 l3 L3.
Proof.
  intros [A1 A2 A3 A4 A5 A6 A7] [B1 B2 B3 B4 B5 B6 B7]. split; eauto; [congruence| | |].
  - intros t l i Ht Hi Hp. rewrite (B5 t l i); [by eauto|by eauto|done|]. by rewrite (A5 t l i).
  - intros q Hq Hu Hn. destruct (A6 q Hq Hu Hn). by apply B6.
  - intros a Ha Hu Hl Hn. destruct (A7 a Ha Hu Hl Hn) as [C1 C2]. destruct (A6 (a / 4096)) as [C3 C4]; [dlia|done..|].
    destruct (B7 a Ha C3 C1 C4) as [D1 D2]. split; congruence.
Qed.

(** The spaces are still there after an operation that frees nothing. *)
Lemma evolves_keeps s lvl s' lvl' (L : list Z) :
  evolves s lvl s' lvl' -> spaces_ok s lvl L -> keeps s lvl L s' lvl' L.
Proof.
  intros [E1 E2 E3 E4 E5 E6] [Hnd HL]. split; try done; [|by eauto|by eauto].
  split; [done|]. intros a Ha. destruct (HL a Ha) as (H1 & H2 & H3 & H4).
  assert (Ea : a / 4096 * 4096 = a) by dlia. split_and!; try done; [lia|lia| |].
  - destruct (E6 a) as [H5 _]; rewrite ?Ea; try done; [lia|]. by rewrite Ea in H5.
  - apply E4; [dlia|done].
Qed.

Lemma create_keeps s lvl (L : list Z) (a : Z) s' :
  vmm_inv s lvl -> spaces_ok s lvl L -> vmm_create_address_space s = (a, s') ->
  keeps s lvl L s' lvl (if a =? 0 then L else a :: L).
Proof.
  intros Hinv HL Hc. pose proof (create_spec s lvl Hinv) as Hs. rewrite Hc in Hs. destruct Hs as (Hev & _ & Hcase).
  destruct (evolves_keeps _ _ _ _ _ Hev HL) as [K1 K2 K3 K4 K5 K6 K7].
  destruct (Z.eqb_spec a 0) as [->|Hne]; [done|]. destruct Hcase as (Hn & Hfree & Hused & _).
  assert (Hpage : 0 < a < 2 ^ 28 /\ a mod 4096 = 0).
  { revert Hc. unfold vmm_create_address_space. destruct (pa_alloc (frames s)) as [p f] eqn:Hp.
    destruct (Z.eqb_spec p 0) as [->|Hpn]; intros E%(f_equal fst); cbn [fst] in E; [lia|]. subst p.
    destruct (pa_alloc_fresh _ _ _ (vi_ok _ _ Hinv) Hp Hpn) as (page & -> & Hpage & _).
    rewrite Z.mod_mul by lia. lia. }
  split; try done.
  - destruct K3 as [Hnd Hsp]. split.
    + apply NoDup_cons. split; [|done]. intros Hin. destruct (sp_page _ _ _ HL a Hin) as (_ & _ & _ & Hu). congruence.
    + intros x [->|Hx]%elem_of_cons; [|by apply Hsp]. split_and!; (done || lia).
  - intros q Hq Hu Hl. destruct (K6 q Hq Hu Hl) as [H1 H2]. split; [done|].
    intros [E|E]%elem_of_cons; [|done]. subst a. rewrite Z.div_mul in Hfree by lia. congruence.
Qed.

Lemma destroy_keeps s lvl (L1 L2 : list Z) (a : Z) :
  vmm_inv s lvl -> spaces_ok s lvl (L1 ++ a :: L2) ->
  keeps s lvl (L1 ++ a :: L2) (vmm_destroy_address_space a s) lvl (L1 ++ L2).
Proof.
  intros Hinv HL. destruct HL as [Hnd HL]. destruct (HL a ltac:(set_solver)) as (Ha & Hal & Hn & _).
  destruct (destroy_spec s lvl a Hinv Ha Hal Hn) as (K1 & _ & _ & Kin & Kout & Ku).
  rewrite <- Permutation_middle in Hnd. apply NoDup_cons in Hnd as [Hna Hnd].
  assert (Haq : forall q, q * 4096 <> a -> q <> a / 4096) by (intros q Hq ->; apply Hq; dlia).
  split; try done.
  - unfold vmm_destroy_address_space. by destruct (a =? 0).
  - split; [done|]. intros x Hx. destruct (HL x ltac:(set_solver)) as (H1 & H2 & H3 & H4).
    split_and!; try done; [lia|lia|]. rewrite Ku, H4 by dlia.
    assert (x <> a) by (intros ->; done). rewrite (proj2 (Z.eqb_neq _ _)); [done|]. dlia.
  - intros t l i Ht Hi _. by apply (Kin t _ i Ht).
  - intros q Hq Hu Hl. split; [|set_solver]. rewrite Ku, Hu by done.
    rewrite (proj2 (Z.eqb_neq _ _)); [done|]. apply Haq. set_solver.
  - intros x Hx Hu Hl HxL. split; [done|]. apply Kout. assert (x / 4096 * 4096 <> a) by set_solver. dlia.
Qed.

Lemma switch_evolves s lvl (a : Z) : vmm_inv s lvl -> evolves s lvl (vmm_switch_address_space a s) lvl.
Proof.
  intros Hinv. unfold vmm_switch_address_space. destruct (a =? 0); [by apply evolves_refl|].
  destruct Hinv as [Hr Ht Hok Hu]. by split; [|split|..].
Qed.

(** One step. *)
Lemma step_keeps s (L : list Z) s' (L' : list Z) lvl :
  vmm_step (s, L) (s', L') -> vmm_inv s lvl -> spaces_ok s lvl L -> exists lvl', keeps s lvl L s' lvl' L'.
Proof.
  intros Hstep Hinv HL. inversion Hstep as [? ? virt phys flags Hp Hf|? ? virt|? ? a ? Hc|? ? a|? L1 a L2]; subst.
  - destruct (map_entry_ok phys flags Hp Hf) as [He _].
    destruct (store_entry_spec s lvl virt _ Hinv He) as (l1 & E & _). exists l1. by apply evolves_keeps.
  - destruct (store_entry_spec s lvl virt 0 Hinv ltac:(lia)) as (l1 & E & _). exists l1. by apply evolves_keeps.
  - exists lvl. by apply create_keeps.
  - exists lvl. apply evolves_keeps; [by apply switch_evolves|done].
  - exists lvl. by apply destroy_keeps.
Qed.

(** C19: whatever sequence of maps, unmaps, switches, new address spaces and destructions
    of such spaces (each at most once) the kernel performs, its tables remain a four-level
    tree of pages in use, all the tables it had are still there with their present entries,
    the spaces that exist are pages in use apart from the tables, and of the other pages in
    use none is freed and no byte is written. *)
Theorem vmm_reachable_evolves s (L : list Z) s' (L' : list Z) lvl :
  vmm_inv s lvl -> spaces_ok s lvl L -> rtc vmm_step (s, L) (s', L') ->
  exists lvl', keeps s lvl L s' lvl' L'.
Proof.
  intros Hinv HL Hrtc. remember (s, L) as x eqn:Ex. remember (s', L') as y eqn:Ey.
  revert s L lvl Ex Hinv HL. induction Hrtc as [x|x [s1 L1] y Hstep _ IH]; intros s L lvl -> Hinv HL.
  { injection Ey as -> ->. exists lvl. apply evolves_keeps; [by apply evolves_refl|done]. }
  destruct (step_keeps s L s1 L1 lvl Hstep Hinv HL) as (lvl1 & K1).
  destruct (IH Ey s1 L1 lvl1 eq_refl (kp_inv _ _ _ _ _ _ K1) (kp_spaces _ _ _ _ _ _ K1)) as (lvl' & K').
  exists lvl'. by eapply keeps_trans.
Qed.

End Vmm.

(** ** Concrete instances: the manager on top of the reference allocator *)

#[local] Opaque vmm_map_page vmm_unmap_page vmm_get_or_create_entry store_entry vmm_get_physical
  vmm_init vmm_create_address_space vmm_destroy_address_space.

Definition demo_boot : vmm pages := Vmm 0 0 ∅ (Pages []) [].
Definition demo_vmm : vmm pages := default demo_boot (vmm_init demo_boot).

Lemma demo_vmm_inv : vmm_inv demo_vmm {[0x200000 := 4%nat]} /\ forall v, xlate demo_vmm v = None.
Proof.
  assert (Hok : pa_ok (frames demo_boot)) by exact I.
  destruct (vmm_init_fresh demo_boot Hok eq_refl) as (s' & Hs & _ & Hinv & Hx).
  { vm_compute. discriminate. }
  assert (Es : demo_vmm = s') by (unfold demo_vmm; by rewrite Hs). rewrite Es.
  replace 0x200000 with (kernel_pml4 s'); [by split|].
  rewrite <- Es. vm_compute. reflexivity.
Qed.

Lemma not_exhausted (r : pages) : fst (pa_alloc r) <> 0 -> pa_alloc r <> (0, r).
Proof. intros H E. apply H. by rewrite E. Qed.

(** A mapping in the demo space: 0x40001000 to the frame 0x5000. *)
Lemma vmm_map_page_correct_witness :
  vmm_get_physical 0x40001234 (vmm_map_page 0x40001000 0x5000 VMM_WRITABLE demo_vmm) = 0x5234.
Proof.
  destruct (vmm_map_page_correct demo_vmm _ 0x40001000 0x5000 VMM_WRITABLE (proj1 demo_vmm_inv))
    as (lvl' & _ & [[Hoom _]|(_ & Hsame & _)]).
  - lia.
  - vm_compute. split; [discriminate|reflexivity].
  - exfalso. revert Hoom. apply not_exhausted. vm_compute. discriminate.
  - destruct (Hsame 0x40001234) as [-> _]; vm_compute; reflexivity.
Defined.

Definition demo_mapped : vmm pages := vmm_map_page 0x40001000 0x5000 VMM_WRITABLE demo_vmm.

Lemma demo_mapped_inv : exists lvl, vmm_inv demo_mapped lvl /\ lvl !! 0x204000 = None.
Proof.
  destruct (map_entry_ok 0x5000 VMM_WRITABLE) as [He _]; [lia|by split|].
  destruct (store_entry_spec demo_vmm _ 0x40001000 _ (proj1 demo_vmm_inv) He) as (lvl & Hev & _).
  rewrite <- map_page_store in Hev. fold demo_mapped in Hev. exists lvl.
  destruct Hev as [_ Hinv _ _ _ _].
  split; [exact Hinv|]. destruct (lvl !! 0x204000) as [l|] eqn:E; [|reflexivity].
  apply (vi_used _ _ Hinv) in E. clear -E.
  assert (Hf : pa_used (frames demo_mapped) (0x204000 / 4096) = false) by (vm_compute; reflexivity).
  rewrite Hf in E. discriminate E.
Qed.

Lemma vmm_unmap_page_correct_witness :
  vmm_get_physical 0x40001234 (vmm_unmap_page 0x40001000 demo_mapped) = 0.
Proof.
  destruct demo_mapped_inv as (lvl & Hinv & _).
  destruct (vmm_unmap_page_correct demo_mapped lvl 0x40001000 Hinv)
    as (lvl' & _ & [[Hoom _]|(_ & Hsame & _)]).
  - exfalso. revert Hoom. apply not_exhausted. vm_compute. discriminate.
  - apply Hsame. vm_compute. reflexivity.
Defined.

Lemma vmm_get_physical_keeps_nx_witness :
  vmm_get_physical 0x40001234 (vmm_map_page 0x40001234 0x5000 (Z.lor VMM_WRITABLE VMM_NX) demo_vmm)
  = 0x8000000000005234.
Proof.
  rewrite (vmm_get_physical_keeps_nx demo_vmm _ 0x40001234 0x5000 VMM_WRITABLE (proj1 demo_vmm_inv)).
  - vm_compute. reflexivity.
  - lia.
  - vm_compute. split; [discriminate|reflexivity].
  - apply not_exhausted. vm_compute. discriminate.
Defined.

(** Tables of firmware that maps address 0 with a 2 MB page at 0x600000, whose
    first word is 0xDEADBEEF. *)
Definition demo_huge : vmm pages :=
  let m := wr64 ∅ 0x1000 0x2003 in
  let m := wr64 m 0x2000 0x3003 in
  let m := wr64 m 0x3000 (0x600000 + 0x83) in
  let m := wr64 m 0x600000 0xDEADBEEF in
  Vmm 0x1000 0x1000 m (Pages []) [].

Lemma vmm_get_physical_ignores_huge_witness : vmm_get_physical 0x123 demo_huge = 0xDEADB123.
Proof.
  rewrite (vmm_get_physical_ignores_huge demo_huge 0x123 0x3003 0x600083);
    vm_compute; (reflexivity || discriminate).
Defined.

Lemma vmm_create_address_space_correct_witness :
  let '(a, s') := vmm_create_address_space demo_mapped in
  a = 0x204000 /\ forall v, pml4_index v < 256 -> walk (vmem s') 4 a v = None.
Proof.
  destruct demo_mapped_inv as (lvl & Hinv & _).
  pose proof (vmm_create_address_space_correct demo_mapped lvl Hinv) as H.
  assert (Ha : fst (vmm_create_address_space demo_mapped) = 0x204000) by (vm_compute; reflexivity).
  destruct (vmm_create_address_space demo_mapped) as [a s']. cbn in Ha. subst a.
  split; [reflexivity|]. apply H.
Defined.

Lemma vmm_destroy_address_space_correct_witness :
  exists lvl, vmm_inv (vmm_destroy_address_space 0x204000 demo_mapped) lvl.
Proof.
  destruct demo_mapped_inv as (lvl & Hinv & Hn). exists lvl.
  apply (vmm_destroy_address_space_correct demo_mapped lvl 0x204000); [exact Hinv|lia|reflexivity|exact Hn].
Defined.

(** A space is created and destroyed again. *)
Lemma vmm_reachable_evolves_witness : exists a s', vmm_create_address_space demo_vmm = (a, s') /\
  exists lvl', keeps demo_vmm {[0x200000 := 4%nat]} [] (vmm_destroy_address_space a s') lvl' [].
Proof.
  destruct (vmm_create_address_space demo_vmm) as [a s'] eqn:E. exists a, s'. split; [reflexivity|].
  assert (Ha : fst (vmm_create_address_space demo_vmm) = 0x201000) by (vm_compute; reflexivity).
  rewrite E in Ha. cbn in Ha. subst a.
  apply (vmm_reachable_evolves demo_vmm [] _ [] _ (proj1 demo_vmm_inv)).
  - split; [apply NoDup_nil_2|]. intros a Ha. by apply not_elem_of_nil in Ha.
  - eapply rtc_l; [exact (step_create _ _ _ _ E)|]. eapply rtc_l; [exact (step_destroy s' [] 0x201000 [])|].
    apply rtc_refl.
Defined.
