(* ===== verification/Io.v ===== *)
(** * Port input and output ([kernel/io.h])

    The devices behind the ports are not part of the program: they are a state
    type with a transition for each access ([PortDevice]).  [io] adds the trace
    of the accesses the program performs, newest first; a device law that a
    driver relies on is a hypothesis of the driver's theorems. *)

From S2P Require Import Prelude Mem.

(** The hardware: what an access of [w] bits at a port does. *)
Class PortDevice (D : Type) := {
  port_in : Z -> Z -> D -> Z * D;          (** width, port *)
  port_out : Z -> Z -> Z -> D -> D         (** width, port, value *)
}.

Inductive io_event :=
| In (w port v : Z)
| Out (w port v : Z).

Record io (D : Type) := Io { dev : D; trace : list io_event }.
Arguments Io {D}.
Arguments dev {D}.
Arguments trace {D}.

Section Ports.
  Context {D : Type} `{PortDevice D}.

Definition port_read (w port : Z) (s : io D) : Z * io D :=
  let '(v, d) := port_in w port (dev s) in
  (uwrap w v, Io d (In w port (uwrap w v) :: trace s)).
Definition port_write (w port v : Z) (s : io D) : io D :=
  Io (port_out w port (uwrap w v) (dev s)) (Out w port (uwrap w v) :: trace s).

Definition inb (port : Z) : io D -> Z * io D := port_read 8 port.
Definition inw (port : Z) : io D -> Z * io D := port_read 16 port.
Definition inl (port : Z) : io D -> Z * io D := port_read 32 port.
Definition outb (port v : Z) : io D -> io D := port_write 8 port v.
Definition outw (port v : Z) : io D -> io D := port_write 16 port v.
Definition outl (port v : Z) : io D -> io D := port_write 32 port v.
Definition io_wait : io D -> io D := outb 0x80 0.

End Ports.

(** Registers in memory: accesses of a width at an address.  The fences of the
    header order accesses and change no state. *)
Definition mmio_read8 (addr : Z) (m : memory) : Z := rd8 m addr.
Definition mmio_read16 (addr : Z) (m : memory) : Z := rd16 m addr.
Definition mmio_read32 (addr : Z) (m : memory) : Z := rd32 m addr.
Definition mmio_read64 (addr : Z) (m : memory) : Z := rd64 m addr.
Definition mmio_write8 (addr val : Z) (m : memory) : memory := wr8 m addr val.
Definition mmio_write16 (addr val : Z) (m : memory) : memory := wr16 m addr val.
Definition mmio_write32 (addr val : Z) (m : memory) : memory := wr32 m addr val.
Definition mmio_write64 (addr val : Z) (m : memory) : memory := wr64 m addr val.
