(* ===== verification/Gdt.v ===== *)
(** * The global descriptor table and the TSS ([kernel/cpu/gdt.c])

    The seven 8-byte descriptors, the task state segment and the registers that
    [gdt_init] loads.  [seg_base], [seg_limit] and [tss_desc_base] are the
    processor's reading of a descriptor; the theorems show that what the code
    stores field by field is read back as the base and limit it was given. *)

From S2P Require Import Prelude.

Record gdt_entry := GdtEntry {
  limit_low : Z; base_low : Z; base_mid : Z; access : Z; granularity : Z; base_high : Z
}.
Definition null_entry : gdt_entry := GdtEntry 0 0 0 0 0 0.

(** [tss_t]: the stack pointers, the interrupt stacks and the I/O map base; the
    reserved fields are kept as the bytes the code clears. *)
Record tss_t := Tss {
  rsp0 : Z; rsp1 : Z; rsp2 : Z; ists : list Z; reserved : list Z; iomap_base : Z
}.
Definition sizeof_tss : Z := 104.
Definition tss_zero : tss_t := Tss 0 0 0 (replicate 7 0) (replicate 4 0) 0.

Definition GDT_NULL : Z := 0.
Definition GDT_KERNEL_CODE : Z := 1.
Definition GDT_KERNEL_DATA : Z := 2.
Definition GDT_USER_CODE : Z := 3.
Definition GDT_USER_DATA : Z := 4.
Definition GDT_TSS_LOW : Z := 5.
Definition GDT_TSS_HIGH : Z := 6.

(** The table, the TSS, and what [lgdt], the segment loads and [ltr] set. *)
Record gdt_state := Gdt {
  gdt : list gdt_entry; tss : tss_t; gdtr : Z * Z; seg_cs : Z; seg_data : Z; seg_fs_gs : Z; tr : Z
}.

Definition gdt_put (index : Z) (e : gdt_entry) (s : gdt_state) : gdt_state :=
  Gdt (<[Z.to_nat index := e]> (gdt s)) (tss s) (gdtr s) (seg_cs s) (seg_data s) (seg_fs_gs s) (tr s).
Definition with_tss (t : tss_t) (s : gdt_state) : gdt_state :=
  Gdt (gdt s) t (gdtr s) (seg_cs s) (seg_data s) (seg_fs_gs s) (tr s).
Definition gdt_at (index : Z) (s : gdt_state) : gdt_entry :=
  default null_entry (gdt s !! Z.to_nat index).

Definition gdt_set_entry (index base limit acc flags : Z) : gdt_state -> gdt_state :=
  gdt_put index (GdtEntry
    (u16 (Z.land limit 0xFFFF)) (u16 (Z.land base 0xFFFF)) (u8 (Z.land (Z.shiftr base 16) 0xFF))
    (u8 acc) (u8 (Z.lor (Z.land (Z.shiftr limit 16) 0x0F) (Z.land flags 0xF0)))
    (u8 (Z.land (Z.shiftr base 24) 0xFF))).

Fixpoint gdt_clear (n : nat) (s : gdt_state) : gdt_state :=
  match n with
  | O => s
  | S n' => gdt_put (Z.of_nat n') null_entry (gdt_clear n' s)
  end.

(** [tss_addr] and [gdt_addr] are the addresses the linker gave to [tss] and [gdt]. *)
Definition gdt_init (tss_addr gdt_addr : Z) (s : gdt_state) : gdt_state :=
  let s := gdt_clear 7 s in
  let s := gdt_set_entry GDT_NULL 0 0 0 0 s in
  let s := gdt_set_entry GDT_KERNEL_CODE 0 0xFFFFF 0x9A 0xA0 s in
  let s := gdt_set_entry GDT_KERNEL_DATA 0 0xFFFFF 0x92 0x80 s in
  let s := gdt_set_entry GDT_USER_CODE 0 0xFFFFF 0xFA 0xA0 s in
  let s := gdt_set_entry GDT_USER_DATA 0 0xFFFFF 0xF2 0x80 s in
  let s := with_tss (Tss 0 0 0 (replicate 7 0) (replicate 4 0) sizeof_tss) s in
  let tss_base := u64 tss_addr in
  let tss_limit := sizeof_tss - 1 in
  let s := gdt_put GDT_TSS_LOW (GdtEntry
    (Z.land tss_limit 0xFFFF) (Z.land tss_base 0xFFFF) (Z.land (Z.shiftr tss_base 16) 0xFF)
    0x89 (Z.land (Z.shiftr tss_limit 16) 0x0F) (Z.land (Z.shiftr tss_base 24) 0xFF)) s in
  let high := Z.land (Z.shiftr tss_base 32) 0xFFFFFFFF in
  let s := gdt_put GDT_TSS_HIGH (GdtEntry (u16 high) (u16 (Z.shiftr high 16)) 0 0 0 0) s in
  Gdt (gdt s) (tss s) (7 * 8 - 1, gdt_addr) 0x08 0x10 0 (u16 (GDT_TSS_LOW * 8)).

Definition gdt_set_tss_stack (stack : Z) (s : gdt_state) : gdt_state :=
  let t := tss s in
  with_tss (Tss (u64 stack) (rsp1 t) (rsp2 t) (ists t) (reserved t) (iomap_base t)) s.

(** ** The processor's reading of a descriptor *)

Definition seg_base (e : gdt_entry) : Z :=
  base_low e + 2 ^ 16 * base_mid e + 2 ^ 24 * base_high e.
Definition seg_limit (e : gdt_entry) : Z :=
  limit_low e + 2 ^ 16 * (granularity e mod 16).
Definition seg_flags (e : gdt_entry) : Z := granularity e / 16.
(** A system descriptor takes two slots; the second holds the upper base. *)
Definition tss_desc_base (low high : gdt_entry) : Z :=
  seg_base low + 2 ^ 32 * (limit_low high + 2 ^ 16 * base_low high).

(** The granularity byte: four limit bits below, four flag bits above. *)
Lemma gran_byte (limit flags : Z) :
  0 <= limit < 2 ^ 20 -> 0 <= flags < 2 ^ 8 ->
  u8 (Z.lor (Z.land (Z.shiftr limit 16) 0x0F) (Z.land flags 0xF0))
  = limit / 2 ^ 16 + 16 * (flags / 16).
Proof.
  intros Hl Hf. rewrite land_0f, Z.shiftr_div_pow2 by lia.
  assert (E : Z.land flags 0xF0 = 16 * (flags / 16)).
  { pose proof (land_align_down 4 flags ltac:(lia) ltac:(lia)) as H. change (2 ^ 4) with 16 in H.
    rewrite (Z.mul_comm 16), <- H. apply Z.bits_inj'. intros i Hi. rewrite !Z.land_spec.
    destruct (Z.ltb_spec i 8).
    - f_equal. assert (Hc : i = 0 \/ i = 1 \/ i = 2 \/ i = 3 \/ i = 4 \/ i = 5 \/ i = 6 \/ i = 7) by lia.
      by destruct Hc as [->|[->|[->|[->|[->|[->|[->| ->]]]]]]].
    - by rewrite (testbit_high 8 flags i), !andb_false_l by lia. }
  rewrite E, lor_add.
  - rewrite uwrap_small; dlia.
  - apply Z.bits_inj'. intros i Hi. rewrite Z.land_spec, Z.bits_0.
    destruct (Z.ltb_spec i 4).
    + replace (16 * (flags / 16)) with (Z.shiftl (flags / 16) 4)
        by (rewrite Z.shiftl_mul_pow2 by lia; lia).
      by rewrite Z.shiftl_spec_low, andb_false_r by lia.
    + by rewrite (Z.mod_pow2_bits_high _ 4 i), andb_false_l by lia.
Qed.

(** ** Theorems *)

(** after [gdt_init] the processor reads flat code and data segments of
    ring 0 and 3 (long mode for code), a TSS descriptor with the full 64-bit
    address of [tss] and limit 103, and the registers select them. *)
Theorem gdt_init_correct (tss_addr gdt_addr : Z) (s : gdt_state) :
  length (gdt s) = 7%nat -> 0 <= tss_addr < 2 ^ 64 ->
  let s' := gdt_init tss_addr gdt_addr s in
  length (gdt s') = 7%nat /\ gdt_at GDT_NULL s' = null_entry /\
  Forall (fun '(i, acc, flags) =>
      let e := gdt_at i s' in
      seg_base e = 0 /\ seg_limit e = 0xFFFFF /\ access e = acc /\ seg_flags e = flags)
    [(GDT_KERNEL_CODE, 0x9A, 0xA); (GDT_KERNEL_DATA, 0x92, 8);
     (GDT_USER_CODE, 0xFA, 0xA); (GDT_USER_DATA, 0xF2, 8)] /\
  tss_desc_base (gdt_at GDT_TSS_LOW s') (gdt_at GDT_TSS_HIGH s') = tss_addr /\
  seg_limit (gdt_at GDT_TSS_LOW s') = sizeof_tss - 1 /\ access (gdt_at GDT_TSS_LOW s') = 0x89 /\
  gdtr s' = (55, gdt_addr) /\ seg_cs s' = 8 * GDT_KERNEL_CODE /\ seg_data s' = 8 * GDT_KERNEL_DATA /\
  tr s' = 8 * GDT_TSS_LOW.
Proof.
  intros Hlen Ha s'. destruct s as [g t ? ? ? ? ?]. cbn [gdt] in Hlen.
  destruct g as [|g0 [|g1 [|g2 [|g3 [|g4 [|g5 [|g6 [|g7 g]]]]]]]]; try discriminate Hlen.
  split; [reflexivity|]. split; [reflexivity|].
  split; [repeat constructor|].
  split; [|repeat split; reflexivity].
  change (gdt_at GDT_TSS_LOW s') with (GdtEntry 103 (Z.land (u64 tss_addr) 0xFFFF)
    (Z.land (Z.shiftr (u64 tss_addr) 16) 0xFF) 0x89 0 (Z.land (Z.shiftr (u64 tss_addr) 24) 0xFF)).
  change (gdt_at GDT_TSS_HIGH s') with
    (let high := Z.land (Z.shiftr (u64 tss_addr) 32) 0xFFFFFFFF in
     GdtEntry (u16 high) (u16 (Z.shiftr high 16)) 0 0 0 0).
  unfold tss_desc_base, seg_base. cbn [base_low base_mid base_high limit_low].
  rewrite land_ffffffff, !land_ff, land_ffff, !Z.shiftr_div_pow2 by lia.
  rewrite (uwrap_small 64) by done. unfold uwrap. dlia.
Qed.

Lemma gdt_init_correct_witness :
  let s := Gdt (replicate 7 null_entry) tss_zero (0, 0) 0 0 0 0 in
  tss_desc_base (gdt_at GDT_TSS_LOW (gdt_init 0x123456789A 0x5000 s))
    (gdt_at GDT_TSS_HIGH (gdt_init 0x123456789A 0x5000 s)) = 0x123456789A.
Proof.
  intros s. destruct (gdt_init_correct 0x123456789A 0x5000 s) as (_ & _ & _ & H & _).
  - reflexivity.
  - lia.
  - exact H.
Defined.

(** a segment descriptor round trip: for every base, 20-bit limit, access
    byte and flags, the processor reads back what [gdt_set_entry] was given. *)
Theorem gdt_set_entry_roundtrip (index base limit acc flags : Z) (s : gdt_state) :
  0 <= index < zlen (gdt s) -> 0 <= base < 2 ^ 32 -> 0 <= limit < 2 ^ 20 ->
  0 <= acc < 2 ^ 8 -> 0 <= flags < 2 ^ 8 ->
  let e := gdt_at index (gdt_set_entry index base limit acc flags s) in
  seg_base e = base /\ seg_limit e = limit /\ access e = acc /\ seg_flags e = flags / 16.
Proof.
  intros Hi Hb Hl Ha Hf. unfold gdt_at, gdt_set_entry, gdt_put, zlen in *. cbn [gdt].
  rewrite list_lookup_insert_eq by lia. cbn [default seg_base seg_limit seg_flags access granularity
    limit_low base_low base_mid base_high]. unfold seg_base, seg_limit, seg_flags.
  cbn [access granularity limit_low base_low base_mid base_high from_option id].
  rewrite gran_byte by done. rewrite !land_ffff, !land_ff, !Z.shiftr_div_pow2 by lia.
  unfold uwrap. repeat split; dlia.
Qed.

Lemma gdt_set_entry_roundtrip_witness :
  seg_base (gdt_at 3 (gdt_set_entry 3 0xDEADBEEF 0xABCDE 0x9A 0xA0
    (Gdt (replicate 7 null_entry) tss_zero (0, 0) 0 0 0 0))) = 0xDEADBEEF.
Proof.
  apply (gdt_set_entry_roundtrip 3 0xDEADBEEF 0xABCDE 0x9A 0xA0); (lia || (vm_compute; split; [discriminate|reflexivity])).
Defined.
