(* ===== verification/Process.v ===== *)
(** * Processes ([kernel/proc/process.c])

    The process table of 64 control blocks, the current process and the next
    process identifier.  A [process_t *] into the table is the index of its
    slot ([None]: NULL), so aliasing between the table, the scheduler's queues
    and the current-process pointer is as in the source.  Kernel stacks come
    from the run allocator and are written in the paging code's memory. *)

From S2P Require Import Prelude Mem PageAlloc Vmm Gdt.

Definition MAX_PROCESSES : nat := 64.
Definition KERNEL_STACK_SIZE : Z := 8192.
Definition STACK_PAGES : Z := KERNEL_STACK_SIZE / 4096.

Inductive proc_state := PROC_UNUSED | PROC_READY | PROC_RUNNING | PROC_BLOCKED | PROC_ZOMBIE.
#[export] Instance proc_state_eq_dec : EqDecision proc_state.
Proof. solve_decision. Defined.

(** [process_t *] *)
Abbreviation ptr := (option nat).

Record process := Process {
  pid : Z;
  state : proc_state;
  priority : Z;
  context : Z;
  kernel_stack : Z;
  kernel_stack_top : Z;
  page_table : Z;
  brk : Z;
  time_slice : Z;
  total_time : Z;
  wake_time : Z;
  parent : ptr;
  exit_code : Z;
  next : ptr;
  prev : ptr;
  name : list Z
}.
Definition proc_zero : process :=
  Process 0 PROC_UNUSED 0 0 0 0 0 0 0 0 0 None 0 None None (replicate 32 0).

Definition set_pid (v : Z) (p : process) : process :=
  Process v (state p) (priority p) (context p) (kernel_stack p) (kernel_stack_top p) (page_table p) (brk p)
    (time_slice p) (total_time p) (wake_time p) (parent p) (exit_code p) (next p) (prev p) (name p).
Definition set_state (v : proc_state) (p : process) : process :=
  Process (pid p) v (priority p) (context p) (kernel_stack p) (kernel_stack_top p) (page_table p) (brk p)
    (time_slice p) (total_time p) (wake_time p) (parent p) (exit_code p) (next p) (prev p) (name p).
Definition set_context (v : Z) (p : process) : process :=
  Process (pid p) (state p) (priority p) v (kernel_stack p) (kernel_stack_top p) (page_table p) (brk p)
    (time_slice p) (total_time p) (wake_time p) (parent p) (exit_code p) (next p) (prev p) (name p).
Definition set_time_slice (v : Z) (p : process) : process :=
  Process (pid p) (state p) (priority p) (context p) (kernel_stack p) (kernel_stack_top p) (page_table p) (brk p)
    v (total_time p) (wake_time p) (parent p) (exit_code p) (next p) (prev p) (name p).
Definition set_total_time (v : Z) (p : process) : process :=
  Process (pid p) (state p) (priority p) (context p) (kernel_stack p) (kernel_stack_top p) (page_table p) (brk p)
    (time_slice p) v (wake_time p) (parent p) (exit_code p) (next p) (prev p) (name p).
Definition set_wake_time (v : Z) (p : process) : process :=
  Process (pid p) (state p) (priority p) (context p) (kernel_stack p) (kernel_stack_top p) (page_table p) (brk p)
    (time_slice p) (total_time p) v (parent p) (exit_code p) (next p) (prev p) (name p).
Definition set_exit_code (v : Z) (p : process) : process :=
  Process (pid p) (state p) (priority p) (context p) (kernel_stack p) (kernel_stack_top p) (page_table p) (brk p)
    (time_slice p) (total_time p) (wake_time p) (parent p) v (next p) (prev p) (name p).
Definition set_next (v : ptr) (p : process) : process :=
  Process (pid p) (state p) (priority p) (context p) (kernel_stack p) (kernel_stack_top p) (page_table p) (brk p)
    (time_slice p) (total_time p) (wake_time p) (parent p) (exit_code p) v (prev p) (name p).
Definition set_prev (v : ptr) (p : process) : process :=
  Process (pid p) (state p) (priority p) (context p) (kernel_stack p) (kernel_stack_top p) (page_table p) (brk p)
    (time_slice p) (total_time p) (wake_time p) (parent p) (exit_code p) (next p) v (name p).

Record pstate (S : Type) := PState {
  processes : list process;
  current_process : ptr;
  next_pid : Z;
  vm : vmm S;              (** memory, the page allocator, CR3 *)
  cpu : gdt_state          (** the GDT and the TSS *)
}.
Arguments PState {S}.
Arguments processes {S}.
Arguments current_process {S}.
Arguments next_pid {S}.
Arguments vm {S}.
Arguments cpu {S}.

Section Operations.
  Context {S : Type} `{PA : PageAllocator S, RA : RunAllocator S}.
  Implicit Types s : pstate S.

Definition with_vm (v : vmm S) s : pstate S :=
  PState (processes s) (current_process s) (next_pid s) v (cpu s).

(** [*p] and an assignment to fields of [*p]. *)
Definition proc s (p : nat) : process := default proc_zero (processes s !! p).
Definition upd (p : nat) (f : process -> process) s : pstate S :=
  PState (alter f p (processes s)) (current_process s) (next_pid s) (vm s) (cpu s).

Definition process_init s : pstate S :=
  PState ((fun p => set_pid 0 (set_state PROC_UNUSED p)) <$> processes s) None 1 (vm s) (cpu s).

(** The first slot at or after [i] whose state is [PROC_UNUSED]. *)
Fixpoint alloc_slot_from (i : nat) (l : list process) : ptr :=
  match l with
  | [] => None
  | p :: l' => if decide (state p = PROC_UNUSED) then Some i else alloc_slot_from (i + 1) l'
  end.
Definition alloc_process_slot s : ptr := alloc_slot_from 0 (processes s).

(** [*--sp = v] for each word of [vs] in turn. *)
Fixpoint push_words (vs : list Z) (sp : Z) (m : memory) : Z * memory :=
  match vs with
  | [] => (sp, m)
  | v :: vs' => push_words vs' (sp - 8) (wr64 m (sp - 8) v)
  end.

Definition process_create_kernel_thread (nm : list Z) (entry prio : Z) s : ptr * pstate S :=
  match alloc_process_slot s with
  | None => (None, s)
  | Some p =>
      let '(stack, f) := ra_alloc STACK_PAGES (frames (vm s)) in
      let s := with_vm (with_frames f (vm s)) s in
      if stack =? 0 then (None, s)
      else
        let top := u64 (stack + KERNEL_STACK_SIZE) in
        let '(sp, m) := push_words [entry; 0; 0; 0; 0; 0; 0] top (vmem (vm s)) in
        let init q := Process (next_pid s) PROC_READY prio sp stack top 0 (brk q) 10 0 0
                        (current_process s) 0 None None (copy_cstr 31 nm 0 (name q)) in
        let s := PState (alter init p (processes s)) (current_process s) (u64 (next_pid s + 1))
                   (with_vmem m (vm s)) (cpu s) in
        (Some p, s)
  end.

Definition process_create (nm : list Z) (entry prio : Z) s : ptr * pstate S :=
  process_create_kernel_thread nm entry prio s.

(** [process_exit] returns, or marks the process and halts for ever. *)
Inductive exit_result := Returned (s : pstate S) | Halted (s : pstate S).
Definition process_exit (code : Z) s : exit_result :=
  match current_process s with
  | None => Returned s
  | Some c => Halted (upd c (fun p => set_exit_code code (set_state PROC_ZOMBIE p)) s)
  end.

Definition process_destroy (p : ptr) s : pstate S :=
  match p with
  | None => s
  | Some p =>
      if decide (state (proc s p) = PROC_UNUSED) then s
      else
        let stack := kernel_stack (proc s p) in
        let s := if stack =? 0 then s
                 else with_vm (with_frames (ra_free stack STACK_PAGES (frames (vm s))) (vm s)) s in
        let pt := page_table (proc s p) in
        let s := if pt =? 0 then s else with_vm (vmm_destroy_address_space pt (vm s)) s in
        upd p (fun q => set_pid 0 (set_state PROC_UNUSED q)) s
  end.

Definition process_current s : ptr := current_process s.

Fixpoint get_from (id : Z) (i : nat) (l : list process) : ptr :=
  match l with
  | [] => None
  | p :: l' => if negb (bool_decide (state p = PROC_UNUSED)) && (pid p =? id) then Some i
               else get_from id (i + 1) l'
  end.
Definition process_get (id : Z) s : ptr := get_from id 0 (processes s).

Definition process_get_table s : list process * nat := (processes s, MAX_PROCESSES).

Definition process_set_current (p : ptr) s : pstate S :=
  let s := PState (processes s) p (next_pid s) (vm s) (cpu s) in
  match p with
  | None => s
  | Some q => PState (processes s) p (next_pid s) (vm s)
                (gdt_set_tss_stack (kernel_stack_top (proc s q)) (cpu s))
  end.

End Operations.

(** ** The context switch ([kernel/proc/context.S]) *)

(** The callee-saved registers, the stack pointer and the program counter. *)
Record regs := Regs {
  rbp : Z; rbx : Z; r12 : Z; r13 : Z; r14 : Z; r15 : Z; rsp : Z; rip : Z
}.

(** [context_switch(old, new)], entered with the return address on top of the
    stack: the value stored through [old], the registers after [ret], memory. *)
Definition context_switch (new : Z) (r : regs) (m : memory) : Z * regs * memory :=
  let '(sp, m) := push_words [rbp r; rbx r; r12 r; r13 r; r14 r; r15 r] (rsp r) m in
  (sp,
   Regs (rd64 m (new + 40)) (rd64 m (new + 32)) (rd64 m (new + 24)) (rd64 m (new + 16))
        (rd64 m (new + 8)) (rd64 m new) (new + 56) (rd64 m (new + 48)),
   m).

(** The registers are machine words. *)
Definition regs_ok (r : regs) : Prop :=
  Forall (fun v => 0 <= v < 2 ^ 64) [rbp r; rbx r; r12 r; r13 r; r14 r; r15 r; rsp r; rip r].

(** [push_words] writes only below the stack pointer it is given. *)
Lemma push_words_spec (vs : list Z) : forall (sp : Z) (m : memory),
  Forall (fun v => 0 <= v < 2 ^ 64) vs ->
  let '(sp', m') := push_words vs sp m in
  sp' = sp - 8 * zlen vs /\
  (forall i v, vs !! i = Some v -> rd64 m' (sp - 8 * Z.of_nat (i + 1)) = v) /\
  forall x, x < sp' \/ sp <= x -> rd8 m' x = rd8 m x.
Proof.
  induction vs as [|v vs IH]; intros sp m Hvs; cbn [push_words].
  { unfold zlen. cbn. split_and!; [lia|done|done]. }
  apply Forall_cons in Hvs as [Hv Hvs]. specialize (IH (sp - 8) (wr64 m (sp - 8) v) Hvs).
  destruct (push_words vs _ _) as [sp' m']. destruct IH as (-> & Hr & Hx).
  assert (E : zlen (v :: vs) = zlen vs + 1) by (unfold zlen; cbn [length]; lia).
  assert (0 <= zlen vs) by (unfold zlen; lia).
  split_and!.
  - lia.
  - intros [|i] w Hi; cbn in Hi.
    + injection Hi as ->. rewrite (rdN_ext 8 (wr64 m (sp - 8) w)).
      * replace (sp - 8 * Z.of_nat (0 + 1)) with (sp - 8) by lia. by apply rd64_wr64.
      * intros x Hx'. apply Hx. change (Z.of_nat 8) with 8 in Hx'. lia.
    + rewrite <- (Hr i w Hi). f_equal. lia.
  - intros x Hx'. rewrite Hx by lia. apply rd8_wrN_out. change (Z.of_nat 8) with 8. lia.
Qed.

(** C22: the switch saves and restores: when a thread that was switched away from
    is switched back to later, with its 56 saved bytes untouched, it continues
    after its call with its callee-saved registers and stack pointer restored. *)
Theorem context_switch_roundtrip (r : regs) (m : memory) (new : Z) (r2 : regs) (m2 : memory) :
  regs_ok r -> regs_ok r2 -> 0 <= new ->
  let '(saved, _, m1) := context_switch new r m in
  (forall x, saved <= x < saved + 56 -> rd8 m2 x = rd8 m1 x) ->
  rsp r2 <= saved \/ saved + 56 <= rsp r2 - 48 ->
  let '(_, r3, _) := context_switch saved r2 m2 in
  rbp r3 = rbp r /\ rbx r3 = rbx r /\ r12 r3 = r12 r /\ r13 r3 = r13 r /\ r14 r3 = r14 r /\
  r15 r3 = r15 r /\ rsp r3 = rsp r + 8 /\ rip r3 = rd64 m (rsp r).
Proof.
  intros Hr Hr2 Hnew. unfold context_switch.
  pose proof (push_words_spec [rbp r; rbx r; r12 r; r13 r; r14 r; r15 r] (rsp r) m
    (Forall_take _ 6 _ Hr)) as P.
  destruct (push_words _ (rsp r) m) as [saved m1]. destruct P as (Hs & Hread & Hkeep).
  change (zlen _) with 6 in Hs. intros Hm2 Hdisj.
  pose proof (push_words_spec [rbp r2; rbx r2; r12 r2; r13 r2; r14 r2; r15 r2] (rsp r2) m2
    (Forall_take _ 6 _ Hr2)) as P2.
  destruct (push_words _ (rsp r2) m2) as [saved2 m3]. destruct P2 as (Hs2 & _ & Hkeep2).
  change (zlen _) with 6 in Hs2. cbn [rbp rbx r12 r13 r14 r15 rsp rip].
  assert (Hw : forall a, saved <= a -> a + 8 <= saved + 56 -> rd64 m3 a = rd64 m1 a).
  { intros a Ha Hb. apply rdN_ext. intros x Hx. change (Z.of_nat 8) with 8 in Hx.
    rewrite Hkeep2 by lia. apply Hm2. lia. }
  assert (Hslot : forall (i : nat) v a, [rbp r; rbx r; r12 r; r13 r; r14 r; r15 r] !! i = Some v ->
    a = rsp r - 8 * Z.of_nat (i + 1) -> (i < 6)%nat -> rd64 m3 a = v).
  { intros i v a Hv -> Hi. rewrite Hw by lia. by apply Hread. }
  split_and!.
  - apply (Hslot 0%nat); [done|lia|lia].
  - apply (Hslot 1%nat); [done|lia|lia].
  - apply (Hslot 2%nat); [done|lia|lia].
  - apply (Hslot 3%nat); [done|lia|lia].
  - apply (Hslot 4%nat); [done|lia|lia].
  - apply (Hslot 5%nat); [done|lia|lia].
  - lia.
  - rewrite Hw by lia. rewrite (rdN_ext 8 m).
    + f_equal. lia.
    + intros x Hx. change (Z.of_nat 8) with 8 in Hx. apply Hkeep. lia.
Qed.

Lemma context_switch_roundtrip_witness :
  let r := Regs 1 2 3 4 5 6 0x9000 0x100 in
  let m := wr64 ∅ 0x9000 0x777 in
  let r2 := Regs 10 20 30 40 50 60 0x7000 0x200 in
  let '(saved, _, m1) := context_switch 0x6000 r m in
  let '(_, r3, _) := context_switch saved r2 m1 in
  rbp r3 = 1 /\ rip r3 = 0x777.
Proof.
  intros r m r2.
  assert (Hr : regs_ok r) by (repeat constructor; cbn; lia).
  assert (Hr2 : regs_ok r2) by (repeat constructor; cbn; lia).
  pose proof (context_switch_roundtrip r m 0x6000 r2 (context_switch 0x6000 r m).2 Hr Hr2
    ltac:(lia)) as H.
  assert (Hs : (context_switch 0x6000 r m).1.1 = 0x9000 - 48) by reflexivity.
  destruct (context_switch 0x6000 r m) as [[saved r'] m1]. cbn [fst snd] in H, Hs.
  specialize (H ltac:(reflexivity)).
  specialize (H ltac:(left; rewrite Hs; unfold r2; cbn [rsp]; lia)).
  destruct (context_switch saved r2 m1) as [[s2 r3] m3].
  destruct H as (H1 & _ & _ & _ & _ & _ & _ & H2). split; [exact H1|].
  rewrite H2. unfold m, r. cbn [rsp]. apply rd64_wr64. lia.
Defined.

(** ** The process table *)

Section Theorems.
  Context {S : Type} {PA : PageAllocator S} {RA : RunAllocator S} {RL : RunAllocatorLaws S}.
  Implicit Types s : pstate S.

Lemma proc_upd s (p q : nat) (f : process -> process) :
  (p < length (processes s))%nat ->
  proc (upd p f s) q = if decide (q = p) then f (proc s q) else proc s q.
Proof.
  intros Hp. unfold proc, upd. cbn [processes]. destruct (decide (q = p)) as [->|Hne].
  - rewrite list_lookup_alter_eq. destruct (lookup_lt_is_Some_2 _ _ Hp) as [x ->]. done.
  - by rewrite list_lookup_alter_ne.
Qed.

(** [p] is the lowest unused slot. *)
Definition first_unused s (p : nat) : Prop :=
  (p < length (processes s))%nat /\ state (proc s p) = PROC_UNUSED /\
  forall q, (q < p)%nat -> state (proc s q) <> PROC_UNUSED.

Lemma alloc_slot_from_spec (l : list process) : forall i,
  match alloc_slot_from i l with
  | Some p => exists j x, p = (i + j)%nat /\ l !! j = Some x /\ state x = PROC_UNUSED /\
      forall k y, (k < j)%nat -> l !! k = Some y -> state y <> PROC_UNUSED
  | None => Forall (fun x => state x <> PROC_UNUSED) l
  end.
Proof.
  induction l as [|x l IH]; intros i; cbn [alloc_slot_from]; [done|].
  destruct (decide (state x = PROC_UNUSED)) as [Hx|Hx].
  { exists 0%nat, x. split_and!; [lia|done|done|]. intros; lia. }
  specialize (IH (i + 1)%nat). destruct (alloc_slot_from _ l) as [p|]; [|by constructor].
  destruct IH as (j & y & -> & Hj & Hy & Hk). exists (Datatypes.S j), y.
  split_and!; [lia|done|done|]. intros [|k] z Hlt Hz; cbn in Hz; [by simplify_eq|].
  apply (Hk k); [lia|done].
Qed.

Lemma alloc_process_slot_spec s :
  match alloc_process_slot s with
  | Some p => first_unused s p
  | None => forall q, (q < length (processes s))%nat -> state (proc s q) <> PROC_UNUSED
  end.
Proof.
  unfold alloc_process_slot. pose proof (alloc_slot_from_spec (processes s) 0) as H.
  destruct (alloc_slot_from _ _) as [p|].
  - destruct H as (j & x & -> & Hj & Hx & Hk). cbn [Nat.add]. split_and!.
    + by eapply lookup_lt_Some.
    + unfold proc. by rewrite Hj.
    + intros q Hq. unfold proc. pose proof (lookup_lt_Some _ _ _ Hj).
      destruct (lookup_lt_is_Some_2 (processes s) q ltac:(lia)) as [y Hy]. rewrite Hy. by apply (Hk q).
  - intros q Hq. unfold proc. destruct (lookup_lt_is_Some_2 _ _ Hq) as [y Hy]. rewrite Hy. cbn.
    rewrite Forall_lookup in H. by apply (H q).
Qed.

(** The saved registers and the return address of a thread that never ran. *)
Definition initial_context (m : memory) (ctx entry : Z) : Prop :=
  (forall i, 0 <= i < 6 -> rd64 m (ctx + 8 * i) = 0) /\ rd64 m (ctx + 48) = entry.

(** What a successful creation does, in full. *)
Record created s (p : nat) (entry prio : Z) s' : Prop := Created {
  cr_slot : first_unused s p;
  cr_pid : pid (proc s' p) = next_pid s;
  cr_state : state (proc s' p) = PROC_READY;
  cr_priority : priority (proc s' p) = prio;
  cr_links : next (proc s' p) = None /\ prev (proc s' p) = None;
  cr_parent : parent (proc s' p) = current_process s /\ page_table (proc s' p) = 0;
  cr_others : forall q, q <> p -> proc s' q = proc s q;
  cr_globals : length (processes s') = length (processes s) /\
    current_process s' = current_process s /\ next_pid s' = u64 (next_pid s + 1);
  cr_stack : exists page, kernel_stack (proc s' p) = page * 4096 /\ 0 < page /\ page + 2 <= 2 ^ 16 /\
    (forall q, in_run page 2 q = true -> pa_used (frames (vm s)) q = false) /\
    forall q, 0 <= q -> pa_used (frames (vm s')) q = pa_used (frames (vm s)) q || in_run page 2 q;
  cr_top : kernel_stack_top (proc s' p) = kernel_stack (proc s' p) + KERNEL_STACK_SIZE /\
    context (proc s' p) = kernel_stack_top (proc s' p) - 56;
  cr_context : initial_context (vmem (vm s')) (context (proc s' p)) entry;
  cr_memory : forall a, 0 <= a -> pa_used (frames (vm s)) (a / 4096) = true ->
    rd8 (vmem (vm s')) a = rd8 (vmem (vm s)) a;
  cr_ok : pa_ok (frames (vm s'))
}.

Lemma create_cases s (nm : list Z) (entry prio : Z) :
  pa_ok (frames (vm s)) -> 0 <= entry < 2 ^ 64 ->
  match process_create_kernel_thread nm entry prio s with
  | (None, s') => s' = s /\
      ((forall q, (q < length (processes s))%nat -> state (proc s q) <> PROC_UNUSED) \/
       ra_alloc STACK_PAGES (frames (vm s)) = (0, frames (vm s)))
  | (Some p, s') => created s p entry prio s'
  end.
Proof.
  intros Hok He. unfold process_create_kernel_thread.
  pose proof (alloc_process_slot_spec s) as Hslot.
  destruct (alloc_process_slot s) as [p|]; [|by split; [|left]].
  change STACK_PAGES with 2 in *.
  destruct (ra_alloc 2 (frames (vm s))) as [a f] eqn:Ha. destruct (Z.eqb_spec a 0) as [->|Hne].
  { pose proof (ra_alloc_fail _ 2 _ Hok ltac:(lia) Ha) as ->.
    split; [|by right]. destruct s as [l c n v g]. by destruct v. }
  destruct (ra_alloc_fresh _ 2 _ _ Hok ltac:(lia) Ha Hne) as (page & Ea & Hp0 & Hp1 & Hfree & Hused).
  unfold KERNEL_STACK_SIZE. rewrite (uwrap_small 64) by lia.
  cbn [vmem with_vm vm with_frames]. set (top := a + 8192).
  pose proof (push_words_spec [entry; 0; 0; 0; 0; 0; 0] top (vmem (vm s))) as P.
  destruct (push_words _ top _) as [sp m]. destruct P as (Hsp & Hread & Hkeep).
  { repeat constructor; lia. }
  change (zlen _) with 7 in Hsp. destruct Hslot as (Hlen & Hun & Hlow).
  destruct (lookup_lt_is_Some_2 _ _ Hlen) as [x Hx].
  set (init := fun q => _). set (s' := PState _ _ _ _ _).
  assert (Hproc : proc s' p = init x)
    by (unfold proc, s'; cbn [processes with_vm]; by rewrite list_lookup_alter_eq, Hx).
  split; rewrite ?Hproc; cbn; try done.
  - intros q Hq. unfold proc, s'. cbn [processes with_vm]. by rewrite list_lookup_alter_ne.
  - split_and!; try done. unfold s'. cbn. apply length_alter.
  - exists page. by split_and!.
  - split.
    + intros i Hi. assert (Hi' : exists k : nat, i = 6 - Z.of_nat k /\ (0 < k < 7)%nat)
        by (exists (Z.to_nat (6 - i)); lia).
      destruct Hi' as (k & -> & Hk). replace (sp + 8 * (6 - Z.of_nat k)) with (top - 8 * Z.of_nat (k + 1))
        by lia.
      apply Hread. destruct k as [|[|[|[|[|[|[|k]]]]]]]; (reflexivity || lia).
    + replace (sp + 48) with (top - 8 * Z.of_nat (0 + 1)) by lia. by apply Hread.
  - intros b Hb Hub. apply Hkeep. destruct (in_run page 2 (b / 4096)) eqn:E.
    + rewrite (Hfree _ E) in Hub. discriminate.
    + unfold in_run in E. rewrite Hsp. unfold top. rewrite Ea. dlia.
  - by apply (ra_alloc_ok _ 2 _ _ Hok ltac:(lia) Ha).
Qed.

(** C23: the first switch to a thread made by [process_create_kernel_thread]
    enters [entry] on the top of its own fresh stack with cleared registers,
    from whatever thread is running on another stack. *)
Theorem new_thread_starts_at_entry s s' (p : nat) (nm : list Z) (entry prio : Z) (r : regs) :
  pa_ok (frames (vm s)) -> 0 <= entry < 2 ^ 64 -> regs_ok r ->
  process_create_kernel_thread nm entry prio s = (Some p, s') ->
  rsp r <= kernel_stack (proc s' p) \/ kernel_stack_top (proc s' p) <= rsp r - 48 ->
  let '(_, r', _) := context_switch (context (proc s' p)) r (vmem (vm s')) in
  rip r' = entry /\ rsp r' = kernel_stack_top (proc s' p) /\
  Forall (eq 0) [rbp r'; rbx r'; r12 r'; r13 r'; r14 r'; r15 r'].
Proof.
  intros Hok He Hr Hc Hdisj. pose proof (create_cases s nm entry prio Hok He) as H. rewrite Hc in H.
  destruct (cr_top _ _ _ _ _ H) as [Htop Hctx]. destruct (cr_context _ _ _ _ _ H) as [Hzero Hrip].
  unfold context_switch. unfold KERNEL_STACK_SIZE in *.
  pose proof (push_words_spec [rbp r; rbx r; r12 r; r13 r; r14 r; r15 r] (rsp r) (vmem (vm s'))
    (Forall_take _ 6 _ Hr)) as P.
  destruct (push_words _ _ _) as [sp m]. destruct P as (Hsp & _ & Hkeep). change (zlen _) with 6 in Hsp.
  set (c := context (proc s' p)) in *. cbn [rip rsp rbp rbx r12 r13 r14 r15].
  assert (Hw : forall a, c <= a -> a + 8 <= c + 56 -> rd64 m a = rd64 (vmem (vm s')) a).
  { intros a Ha Hb. apply rdN_ext. intros x Hx. change (Z.of_nat 8) with 8 in Hx. apply Hkeep. lia. }
  rewrite !Hw by lia. split_and!; [exact Hrip|lia|].
  repeat (constructor; [symmetry|]); [apply (Hzero 5)|apply (Hzero 4)|apply (Hzero 3)|apply (Hzero 2)
    |apply (Hzero 1)| |done]; try lia. rewrite <- (Hzero 0) by lia. f_equal. lia.
Qed.

(** The invariant of the table: 64 slots, the identifiers of the processes in
    use are distinct and below the next one. *)
Record ptable_ok s : Prop := PtableOk {
  pt_len : length (processes s) = MAX_PROCESSES;
  pt_next : 1 <= next_pid s < 2 ^ 64;
  pt_pids : forall p, state (proc s p) <> PROC_UNUSED -> 1 <= pid (proc s p) < next_pid s;
  pt_inj : forall p q, state (proc s p) <> PROC_UNUSED -> state (proc s q) <> PROC_UNUSED ->
    pid (proc s p) = pid (proc s q) -> p = q
}.

(** [p] holds the process with identifier [id]. *)
Definition holds s (id : Z) (p : nat) : Prop :=
  state (proc s p) <> PROC_UNUSED /\ pid (proc s p) = id.

Lemma proc_used_lt s (p : nat) : state (proc s p) <> PROC_UNUSED -> (p < length (processes s))%nat.
Proof.
  unfold proc. intros H. destruct (processes s !! p) eqn:E; [by eapply lookup_lt_Some|done].
Qed.

Lemma get_from_spec (id : Z) (l : list process) : forall i,
  match get_from id i l with
  | Some p => exists j x, p = (i + j)%nat /\ l !! j = Some x /\ state x <> PROC_UNUSED /\ pid x = id
  | None => forall j x, l !! j = Some x -> state x <> PROC_UNUSED -> pid x <> id
  end.
Proof.
  induction l as [|x l IH]; intros i; cbn [get_from]; [done|].
  destruct (bool_decide_reflect (state x = PROC_UNUSED)) as [Hx|Hx]; cbn [negb andb].
  2: destruct (Z.eqb_spec (pid x) id) as [Hid|Hid]; [exists 0%nat, x; split_and!; auto; lia|].
  all: specialize (IH (i + 1)%nat); destruct (get_from id _ l) as [p|];
    [destruct IH as (j & y & -> & Hj & Hy); exists (Datatypes.S j), y; split_and!; try lia; tauto
    |intros [|j] y Hj; [cbn in Hj; injection Hj as <-; done|exact (IH j y Hj)]].
Qed.

(** Under the invariant a lookup finds exactly the process with the identifier. *)
Lemma process_get_spec s (id : Z) (p : nat) :
  ptable_ok s -> process_get id s = Some p <-> holds s id p.
Proof.
  intros [_ _ _ Hinj]. unfold process_get. pose proof (get_from_spec id (processes s) 0) as H.
  assert (Hup : forall q, holds s id q -> exists x, processes s !! q = Some x /\
    state x <> PROC_UNUSED /\ pid x = id).
  { intros q [H1 H2]. destruct (lookup_lt_is_Some_2 _ _ (proc_used_lt _ _ H1)) as [x Hx].
    unfold proc in H1, H2. rewrite Hx in H1, H2. by exists x. }
  destruct (get_from _ _ _) as [q|].
  - destruct H as (j & x & -> & Hj & Hx & Hid). cbn [Nat.add].
    assert (Hq : holds s id j) by (unfold holds, proc; by rewrite Hj).
    split; [by intros [= <-]|]. intros [H1 H2]. destruct Hq as [Q1 Q2]. f_equal. apply Hinj; congruence.
  - split; [done|]. intros Hh. destruct (Hup p Hh) as (x & Hx & H1 & H2). by destruct (H p x Hx H1).
Qed.

Lemma destroy_proc s (p : nat) :
  ptable_ok s -> state (proc s p) <> PROC_UNUSED ->
  let s' := process_destroy (Some p) s in
  proc s' p = set_pid 0 (set_state PROC_UNUSED (proc s p)) /\
  (forall q, q <> p -> proc s' q = proc s q) /\
  length (processes s') = length (processes s) /\ next_pid s' = next_pid s /\
  current_process s' = current_process s.
Proof.
  intros Hok Hu. unfold process_destroy. rewrite decide_False by done.
  set (s1 := if kernel_stack _ =? 0 then _ else _).
  assert (E1 : processes s1 = processes s /\ next_pid s1 = next_pid s /\
    current_process s1 = current_process s)
    by (unfold s1; by destruct (_ =? 0)).
  clearbody s1. destruct E1 as (E1 & E2 & E3).
  set (s2 := if page_table _ =? 0 then _ else _).
  assert (E4 : processes s2 = processes s /\ next_pid s2 = next_pid s /\
    current_process s2 = current_process s) by (unfold s2; by destruct (_ =? 0)).
  clearbody s2. destruct E4 as (E4 & E5 & E6).
  pose proof (proc_used_lt _ _ Hu) as Hlt.
  assert (Hp2 : forall q, proc s2 q = proc s q) by (intros; unfold proc; by rewrite E4).
  split_and!.
  - rewrite proc_upd, decide_True, Hp2 by congruence. done.
  - intros q Hq. rewrite proc_upd, decide_False, Hp2 by congruence. done.
  - cbn. rewrite length_alter. congruence.
  - done.
  - done.
Qed.

(** The operations on the table after [process_init]. *)
Inductive ptable_step : pstate S -> pstate S -> Prop :=
| pstep_create s nm entry prio : pa_ok (frames (vm s)) -> 0 <= entry < 2 ^ 64 ->
    next_pid s + 1 < 2 ^ 64 ->
    ptable_step s (process_create_kernel_thread nm entry prio s).2
| pstep_destroy s p : ptable_step s (process_destroy p s)
| pstep_exit s s' code c : current_process s = Some c -> state (proc s c) <> PROC_UNUSED ->
    process_exit code s = Halted s' -> ptable_step s s'
| pstep_current s p : ptable_step s (process_set_current p s).

Lemma created_ok s s' (p : nat) (entry prio : Z) :
  ptable_ok s -> next_pid s + 1 < 2 ^ 64 -> created s p entry prio s' -> ptable_ok s'.
Proof.
  intros [H1 H2 H3 H4] Hn [Hslot Hpid Hst _ _ _ Hoth (Hlen & _ & Hnext) _ _ _ _ _].
  rewrite (uwrap_small 64) in Hnext by lia. rewrite <- Hlen in H1.
  assert (Hcase : forall q, state (proc s' q) <> PROC_UNUSED ->
    (q = p /\ pid (proc s' q) = next_pid s) \/
    (q <> p /\ proc s' q = proc s q /\ 1 <= pid (proc s q) < next_pid s)).
  { intros q Hq. destruct (decide (q = p)) as [->|Hne]; [by left|right].
    rewrite (Hoth _ Hne) in Hq |- *. split_and!; try done; apply H3; done. }
  split; [done|lia| |].
  - intros q Hq. destruct (Hcase q Hq) as [(_ & ->)|(_ & -> & ?)]; lia.
  - intros q1 q2 U1 U2 E. destruct (Hcase q1 U1) as [(-> & E1)|(N1 & E1 & ?)],
      (Hcase q2 U2) as [(-> & E2)|(N2 & E2 & ?)]; try done.
    + rewrite E1, E2 in E. lia.
    + rewrite E1, E2 in E. lia.
    + rewrite E1 in U1, E. rewrite E2 in U2, E. by apply H4.
Qed.

(** A change that keeps the identifiers and does not bring slots into use. *)
Lemma ptable_ok_mono s s' :
  ptable_ok s -> length (processes s') = length (processes s) -> next_pid s' = next_pid s ->
  (forall p, state (proc s' p) <> PROC_UNUSED ->
     state (proc s p) <> PROC_UNUSED /\ pid (proc s' p) = pid (proc s p)) ->
  ptable_ok s'.
Proof.
  intros [H1 H2 H3 H4] Hl Hn Hp. split; [congruence|by rewrite Hn| |].
  - intros p U. destruct (Hp p U) as [U' ->]. rewrite Hn. by apply H3.
  - intros p q U V. destruct (Hp p U) as [U' ->], (Hp q V) as [V' ->]. by apply H4.
Qed.

(** The table after [process_init]: every slot is unused. *)
Lemma process_init_unused s0 (p : nat) : state (proc (process_init s0) p) = PROC_UNUSED.
Proof.
  unfold proc, process_init. cbn [processes]. rewrite list_lookup_fmap. by destruct (processes s0 !! p).
Qed.
Lemma process_init_ok s0 : length (processes s0) = MAX_PROCESSES -> ptable_ok (process_init s0).
Proof.
  intros Hlen. split; cbn; [by rewrite length_fmap|lia| |]; intros p; by rewrite process_init_unused.
Qed.

(** C24: after [process_init], creating, destroying and exiting processes keeps
    the table's invariant: the identifiers of the processes in use are distinct
    and smaller than the next one, so [process_get] finds exactly the process
    with the identifier, as long as 2^64 identifiers were not used up. *)
Theorem process_table_reachable s0 s :
  length (processes s0) = MAX_PROCESSES -> rtc ptable_step (process_init s0) s ->
  ptable_ok s /\ forall id p, process_get id s = Some p <-> holds s id p.
Proof.
  intros Hlen Hrtc. assert (Hok : ptable_ok s); [|split; [done|intros; by apply process_get_spec]].
  pose proof (process_init_ok s0 Hlen) as H0.
  clear Hlen. induction Hrtc as [|s1 s2 s3 Hstep _ IH]; [done|]. apply IH. clear IH.
  destruct Hstep as [s nm entry prio Hpa He Hn|s [p|]|s s' code c Hc Hu Hx|s p].
  - pose proof (create_cases s nm entry prio Hpa He) as H.
    destruct (process_create_kernel_thread _ _ _ _) as [[p|] s']; [|by destruct H as [-> _]].
    by eapply created_ok.
  - destruct (decide (state (proc s p) = PROC_UNUSED)) as [Hu|Hu].
    { unfold process_destroy. by rewrite decide_True. }
    destruct (destroy_proc s p H0 Hu) as (Hp & Hoth & Hl & Hn & _).
    apply (ptable_ok_mono s); [done|done|done|]. intros q. destruct (decide (q = p)) as [->|Hne].
    + by rewrite Hp.
    + by rewrite (Hoth q Hne).
  - done.
  - unfold process_exit in Hx. rewrite Hc in Hx. injection Hx as <-.
    apply (ptable_ok_mono s); [done|cbn; apply length_alter|done|]. intros q.
    rewrite proc_upd by by apply proc_used_lt. by destruct (decide (q = c)) as [->|].
  - apply (ptable_ok_mono s); by destruct p.
Qed.

(** creating a process and destroying it again gives back exactly its
    pages, makes its identifier unknown and leaves every other slot as it was. *)
Theorem process_create_destroy_roundtrip s s' (p : nat) (nm : list Z) (entry prio : Z) :
  pa_ok (frames (vm s)) -> 0 <= entry < 2 ^ 64 -> ptable_ok s -> next_pid s + 1 < 2 ^ 64 ->
  process_create_kernel_thread nm entry prio s = (Some p, s') ->
  process_get (next_pid s) s' = Some p /\
  let s2 := process_destroy (Some p) s' in
  process_get (next_pid s) s2 = None /\ (forall q, q <> p -> proc s2 q = proc s q) /\
  state (proc s2 p) = PROC_UNUSED /\
  forall q, 0 <= q -> pa_used (frames (vm s2)) q = pa_used (frames (vm s)) q.
Proof.
  intros Hpa He Hok Hn Hc. pose proof (create_cases s nm entry prio Hpa He) as H. rewrite Hc in H.
  pose proof (created_ok s s' p entry prio Hok Hn H) as Hok'.
  destruct H as [Hslot Hpid Hst _ _ [_ Hpt] Hoth _ (page & Hks & Hp0 & Hp1 & Hfree & Hused) _ _ _ Hpa'].
  assert (Hu : state (proc s' p) <> PROC_UNUSED) by congruence.
  destruct (destroy_proc s' p Hok' Hu) as (Hp & Hoth' & Hl & Hnx & _).
  split; [by apply process_get_spec|]. intros s2. fold s2 in Hp, Hoth', Hl, Hnx.
  assert (Hst2 : state (proc s2 p) = PROC_UNUSED) by (by rewrite Hp).
  split_and!.
  - assert (Hok2 : ptable_ok s2).
    { apply (ptable_ok_mono s'); [done|done|done|]. intros q. destruct (decide (q = p)) as [->|Hne].
      - by rewrite Hst2.
      - by rewrite (Hoth' q Hne). }
    destruct (process_get (next_pid s) s2) as [q|] eqn:E; [|done].
    apply process_get_spec in E as [U Eq]; [|done]. destruct (decide (q = p)) as [->|Hne]; [done|].
    rewrite (Hoth' q Hne), (Hoth q Hne) in U, Eq. pose proof (pt_pids _ Hok q U). lia.
  - intros q Hq. by rewrite Hoth', Hoth.
  - done.
  - intros q Hq. unfold s2, process_destroy. rewrite decide_False by done.
    rewrite (proj2 (Z.eqb_neq (kernel_stack _) 0)) by (rewrite Hks; lia).
    change (proc (with_vm _ s') p) with (proc s' p). rewrite Hpt. cbn -[proc].
    rewrite Hks. change STACK_PAGES with 2. rewrite ra_free_run, Hused by (done || lia).
    destruct (in_run page 2 q) eqn:E; [rewrite (Hfree q E); apply andb_false_r|].
    by rewrite orb_false_r, andb_true_r.
Qed.

End Theorems.

(** ** Concrete instances *)

Definition demo_ps0 : pstate pages :=
  PState (replicate 64 proc_zero) None 1 demo_boot
    (Gdt (replicate 7 null_entry) tss_zero (0, 0) 0 0 0 0).
Definition demo_ps : pstate pages := process_init demo_ps0.
(** The name "idle". *)
Definition demo_name : list Z := [105; 100; 108; 101].
Definition demo_created : pstate pages := (process_create_kernel_thread demo_name 0x7000 31 demo_ps).2.

#[local] Opaque process_create_kernel_thread process_destroy.

Lemma demo_create_eq :
  process_create_kernel_thread demo_name 0x7000 31 demo_ps = (Some 0%nat, demo_created).
Proof.
  assert (E : (process_create_kernel_thread demo_name 0x7000 31 demo_ps).1 = Some 0%nat)
    by (vm_compute; reflexivity).
  unfold demo_created. destruct (process_create_kernel_thread _ _ _ _) as [o s]. cbn in E. by subst o.
Qed.

Lemma demo_ps_frames_ok : pa_ok (frames (vm demo_ps)).
Proof. exact I. Qed.

Lemma demo_ps_table_ok : ptable_ok demo_ps.
Proof.
  assert (Hun : forall p, state (proc demo_ps p) = PROC_UNUSED).
  { intros p. unfold proc, demo_ps, process_init. cbn [processes]. rewrite list_lookup_fmap.
    by destruct (_ !! p). }
  split; [reflexivity|cbn; lia| |]; intros p; by rewrite Hun.
Qed.

Lemma new_thread_starts_at_entry_witness :
  let '(_, r', _) := context_switch (context (proc demo_created 0)) (Regs 1 2 3 4 5 6 0x9000 7)
                       (vmem (vm demo_created)) in rip r' = 0x7000.
Proof.
  pose proof (new_thread_starts_at_entry demo_ps demo_created 0 demo_name 0x7000 31
    (Regs 1 2 3 4 5 6 0x9000 7) demo_ps_frames_ok ltac:(lia)) as H.
  specialize (H ltac:(repeat constructor; cbn; lia) demo_create_eq).
  specialize (H ltac:(left; vm_compute; discriminate)).
  destruct (context_switch _ _ _) as [[sp r'] m]. exact (proj1 H).
Defined.

Lemma process_table_reachable_witness : ptable_ok demo_created.
Proof.
  apply (process_table_reachable demo_ps0); [reflexivity|].
  eapply rtc_l; [|apply rtc_refl]. apply pstep_create; [exact demo_ps_frames_ok|lia|].
  cbn. lia.
Defined.

Lemma process_create_destroy_roundtrip_witness :
  next_pid demo_ps = 1 /\ process_get (next_pid demo_ps) demo_created = Some 0%nat.
Proof.
  split; [reflexivity|].
  destruct (process_create_destroy_roundtrip demo_ps demo_created 0 demo_name 0x7000 31
    demo_ps_frames_ok ltac:(lia) demo_ps_table_ok) as [H _]; [cbn; lia|exact demo_create_eq|exact H].
Defined.
