(* ===== verification/Scheduler.v ===== *)
(** * The scheduler ([kernel/proc/scheduler.c])

    32 ready queues threaded through the [next]/[prev] links of the process
    table, a bitmap of the non-empty ones, and a sleep queue sorted by wake
    time.  A loop over a queue takes fuel (more than the 64 slots of the table);
    [None] would be a loop that does not end, and the theorems show that none
    occurs under the invariant.  [schedule] calls [context_switch] as its last
    action, and every function calls [schedule] last: the call, with its
    arguments, is part of their result. *)

From Stdlib Require Import Sorted.
From S2P Require Import Prelude Mem PageAlloc Vmm Gdt Process.

Definition SCHED_PRIORITY_LEVELS : Z := 32.
Definition SCHED_PRIORITY_IDLE : Z := 31.
Definition SCHED_TIME_SLICE_BASE : Z := 5.

(** The arguments of a call of [context_switch]: the process in whose control
    block the old context is saved ([None]: through a NULL pointer), and the new
    context. *)
Record switch_call := SwitchCall { switch_old : ptr; switch_new : Z }.

Record sched (S : Type) := Sched {
  ps : pstate S;
  ready_queues : list ptr;
  ready_bitmap : Z;
  sleep_queue : ptr;
  scheduler_running : Z;
  current_tick : Z;
  idle_proc : ptr;
  tick_callback : bool      (** [scheduler_tick] is the timer's callback *)
}.
Arguments Sched {S}.
Arguments ps {S}.
Arguments ready_queues {S}.
Arguments ready_bitmap {S}.
Arguments sleep_queue {S}.
Arguments scheduler_running {S}.
Arguments current_tick {S}.
Arguments idle_proc {S}.
Arguments tick_callback {S}.

(** Enough steps to walk any queue of the 64 slots. *)
Definition QUEUE_FUEL : nat := 64.

(** [__builtin_ctz]: the number of trailing zero bits ([n] bits are left). *)
Fixpoint ctz_from (n : nat) (i x : Z) : Z :=
  match n with
  | O => i
  | S n' => if Z.testbit x i then i else ctz_from n' (i + 1) x
  end.
Definition builtin_ctz (x : Z) : Z := ctz_from 31 0 x.

(** The queue of a priority: the clamping of the source. *)
Definition queue_of (prio : Z) : Z :=
  let prio := if prio <? 0 then 0 else prio in
  if SCHED_PRIORITY_LEVELS <=? prio then SCHED_PRIORITY_LEVELS - 1 else prio.

Section Operations.
  Context {S : Type} `{PA : PageAllocator S, RA : RunAllocator S}.
  Implicit Types s : sched S.

Definition with_ps (p : pstate S) s : sched S :=
  Sched p (ready_queues s) (ready_bitmap s) (sleep_queue s) (scheduler_running s) (current_tick s)
    (idle_proc s) (tick_callback s).
Definition with_ready (q : list ptr) (b : Z) s : sched S :=
  Sched (ps s) q b (sleep_queue s) (scheduler_running s) (current_tick s) (idle_proc s)
    (tick_callback s).
Definition with_sleep (q : ptr) s : sched S :=
  Sched (ps s) (ready_queues s) (ready_bitmap s) q (scheduler_running s) (current_tick s)
    (idle_proc s) (tick_callback s).

(** [*p], an assignment to fields of [*p], and [ready_queues[i]]. *)
Definition pr s (p : nat) : process := proc (ps s) p.
Definition updp (p : nat) (f : process -> process) s : sched S := with_ps (upd p f (ps s)) s.
Definition rq s (i : Z) : ptr := default None (ready_queues s !! Z.to_nat i).
Definition set_rq (i : Z) (v : ptr) s : sched S :=
  with_ready (<[Z.to_nat i := v]> (ready_queues s)) (ready_bitmap s) s.
Definition set_bitmap (b : Z) s : sched S := with_ready (ready_queues s) b s.

(** [while (tail->next) tail = tail->next] *)
Fixpoint find_tail (fuel : nat) (tail : nat) s : option nat :=
  match next (pr s tail) with
  | None => Some tail
  | Some q => match fuel with O => None | Datatypes.S f => find_tail f q s end
  end.

Definition unlink (p : process) : process := set_prev None (set_next None p).

Definition scheduler_add (proc : ptr) s : option (sched S) :=
  match proc with
  | None => Some s
  | Some p =>
      if decide (state (pr s p) = PROC_UNUSED) then Some s
      else
        let prio := queue_of (priority (pr s p)) in
        let s := updp p unlink s in
        let linked :=
          match rq s prio with
          | None =>
              let s := set_rq prio (Some p) s in
              Some (set_bitmap (Z.lor (ready_bitmap s) (u32 (Z.shiftl 1 prio))) s)
          | Some head =>
              match find_tail QUEUE_FUEL head s with
              | None => None
              | Some tail =>
                  let s := updp tail (set_next (Some p)) s in
                  Some (updp p (set_prev (Some tail)) s)
              end
          end in
        match linked with
        | None => None
        | Some s =>
            let s := updp p (set_state PROC_READY) s in
            Some (updp p (set_time_slice (SCHED_TIME_SLICE_BASE + (SCHED_PRIORITY_LEVELS - prio))) s)
        end
  end.

Definition scheduler_remove (proc : ptr) s : sched S :=
  match proc with
  | None => s
  | Some p =>
      let prio := queue_of (priority (pr s p)) in
      let s := match prev (pr s p) with
               | Some q => updp q (set_next (next (pr s p))) s
               | None => set_rq prio (next (pr s p)) s
               end in
      let s := match next (pr s p) with
               | Some q => updp q (set_prev (prev (pr s p))) s
               | None => s
               end in
      let s := updp p unlink s in
      match rq s prio with
      | None => set_bitmap (Z.land (ready_bitmap s) (u32 (Z.lnot (Z.shiftl 1 prio)))) s
      | Some _ => s
      end
  end.

Definition find_next_process s : ptr :=
  if ready_bitmap s =? 0 then idle_proc s else rq s (builtin_ctz (ready_bitmap s)).

(** [idle_entry] is the address of the idle loop; the name is "idle". *)
Definition scheduler_init (idle_entry : Z) s : sched S :=
  let s := Sched (ps s) ((fun _ => None) <$> ready_queues s) 0 None 0 0 (idle_proc s)
             (tick_callback s) in
  let s := with_ps (process_init (ps s)) s in
  let '(idle, p) := process_create_kernel_thread [105; 100; 108; 101] idle_entry SCHED_PRIORITY_IDLE
                      (ps s) in
  let s := Sched p (ready_queues s) (ready_bitmap s) (sleep_queue s) (scheduler_running s)
             (current_tick s) idle (tick_callback s) in
  match idle with
  | None => s
  | Some i => updp i (set_state PROC_READY) s
  end.

Definition schedule s : option (sched S * option switch_call) :=
  let current := process_current (ps s) in
  match find_next_process s with
  | None => Some (s, None)
  | Some nxt =>
      if decide (current = Some nxt) then Some (s, None)
      else
        let requeued :=
          match current with
          | Some c =>
              if decide (state (pr s c) = PROC_RUNNING) then
                scheduler_add (Some c) (updp c (set_state PROC_READY) s)
              else Some s
          | None => Some s
          end in
        match requeued with
        | None => None
        | Some s =>
            let s := scheduler_remove (Some nxt) s in
            let s := updp nxt (set_state PROC_RUNNING) s in
            let s := with_ps (process_set_current (Some nxt) (ps s)) s in
            let pt := page_table (pr s nxt) in
            let s := if pt =? 0 then s
                     else with_ps (with_vm (vmm_switch_address_space pt (vm (ps s))) (ps s)) s in
            Some (s, Some (SwitchCall current (context (pr s nxt))))
        end
  end.

(** The waking loop of [scheduler_tick]. *)
Fixpoint wake_loop (fuel : nat) s : option (sched S) :=
  match sleep_queue s with
  | None => Some s
  | Some p =>
      if wake_time (pr s p) <=? current_tick s then
        match fuel with
        | O => None
        | Datatypes.S f =>
            let s := with_sleep (next (pr s p)) s in
            let s := match sleep_queue s with
                     | Some h => updp h (set_prev None) s
                     | None => s
                     end in
            let s := updp p unlink s in
            match scheduler_add (Some p) s with
            | None => None
            | Some s => wake_loop f s
            end
        end
      else Some s
  end.

Definition scheduler_tick s : option (sched S * option switch_call) :=
  let s := Sched (ps s) (ready_queues s) (ready_bitmap s) (sleep_queue s) (scheduler_running s)
             (u64 (current_tick s + 1)) (idle_proc s) (tick_callback s) in
  match wake_loop QUEUE_FUEL s with
  | None => None
  | Some s =>
      match process_current (ps s) with
      | None => Some (s, None)
      | Some c =>
          if decide (state (pr s c) = PROC_RUNNING) then
            let s := updp c (fun p => set_total_time (u64 (total_time p + 1)) p) s in
            let s := if 0 <? time_slice (pr s c)
                     then updp c (fun p => set_time_slice (time_slice p - 1) p) s else s in
            if time_slice (pr s c) =? 0 then schedule s else Some (s, None)
          else Some (s, None)
      end
  end.

Definition scheduler_block (proc : ptr) s : option (sched S * option switch_call) :=
  let proc := match proc with None => process_current (ps s) | Some _ => proc end in
  match proc with
  | None => Some (s, None)
  | Some p =>
      let s := updp p (set_state PROC_BLOCKED) s in
      let s := scheduler_remove (Some p) s in
      if decide (Some p = process_current (ps s)) then schedule s else Some (s, None)
  end.

Definition scheduler_unblock (proc : ptr) s : option (sched S) :=
  match proc with
  | None => Some s
  | Some p => if decide (state (pr s p) = PROC_BLOCKED) then scheduler_add (Some p) s else Some s
  end.

Definition scheduler_yield s : option (sched S * option switch_call) :=
  let s := match process_current (ps s) with
           | Some c => updp c (set_time_slice 0) s
           | None => s
           end in
  schedule s.

(** [while (pos->next && pos->next->wake_time <= w) pos = pos->next] *)
Fixpoint sleep_position (fuel : nat) (w : Z) (pos : nat) s : option nat :=
  match next (pr s pos) with
  | None => Some pos
  | Some q =>
      if wake_time (pr s q) <=? w then
        match fuel with O => None | Datatypes.S f => sleep_position f w q s end
      else Some pos
  end.

(** The insertion of [scheduler_sleep]. *)
Definition sleep_insert (c : nat) s : option (sched S) :=
  let w := wake_time (pr s c) in
  let front := match sleep_queue s with
               | None => true
               | Some h => w <? wake_time (pr s h)
               end in
  if front then
    let s := updp c (set_next (sleep_queue s)) s in
    let s := updp c (set_prev None) s in
    let s := match sleep_queue s with
             | Some h => updp h (set_prev (Some c)) s
             | None => s
             end in
    Some (with_sleep (Some c) s)
  else
    match sleep_queue s with
    | None => Some s
    | Some h =>
        match sleep_position QUEUE_FUEL w h s with
        | None => None
        | Some pos =>
            let s := updp c (set_next (next (pr s pos))) s in
            let s := updp c (set_prev (Some pos)) s in
            let s := match next (pr s pos) with
                     | Some q => updp q (set_prev (Some c)) s
                     | None => s
                     end in
            Some (updp pos (set_next (Some c)) s)
        end
    end.

Definition scheduler_sleep (ticks : Z) s : option (sched S * option switch_call) :=
  match process_current (ps s) with
  | None => Some (s, None)
  | Some c =>
      let s := updp c (set_wake_time (u64 (current_tick s + ticks))) s in
      let s := updp c (set_state PROC_BLOCKED) s in
      let s := scheduler_remove (Some c) s in
      match sleep_insert c s with
      | None => None
      | Some s => schedule s
      end
  end.

Definition scheduler_start s : option (sched S * option switch_call) :=
  schedule (Sched (ps s) (ready_queues s) (ready_bitmap s) (sleep_queue s) 1 (current_tick s)
              (idle_proc s) true).

End Operations.

(** ** Doubly linked lists of process slots

    [dseg f pv hd l tl]: from the pointer [hd], the links of [f] lead through
    the slots [l] to the pointer [tl], and back from each to the one before it
    ([pv] before the first). *)

Fixpoint dseg (f : nat -> process) (pv hd : ptr) (l : list nat) (tl : ptr) : Prop :=
  match l with
  | [] => hd = tl
  | p :: l' => hd = Some p /\ prev (f p) = pv /\ dseg f (Some p) (next (f p)) l' tl
  end.

Definition dll (f : nat -> process) (hd : ptr) (l : list nat) : Prop := dseg f None hd l None.

(** The slot before what follows [l]. *)
Definition last_or (pv : ptr) (l : list nat) : ptr :=
  match last l with Some p => Some p | None => pv end.

Lemma dseg_ext (f g : nat -> process) (l : list nat) : forall pv hd tl,
  (forall q, q ∈ l -> next (g q) = next (f q) /\ prev (g q) = prev (f q)) ->
  dseg f pv hd l tl -> dseg g pv hd l tl.
Proof.
  induction l as [|p l IH]; intros pv hd tl Hq; cbn [dseg]; [done|].
  intros (-> & Hp & Hl). destruct (Hq p ltac:(by left)) as [-> ->].
  split_and!; [done|done|]. apply IH; [|done]. intros q Hin. apply Hq. by right.
Qed.

Lemma dseg_app (f : nat -> process) (l1 l2 : list nat) : forall pv hd tl,
  dseg f pv hd (l1 ++ l2) tl <->
  exists mid, dseg f pv hd l1 mid /\ dseg f (last_or pv l1) mid l2 tl.
Proof.
  induction l1 as [|p l1 IH]; intros pv hd tl; cbn [dseg app].
  { split; [by exists hd|]. by intros (mid & -> & H). }
  assert (El : last_or pv (p :: l1) = last_or (Some p) l1)
    by (unfold last_or; rewrite last_cons; by destruct (last l1)).
  rewrite IH, El. naive_solver.
Qed.

Lemma dseg_snoc (f : nat -> process) (l : list nat) (t : nat) (pv hd tl : ptr) :
  dseg f pv hd (l ++ [t]) tl <->
  dseg f pv hd l (Some t) /\ prev (f t) = last_or pv l /\ next (f t) = tl.
Proof.
  rewrite dseg_app. cbn [dseg]. naive_solver.
Qed.

Lemma dseg_head (f : nat -> process) (l : list nat) (pv hd tl : ptr) :
  dseg f pv hd l tl -> hd = match head l with Some p => Some p | None => tl end.
Proof. destruct l; cbn [dseg head]; [done|by intros [-> _]]. Qed.

(** Changing where a segment ends. *)
Lemma dseg_retarget (f g : nat -> process) (pv hd hd' : ptr) (l : list nat) (tl tl' : ptr) :
  NoDup l -> dseg f pv hd l tl ->
  (forall q, q ∈ l -> prev (g q) = prev (f q)) ->
  (forall q, q ∈ l -> next (g q) = if decide (last l = Some q) then tl' else next (f q)) ->
  hd' = (if decide (l = []) then tl' else hd) ->
  dseg g pv hd' l tl'.
Proof.
  intros Hnd Hl Hprev Hnext ->. destruct l as [|t l _] using rev_ind; [done|].
  rewrite decide_False by (by destruct l). apply dseg_snoc in Hl as (Hl & Hp & Hn).
  apply dseg_snoc. apply NoDup_app in Hnd as (_ & Hnt & _). split_and!.
  - revert Hl. apply dseg_ext. intros q Hq. rewrite Hprev, Hnext by set_solver.
    rewrite last_snoc, decide_False; [done|]. intros [= ->]. apply (Hnt q Hq). set_solver.
  - rewrite Hprev by set_solver. done.
  - rewrite Hnext, last_snoc, decide_True by set_solver. done.
Qed.

(** Changing what comes before a segment. *)
Lemma dseg_rehead (f g : nat -> process) (pv pv' hd : ptr) (l : list nat) (tl : ptr) :
  NoDup l -> dseg f pv hd l tl ->
  (forall q, q ∈ l -> next (g q) = next (f q)) ->
  (forall q, q ∈ l -> prev (g q) = if decide (head l = Some q) then pv' else prev (f q)) ->
  dseg g pv' hd l tl.
Proof.
  intros Hnd Hl Hnext Hprev. destruct l as [|h l]; [done|]. cbn [dseg] in *.
  destruct Hl as (-> & Hp & Hl). apply NoDup_cons in Hnd as [Hnh _]. split_and!; [done| |].
  - rewrite Hprev, decide_True by set_solver. done.
  - rewrite Hnext by set_solver. revert Hl. apply dseg_ext. intros q Hq.
    rewrite Hnext, Hprev by set_solver. split; [done|]. cbn [head].
    rewrite decide_False; [done|]. by intros [= ->].
Qed.

(** Inserting [c] between [l1] and [l2]. *)
Lemma dll_insert (f g : nat -> process) (hd hd' : ptr) (l1 l2 : list nat) (c : nat) :
  NoDup (l1 ++ c :: l2) -> dll f hd (l1 ++ l2) ->
  (forall q, q ∈ l1 ++ l2 -> next (g q) = if decide (last l1 = Some q) then Some c else next (f q)) ->
  (forall q, q ∈ l1 ++ l2 -> prev (g q) = if decide (head l2 = Some q) then Some c else prev (f q)) ->
  next (g c) = head l2 -> prev (g c) = last l1 ->
  hd' = (if decide (l1 = []) then Some c else hd) ->
  dll g hd' (l1 ++ c :: l2).
Proof.
  intros Hnd Hl Hnext Hprev Hcn Hcp ->. apply dseg_app in Hl as (mid & H1 & H2).
  apply NoDup_app in Hnd as (N1 & N12 & [Nc N2]%NoDup_cons).
  apply dseg_app. exists (Some c). split.
  - apply (dseg_retarget f g None hd _ l1 mid); [done|done| | |done].
    + intros q Hq. rewrite Hprev by set_solver. rewrite decide_False; [done|].
      intros Hh. destruct l2 as [|h l2]; [done|]. injection Hh as ->. apply (N12 q Hq). set_solver.
    + intros q Hq. by apply Hnext; set_solver.
  - cbn [dseg]. rewrite Hcp, Hcn. split_and!; [done|by unfold last_or; destruct (last l1)|].
    pose proof (dseg_head _ _ _ _ _ H2) as Emid.
    replace (head l2) with mid by (rewrite Emid; by destruct l2).
    apply (dseg_rehead f g (last_or None l1)); [done|done| |].
    + intros q Hq. rewrite Hnext by set_solver. rewrite decide_False; [done|].
      intros Hlast. apply last_Some in Hlast as (l1' & ->). apply (N12 q); set_solver.
    + intros q Hq. apply Hprev. set_solver.
Qed.

(** Removing [c] from between [l1] and [l2]. *)
Lemma dll_delete (f g : nat -> process) (hd hd' : ptr) (l1 l2 : list nat) (c : nat) :
  NoDup (l1 ++ c :: l2) -> dll f hd (l1 ++ c :: l2) ->
  (forall q, q ∈ l1 ++ l2 -> next (g q) = if decide (last l1 = Some q) then next (f c) else next (f q)) ->
  (forall q, q ∈ l1 ++ l2 -> prev (g q) = if decide (head l2 = Some q) then prev (f c) else prev (f q)) ->
  hd' = (if decide (l1 = []) then next (f c) else hd) ->
  dll g hd' (l1 ++ l2).
Proof.
  intros Hnd Hl Hnext Hprev ->. apply dseg_app in Hl as (mid & H1 & H2).
  cbn [dseg] in H2. destruct H2 as (-> & Hcp & H2).
  apply NoDup_app in Hnd as (N1 & N12 & [Nc N2]%NoDup_cons).
  apply dseg_app. exists (next (f c)). split.
  - apply (dseg_retarget f g None hd _ l1 (Some c)); [done|done| | |done].
    + intros q Hq. rewrite Hprev by set_solver. rewrite decide_False; [done|].
      intros Hh. destruct l2 as [|h l2]; [done|]. injection Hh as ->. apply (N12 q Hq). set_solver.
    + intros q Hq. by apply Hnext; set_solver.
  - apply (dseg_rehead f g (Some c)); [done|done| |].
    + intros q Hq. rewrite Hnext by set_solver. rewrite decide_False; [done|].
      intros Hlast. apply last_Some in Hlast as (l1' & ->). apply (N12 q); set_solver.
    + intros q Hq. rewrite Hprev by set_solver. by rewrite Hcp.
Qed.

(** The links of a member point to its neighbours. *)
Lemma dll_links (f : nat -> process) (hd : ptr) (l1 l2 : list nat) (c : nat) :
  dll f hd (l1 ++ c :: l2) -> prev (f c) = last l1 /\ next (f c) = head l2 /\
  hd = head (l1 ++ c :: l2).
Proof.
  intros Hl. pose proof (dseg_head _ _ _ _ _ Hl) as Hh.
  apply dseg_app in Hl as (mid & H1 & H2). cbn [dseg] in H2. destruct H2 as (-> & Hcp & H2).
  apply dseg_head in H2. split_and!.
  - rewrite Hcp. unfold last_or. by destruct (last l1).
  - rewrite H2. by destruct (head l2).
  - rewrite Hh. by destruct (head (l1 ++ c :: l2)).
Qed.

Lemma last_Some_elem_of (l : list nat) (x : nat) : last l = Some x -> x ∈ l.
Proof. intros (l' & ->)%last_Some. set_solver. Qed.

Lemma StronglySorted_impl_in (R R' : nat -> nat -> Prop) (l : list nat) :
  (forall x y, x ∈ l -> y ∈ l -> R x y -> R' x y) -> StronglySorted R l -> StronglySorted R' l.
Proof.
  intros H Hs. induction Hs as [|x l Hs IH Hf]; constructor.
  - apply IH. intros a b Ha Hb. apply H; by right.
  - rewrite Forall_forall in Hf |- *. intros y Hy. apply H; [by left|by right|by apply Hf].
Qed.

Lemma nodup_bound (l : list nat) (n : nat) :
  NoDup l -> (forall p, p ∈ l -> (p < n)%nat) -> (length l <= n)%nat.
Proof.
  intros Hnd Hlt. rewrite <- (length_seq n 0). apply submseteq_length.
  apply NoDup_submseteq; [done|]. intros p Hp. apply elem_of_seq. specialize (Hlt p Hp). lia.
Qed.

(** ** The invariant

    [Q] lists the slots of each ready queue, [zs] those of the sleep queue. *)

Definition unqueued (Q : list (list nat)) (zs : list nat) (p : nat) : Prop :=
  (p ∉ zs) /\ forall i q, Q !! i = Some q -> p ∉ q.

Section Invariant.
  Context {S : Type}.
  Implicit Types s : sched S.

Record sched_inv s (Q : list (list nat)) (zs : list nat) : Prop := SchedInv {
  si_table : length (processes (ps s)) = MAX_PROCESSES;
  si_len : length (ready_queues s) = 32%nat /\ length Q = 32%nat;
  si_queue : forall i q, Q !! i = Some q ->
    dll (pr s) (default None (ready_queues s !! i)) q /\ NoDup q;
  si_ready : forall i q p, Q !! i = Some q -> p ∈ q ->
    (p < MAX_PROCESSES)%nat /\ queue_of (priority (pr s p)) = Z.of_nat i /\
    state (pr s p) = PROC_READY;
  si_bitmap : 0 <= ready_bitmap s < 2 ^ 32 /\
    forall i q, Q !! i = Some q -> Z.testbit (ready_bitmap s) (Z.of_nat i) = bool_decide (q <> []);
  si_sleep : dll (pr s) (sleep_queue s) zs /\ NoDup zs /\
    StronglySorted (fun p q => wake_time (pr s p) <= wake_time (pr s q)) zs /\
    forall p, p ∈ zs -> (p < MAX_PROCESSES)%nat /\ state (pr s p) = PROC_BLOCKED;
  si_free : forall p, (p < MAX_PROCESSES)%nat -> unqueued Q zs p ->
    next (pr s p) = None /\ prev (pr s p) = None
}.

Lemma pr_updp s (p q : nat) (f : process -> process) :
  (p < length (processes (ps s)))%nat ->
  pr (updp p f s) q = if decide (q = p) then f (pr s q) else pr s q.
Proof. intros Hp. unfold pr, updp. cbn [ps with_ps]. by apply proc_upd. Qed.

Lemma len_updp s (p : nat) (f : process -> process) :
  length (processes (ps (updp p f s))) = length (processes (ps s)).
Proof. cbn. apply length_alter. Qed.

Lemma queue_of_range (prio : Z) : 0 <= queue_of prio < 32.
Proof. unfold queue_of, SCHED_PRIORITY_LEVELS. destruct (prio <? 0) eqn:?; zcases; lia. Qed.

Lemma alter_insert_list (f : list nat -> list nat) (Q : list (list nat)) (i : nat) (l : list nat) :
  Q !! i = Some l -> alter f i Q = <[i := f l]> Q.
Proof.
  intros Hl. apply list_eq. intros j. destruct (decide (j = i)) as [->|Hj].
  - rewrite list_lookup_insert_eq by (by eapply lookup_lt_Some). by rewrite list_lookup_alter_eq, Hl.
  - by rewrite list_lookup_insert_ne, list_lookup_alter_ne.
Qed.

(** A process is in at most one queue. *)
Lemma queues_disjoint s Q zs (i j : nat) (q r : list nat) (p : nat) :
  sched_inv s Q zs -> Q !! i = Some q -> Q !! j = Some r -> p ∈ q -> p ∈ r -> i = j.
Proof.
  intros H Hi Hj Hp Hr. destruct (si_ready _ _ _ H _ _ _ Hi Hp) as (_ & E1 & _).
  destruct (si_ready _ _ _ H _ _ _ Hj Hr) as (_ & E2 & _). lia.
Qed.

Lemma ready_not_sleeping s Q zs (i : nat) (q : list nat) (p : nat) :
  sched_inv s Q zs -> Q !! i = Some q -> p ∈ q -> p ∉ zs.
Proof.
  intros H Hi Hp Hz. destruct (si_ready _ _ _ H _ _ _ Hi Hp) as (_ & _ & E1).
  destruct (si_sleep _ _ _ H) as (_ & _ & _ & Hs). destruct (Hs p Hz) as [_ E2]. congruence.
Qed.

(** A process in no queueing state is in no queue. *)
Lemma unqueued_state s Q zs (p : nat) :
  sched_inv s Q zs -> state (pr s p) <> PROC_READY -> state (pr s p) <> PROC_BLOCKED ->
  unqueued Q zs p.
Proof.
  intros H H1 H2. split.
  - intros Hz. destruct (si_sleep _ _ _ H) as (_ & _ & _ & Hs). by destruct (Hs p Hz).
  - intros i q Hi Hp. by destruct (si_ready _ _ _ H _ _ _ Hi Hp) as (_ & _ & E).
Qed.

Lemma queue_exists s Q zs (prio : Z) :
  sched_inv s Q zs -> exists l, Q !! Z.to_nat (queue_of prio) = Some l.
Proof.
  intros H. apply lookup_lt_is_Some. pose proof (queue_of_range prio).
  destruct (si_len _ _ _ H) as [_ ->]. lia.
Qed.

(** The fields the queues do not link through. *)
Definition core_eq (x y : process) : Prop :=
  state x = state y /\ priority x = priority y /\ wake_time x = wake_time y.

(** What does not concern the queues may change. *)
Lemma inv_frame s s' Q zs :
  sched_inv s Q zs -> length (processes (ps s')) = MAX_PROCESSES ->
  ready_queues s' = ready_queues s -> ready_bitmap s' = ready_bitmap s ->
  sleep_queue s' = sleep_queue s ->
  (forall p, next (pr s' p) = next (pr s p) /\ prev (pr s' p) = prev (pr s p)) ->
  (forall p, unqueued Q zs p \/ core_eq (pr s' p) (pr s p)) ->
  sched_inv s' Q zs.
Proof.
  intros [H1 H2 H3 H4 H5 (H6 & H7 & H8 & H9) H10] Hlen Hq Hb Hs Hl Hc.
  assert (Hcq : forall i q p, Q !! i = Some q -> p ∈ q -> core_eq (pr s' p) (pr s p)).
  { intros i q p Hi Hp. destruct (Hc p) as [[_ Hu]|?]; [by destruct (Hu i q Hi)|done]. }
  assert (Hcz : forall p, p ∈ zs -> core_eq (pr s' p) (pr s p)).
  { intros p Hp. destruct (Hc p) as [[Hu _]|?]; done. }
  split; rewrite ?Hq, ?Hb, ?Hs; try done.
  - intros i q Hi. destruct (H3 i q Hi) as [Hd Hn]. split; [|done].
    revert Hd. apply dseg_ext. intros; apply Hl.
  - intros i q p Hi Hp. destruct (Hcq i q p Hi Hp) as (-> & -> & _). by apply (H4 i q).
  - split_and!; [revert H6; apply dseg_ext; intros; apply Hl|done| |].
    + eapply StronglySorted_impl_in; [|exact H8]. intros x y Hx Hy Hle.
      destruct (Hcz x Hx) as (_ & _ & ->), (Hcz y Hy) as (_ & _ & ->). done.
    + intros p Hp. destruct (Hcz p Hp) as (-> & _). by apply H9.
  - intros p Hp Hu. destruct (Hl p) as [-> ->]. by apply H10.
Qed.

(** Setting and clearing the bit of a queue. *)
Lemma bit_set (b : Z) (i : nat) (j : Z) :
  0 <= j -> (i < 32)%nat ->
  Z.testbit (Z.lor b (u32 (Z.shiftl 1 (Z.of_nat i)))) j = Z.testbit b j || (j =? Z.of_nat i).
Proof.
  intros Hj Hi. rewrite Z.lor_spec, uwrap_testbit, shiftl_1_testbit by lia. f_equal.
  rewrite Z.eqb_sym. destruct (Z.eqb_spec j (Z.of_nat i)); [|by rewrite andb_false_r].
  by rewrite (proj2 (Z.ltb_lt _ _)) by lia.
Qed.

Lemma bit_already_set (b i : Z) :
  0 <= i < 32 -> Z.testbit b i = true -> Z.lor b (u32 (Z.shiftl 1 i)) = b.
Proof.
  intros Hi Hb. apply Z.bits_inj'. intros j Hj.
  pose proof (bit_set b (Z.to_nat i) j Hj ltac:(lia)) as H. rewrite Z2Nat.id in H by lia.
  rewrite H. destruct (Z.eqb_spec j i) as [->|]; [by rewrite Hb|apply orb_false_r].
Qed.

Lemma bit_clear (b : Z) (i : nat) (j : Z) :
  0 <= b < 2 ^ 32 -> 0 <= j -> (i < 32)%nat ->
  Z.testbit (Z.land b (u32 (Z.lnot (Z.shiftl 1 (Z.of_nat i))))) j
  = Z.testbit b j && negb (j =? Z.of_nat i).
Proof.
  intros Hb Hj Hi. rewrite Z.land_spec, uwrap_testbit, Z.lnot_spec, shiftl_1_testbit by lia.
  rewrite (Z.eqb_sym j). destruct (Z.ltb_spec j 32); [done|].
  by rewrite (testbit_high 32 b j) by lia.
Qed.

Lemma bits_range (b : Z) (i : nat) :
  0 <= b < 2 ^ 32 -> 0 <= Z.lor b (u32 (Z.shiftl 1 (Z.of_nat i))) < 2 ^ 32 /\
  0 <= Z.land b (u32 (Z.lnot (Z.shiftl 1 (Z.of_nat i)))) < 2 ^ 32.
Proof.
  intros Hb. split; [apply lor_range; [lia|done|by apply uwrap_range]|by apply land_range; [lia|]].
Qed.

(** The queue [i] changes from [l] to [l'] and the links and fields of nobody else do: what
    is left to check is the new queue, its bit and the links of those that left it. *)
Lemma queue_change_inv s s' Q zs (i : nat) (l l' : list nat) :
  sched_inv s Q zs -> Q !! i = Some l ->
  length (processes (ps s')) = MAX_PROCESSES -> sleep_queue s' = sleep_queue s ->
  length (ready_queues s') = 32%nat ->
  (forall j, j <> i -> ready_queues s' !! j = ready_queues s !! j) ->
  dll (pr s') (default None (ready_queues s' !! i)) l' -> NoDup l' ->
  (forall p, p ∈ l' -> (p < MAX_PROCESSES)%nat /\ queue_of (priority (pr s' p)) = Z.of_nat i /\
     state (pr s' p) = PROC_READY) ->
  0 <= ready_bitmap s' < 2 ^ 32 ->
  (forall j : nat, Z.testbit (ready_bitmap s') (Z.of_nat j)
     = if decide (j = i) then bool_decide (l' <> []) else Z.testbit (ready_bitmap s) (Z.of_nat j)) ->
  (forall p, p ∈ l' -> p ∈ l \/ unqueued Q zs p) ->
  (forall p, p ∉ l' -> p ∈ l -> next (pr s' p) = None /\ prev (pr s' p) = None) ->
  (forall p, p ∉ l -> p ∉ l' ->
     next (pr s' p) = next (pr s p) /\ prev (pr s' p) = prev (pr s p) /\ core_eq (pr s' p) (pr s p)) ->
  sched_inv s' (<[i := l']> Q) zs.
Proof.
  intros Hinv Hl Hlen Hsq Hlq Hrq Hd' Hnd' Hr' Hbr Hbm Hin Hleft Hsame.
  pose proof Hinv as [H1 [H2 H2'] H3 H4 [H5 H5'] (H6 & H7 & H8 & H9) H10].
  assert (Hi : (i < 32)%nat) by (rewrite <- H2'; by eapply lookup_lt_Some).
  assert (HQ : forall j q, <[i := l']> Q !! j = Some q ->
    (j = i /\ q = l') \/ (j <> i /\ Q !! j = Some q)).
  { intros j q Hj. apply list_lookup_insert_Some in Hj as [(-> & <- & _)|[Hne Hj]]; [by left|by right]. }
  assert (Hother : forall j q p, j <> i -> Q !! j = Some q -> p ∈ q ->
    next (pr s' p) = next (pr s p) /\ prev (pr s' p) = prev (pr s p) /\ core_eq (pr s' p) (pr s p)).
  { intros j q p Hne Hj Hp. assert (p ∉ l) by (intros ?; apply Hne; by eapply (queues_disjoint s Q zs j i)).
    apply Hsame; [done|]. intros [?|[_ Hu]]%Hin; [done|by apply (Hu j q)]. }
  assert (Hz : forall p, p ∈ zs ->
    next (pr s' p) = next (pr s p) /\ prev (pr s' p) = prev (pr s p) /\ core_eq (pr s' p) (pr s p)).
  { intros p Hp. assert (p ∉ l) by (intros ?; by apply (ready_not_sleeping s Q zs i l p Hinv Hl)).
    apply Hsame; [done|]. intros [?|[Hu _]]%Hin; done. }
  split; [done|by rewrite length_insert| | | | |].
  - intros j q Hj. destruct (HQ j q Hj) as [[-> ->]|[Hji Hq]]; [done|].
    destruct (H3 j q Hq) as [Hd Hnd]. split; [|done]. rewrite Hrq by done.
    revert Hd. apply dseg_ext. intros x Hx. by destruct (Hother j q x Hji Hq Hx) as (-> & -> & _).
  - intros j q p Hj Hp. destruct (HQ j q Hj) as [[-> ->]|[Hji Hq]]; [by apply Hr'|].
    destruct (Hother j q p Hji Hq Hp) as (_ & _ & -> & -> & _). by apply (H4 j q).
  - split; [done|]. intros j q Hj. rewrite Hbm.
    destruct (HQ j q Hj) as [[-> ->]|[Hji Hq]]; [by rewrite decide_True|].
    rewrite decide_False by done. by apply H5'.
  - rewrite Hsq. split_and!; [|done| |].
    + revert H6. apply dseg_ext. intros p Hp. by destruct (Hz p Hp) as (-> & -> & _).
    + eapply StronglySorted_impl_in; [|exact H8]. intros x y Hx Hy Hle.
      destruct (Hz x Hx) as (_ & _ & _ & _ & ->), (Hz y Hy) as (_ & _ & _ & _ & ->). done.
    + intros p Hp. destruct (Hz p Hp) as (_ & _ & -> & _). by apply H9.
  - intros p Hp [Uz Uq].
    assert (Hpl' : p ∉ l') by (apply (Uq i); apply list_lookup_insert_eq; lia).
    destruct (decide (p ∈ l)) as [Hpl|Hpl]; [by apply Hleft|].
    destruct (Hsame p Hpl Hpl') as (-> & -> & _). apply H10; [done|]. split; [done|].
    intros j q Hj. destruct (decide (j = i)) as [->|Hne]; [by simplify_eq|].
    apply (Uq j). by rewrite list_lookup_insert_ne.
Qed.

(** Appending an unqueued process to the queue [i]. *)
Lemma enqueue_inv s s' Q zs (i p : nat) (l : list nat) :
  sched_inv s Q zs -> Q !! i = Some l -> unqueued Q zs p -> (p < MAX_PROCESSES)%nat ->
  length (processes (ps s')) = MAX_PROCESSES -> sleep_queue s' = sleep_queue s ->
  ready_queues s' = (if decide (l = []) then <[i := Some p]> (ready_queues s) else ready_queues s) ->
  ready_bitmap s' = Z.lor (ready_bitmap s) (u32 (Z.shiftl 1 (Z.of_nat i))) ->
  (forall q, q <> p -> next (pr s' q) = if decide (last l = Some q) then Some p else next (pr s q)) ->
  (forall q, q <> p -> prev (pr s' q) = prev (pr s q) /\ core_eq (pr s' q) (pr s q)) ->
  next (pr s' p) = None -> prev (pr s' p) = last l -> state (pr s' p) = PROC_READY ->
  queue_of (priority (pr s' p)) = Z.of_nat i ->
  sched_inv s' (alter (fun l => l ++ [p]) i Q) zs.
Proof.
  intros Hinv Hl Hu Hp Hlen Hsq Hrq Hbm Hn Ho Hpn Hpp Hps Hpi.
  destruct (si_len _ _ _ Hinv) as [Hlq HlQ]. destruct (si_bitmap _ _ _ Hinv) as [Hbr Hbit].
  assert (Hi : (i < 32)%nat) by (rewrite <- HlQ; by eapply lookup_lt_Some).
  assert (Hpl : p ∉ l) by by apply Hu in Hl.
  assert (Hmem : forall q, q ∈ l -> q <> p) by (by intros q Hq ->).
  destruct (si_queue _ _ _ Hinv _ _ Hl) as [Hd Hnd].
  assert (Hnd' : NoDup (l ++ [p])).
  { apply NoDup_app. split_and!; [done| |by apply NoDup_singleton]. set_solver. }
  rewrite (alter_insert_list _ Q i l Hl).
  apply (queue_change_inv s s' Q zs i l); try done.
  - rewrite Hrq. case_decide; [by rewrite length_insert|done].
  - intros j Hj. rewrite Hrq. case_decide; [by rewrite list_lookup_insert_ne|done].
  - rewrite <- (app_nil_r l) in Hd.
    apply (dll_insert (pr s) (pr s') _ _ l [] p Hnd' Hd); [| |done|done|].
    + intros q Hq. rewrite app_nil_r in Hq. by apply Hn, Hmem.
    + intros q Hq. rewrite app_nil_r in Hq. cbn [head]. rewrite decide_False by done.
      by apply Ho, Hmem.
    + rewrite Hrq. case_decide; [by rewrite list_lookup_insert_eq by lia|done].
  - intros q [Hq| ->%list_elem_of_singleton]%elem_of_app; [|done].
    destruct (Ho q (Hmem q Hq)) as [_ (-> & -> & _)]. by apply (si_ready _ _ _ Hinv i l).
  - rewrite Hbm. by apply bits_range.
  - intros j. rewrite Hbm, bit_set by lia. destruct (decide (j = i)) as [->|Hne].
    + rewrite Z.eqb_refl, orb_true_r, bool_decide_eq_true_2; [done|by destruct l].
    + by rewrite (proj2 (Z.eqb_neq _ _)), orb_false_r by lia.
  - intros q [Hq| ->%list_elem_of_singleton]%elem_of_app; [by left|by right].
  - set_solver.
  - intros q Hq Hq'. assert (Hqp : q <> p) by set_solver. rewrite Hn, decide_False by
      (done || (intros Hlast%last_Some_elem_of; done)). split; [done|]. by apply Ho.
Qed.

(** Taking a member out of the queue [i]. *)
Lemma dequeue_inv s s' Q zs (i p : nat) (l1 l2 : list nat) :
  sched_inv s Q zs -> Q !! i = Some (l1 ++ p :: l2) ->
  length (processes (ps s')) = MAX_PROCESSES -> sleep_queue s' = sleep_queue s ->
  ready_queues s' = (if decide (l1 = []) then <[i := next (pr s p)]> (ready_queues s)
                     else ready_queues s) ->
  ready_bitmap s' = (if decide (l1 ++ l2 = [])
    then Z.land (ready_bitmap s) (u32 (Z.lnot (Z.shiftl 1 (Z.of_nat i)))) else ready_bitmap s) ->
  (forall q, q <> p ->
     next (pr s' q) = (if decide (last l1 = Some q) then next (pr s p) else next (pr s q)) /\
     prev (pr s' q) = (if decide (head l2 = Some q) then prev (pr s p) else prev (pr s q)) /\
     core_eq (pr s' q) (pr s q)) ->
  next (pr s' p) = None -> prev (pr s' p) = None ->
  sched_inv s' (<[i := l1 ++ l2]> Q) zs.
Proof.
  intros Hinv Hl Hlen Hsq Hrq Hbm Ho Hpn Hpp.
  destruct (si_len _ _ _ Hinv) as [Hlq HlQ]. destruct (si_bitmap _ _ _ Hinv) as [Hbr Hbit].
  assert (Hi : (i < 32)%nat) by (rewrite <- HlQ; by eapply lookup_lt_Some).
  destruct (si_queue _ _ _ Hinv _ _ Hl) as [Hd Hnd].
  pose proof Hnd as (N1 & N12 & [Np N2]%NoDup_cons)%NoDup_app.
  assert (Hmem : forall q, q ∈ l1 ++ l2 -> q <> p).
  { intros q [Hx|Hx]%elem_of_app ->; [|done]. apply (N12 p Hx). by left. }
  apply (queue_change_inv s s' Q zs i (l1 ++ p :: l2)); try done.
  - rewrite Hrq. destruct (decide (l1 = [])); [by rewrite length_insert|done].
  - intros j Hj. rewrite Hrq. destruct (decide (l1 = [])); [by rewrite list_lookup_insert_ne|done].
  - apply (dll_delete (pr s) (pr s') _ _ l1 l2 p Hnd Hd); [intros q Hq; by apply Ho, Hmem..|].
    rewrite Hrq. destruct (decide (l1 = [])); [by rewrite list_lookup_insert_eq by lia|done].
  - apply NoDup_app. split_and!; [done|set_solver|done].
  - intros q Hq. destruct (Ho q (Hmem q Hq)) as (_ & _ & -> & -> & _).
    apply (si_ready _ _ _ Hinv i _ q Hl). set_solver.
  - rewrite Hbm. destruct (decide (l1 ++ l2 = [])); [by apply bits_range|done].
  - intros j. rewrite Hbm. destruct (decide (j = i)) as [->|Hne], (decide (l1 ++ l2 = [])) as [E|E].
    + rewrite bit_clear, Z.eqb_refl, andb_false_r by lia. symmetry. apply bool_decide_eq_false. tauto.
    + rewrite (Hbit i _ Hl), !bool_decide_eq_true_2; [done|done|by destruct l1].
    + rewrite bit_clear by lia. by rewrite (proj2 (Z.eqb_neq _ _)), andb_true_r by lia.
    + done.
  - set_solver.
  - intros q Hq Hq'. assert (q = p) as -> by set_solver. done.
  - intros q Hq _. destruct (Ho q) as (-> & -> & E); [set_solver|].
    rewrite !decide_False; [done| |].
    + intros Hx. destruct l2; [done|]. cbn in Hx. set_solver.
    + intros Hx%last_Some_elem_of. set_solver.
Qed.

End Invariant.

(** ** What each operation does *)

(** Everything but the table, the ready queues and the bitmap. *)
Record same_env {S} (s s' : sched S) : Prop := SameEnv {
  se_current : current_process (ps s') = current_process (ps s);
  se_vm : vm (ps s') = vm (ps s);
  se_cpu : cpu (ps s') = cpu (ps s);
  se_sleep : sleep_queue s' = sleep_queue s;
  se_tick : current_tick s' = current_tick s;
  se_idle : idle_proc s' = idle_proc s;
  se_table : length (processes (ps s')) = length (processes (ps s))
}.

(** The control blocks agree up to the links. *)
Definition linkless (x y : process) : Prop := unlink x = unlink y.

Lemma linkless_core (x y : process) : linkless x y -> core_eq x y.
Proof. destruct x, y. unfold linkless, core_eq. cbn. naive_solver. Qed.

Section Specs.
  Context {S : Type} {PA : PageAllocator S} {RA : RunAllocator S}.
  Implicit Types s : sched S.

Lemma same_env_updp s (p : nat) (f : process -> process) : same_env s (updp p f s).
Proof. split; try done. apply len_updp. Qed.

Lemma same_env_trans s1 s2 s3 : same_env s1 s2 -> same_env s2 s3 -> same_env s1 s3.
Proof. intros [] []. split; congruence. Qed.

Lemma find_tail_spec s (l : list nat) (t : nat) : forall (pv : ptr) (h : nat) (fuel : nat),
  dseg (pr s) pv (Some h) (l ++ [t]) None -> (length l <= fuel)%nat -> find_tail fuel h s = Some t.
Proof.
  induction l as [|x l IH]; intros pv h fuel Hd Hf; cbn [app dseg length] in Hd, Hf.
  - destruct Hd as ([= ->] & _ & Hn). destruct fuel; cbn [find_tail]; by rewrite Hn.
  - destruct Hd as ([= ->] & _ & Hd). destruct fuel as [|fuel]; [lia|]. cbn [find_tail].
    destruct (next (pr s x)) as [y|] eqn:E.
    + eapply IH; [exact Hd|lia].
    + apply dseg_head in Hd. by destruct l.
Qed.

(** The walk of [scheduler_add] from the head of a queue ends at its last member; the
    process to add, already unlinked, is not on the way. *)
Lemma queue_tail s Q zs (p i h : nat) (l : list nat) :
  sched_inv s Q zs -> Q !! i = Some (h :: l) -> (p < MAX_PROCESSES)%nat -> p ∉ h :: l ->
  exists t, last (h :: l) = Some t /\ (t < MAX_PROCESSES)%nat /\ t <> p /\
    find_tail QUEUE_FUEL h (updp p unlink s) = Some t.
Proof.
  intros Hinv Hl Hp Hpl. destruct (si_queue _ _ _ Hinv _ _ Hl) as [Hd Hnd].
  pose proof (si_table _ _ _ Hinv) as Htab.
  assert (Hb : forall q, q ∈ h :: l -> (q < MAX_PROCESSES)%nat)
    by (intros q Hq; by apply (si_ready _ _ _ Hinv _ _ _ Hl)).
  destruct (exists_last (l := h :: l) ltac:(done)) as (l' & t & El).
  assert (Ht : t ∈ h :: l) by (rewrite El; set_solver).
  exists t. split_and!; [rewrite El; apply last_snoc|by apply Hb|by intros ->|].
  apply (find_tail_spec _ l' t None).
  - rewrite <- El. pose proof Hd as Hd'. unfold dll in Hd'.
    rewrite (dseg_head _ _ _ _ _ Hd) in Hd'. cbn [head] in Hd'. revert Hd'. apply dseg_ext.
    intros q Hq. rewrite pr_updp, decide_False by (try lia; by intros ->). done.
  - apply (f_equal length) in El. rewrite length_app in El.
    pose proof (nodup_bound (h :: l) MAX_PROCESSES Hnd Hb).
    cbn [length] in *. unfold QUEUE_FUEL, MAX_PROCESSES in *. lia.
Qed.

(** The end of [scheduler_add], common to an empty and to a populated queue: once the process
    is linked behind the last member, making it ready re-establishes the invariant. *)
Lemma add_linked s s2 Q zs (p : nat) (l : list nat) :
  let i := queue_of (priority (pr s p)) in
  let s' := updp p (set_time_slice (37 - i)) (updp p (set_state PROC_READY) s2) in
  sched_inv s Q zs -> unqueued Q zs p -> (p < MAX_PROCESSES)%nat -> Q !! Z.to_nat i = Some l ->
  same_env s s2 ->
  ready_queues s2 = (if decide (l = []) then <[Z.to_nat i := Some p]> (ready_queues s)
                     else ready_queues s) ->
  ready_bitmap s2 = Z.lor (ready_bitmap s) (u32 (Z.shiftl 1 i)) ->
  (forall q, pr s2 q = if decide (q = p) then set_prev (last l) (unlink (pr s p))
     else if decide (last l = Some q) then set_next (Some p) (pr s q) else pr s q) ->
  sched_inv s' (alter (fun l => l ++ [p]) (Z.to_nat i) Q) zs /\ same_env s s' /\
    (forall q, q <> p -> linkless (pr s' q) (pr s q)) /\
    linkless (pr s' p) (set_time_slice (37 - i) (set_state PROC_READY (pr s p))).
Proof.
  intros i s' Hinv Hu Hp Hl E2 Hrq Hbm H2. pose proof (queue_of_range (priority (pr s p))) as Hi.
  fold i in Hi. pose proof (si_table _ _ _ Hinv) as Htab. pose proof (se_table _ _ E2) as Hl2.
  assert (Hpr : forall q, q <> p -> pr s' q
    = if decide (last l = Some q) then set_next (Some p) (pr s q) else pr s q).
  { intros q Hq. unfold s'. rewrite !pr_updp, !(decide_False (P := q = p)) by (rewrite ?len_updp, ?Hl2; done || lia).
    by rewrite H2, decide_False. }
  assert (Hpp : pr s' p = set_time_slice (37 - i)
    (set_state PROC_READY (set_prev (last l) (unlink (pr s p))))).
  { unfold s'. rewrite !pr_updp, !decide_True by (rewrite ?len_updp, ?Hl2; done || lia).
    by rewrite H2, decide_True. }
  split_and!.
  - apply (enqueue_inv s _ Q zs (Z.to_nat i) p l); try done; try by rewrite Hpp.
    + unfold s'. rewrite !len_updp. lia.
    + apply (se_sleep _ _ E2).
    + rewrite Z2Nat.id by lia. exact Hbm.
    + intros q Hq. rewrite Hpr by done. by repeat case_decide.
    + intros q Hq. rewrite Hpr by done. by repeat case_decide.
    + rewrite Hpp. cbn. fold i. lia.
  - eapply same_env_trans; [exact E2|]. eapply same_env_trans; apply same_env_updp.
  - intros q Hq. rewrite Hpr by done. by repeat case_decide.
  - by rewrite Hpp.
Qed.

(** [scheduler_add] of a process in no queue. *)
Lemma add_spec s Q zs (p : nat) :
  sched_inv s Q zs -> unqueued Q zs p -> (p < MAX_PROCESSES)%nat -> state (pr s p) <> PROC_UNUSED ->
  let i := queue_of (priority (pr s p)) in
  exists s', scheduler_add (Some p) s = Some s' /\
    sched_inv s' (alter (fun l => l ++ [p]) (Z.to_nat i) Q) zs /\ same_env s s' /\
    (forall q, q <> p -> linkless (pr s' q) (pr s q)) /\
    linkless (pr s' p) (set_time_slice (37 - i) (set_state PROC_READY (pr s p))).
Proof.
  intros Hinv Hu Hp Hst i. pose proof (queue_of_range (priority (pr s p))) as Hi. fold i in Hi.
  destruct (queue_exists s Q zs (priority (pr s p)) Hinv) as [l Hl]. fold i in Hl.
  pose proof (si_table _ _ _ Hinv) as Htab.
  unfold scheduler_add. rewrite decide_False by done. fold i.
  assert (Hrq : rq (updp p unlink s) i = match head l with Some h => Some h | None => None end)
    by exact (dseg_head _ _ _ _ _ (proj1 (si_queue _ _ _ Hinv _ _ Hl))).
  replace (SCHED_TIME_SLICE_BASE + (SCHED_PRIORITY_LEVELS - i)) with (37 - i)
    by (unfold SCHED_TIME_SLICE_BASE, SCHED_PRIORITY_LEVELS; lia).
  rewrite Hrq. destruct l as [|h l]; cbn [head].
  - eexists. split; [reflexivity|]. apply (add_linked s _ Q zs p []); try done.
    + eapply same_env_trans; [apply same_env_updp|by split].
    + intros q. change (pr (updp p unlink s) q = if decide (q = p) then unlink (pr s p) else pr s q).
      rewrite pr_updp by lia. by destruct (decide (q = p)) as [->|].
  - destruct (queue_tail s Q zs p _ h l Hinv Hl Hp) as (t & Elast & Htl & Htp & ->);
      [by apply Hu in Hl|].
    eexists. split; [reflexivity|]. apply (add_linked s _ Q zs p (h :: l)); try done.
    + do 2 (eapply same_env_trans; [apply same_env_updp|]). apply same_env_updp.
    + symmetry. apply bit_already_set; [done|].
      pose proof (proj2 (si_bitmap _ _ _ Hinv) _ _ Hl) as Hbit. by rewrite Z2Nat.id in Hbit by lia.
    + intros q. rewrite !pr_updp, Elast by (rewrite ?len_updp; lia).
      destruct (decide (q = p)) as [->|]; [by rewrite decide_False|].
      destruct (decide (q = t)) as [->|]; [by rewrite decide_True|by rewrite decide_False by congruence].
Qed.

(** Unlinking and inserting both end with the follower, if there is one, pointing back to its
    new predecessor. *)
Lemma back_link_spec s (o v : ptr) :
  (forall h, o = Some h -> (h < length (processes (ps s)))%nat) ->
  exists s', match o with Some h => updp h (set_prev v) s | None => s end = s' /\
    same_env s s' /\ ready_queues s' = ready_queues s /\ ready_bitmap s' = ready_bitmap s /\
    forall q, pr s' q = if decide (o = Some q) then set_prev v (pr s q) else pr s q.
Proof.
  intros Ho. destruct o as [h|]; eexists; split_and!; try done; [apply same_env_updp|].
  intros q. rewrite pr_updp by by apply Ho.
  destruct (decide (q = h)) as [->|]; [by rewrite decide_True|by rewrite decide_False by congruence].
Qed.

(** The first step of [scheduler_remove]: the predecessor, or the head of the queue, skips
    the process. *)
Lemma forward_link_spec s (i : Z) (l1 : list nat) (v : ptr) :
  (forall q, q ∈ l1 -> (q < length (processes (ps s)))%nat) ->
  exists s', match last l1 with Some q => updp q (set_next v) s | None => set_rq i v s end = s' /\
    same_env s s' /\ ready_bitmap s' = ready_bitmap s /\
    ready_queues s' = (if decide (l1 = []) then <[Z.to_nat i := v]> (ready_queues s)
                       else ready_queues s) /\
    forall q, pr s' q = if decide (last l1 = Some q) then set_next v (pr s q) else pr s q.
Proof.
  intros Hl. destruct (last l1) as [t|] eqn:E; eexists; split_and!; try done.
  - apply same_env_updp.
  - rewrite decide_False; [done|]. by intros ->.
  - intros q. rewrite pr_updp by by apply Hl, last_Some_elem_of.
    destruct (decide (q = t)) as [->|]; [by rewrite decide_True|by rewrite decide_False by congruence].
  - by apply last_None in E as ->.
Qed.

(** [scheduler_remove] of a member of its queue. *)
Lemma remove_spec s Q zs (p : nat) (l1 l2 : list nat) :
  let i := queue_of (priority (pr s p)) in
  sched_inv s Q zs -> Q !! Z.to_nat i = Some (l1 ++ p :: l2) ->
  let s' := scheduler_remove (Some p) s in
  sched_inv s' (<[Z.to_nat i := l1 ++ l2]> Q) zs /\ same_env s s' /\
  forall q, linkless (pr s' q) (pr s q).
Proof.
  intros i Hinv Hl. pose proof (queue_of_range (priority (pr s p))) as Hi. fold i in Hi.
  pose proof (si_table _ _ _ Hinv) as Htab. destruct (si_len _ _ _ Hinv) as [Hlq _].
  destruct (si_queue _ _ _ Hinv _ _ Hl) as [Hd Hnd].
  assert (Hlt : forall q, q ∈ l1 ++ p :: l2 -> (q < MAX_PROCESSES)%nat)
    by (intros q Hq; by apply (si_ready _ _ _ Hinv _ _ _ Hl)).
  destruct (dll_links _ _ _ _ _ Hd) as (Hprev & Hnext & Hhd).
  apply NoDup_app in Hnd as (_ & N12 & _).
  unfold scheduler_remove. fold i. rewrite Hprev.
  destruct (forward_link_spec s i l1 (next (pr s p))) as (s1 & -> & E1 & B1 & R1 & P1);
    [intros q Hq; rewrite Htab; apply Hlt; set_solver|].
  assert (Pp1 : pr s1 p = pr s p).
  { rewrite P1, decide_False; [done|]. intros Hx%last_Some_elem_of. apply (N12 p Hx). by left. }
  rewrite Pp1, Hprev, Hnext.
  destruct (back_link_spec s1 (head l2) (last l1)) as (s2 & -> & E2 & R2 & B2 & P2).
  { intros h Hh. rewrite (se_table _ _ E1), Htab. apply Hlt. destruct l2; [done|].
    injection Hh as ->. set_solver. }
  set (s3 := updp p unlink s2). pose proof (same_env_trans _ _ _ E1 E2) as E12.
  assert (P3 : forall q, pr s3 q = if decide (q = p) then unlink (pr s2 q) else pr s2 q)
    by (intros q; apply pr_updp; rewrite (se_table _ _ E12), Htab; apply Hlt; set_solver).
  assert (E3 : same_env s s3) by (eapply same_env_trans; [exact E12|apply same_env_updp]).
  assert (Hhead : rq s3 i = head (l1 ++ l2)).
  { unfold rq. change (ready_queues s3) with (ready_queues s2). rewrite R2, R1.
    destruct (decide (l1 = [])) as [->|Hne].
    - rewrite list_lookup_insert_eq by lia. exact Hnext.
    - rewrite Hhd. by destruct l1. }
  rewrite Hhead. set (s4 := match head _ with None => _ | Some _ => _ end).
  assert (H4 : (forall q, pr s4 q = pr s3 q) /\ same_env s s4 /\ ready_queues s4 = ready_queues s1 /\
    ready_bitmap s4 = if decide (l1 ++ l2 = []) then
      Z.land (ready_bitmap s) (u32 (Z.lnot (Z.shiftl 1 (Z.of_nat (Z.to_nat i))))) else ready_bitmap s).
  { rewrite Z2Nat.id by lia. unfold s4. rewrite <- B1, <- B2.
    destruct (l1 ++ l2) as [|x l]; split_and!; try done. destruct E3; by split. }
  clearbody s4. destruct H4 as (P4 & E4 & R4 & B4).
  assert (Hpr : forall q, linkless (pr s4 q) (pr s q))
    by (intros q; rewrite P4, P3, P2, P1; by repeat case_decide).
  split_and!; [|done|done].
  apply (dequeue_inv s s4 Q zs (Z.to_nat i) p l1 l2); try done.
  - by rewrite (se_table _ _ E4).
  - by rewrite (se_sleep _ _ E4).
  - by rewrite R4, R1.
  - intros q Hq. split; [|split; [|apply linkless_core, Hpr]]; rewrite P4, P3, decide_False, P2, P1 by done;
      destruct (decide (head l2 = Some q)), (decide (last l1 = Some q)); by rewrite ?Hprev.
  - by rewrite P4, P3, decide_True.
  - by rewrite P4, P3, decide_True.
Qed.

Lemma ctz_from_spec (n : nat) : forall (i x : Z), 0 <= i ->
  let r := ctz_from n i x in
  i <= r <= i + Z.of_nat n /\ (forall j, i <= j < r -> Z.testbit x j = false) /\
  (r < i + Z.of_nat n -> Z.testbit x r = true).
Proof.
  induction n as [|n IH]; intros i x Hi; cbn [ctz_from].
  { split_and!; intros; lia. }
  destruct (Z.testbit x i) eqn:E; [split_and!; (done || intros; lia)|].
  destruct (IH (i + 1) x ltac:(lia)) as (A & B & C). split_and!; [lia|lia| |].
  - intros j Hj. destruct (Z.eq_dec j i) as [->|]; [done|]. apply B. lia.
  - intros Hr. apply C. lia.
Qed.

Lemma builtin_ctz_spec (x : Z) :
  0 < x < 2 ^ 32 ->
  let r := builtin_ctz x in
  0 <= r < 32 /\ Z.testbit x r = true /\ forall j, 0 <= j < r -> Z.testbit x j = false.
Proof.
  intros Hx. unfold builtin_ctz. destruct (ctz_from_spec 31 0 x ltac:(lia)) as (A & B & C).
  set (r := ctz_from 31 0 x) in *. split_and!; [lia|lia| |exact B].
  destruct (Z_lt_ge_dec r 31) as [Hr|Hr]; [apply C; lia|]. replace r with 31 in * by lia.
  destruct (Z.testbit x 31) eqn:E; [done|]. exfalso. cut (x = 0); [lia|].
  apply Z.bits_inj'. intros j Hj. rewrite Z.bits_0. destruct (Z_lt_ge_dec j 31); [by apply B|].
  destruct (Z.eq_dec j 31) as [->|]; [done|]. apply (testbit_high 32); lia.
Qed.

(** The highest non-empty queue, with its members. *)
Definition highest (Q : list (list nat)) (i h : nat) (l : list nat) : Prop :=
  Q !! i = Some (h :: l) /\ forall j, (j < i)%nat -> Q !! j = Some [].

Lemma find_next_spec s Q zs :
  sched_inv s Q zs ->
  (Forall (eq []) Q /\ find_next_process s = idle_proc s) \/
  exists i h l, highest Q i h l /\ find_next_process s = Some h.
Proof.
  intros Hinv. destruct (si_bitmap _ _ _ Hinv) as [Hb Hbit]. destruct (si_len _ _ _ Hinv) as [_ HQ].
  unfold find_next_process. destruct (Z.eqb_spec (ready_bitmap s) 0) as [E|E].
  { left. split; [|done]. apply Forall_lookup. intros i q Hi. specialize (Hbit i q Hi).
    rewrite E, Z.bits_0 in Hbit. symmetry in Hbit. apply bool_decide_eq_false in Hbit.
    destruct q; [done|]. by destruct Hbit. }
  right. destruct (builtin_ctz_spec (ready_bitmap s) ltac:(lia)) as (Hr & Hset & Hlow).
  set (r := builtin_ctz (ready_bitmap s)) in *.
  destruct (lookup_lt_is_Some_2 Q (Z.to_nat r) ltac:(lia)) as [q Hq].
  pose proof (Hbit _ _ Hq) as Hq'. rewrite Z2Nat.id, Hset in Hq' by lia. symmetry in Hq'.
  apply bool_decide_eq_true in Hq'. destruct q as [|h l]; [done|].
  exists (Z.to_nat r), h, l. split; [split; [done|]|].
  - intros j Hj. destruct (lookup_lt_is_Some_2 Q j ltac:(lia)) as [q Hq2]. rewrite Hq2.
    pose proof (Hbit _ _ Hq2) as Hq3. rewrite Hlow in Hq3 by lia. symmetry in Hq3.
    apply bool_decide_eq_false in Hq3. destruct q; [done|]. by destruct Hq3.
  - destruct (si_queue _ _ _ Hinv _ _ Hq) as [Hd _]. by apply dseg_head in Hd.
Qed.

(** The switch to a process that was taken out of its queue. *)
Lemma dispatch_inv s Q zs (n : nat) :
  sched_inv s Q zs -> unqueued Q zs n -> (n < MAX_PROCESSES)%nat ->
  let s1 := updp n (set_state PROC_RUNNING) s in
  let s2 := with_ps (process_set_current (Some n) (ps s1)) s1 in
  let pt := page_table (pr s2 n) in
  let s3 := if pt =? 0 then s2
            else with_ps (with_vm (vmm_switch_address_space pt (vm (ps s2))) (ps s2)) s2 in
  sched_inv s3 Q zs /\ current_process (ps s3) = Some n /\
  (forall q, pr s3 q = if decide (q = n) then set_state PROC_RUNNING (pr s q) else pr s q) /\
  rsp0 (tss (cpu (ps s3))) = u64 (kernel_stack_top (pr s n)) /\
  cr3 (vm (ps s3)) = (if page_table (pr s n) =? 0 then cr3 (vm (ps s)) else page_table (pr s n)).
Proof.
  intros Hinv Hu Hn s1 s2 pt s3. pose proof (si_table _ _ _ Hinv) as Htab.
  assert (P2 : forall q, pr s2 q = if decide (q = n) then set_state PROC_RUNNING (pr s q) else pr s q)
    by (intros q; apply (pr_updp s); lia).
  assert (Ept : pt = page_table (pr s n)) by (unfold pt; by rewrite P2, decide_True).
  assert (P3 : (forall q, pr s3 q = pr s2 q) /\ processes (ps s3) = processes (ps s2) /\
    ready_queues s3 = ready_queues s /\ ready_bitmap s3 = ready_bitmap s /\
    sleep_queue s3 = sleep_queue s /\ current_process (ps s3) = Some n /\ cpu (ps s3) = cpu (ps s2) /\
    cr3 (vm (ps s3)) = if page_table (pr s n) =? 0 then cr3 (vm (ps s)) else page_table (pr s n)).
  { unfold s3. rewrite Ept. unfold vmm_switch_address_space.
    by destruct (page_table (pr s n) =? 0). }
  clearbody s3. destruct P3 as (P3 & L3 & R3 & B3 & Z3 & C3 & U3 & V3).
  split_and!; [|done|intros q; by rewrite P3| |done].
  - apply (inv_frame s); try done.
    + rewrite L3. cbn. rewrite length_alter. done.
    + intros p. rewrite P3, P2. by destruct (decide (p = n)).
    + intros p. rewrite P3, P2. destruct (decide (p = n)) as [->|]; [by left|by right].
  - rewrite U3. cbn. change (proc _ n) with (pr s1 n). unfold s1.
    by rewrite pr_updp, decide_True by lia.
Qed.

(** The next process is the head of the highest non-empty queue. *)
Lemma find_next_highest s Q zs (i h : nat) (l : list nat) :
  sched_inv s Q zs -> highest Q i h l -> find_next_process s = Some h.
Proof.
  intros Hinv [Hi Hlow].
  destruct (find_next_spec s Q zs Hinv) as [[Hall _]|(i' & h' & l' & [Hi' Hlow'] & ->)].
  - rewrite Forall_lookup in Hall. specialize (Hall i _ Hi). done.
  - destruct (Nat.lt_trichotomy i i') as [Hlt|[->|Hlt]].
    + by rewrite (Hlow' i Hlt) in Hi.
    + by simplify_eq.
    + by rewrite (Hlow i' Hlt) in Hi'.
Qed.

(** A running process that gives up the processor goes to the end of its queue. *)
Lemma requeue_spec s Q zs (c : nat) :
  sched_inv s Q zs -> (c < MAX_PROCESSES)%nat -> state (pr s c) = PROC_RUNNING ->
  exists s', scheduler_add (Some c) (updp c (set_state PROC_READY) s) = Some s' /\
    sched_inv s' (alter (fun l => l ++ [c]) (Z.to_nat (queue_of (priority (pr s c)))) Q) zs /\
    same_env s s' /\ (forall q, q <> c -> linkless (pr s' q) (pr s q)) /\
    linkless (pr s' c) (set_time_slice (37 - queue_of (priority (pr s c))) (set_state PROC_READY (pr s c))).
Proof.
  intros Hinv Hc Hrun. pose proof (si_table _ _ _ Hinv) as Htab.
  assert (Huq : unqueued Q zs c) by (apply (unqueued_state s); congruence).
  set (s0 := updp c (set_state PROC_READY) s).
  assert (P0 : forall q, pr s0 q = if decide (q = c) then set_state PROC_READY (pr s q) else pr s q)
    by (intros; apply pr_updp; lia).
  assert (I0 : sched_inv s0 Q zs).
  { apply (inv_frame s); try done; [by unfold s0; rewrite len_updp| |]; intros p; rewrite P0;
      destruct (decide (p = c)) as [->|]; auto; by right. }
  destruct (add_spec s0 Q zs c I0 Huq Hc) as (s' & Hs' & I' & E' & O' & C');
    [by rewrite P0, decide_True|].
  rewrite P0, decide_True in I', C' by done. exists s'. split_and!; try done.
  - eapply same_env_trans; [apply same_env_updp|done].
  - intros q Hq. unfold linkless. rewrite (O' q Hq). by rewrite P0, decide_False.
Qed.

(** Taking the head of a queue out. *)
Lemma remove_head_spec s Q zs (i h : nat) (l : list nat) :
  sched_inv s Q zs -> Q !! i = Some (h :: l) ->
  let s' := scheduler_remove (Some h) s in
  sched_inv s' (alter (drop 1) i Q) zs /\ unqueued (alter (drop 1) i Q) zs h /\ same_env s s' /\
  forall q, linkless (pr s' q) (pr s q).
Proof.
  intros Hinv Hi. destruct (si_ready _ _ _ Hinv i _ h Hi ltac:(by left)) as (_ & Hq & _).
  pose proof (remove_spec s Q zs h [] l Hinv) as R. cbv zeta in R. rewrite Hq, Nat2Z.id in R.
  destruct (R Hi) as (I2 & E2 & L2). cbn [app] in I2.
  change l with (drop 1 (h :: l)) in I2. rewrite <- (alter_insert_list (drop 1) Q i _ Hi) in I2.
  split_and!; try done. split; [apply (ready_not_sleeping s Q zs i (h :: l) h Hinv Hi); by left|].
  intros j q Hj Hin. destruct (decide (j = i)) as [->|Hji].
  - rewrite list_lookup_alter_eq, Hi in Hj. cbn in Hj. injection Hj as <-.
    destruct (si_queue _ _ _ Hinv _ _ Hi) as [_ [Hx _]%NoDup_cons]. done.
  - rewrite list_lookup_alter_ne in Hj by done. apply Hji.
    apply (queues_disjoint s Q zs j i q (h :: l) h); try done. by left.
Qed.

(** [schedule] when a queue is not empty: [c] may have to be queued again. *)
Lemma schedule_spec s Q zs (i h : nat) (l : list nat) (cur : ptr) :
  sched_inv s Q zs -> highest Q i h l -> current_process (ps s) = cur -> cur <> Some h ->
  (forall c, cur = Some c -> (c < MAX_PROCESSES)%nat) ->
  let requeue := match cur with
                 | Some c => if decide (state (pr s c) = PROC_RUNNING)
                             then alter (fun l => l ++ [c]) (Z.to_nat (queue_of (priority (pr s c)))) Q
                             else Q
                 | None => Q
                 end in
  exists s', schedule s = Some (s', Some (SwitchCall cur (context (pr s h)))) /\
    sched_inv s' (alter (drop 1) i requeue) zs /\ current_process (ps s') = Some h /\
    state (pr s' h) = PROC_RUNNING /\
    (forall c, cur = Some c -> state (pr s c) = PROC_RUNNING -> state (pr s' c) = PROC_READY) /\
    rsp0 (tss (cpu (ps s'))) = u64 (kernel_stack_top (pr s h)) /\
    cr3 (vm (ps s')) = (if page_table (pr s h) =? 0 then cr3 (vm (ps s)) else page_table (pr s h)).
Proof.
  intros Hinv Hh Hcur Hne Hcb requeue. unfold schedule, process_current.
  rewrite (find_next_highest s Q zs i h l Hinv Hh), Hcur, decide_False by done.
  destruct Hh as [Hi _]. destruct (si_ready _ _ _ Hinv i _ h Hi ltac:(by left)) as (Hhlt & _ & _).
  set (requeued := match cur with Some _ => _ | None => _ end).
  assert (Hre : exists s1 l', requeued = Some s1 /\ sched_inv s1 requeue zs /\ same_env s s1 /\
    requeue !! i = Some (h :: l') /\ linkless (pr s1 h) (pr s h) /\
    (forall c, cur = Some c -> state (pr s c) = PROC_RUNNING -> state (pr s1 c) = PROC_READY)).
  { unfold requeued, requeue. destruct cur as [c|]; [|exists s, l; by split_and!].
    destruct (decide (state (pr s c) = PROC_RUNNING)) as [Hrun|Hrun].
    2: { exists s, l. split_and!; try done. by intros c' [= <-]. }
    destruct (requeue_spec s Q zs c Hinv (Hcb c eq_refl) Hrun) as (s1 & -> & I1 & E1 & O1 & C1).
    assert (Hlook : exists l', alter (fun l => l ++ [c]) (Z.to_nat (queue_of (priority (pr s c)))) Q !! i
      = Some (h :: l')).
    { destruct (decide (i = Z.to_nat (queue_of (priority (pr s c))))) as [<-|Ei].
      - exists (l ++ [c]). by rewrite list_lookup_alter_eq, Hi.
      - exists l. by rewrite list_lookup_alter_ne. }
    destruct Hlook as [l' Hl']. exists s1, l'. split_and!; try done.
    - apply O1. congruence.
    - intros c' [= <-] _. exact (f_equal state C1). }
  destruct Hre as (s1 & l' & -> & I1 & E1 & Hi1 & Hlk & Hst1).
  destruct (remove_head_spec s1 requeue zs i h l' I1 Hi1) as (I2 & Hu2 & E2 & L2).
  set (s2 := scheduler_remove (Some h) s1) in *. clearbody s2.
  destruct (dispatch_inv s2 _ zs h I2 Hu2 Hhlt) as (I3 & C3 & P3 & T3 & V3).
  assert (Hlk2 : unlink (pr s2 h) = unlink (pr s h)) by (rewrite (L2 h); exact Hlk).
  eexists. split.
  { do 3 f_equal. rewrite P3, decide_True by done. f_equal. exact (f_equal context Hlk2). }
  split_and!; [exact I3|exact C3|by rewrite P3, decide_True| | |].
  - intros c Hc Hr. rewrite P3, decide_False by congruence.
    pose proof (linkless_core _ _ (L2 c)) as [-> _]. by apply Hst1.
  - rewrite T3. f_equal. exact (f_equal kernel_stack_top Hlk2).
  - rewrite V3, <- (f_equal page_table Hlk2 : page_table (pr s2 h) = page_table (pr s h)).
    by rewrite (se_vm _ _ E2), (se_vm _ _ E1).
Qed.

(** A change of the sleep queue. *)
Lemma sleep_queue_inv s s' Q zs zs' :
  sched_inv s Q zs -> length (processes (ps s')) = MAX_PROCESSES ->
  ready_queues s' = ready_queues s -> ready_bitmap s' = ready_bitmap s ->
  dll (pr s') (sleep_queue s') zs' -> NoDup zs' ->
  StronglySorted (fun p q => wake_time (pr s' p) <= wake_time (pr s' q)) zs' ->
  (forall p, p ∈ zs' -> (p < MAX_PROCESSES)%nat /\ state (pr s' p) = PROC_BLOCKED) ->
  (forall i q p, Q !! i = Some q -> p ∈ q -> next (pr s' p) = next (pr s p) /\
     prev (pr s' p) = prev (pr s p) /\ core_eq (pr s' p) (pr s p)) ->
  (forall p, (p < MAX_PROCESSES)%nat -> unqueued Q zs' p ->
     next (pr s' p) = None /\ prev (pr s' p) = None) ->
  sched_inv s' Q zs'.
Proof.
  intros [H1 H2 H3 H4 H5 _ _] Hlen Hq Hb Hd Hnd Hs Hst Hr Hf.
  split; rewrite ?Hq, ?Hb; try done.
  - intros i q Hi. destruct (H3 i q Hi) as [Hdq Hn]. split; [|done]. revert Hdq. apply dseg_ext.
    intros p Hp. destruct (Hr i q p Hi Hp) as (-> & -> & _). done.
  - intros i q p Hi Hp. destruct (Hr i q p Hi Hp) as (_ & _ & -> & -> & _). by apply (H4 i q).
Qed.

Lemma core_eq_refl (x : process) : core_eq x x.
Proof. done. Qed.

(** Taking the head off the sleep queue, as the loop of [scheduler_tick] does. *)
Lemma sleep_pop_inv s Q zs (p : nat) :
  sched_inv s Q (p :: zs) ->
  let s1 := with_sleep (next (pr s p)) s in
  let s2 := match sleep_queue s1 with Some h => updp h (set_prev None) s1 | None => s1 end in
  let s3 := updp p unlink s2 in
  sched_inv s3 Q zs /\ unqueued Q zs p /\ (forall q, linkless (pr s3 q) (pr s q)) /\
  current_tick s3 = current_tick s /\ current_process (ps s3) = current_process (ps s).
Proof.
  intros Hinv s1 s2 s3. pose proof Hinv as [Htab _ _ _ _ (Hd & Hnd & Hs & Hb) Hfree].
  destruct (Hb p ltac:(by left)) as [Hp Hpst].
  destruct (dll_links (pr s) _ [] zs p Hd) as (_ & Hnext & _).
  apply NoDup_cons in Hnd as [Hpz Hndz].
  assert (P2 : (forall q, pr s2 q = if decide (head zs = Some q) then set_prev None (pr s q) else pr s q) /\
    length (processes (ps s2)) = MAX_PROCESSES /\ ready_queues s2 = ready_queues s /\
    ready_bitmap s2 = ready_bitmap s /\ sleep_queue s2 = next (pr s p) /\
    current_tick s2 = current_tick s /\ current_process (ps s2) = current_process (ps s)).
  { unfold s2, s1. cbn [sleep_queue with_sleep]. rewrite Hnext. destruct zs as [|h zs]; [by split_and!|].
    cbn [head]. assert (Hh : (h < MAX_PROCESSES)%nat) by (apply Hb; set_solver).
    split_and!; try done; [|by rewrite len_updp]. intros q. rewrite pr_updp by (cbn; lia).
    change (pr (with_sleep _ s) q) with (pr s q).
    destruct (decide (q = h)) as [->|]; [by rewrite decide_True|by rewrite decide_False by congruence]. }
  clearbody s2. destruct P2 as (P2 & L2 & R2 & B2 & Z2 & T2 & C2).
  assert (P3 : forall q, pr s3 q = if decide (q = p) then unlink (pr s2 q) else pr s2 q)
    by (intros q; apply pr_updp; lia).
  assert (Hlk : forall q, linkless (pr s3 q) (pr s q)).
  { intros q. rewrite P3, P2. by destruct (decide (q = p)), (decide (head zs = Some q)). }
  assert (Huq : unqueued Q zs p).
  { split; [done|]. intros i q Hi Hin. apply (ready_not_sleeping s Q (p :: zs) i q p Hinv Hi Hin).
    by left. }
  split_and!; [|done|done|done|done]. apply (sleep_queue_inv s s3 Q (p :: zs)); try done.
  - unfold s3. by rewrite len_updp.
  - change (sleep_queue s3) with (sleep_queue s2). rewrite Z2.
    apply (dll_delete (pr s) (pr s3) (sleep_queue s) _ [] zs p); [by apply NoDup_cons|exact Hd| | |].
    + intros q Hq. cbn [app last] in *. rewrite (decide_False (P := None = Some q)) by done.
      rewrite P3, decide_False by (by intros ->). rewrite P2. by destruct (decide _).
    + intros q Hq. cbn [app] in Hq. rewrite P3, decide_False by (by intros ->). rewrite P2.
      destruct (dll_links (pr s) _ [] zs p Hd) as (-> & _ & _). by destruct (decide _).
    + by rewrite decide_True.
  - apply StronglySorted_inv in Hs as [Hs _].
    eapply StronglySorted_impl_in; [|exact Hs]. intros x y _ _ Hle.
    destruct (linkless_core _ _ (Hlk x)) as (_ & _ & ->).
    destruct (linkless_core _ _ (Hlk y)) as (_ & _ & ->). done.
  - intros q Hq. destruct (linkless_core _ _ (Hlk q)) as (-> & _). apply Hb. by right.
  - intros i q x Hi Hx. pose proof (ready_not_sleeping s Q (p :: zs) i q x Hinv Hi Hx) as Hxz.
    assert (Hh : head zs <> Some x) by (intros Hh; destruct zs; [done|]; cbn in Hh; set_solver).
    rewrite P3, decide_False, P2, decide_False by (done || set_solver). done.
  - intros q Hq [Uz Uq]. rewrite P3. destruct (decide (q = p)) as [->|Hne]; [done|].
    rewrite P2, decide_False.
    + apply Hfree; [done|]. split; [set_solver|done].
    + intros Hh. destruct zs; [done|]. cbn in Hh. set_solver.
Qed.

(** Putting a process at the end of its ready queue, in the lists. *)
Definition enqueue s (Q : list (list nat)) (p : nat) : list (list nat) :=
  alter (fun l => l ++ [p]) (Z.to_nat (queue_of (priority (pr s p)))) Q.

Lemma enqueue_ext s s' (ws : list nat) : forall Q,
  (forall q, q ∈ ws -> priority (pr s' q) = priority (pr s q)) ->
  foldl (enqueue s') Q ws = foldl (enqueue s) Q ws.
Proof.
  induction ws as [|w ws IH]; intros Q H; [done|]. cbn [foldl].
  rewrite IH by (intros q Hq; apply H; by right). unfold enqueue at 2.
  rewrite (H w) by (by left). done.
Qed.

(** The waking loop: the expired prefix of the sleep queue is queued in order. *)
Lemma wake_loop_spec (fuel : nat) : forall s Q zs,
  sched_inv s Q zs -> (length zs <= fuel)%nat ->
  exists s' ws rest, wake_loop fuel s = Some s' /\ zs = ws ++ rest /\
    Forall (fun p => wake_time (pr s p) <= current_tick s) ws /\
    Forall (fun p => current_tick s < wake_time (pr s p)) rest /\
    sched_inv s' (foldl (enqueue s) Q ws) rest /\
    current_process (ps s') = current_process (ps s) /\
    (forall q, q ∉ ws -> linkless (pr s' q) (pr s q)) /\
    current_tick s' = current_tick s /\ idle_proc s' = idle_proc s /\
    forall q, q ∈ ws -> state (pr s' q) = PROC_READY.
Proof.
  induction fuel as [|fuel IH]; intros s Q zs Hinv Hlen.
  { destruct zs; [|cbn in Hlen; lia]. destruct (si_sleep _ _ _ Hinv) as (Hd & _).
    apply dseg_head in Hd. cbn in Hd. exists s, [], []. cbn [wake_loop]. rewrite Hd.
    split_and!; try done. by intros q Hq%not_elem_of_nil. }
  destruct (si_sleep _ _ _ Hinv) as (Hd & Hnd & Hs & Hb). cbn [wake_loop].
  destruct zs as [|p zs].
  { apply dseg_head in Hd. cbn in Hd. exists s, [], []. rewrite Hd. split_and!; try done.
    by intros q Hq%not_elem_of_nil. }
  rewrite (dseg_head _ _ _ _ _ Hd). cbn [head].
  destruct (Z.leb_spec (wake_time (pr s p)) (current_tick s)) as [Hw|Hw].
  2: { exists s, [], (p :: zs). split_and!; try done; [|by intros q Hq%not_elem_of_nil]. constructor; [done|].
       apply StronglySorted_inv in Hs as [_ Hs]. eapply Forall_impl; [exact Hs|]. cbn. intros. lia. }
  destruct (sleep_pop_inv s Q zs p Hinv) as (I3 & U3 & L3 & T3 & C3).
  set (s3 := updp p unlink _) in *.
  assert (D3 : idle_proc s3 = idle_proc s) by (unfold s3; cbn; by destruct (next (pr s p))). clearbody s3.
  destruct (Hb p ltac:(by left)) as [Hp Hpst].
  destruct (linkless_core _ _ (L3 p)) as (Est & Eprio & _).
  destruct (add_spec s3 Q zs p I3 U3 Hp) as (s4 & -> & I4 & E4 & O4 & P4); [congruence|].
  rewrite Eprio in I4. cbn in Hlen.
  destruct (IH s4 _ zs I4 ltac:(lia)) as (s' & ws & rest & -> & -> & F1 & F2 & I' & C' & L' & T' & D' & R').
  assert (Hlk : forall q, q <> p -> linkless (pr s4 q) (pr s q)).
  { intros q Hq. unfold linkless. rewrite (O4 q Hq). apply L3. }
  apply NoDup_cons in Hnd as [Hpz _].
  assert (Hne : forall q, q ∈ ws ++ rest -> q <> p) by (intros q Hq ->; done).
  assert (Ht : current_tick s4 = current_tick s) by (rewrite (se_tick _ _ E4); done).
  exists s', (p :: ws), rest. split_and!; try done.
  - constructor; [done|]. rewrite Forall_forall in F1 |- *. intros q Hq.
    destruct (linkless_core _ _ (Hlk q ltac:(apply Hne; set_solver))) as (_ & _ & <-).
    rewrite <- Ht. by apply F1.
  - rewrite Forall_forall in F2 |- *. intros q Hq.
    destruct (linkless_core _ _ (Hlk q ltac:(apply Hne; set_solver))) as (_ & _ & <-).
    rewrite <- Ht. by apply F2.
  - cbn [foldl]. rewrite (enqueue_ext s s4 ws) in I'.
    + exact I'.
    + intros q Hq. by destruct (linkless_core _ _ (Hlk q ltac:(apply Hne; set_solver))) as (_ & -> & _).
  - rewrite C', (se_current _ _ E4). done.
  - intros q Hq. unfold linkless. rewrite (L' q) by set_solver. apply Hlk. set_solver.
  - by rewrite T'.
  - by rewrite D', (se_idle _ _ E4).
  - intros q [->|Hq]%elem_of_cons; [|by apply R']. assert (Hpw : p ∉ ws) by set_solver.
    rewrite (proj1 (linkless_core _ _ (L' p Hpw))). exact (f_equal state P4).
Qed.

Lemma sleep_position_spec s (w : Z) (l : list nat) : forall (pv : ptr) (h : nat) (fuel : nat),
  dseg (pr s) pv (Some h) (h :: l) None -> wake_time (pr s h) <= w -> (length l <= fuel)%nat ->
  exists pos l1 l2, sleep_position fuel w h s = Some pos /\ h :: l = l1 ++ pos :: l2 /\
    Forall (fun p => wake_time (pr s p) <= w) (l1 ++ [pos]) /\
    forall q, head l2 = Some q -> w < wake_time (pr s q).
Proof.
  induction l as [|x l IH]; intros pv h fuel Hd Hw Hf.
  - cbn [dseg] in Hd. destruct Hd as (_ & _ & Hn). exists h, [], [].
    split_and!; [destruct fuel; cbn; by rewrite Hn|done|by repeat constructor|done].
  - cbn [dseg] in Hd. destruct Hd as (_ & _ & Hn & Hx & Hd).
    destruct fuel as [|fuel]; cbn [length] in Hf; [lia|]. cbn [sleep_position]. rewrite Hn.
    destruct (Z.leb_spec (wake_time (pr s x)) w) as [Hxw|Hxw].
    + destruct (IH (Some h) x fuel) as (pos & l1 & l2 & -> & -> & Hall & Hhd); [|done|lia|].
      { cbn [dseg]. by split_and!. }
      exists pos, (h :: l1), l2. split_and!; try done. by constructor.
    + exists h, [], (x :: l). split_and!; try done; [by repeat constructor|]. by intros q [= <-].
Qed.

(** Linking [c] between [l1] and [l2] of the sleep queue. *)
Lemma sleep_link_inv s s' Q (c : nat) (l1 l2 : list nat) :
  let w := wake_time (pr s c) in
  sched_inv s Q (l1 ++ l2) -> unqueued Q (l1 ++ l2) c -> (c < MAX_PROCESSES)%nat ->
  state (pr s c) = PROC_BLOCKED ->
  Forall (fun p => wake_time (pr s p) <= w) l1 -> (forall q, head l2 = Some q -> w < wake_time (pr s q)) ->
  length (processes (ps s')) = MAX_PROCESSES -> ready_queues s' = ready_queues s ->
  ready_bitmap s' = ready_bitmap s ->
  sleep_queue s' = (if decide (l1 = []) then Some c else sleep_queue s) ->
  (forall q, linkless (pr s' q) (pr s q)) ->
  (forall q, q <> c ->
     next (pr s' q) = (if decide (last l1 = Some q) then Some c else next (pr s q)) /\
     prev (pr s' q) = (if decide (head l2 = Some q) then Some c else prev (pr s q))) ->
  next (pr s' c) = head l2 -> prev (pr s' c) = last l1 ->
  sched_inv s' Q (l1 ++ c :: l2) /\ Forall (fun p => w < wake_time (pr s p)) l2.
Proof.
  intros w Hinv Hu Hc Hst Hle Hgt Hlen Hrq Hbm Hsq Hlk Ho Hcn Hcp.
  destruct (si_sleep _ _ _ Hinv) as (Hd & Hnd & Hs & Hb). destruct Hu as [Huz Huq].
  assert (Hnd' : NoDup (l1 ++ c :: l2)).
  { apply NoDup_app in Hnd as (N1 & N2 & N3). apply NoDup_app. split_and!; [done| |].
    - intros x Hx. apply not_elem_of_cons. split; [intros ->; set_solver|by apply N2].
    - apply NoDup_cons. split; [set_solver|done]. }
  assert (Hall : Forall (fun p => w < wake_time (pr s p)) l2).
  { clear - Hs Hgt. induction l1 as [|x l1 IH]; cbn [app] in Hs.
    - destruct l2 as [|h l2]; [done|]. constructor; [by apply Hgt|].
      apply StronglySorted_inv in Hs as [_ Hs]. specialize (Hgt h eq_refl).
      eapply Forall_impl; [exact Hs|]. cbn. intros; lia.
    - apply StronglySorted_inv in Hs as [Hs _]. by apply IH. }
  assert (Hwk : forall q, wake_time (pr s' q) = wake_time (pr s q))
    by (intros q; by destruct (linkless_core _ _ (Hlk q)) as (_ & _ & ->)).
  split; [|done]. apply (sleep_queue_inv s s' Q (l1 ++ l2)); try done.
  - apply (dll_insert (pr s) (pr s') (sleep_queue s) _ l1 l2 c Hnd' Hd); try done;
      intros q Hq; apply Ho; by intros ->.
  - eapply (StronglySorted_impl_in (fun p q => wake_time (pr s p) <= wake_time (pr s q)));
      [intros x y _ _; by rewrite !Hwk|].
    clear - Hs Hle Hall. subst w. induction l1 as [|x l1 IH]; cbn [app] in *.
    + constructor; [done|]. eapply Forall_impl; [exact Hall|]. cbn. intros; lia.
    + apply StronglySorted_inv in Hs as [Hs Hx]. apply Forall_cons in Hle as [Hxc Hle].
      constructor; [by apply IH|]. apply Forall_app in Hx as [Hx1 Hx2].
      apply Forall_app. split; [done|]. by constructor.
  - intros p Hp. destruct (linkless_core _ _ (Hlk p)) as (-> & _).
    destruct (decide (p = c)) as [->|]; [done|]. apply Hb. set_solver.
  - intros i q p Hi Hp. pose proof (ready_not_sleeping s Q _ i q p Hinv Hi Hp) as Hpz.
    assert (p <> c) by (intros ->; by apply (Huq i q)).
    destruct (Ho p) as [-> ->]; [done|]. split_and!; [| |by apply linkless_core].
    + rewrite decide_False; [done|]. intros Hx%last_Some_elem_of. set_solver.
    + rewrite decide_False; [done|]. intros Hx. destruct l2; [done|]. cbn in Hx. set_solver.
  - intros p Hp [Uz Uq]. assert (p <> c) by set_solver. assert (Hpz : p ∉ l1 ++ l2) by set_solver.
    destruct (Ho p) as [-> ->]; [done|]. rewrite !decide_False.
    + by apply (si_free _ _ _ Hinv).
    + intros Hx. destruct l2; [done|]. cbn in Hx. set_solver.
    + intros Hx%last_Some_elem_of. set_solver.
Qed.

(** The newcomer wakes before everybody: it becomes the head. *)
Lemma sleep_insert_front s Q zs (c : nat) :
  let w := wake_time (pr s c) in
  sched_inv s Q zs -> unqueued Q zs c -> (c < MAX_PROCESSES)%nat -> state (pr s c) = PROC_BLOCKED ->
  (forall q, head zs = Some q -> w < wake_time (pr s q)) ->
  exists s', sleep_insert c s = Some s' /\ Forall (fun p => w < wake_time (pr s p)) zs /\
    sched_inv s' Q (c :: zs) /\ (forall q, linkless (pr s' q) (pr s q)) /\
    current_process (ps s') = current_process (ps s) /\ vm (ps s') = vm (ps s) /\
    idle_proc s' = idle_proc s /\ current_tick s' = current_tick s.
Proof.
  intros w Hinv Hu Hc Hst Hgt. pose proof (si_table _ _ _ Hinv) as Htab.
  destruct (si_sleep _ _ _ Hinv) as (Hd & _ & _ & Hb).
  assert (Hhd : sleep_queue s = head zs) by (rewrite (dseg_head _ _ _ _ _ Hd); by destruct zs).
  assert (Hhc : head zs <> Some c)
    by (destruct zs; [done|]; intros [= ->]; destruct Hu as [Hu _]; set_solver).
  unfold sleep_insert. fold w. replace (match sleep_queue s with None => _ | Some h => _ end) with true.
  2: { rewrite Hhd. destruct (head zs) as [h|]; [|done]. symmetry. by apply Z.ltb_lt, Hgt. }
  set (s1 := updp c (set_prev None) _).
  assert (P1 : forall q, pr s1 q = if decide (q = c) then set_prev None (set_next (head zs) (pr s q))
    else pr s q).
  { intros q. unfold s1. rewrite !pr_updp, Hhd by (rewrite ?len_updp; lia).
    by destruct (decide (q = c)). }
  change (sleep_queue s1) with (sleep_queue s).
  destruct (back_link_spec s1 (sleep_queue s) (Some c)) as (s2 & -> & E2 & R2 & B2 & P2).
  { intros h Hh. unfold s1. rewrite !len_updp, Htab. apply Hb. rewrite Hhd in Hh.
    destruct zs; [done|]. injection Hh as ->. by left. }
  rewrite Hhd in P2. destruct E2 as [Ec Ev _ _ Et Ei El]. unfold s1 in El. rewrite !len_updp in El.
  assert (Hlk : forall q, linkless (pr (with_sleep (Some c) s2) q) (pr s q)).
  { intros q. change (pr (with_sleep _ s2) q) with (pr s2 q). rewrite P2, P1.
    by repeat case_decide. }
  destruct (sleep_link_inv s (with_sleep (Some c) s2) Q c [] zs) as [I F]; try done.
  - cbn. lia.
  - intros q Hq. change (pr (with_sleep _ s2) q) with (pr s2 q). rewrite P2, P1.
    rewrite (decide_False (P := q = c)) by done. by repeat case_decide.
  - change (pr (with_sleep _ s2) c) with (pr s2 c). by rewrite P2, decide_False, P1, decide_True.
  - change (pr (with_sleep _ s2) c) with (pr s2 c). by rewrite P2, decide_False, P1, decide_True.
  - exists (with_sleep (Some c) s2). by split_and!.
Qed.

(** The newcomer goes behind [pos], the last process that wakes no later. *)
Lemma sleep_insert_behind s Q (c h pos : nat) (l1 l2 : list nat) :
  let w := wake_time (pr s c) in
  let zs := l1 ++ pos :: l2 in
  sched_inv s Q zs -> unqueued Q zs c -> (c < MAX_PROCESSES)%nat -> state (pr s c) = PROC_BLOCKED ->
  sleep_queue s = Some h -> wake_time (pr s h) <= w -> sleep_position QUEUE_FUEL w h s = Some pos ->
  Forall (fun p => wake_time (pr s p) <= w) (l1 ++ [pos]) ->
  (forall q, head l2 = Some q -> w < wake_time (pr s q)) ->
  exists s', sleep_insert c s = Some s' /\ Forall (fun p => w < wake_time (pr s p)) l2 /\
    sched_inv s' Q ((l1 ++ [pos]) ++ c :: l2) /\ (forall q, linkless (pr s' q) (pr s q)) /\
    current_process (ps s') = current_process (ps s) /\ vm (ps s') = vm (ps s) /\
    idle_proc s' = idle_proc s /\ current_tick s' = current_tick s.
Proof.
  intros w zs Hinv Hu Hc Hst Hsq Hh Hpos Hle Hgt. pose proof (si_table _ _ _ Hinv) as Htab.
  destruct (si_sleep _ _ _ Hinv) as (Hd & _ & _ & Hb).
  destruct (dll_links _ _ _ _ _ Hd) as (_ & Hpn & _).
  assert (Hpp : (pos < MAX_PROCESSES)%nat) by (apply Hb; set_solver).
  assert (Hpc : pos <> c) by (intros ->; destruct Hu as [Hu _]; set_solver).
  assert (Hl2c : head l2 <> Some c)
    by (destruct l2; [done|]; intros [= ->]; destruct Hu as [Hu _]; set_solver).
  unfold sleep_insert. fold w. rewrite Hsq, (proj2 (Z.ltb_ge _ _)), Hpos by done.
  set (s1 := updp c (set_prev (Some pos)) _).
  assert (P1 : forall q, pr s1 q = if decide (q = c) then
    set_prev (Some pos) (set_next (head l2) (pr s q)) else pr s q).
  { intros q. unfold s1. rewrite !pr_updp, Hpn by (rewrite ?len_updp; lia).
    by destruct (decide (q = c)). }
  rewrite P1, decide_False, Hpn by done.
  destruct (back_link_spec s1 (head l2) (Some c)) as (s2 & -> & E2 & R2 & B2 & P2).
  { intros y Hy. unfold s1. rewrite !len_updp, Htab. apply Hb. destruct l2; [done|].
    injection Hy as ->. set_solver. }
  destruct E2 as [Ec Ev _ Es Et Ei El]. unfold s1 in El. rewrite !len_updp in El.
  set (s3 := updp pos (set_next (Some c)) s2).
  assert (P3 : forall q, pr s3 q = if decide (q = pos) then set_next (Some c) (pr s2 q) else pr s2 q)
    by (intros q; apply pr_updp; lia).
  assert (Hlk : forall q, linkless (pr s3 q) (pr s q))
    by (intros q; rewrite P3, P2, P1; by repeat case_decide).
  subst zs. rewrite (cons_middle pos l1 l2), app_assoc in *.
  destruct (sleep_link_inv s s3 Q c (l1 ++ [pos]) l2) as [I F]; try done.
  - unfold s3. rewrite len_updp. lia.
  - rewrite decide_False by (by destruct l1). exact Es.
  - intros q Hq. rewrite P3, P2, P1, (decide_False (P := q = c)), last_snoc by done.
    split; repeat case_decide; congruence || done.
  - by rewrite P3, decide_False, P2, decide_False, P1, decide_True.
  - by rewrite P3, decide_False, P2, decide_False, P1, decide_True, last_snoc.
  - exists s3. by split_and!.
Qed.

(** The insertion of [scheduler_sleep] keeps the queue sorted; among equal wake
    times the newcomer is last. *)
Lemma sleep_insert_spec s Q zs (c : nat) :
  let w := wake_time (pr s c) in
  sched_inv s Q zs -> unqueued Q zs c -> (c < MAX_PROCESSES)%nat -> state (pr s c) = PROC_BLOCKED ->
  exists s' l1 l2, sleep_insert c s = Some s' /\ zs = l1 ++ l2 /\
    Forall (fun p => wake_time (pr s p) <= w) l1 /\ Forall (fun p => w < wake_time (pr s p)) l2 /\
    sched_inv s' Q (l1 ++ c :: l2) /\ (forall q, linkless (pr s' q) (pr s q)) /\
    current_process (ps s') = current_process (ps s) /\ vm (ps s') = vm (ps s) /\
    idle_proc s' = idle_proc s /\ current_tick s' = current_tick s.
Proof.
  intros w Hinv Hu Hc Hst. destruct (si_sleep _ _ _ Hinv) as (Hd & Hnd & _ & Hb).
  assert (Hfront : (forall q, head zs = Some q -> w < wake_time (pr s q)) \/
    exists h zs', zs = h :: zs' /\ wake_time (pr s h) <= w).
  { destruct zs as [|h zs]; [by left|]. destruct (Z.lt_ge_cases w (wake_time (pr s h))).
    - left. by intros q [= <-].
    - right. by exists h, zs. }
  destruct Hfront as [Hgt|(h & zs' & -> & Hh)].
  - destruct (sleep_insert_front s Q zs c Hinv Hu Hc Hst Hgt) as (s' & Hs' & HF & Hrest).
    by exists s', [], zs.
  - pose proof (dseg_head _ _ _ _ _ Hd) as Hhd. cbn [head] in Hhd.
    unfold dll in Hd. rewrite Hhd in Hd.
    destruct (sleep_position_spec s w zs' None h QUEUE_FUEL Hd Hh)
      as (pos & l1 & l2 & Hpos & Ez & Hle & Hgt).
    { pose proof (nodup_bound _ MAX_PROCESSES Hnd ltac:(intros q Hq; by apply Hb)) as Hlen.
      cbn [length] in Hlen. unfold QUEUE_FUEL, MAX_PROCESSES in *. lia. }
    rewrite Ez in *.
    destruct (sleep_insert_behind s Q c h pos l1 l2 Hinv Hu Hc Hst Hhd Hh Hpos Hle Hgt)
      as (s' & Hs' & HF & Hrest).
    exists s', (l1 ++ [pos]), l2. by rewrite <- app_assoc.
Qed.

(** [scheduler_remove] of a process without links empties its queue. *)
Lemma remove_unlinked s (p : nat) :
  next (pr s p) = None -> prev (pr s p) = None -> length (ready_queues s) = 32%nat ->
  let i := queue_of (priority (pr s p)) in
  scheduler_remove (Some p) s
  = set_bitmap (Z.land (ready_bitmap s) (u32 (Z.lnot (Z.shiftl 1 i)))) (updp p unlink (set_rq i None s)).
Proof.
  intros Fn Fp Hlq i. pose proof (queue_of_range (priority (pr s p))) as Hi. fold i in Hi.
  unfold scheduler_remove. fold i. rewrite Fp, Fn.
  change (pr (set_rq i None s) p) with (pr s p). rewrite Fn.
  assert (Erq : rq (updp p unlink (set_rq i None s)) i = None)
    by (unfold rq; cbn; by rewrite list_lookup_insert_eq by lia).
  by rewrite Erq.
Qed.

(** Removing a process that is in no queue, when its queue is empty. *)
Lemma remove_unqueued s Q zs (p : nat) :
  let i := queue_of (priority (pr s p)) in
  sched_inv s Q zs -> unqueued Q zs p -> (p < MAX_PROCESSES)%nat -> Q !! Z.to_nat i = Some [] ->
  let s' := scheduler_remove (Some p) s in
  sched_inv s' Q zs /\ same_env s s' /\ forall q, linkless (pr s' q) (pr s q).
Proof.
  intros i Hinv Hu Hp Hq s'. pose proof (queue_of_range (priority (pr s p))) as Hi. fold i in Hi.
  pose proof (si_table _ _ _ Hinv) as Htab. destruct (si_len _ _ _ Hinv) as [Hlq _].
  destruct (si_free _ _ _ Hinv p Hp Hu) as [Fn Fp].
  destruct (si_queue _ _ _ Hinv _ _ Hq) as [Hd _]. apply dseg_head in Hd. cbn in Hd.
  destruct (lookup_lt_is_Some_2 (ready_queues s) (Z.to_nat i) ltac:(lia)) as [x Hx].
  rewrite Hx in Hd. cbn in Hd. subst x.
  unfold s'. rewrite (remove_unlinked s p Fn Fp Hlq). fold i.
  set (s1 := updp p unlink _).
  assert (R1 : ready_queues s1 = ready_queues s) by (by apply list_insert_id).
  assert (P1 : forall q, pr s1 q = if decide (q = p) then unlink (pr s q) else pr s q)
    by (intros q; apply (pr_updp (set_rq i None s)); cbn; lia).
  assert (Hlk : forall q, linkless (pr s1 q) (pr s q)) by (intros q; rewrite P1; by destruct (decide _)).
  assert (Hb : Z.land (ready_bitmap s) (u32 (Z.lnot (Z.shiftl 1 i))) = ready_bitmap s).
  { destruct (si_bitmap _ _ _ Hinv) as [Hb Hbit]. specialize (Hbit _ _ Hq).
    pose proof (bit_clear (ready_bitmap s) (Z.to_nat i)) as Hc. rewrite Z2Nat.id in * by lia.
    apply Z.bits_inj'. intros j Hj. rewrite Hc by lia. destruct (Z.eqb_spec j i) as [->|].
    - rewrite Hbit. by rewrite andb_false_r.
    - apply andb_true_r. }
  split_and!.
  - apply (inv_frame s); try done.
    + cbn. by rewrite length_alter.
    + intros q. change (pr (set_bitmap _ s1) q) with (pr s1 q). rewrite P1.
      destruct (decide (q = p)) as [->|]; [|done]. by rewrite Fn, Fp.
    + intros q. right. apply linkless_core, Hlk.
  - split; try done. cbn. apply length_alter.
  - done.
Qed.

(** [schedule] when the current process runs and a queue is not empty. *)
Lemma schedule_from_running s Q zs (c i h : nat) (l : list nat) :
  sched_inv s Q zs -> current_process (ps s) = Some c -> (c < MAX_PROCESSES)%nat ->
  state (pr s c) = PROC_RUNNING -> highest Q i h l ->
  exists s', schedule s = Some (s', Some (SwitchCall (Some c) (context (pr s h)))) /\
    sched_inv s' (alter (drop 1) i (enqueue s Q c)) zs /\ current_process (ps s') = Some h /\
    state (pr s' h) = PROC_RUNNING /\ state (pr s' c) = PROC_READY /\
    rsp0 (tss (cpu (ps s'))) = u64 (kernel_stack_top (pr s h)) /\
    cr3 (vm (ps s')) = (if page_table (pr s h) =? 0 then cr3 (vm (ps s)) else page_table (pr s h)).
Proof.
  intros Hinv Hcur Hc Hrun Hh.
  destruct (schedule_spec s Q zs i h l (Some c) Hinv Hh Hcur) as (s' & H1 & H2 & H3 & H4 & H5 & H6 & H7).
  - intros [= ->]. destruct Hh as [Hi _].
    destruct (si_ready _ _ _ Hinv i _ h Hi ltac:(by left)) as (_ & _ & ?). congruence.
  - by intros c' [= <-].
  - rewrite decide_True in H2 by done. exists s'. split_and!; auto.
Qed.

(** Removing a process that is in no queue empties the queue of its priority: when that was
    the only non-empty one, nothing stays ready. *)
Lemma remove_unlinked_clears s Q zs (d : nat) :
  let i := queue_of (priority (pr s d)) in
  sched_inv s Q zs -> unqueued Q zs d -> (d < MAX_PROCESSES)%nat ->
  (forall (j : nat) q, Q !! j = Some q -> j <> Z.to_nat i -> q = []) ->
  let s' := scheduler_remove (Some d) s in
  length (processes (ps s')) = MAX_PROCESSES /\
  ready_bitmap s' = 0 /\ (forall j, 0 <= j < 32 -> rq s' j = None) /\
  forall c, c <> d -> pr s' c = pr s c.
Proof.
  intros i Hinv Hu Hd HQ. pose proof (queue_of_range (priority (pr s d))) as Hi. fold i in Hi.
  destruct (si_free _ _ _ Hinv d Hd Hu) as [Fn Fp]. destruct (si_len _ _ _ Hinv) as [Hlq HlQ].
  pose proof (si_table _ _ _ Hinv) as Htab.
  assert (Hlook : forall j, 0 <= j < 32 -> j <> i -> Q !! Z.to_nat j = Some []).
  { intros j Hj Hne. destruct (lookup_lt_is_Some_2 Q (Z.to_nat j) (ltac:(lia))) as [q Hq].
    rewrite Hq. f_equal. apply (HQ _ _ Hq). lia. }
  cbv zeta. rewrite (remove_unlinked s d Fn Fp Hlq). fold i. split_and!.
  - cbn. by rewrite length_alter.
  - destruct (si_bitmap _ _ _ Hinv) as [Hb Hbit]. apply Z.bits_inj'. intros j Hj. rewrite Z.bits_0.
    cbn -[Z.lnot]. rewrite <- (Z2Nat.id i), bit_clear by lia. rewrite Z2Nat.id by lia.
    destruct (Z.eqb_spec j i) as [->|Hne]; [by rewrite andb_false_r|].
    rewrite andb_true_r. destruct (Z_lt_ge_dec j 32); [|apply (testbit_high 32); lia].
    specialize (Hbit _ _ (Hlook j ltac:(lia) Hne)). by rewrite Z2Nat.id in Hbit by lia.
  - intros j Hj. unfold rq. cbn. destruct (decide (j = i)) as [->|Hne].
    + by rewrite list_lookup_insert_eq by lia.
    + rewrite list_lookup_insert_ne by lia.
      exact (dseg_head _ _ _ _ _ (proj1 (si_queue _ _ _ Hinv _ _ (Hlook j Hj Hne)))).
  - intros c Hc. change (pr (updp d unlink (set_rq i None s)) c = pr s c).
    rewrite pr_updp by (cbn; lia). by rewrite decide_False.
Qed.

(** ** Theorems *)

(** C6: [schedule] with a running current process [c] and some queue not empty
    switches to the head of the highest non-empty queue: [c] goes to the end of
    its own queue, the chosen process is taken out of its queue and made current,
    the TSS and CR3 are set for it; the invariant holds again. *)
Theorem schedule_switches_to_highest s Q zs (c i h : nat) (l : list nat) :
  sched_inv s Q zs -> current_process (ps s) = Some c -> (c < MAX_PROCESSES)%nat ->
  state (pr s c) = PROC_RUNNING -> highest Q i h l ->
  exists s', schedule s = Some (s', Some (SwitchCall (Some c) (context (pr s h)))) /\
    sched_inv s' (alter (drop 1) i (enqueue s Q c)) zs /\ current_process (ps s') = Some h /\
    state (pr s' h) = PROC_RUNNING /\ state (pr s' c) = PROC_READY /\
    rsp0 (tss (cpu (ps s'))) = u64 (kernel_stack_top (pr s h)) /\
    cr3 (vm (ps s')) = (if page_table (pr s h) =? 0 then cr3 (vm (ps s)) else page_table (pr s h)).
Proof. apply schedule_from_running. Qed.

(** What [scheduler_tick] charges to the running process. *)
Lemma charge_spec s Q zs (c : nat) :
  sched_inv s Q zs -> (c < MAX_PROCESSES)%nat ->
  let s1 := updp c (fun p => set_total_time (u64 (total_time p + 1)) p) s in
  let s2 := if 0 <? time_slice (pr s1 c)
            then updp c (fun p => set_time_slice (time_slice p - 1) p) s1 else s1 in
  sched_inv s2 Q zs /\ current_process (ps s2) = current_process (ps s) /\
  pr s2 c = set_time_slice (if 0 <? time_slice (pr s c) then time_slice (pr s c) - 1
                            else time_slice (pr s c))
              (set_total_time (u64 (total_time (pr s c) + 1)) (pr s c)).
Proof.
  intros Hinv Hc s1. pose proof (si_table _ _ _ Hinv) as Htab.
  assert (P1 : forall q, pr s1 q = if decide (q = c)
    then set_total_time (u64 (total_time (pr s q) + 1)) (pr s q) else pr s q)
    by (intros q; apply (pr_updp s c q (fun p => set_total_time (u64 (total_time p + 1)) p)); lia).
  assert (L1 : length (processes (ps s1)) = MAX_PROCESSES) by (unfold s1; by rewrite len_updp).
  assert (I1 : sched_inv s1 Q zs) by (apply (inv_frame s); try done; intros p; rewrite P1;
    destruct (decide (p = c)); try done; by right).
  rewrite P1, decide_True by done. cbn [time_slice set_total_time]. cbv zeta.
  destruct (0 <? time_slice (pr s c)); split_and!; try done.
  - apply (inv_frame s1); try done; [by rewrite len_updp| |]; intros p; rewrite pr_updp by lia;
      destruct (decide (p = c)); try done; by right.
  - rewrite pr_updp, decide_True, P1, decide_True by (done || lia). done.
  - rewrite P1, decide_True by done. by destruct (pr s c).
Qed.

(** [schedule] charges nobody. *)
Record untimed s s' : Prop := Untimed {
  un_time : forall q, total_time (pr s' q) = total_time (pr s q);
  un_tick : current_tick s' = current_tick s;
  un_idle : idle_proc s' = idle_proc s
}.

Lemma untimed_trans s1 s2 s3 : untimed s1 s2 -> untimed s2 s3 -> untimed s1 s3.
Proof. intros [A1 A2 A3] [B1 B2 B3]. split; congruence. Qed.

Lemma untimed_updp s s0 (p : nat) (f : process -> process) :
  untimed s0 s -> (forall x, total_time (f x) = total_time x) -> untimed s0 (updp p f s).
Proof.
  intros H Hf. eapply untimed_trans; [exact H|]. split; try done. intros q. unfold pr, proc, updp, upd. cbn.
  destruct (decide (q = p)) as [->|Hne]; [rewrite list_lookup_alter_eq|by rewrite list_lookup_alter_ne].
  destruct (processes (ps s) !! p); [apply Hf|done].
Qed.

Lemma untimed_ready s s0 (q : list ptr) (b : Z) : untimed s0 s -> untimed s0 (with_ready q b s).
Proof. intros [H1 H2 H3]. by split. Qed.

(** Assignments to other fields. *)
Ltac untimed :=
  repeat match goal with
  | |- untimed _ (updp _ _ _) => apply untimed_updp; [|done]
  | |- untimed _ (match ?x with Some _ => _ | None => _ end) => destruct x
  | |- untimed _ (set_bitmap _ _) => apply untimed_ready
  | |- untimed _ (set_rq _ _ _) => apply untimed_ready
  end; first [assumption | by split].

Lemma add_untimed (proc : ptr) s s' : scheduler_add proc s = Some s' -> untimed s s'.
Proof.
  unfold scheduler_add. destruct proc as [p|]; [|intros [= <-]; untimed].
  destruct (decide _); [intros [= <-]; untimed|]. cbv zeta. destruct (rq (updp p unlink s) _) as [h|].
  - destruct (find_tail _ _ _); [|done]. intros [= <-]. untimed.
  - intros [= <-]. untimed.
Qed.

Lemma remove_untimed (proc : ptr) s : untimed s (scheduler_remove proc s).
Proof. unfold scheduler_remove. destruct proc as [p|]; cbv zeta; untimed. Qed.

Lemma schedule_untimed s s' (w : option switch_call) : schedule s = Some (s', w) -> untimed s s'.
Proof.
  unfold schedule. destruct (find_next_process s) as [n|]; [|intros [= <- _]; untimed].
  destruct (decide _); [intros [= <- _]; untimed|]. cbv zeta.
  destruct (match process_current (ps s) with Some _ => _ | None => _ end) as [s1|] eqn:E; [|done].
  assert (U1 : untimed s s1).
  { destruct (process_current (ps s)) as [c|]; [|injection E as <-; untimed].
    destruct (decide _); [|injection E as <-; untimed]. eapply untimed_trans; [|by eapply add_untimed]. untimed. }
  pose proof (untimed_trans _ _ _ U1 (remove_untimed (Some n) s1)) as U2.
  set (s2 := scheduler_remove (Some n) s1) in *. clearbody s2.
  assert (U3 : untimed s (updp n (set_state PROC_RUNNING) s2)) by untimed.
  intros [= <- _]. destruct U3 as [T1 T2 T3]. by destruct (_ =? 0).
Qed.

(** [schedule] with every queue empty: the idle process gets the processor.  The running
    process is queued before; it stays queued unless the idle process has its priority. *)
Lemma schedule_to_idle s Q zs (c d : nat) :
  sched_inv s Q zs -> Forall (eq []) Q -> current_process (ps s) = Some c -> (c < MAX_PROCESSES)%nat ->
  state (pr s c) = PROC_RUNNING -> idle_proc s = Some d -> d <> c -> (d < MAX_PROCESSES)%nat -> d ∉ zs ->
  exists s', schedule s = Some (s', Some (SwitchCall (Some c) (context (pr s d)))) /\
    current_process (ps s') = Some d /\ state (pr s' d) = PROC_RUNNING /\
    (queue_of (priority (pr s c)) <> queue_of (priority (pr s d)) -> sched_inv s' (enqueue s Q c) zs).
Proof.
  intros Hinv HQ Hcur Hc Hrun Hidle Hdc Hd Hdz. rewrite Forall_forall in HQ.
  assert (Hnil : forall (j : nat) q, Q !! j = Some q -> q = [])
    by (intros j q Hj; symmetry; apply HQ; by eapply list_elem_of_lookup_2).
  assert (Hfn : find_next_process s = Some d).
  { destruct (find_next_spec s _ zs Hinv) as [[_ ->]|(i' & h' & l' & [Hi' _] & _)]; [done|]. by apply Hnil in Hi'. }
  unfold schedule, process_current. rewrite Hfn, Hcur, decide_False, decide_True by congruence.
  destruct (requeue_spec s _ zs c Hinv Hc Hrun) as (s1 & -> & I1 & _ & O1 & _). fold (enqueue s Q c) in I1.
  pose proof (O1 d Hdc) as Hlk. assert (Hctx : context (pr s1 d) = context (pr s d)) by exact (f_equal context Hlk).
  assert (Hprio : priority (pr s1 d) = priority (pr s d)) by exact (f_equal priority Hlk).
  assert (Hud : unqueued (enqueue s Q c) zs d).
  { split; [done|]. intros j q Hj Hin. unfold enqueue in Hj. destruct (decide (j = Z.to_nat (queue_of (priority (pr s c))))) as [->|Hne].
    - rewrite list_lookup_alter_eq in Hj. destruct (Q !! _) as [q0|] eqn:E0; [|done]. apply Hnil in E0 as ->.
      cbn in Hj. injection Hj as <-. set_solver.
    - rewrite list_lookup_alter_ne in Hj by done. apply Hnil in Hj as ->. set_solver. }
  destruct (si_free _ _ _ I1 d Hd Hud) as [Fn Fp]. pose proof (si_table _ _ _ I1) as Htab.
  pose proof (remove_unlinked s1 d Fn Fp (proj1 (si_len _ _ _ I1))) as E2. cbv zeta in E2.
  assert (I2 : queue_of (priority (pr s c)) <> queue_of (priority (pr s d)) ->
    sched_inv (scheduler_remove (Some d) s1) (enqueue s Q c) zs).
  { intros Hne. refine (proj1 (remove_unqueued s1 _ zs d I1 Hud Hd _)). rewrite Hprio. unfold enqueue.
    pose proof (queue_of_range (priority (pr s c))). pose proof (queue_of_range (priority (pr s d))).
    rewrite list_lookup_alter_ne by lia. destruct (queue_exists s Q zs (priority (pr s d)) Hinv) as [l Hl].
    rewrite Hl. by rewrite (Hnil _ _ Hl). }
  set (s2 := scheduler_remove (Some d) s1) in *.
  assert (P2 : pr s2 d = unlink (pr s1 d)).
  { rewrite E2. change (pr (updp d unlink (set_rq (queue_of (priority (pr s1 d))) None s1)) d = unlink (pr s1 d)).
    by rewrite pr_updp, decide_True by (done || cbn; lia). }
  assert (L2 : length (processes (ps s2)) = MAX_PROCESSES) by (rewrite E2; cbn; by rewrite length_alter).
  clearbody s2. pose proof (fun H => proj1 (dispatch_inv s2 _ zs d (I2 H) Hud Hd)) as I3. cbv zeta in I3.
  set (s3 := if _ =? 0 then _ else _) in *.
  assert (E3 : current_process (ps s3) = Some d /\ pr s3 d = set_state PROC_RUNNING (pr s2 d)).
  { assert (Hst : pr (updp d (set_state PROC_RUNNING) s2) d = set_state PROC_RUNNING (pr s2 d))
      by (by rewrite pr_updp, decide_True by (done || lia)).
    unfold s3. by destruct (_ =? 0). }
  clearbody s3. destruct E3 as [E3 E4]. exists s3. rewrite E4, P2. split_and!; try done.
  do 4 f_equal. exact Hctx.
Qed.

Lemma highest_unique (Q : list (list nat)) (i h i' h' : nat) (l l' : list nat) :
  highest Q i h l -> highest Q i' h' l' -> i' = i /\ h' = h.
Proof.
  intros [H1 L1] [H2 L2]. destruct (Nat.lt_trichotomy i i') as [Hlt|[<-|Hlt]].
  - by rewrite (L2 i Hlt) in H1.
  - by simplify_eq.
  - by rewrite (L1 i' Hlt) in H2.
Qed.

(** Every branch of [schedule] from a running process. *)
Lemma schedule_total s Q zs (c : nat) :
  sched_inv s Q zs -> current_process (ps s) = Some c -> (c < MAX_PROCESSES)%nat ->
  state (pr s c) = PROC_RUNNING -> (forall d, idle_proc s = Some d -> (d < MAX_PROCESSES)%nat /\ d ∉ zs) ->
  exists s' w, schedule s = Some (s', w) /\
    (forall i h l, highest Q i h l -> exists ctx, w = Some (SwitchCall (Some c) ctx) /\
       sched_inv s' (alter (drop 1) i (enqueue s Q c)) zs /\ current_process (ps s') = Some h) /\
    (Forall (eq []) Q ->
       (forall d, idle_proc s = Some d -> d <> c -> exists ctx, w = Some (SwitchCall (Some c) ctx) /\
          current_process (ps s') = Some d /\
          (queue_of (priority (pr s c)) <> queue_of (priority (pr s d)) -> sched_inv s' (enqueue s Q c) zs)) /\
       (idle_proc s = None \/ idle_proc s = Some c -> w = None /\ s' = s)).
Proof.
  intros Hinv Hcur Hc Hrun Hid. destruct (find_next_spec s Q zs Hinv) as [[HQ Hfn]|(i & h & l & Hh & _)].
  - assert (Hno : forall i h l, ~ highest Q i h l).
    { intros i h l [Hi _]. apply list_elem_of_lookup_2 in Hi. rewrite Forall_forall in HQ. by apply HQ in Hi. }
    destruct (decide (idle_proc s = None \/ idle_proc s = Some c)) as [Hsame|Hother].
    + exists s, None. split_and!; [|by intros i h l Hx%Hno|].
      * unfold schedule, process_current. rewrite Hfn, Hcur. destruct Hsame as [->| ->]; [done|]. by rewrite decide_True.
      * intros _. split; [|done]. intros d Hd Hne. naive_solver.
    + destruct (idle_proc s) as [d|] eqn:Hd; [|naive_solver]. assert (Hne : d <> c) by naive_solver.
      destruct (Hid d eq_refl) as [Hlt Hz].
      destruct (schedule_to_idle s Q zs c d Hinv HQ Hcur Hc Hrun Hd Hne Hlt Hz) as (s' & E & H1 & _ & H2).
      exists s', (Some (SwitchCall (Some c) (context (pr s d)))). split_and!; [done|by intros i h l Hx%Hno|].
      intros _. split; [|done]. intros d' [= <-] _. by eexists.
  - destruct (schedule_from_running s Q zs c i h l Hinv Hcur Hc Hrun Hh) as (s' & E & H1 & H2 & _).
    exists s', (Some (SwitchCall (Some c) (context (pr s h)))). split_and!; [done| |].
    + intros i' h' l' Hh'. assert (i' = i /\ h' = h) as [-> ->] by by eapply highest_unique. by eexists.
    + intros HQ. destruct Hh as [Hi _]. apply list_elem_of_lookup_2 in Hi. rewrite Forall_forall in HQ. by apply HQ in Hi.
Qed.

Lemma priority_updp s (p q : nat) (f : process -> process) :
  (forall x, priority (f x) = priority x) -> priority (pr (updp p f s) q) = priority (pr s q).
Proof.
  intros Hf. unfold pr, proc, updp, upd. cbn.
  destruct (decide (q = p)) as [->|Hne]; [rewrite list_lookup_alter_eq|by rewrite list_lookup_alter_ne].
  destruct (processes (ps s) !! p); [apply Hf|done].
Qed.

(** Charging changes neither the tick count nor the idle process. *)
Lemma tick_charges s (c : nat) :
  let s1 := updp c (fun p => set_total_time (u64 (total_time p + 1)) p) s in
  let s2 := if 0 <? time_slice (pr s1 c)
            then updp c (fun p => set_time_slice (time_slice p - 1) p) s1 else s1 in
  current_tick s2 = current_tick s /\ idle_proc s2 = idle_proc s /\
  forall q, priority (pr s2 q) = priority (pr s q).
Proof.
  cbv zeta. split; [by destruct (0 <? _)|]. split; [by destruct (0 <? _)|]. intros q.
  destruct (0 <? _); rewrite ?priority_updp by done; done.
Qed.

(** C7: [scheduler_tick] always ends: it counts the tick and wakes exactly the processes whose
    wake time has come, in order, at the ends of their queues.  A running current process is
    charged the tick; it keeps the processor while its slice lasts, and at its end the head of
    the highest non-empty queue gets the processor, or with every queue empty the idle process
    if there is another one (the queues are then well formed unless the two have the same
    priority).  Without a running process nothing else happens. *)
Theorem scheduler_tick_correct s Q zs :
  sched_inv s Q zs -> (forall c, current_process (ps s) = Some c -> (c < MAX_PROCESSES)%nat /\ 0 <= time_slice (pr s c)) ->
  (forall d, idle_proc s = Some d -> (d < MAX_PROCESSES)%nat /\ d ∉ zs) ->
  let t := u64 (current_tick s + 1) in
  exists ws rest s' w, zs = ws ++ rest /\ Forall (fun p => wake_time (pr s p) <= t) ws /\
    Forall (fun p => t < wake_time (pr s p)) rest /\
    scheduler_tick s = Some (s', w) /\ current_tick s' = t /\
    let Q1 := foldl (enqueue s) Q ws in
    (forall c, current_process (ps s) = Some c -> state (pr s c) = PROC_RUNNING ->
       total_time (pr s' c) = u64 (total_time (pr s c) + 1) /\
       (1 < time_slice (pr s c) -> w = None /\ sched_inv s' Q1 rest /\
          current_process (ps s') = Some c /\ time_slice (pr s' c) = time_slice (pr s c) - 1) /\
       (time_slice (pr s c) <= 1 ->
          (forall i h l, highest Q1 i h l -> exists ctx, w = Some (SwitchCall (Some c) ctx) /\
             sched_inv s' (alter (drop 1) i (enqueue s Q1 c)) rest /\ current_process (ps s') = Some h) /\
          (Forall (eq []) Q1 ->
             (forall d, idle_proc s = Some d -> d <> c -> exists ctx, w = Some (SwitchCall (Some c) ctx) /\
                current_process (ps s') = Some d /\
                (queue_of (priority (pr s c)) <> queue_of (priority (pr s d)) ->
                 sched_inv s' (enqueue s Q1 c) rest)) /\
             (idle_proc s = None \/ idle_proc s = Some c -> w = None /\ sched_inv s' Q1 rest /\
                current_process (ps s') = Some c)))) /\
    ((forall c, current_process (ps s) = Some c -> state (pr s c) <> PROC_RUNNING) ->
       w = None /\ sched_inv s' Q1 rest /\ current_process (ps s') = current_process (ps s)).
Proof.
  intros Hinv Hcb Hid t. unfold scheduler_tick. fold t. set (s0 := Sched _ _ _ _ _ t _ _).
  assert (I0 : sched_inv s0 Q zs) by (apply (inv_frame s); try done;
    [exact (si_table _ _ _ Hinv)|intros p; by right]).
  assert (Hfuel : (length zs <= QUEUE_FUEL)%nat).
  { destruct (si_sleep _ _ _ Hinv) as (_ & Hnd & _ & Hb).
    apply (nodup_bound zs MAX_PROCESSES Hnd). intros p Hp. by apply Hb. }
  destruct (wake_loop_spec QUEUE_FUEL s0 Q zs I0 Hfuel)
    as (s1 & ws & rest & -> & Hzs & F1 & F2 & I1 & C1 & L1 & T1 & D1 & R1).
  change (foldl (enqueue s0) Q ws) with (foldl (enqueue s) Q ws) in I1. change (idle_proc s0) with (idle_proc s) in D1.
  change (current_process (ps s0)) with (current_process (ps s)) in C1. change (current_tick s0) with t in T1.
  exists ws, rest. set (Q1 := foldl (enqueue s) Q ws) in *. unfold process_current. rewrite C1.
  destruct (current_process (ps s)) as [c|] eqn:Hcur; [|exists s1, None; by split_and!].
  destruct (Hcb c eq_refl) as [Hc Hts0]. destruct (decide (state (pr s1 c) = PROC_RUNNING)) as [Hst1|Hst1].
  2: { exists s1, None. split_and!; try done. intros c' [= <-] Hrun. destruct Hst1. rewrite <- Hrun.
       refine (proj1 (linkless_core _ _ (L1 c _))). intros Hin. destruct (unqueued_state s Q zs c Hinv) as [Hz _]; [congruence..|].
       apply Hz. rewrite Hzs. set_solver. }
  assert (Hlc : linkless (pr s1 c) (pr s c)).
  { apply L1. intros Hin. by rewrite (R1 c Hin) in Hst1. }
  assert (Hrun : state (pr s c) = PROC_RUNNING) by (rewrite <- Hst1; symmetry; exact (f_equal state Hlc)).
  destruct (charge_spec s1 Q1 rest c I1 Hc) as (I3 & C3 & Hc3). rewrite C1 in C3.
  pose proof (tick_charges s1 c) as U3. cbv zeta in U3.
  rewrite (f_equal time_slice Hlc : time_slice (pr s1 c) = time_slice (pr s c)) in Hc3.
  rewrite (f_equal total_time Hlc : total_time (pr s1 c) = total_time (pr s c)) in Hc3.
  set (s3 := if 0 <? _ then _ else _) in *. clearbody s3. destruct U3 as (T3 & D3 & PR3). rewrite T1 in T3. rewrite D1 in D3.
  assert (Hpc : priority (pr s3 c) = priority (pr s c)) by (rewrite Hc3; exact (f_equal priority Hlc)).
  assert (Hpd : forall d, idle_proc s = Some d -> priority (pr s3 d) = priority (pr s d)).
  { intros d Hd. rewrite PR3. apply (linkless_core _ _ (L1 d ltac:(destruct (Hid d Hd); set_solver))). }
  assert (Hst3 : state (pr s3 c) = PROC_RUNNING) by by rewrite Hc3.
  assert (Hen : enqueue s3 Q1 c = enqueue s Q1 c) by (unfold enqueue; by rewrite Hpc).
  assert (Htt : total_time (pr s3 c) = u64 (total_time (pr s c) + 1)) by by rewrite Hc3.
  assert (Hts3 : time_slice (pr s3 c) = if 0 <? time_slice (pr s c) then time_slice (pr s c) - 1 else time_slice (pr s c))
    by by rewrite Hc3.
  destruct (Z.eqb_spec (time_slice (pr s3 c)) 0) as [Hz|Hz].
  - destruct (schedule_total s3 Q1 rest c I3 C3 Hc Hst3) as (s' & w & E & Hhigh & Hempty).
    { rewrite D3. intros d Hd. destruct (Hid d Hd). split; [done|]. set_solver. }
    rewrite Hen, D3 in *. destruct (schedule_untimed _ _ _ E) as [U1 U2 _]. exists s', w.
    split_and!; try done; [congruence| |naive_solver]. intros c' [= <-] _. split; [by rewrite U1|]. split.
    { intros Hlt. rewrite (proj2 (Z.ltb_lt 0 _)) in Hts3 by lia. lia. }
    intros _. split; [done|]. intros HQ. destruct (Hempty HQ) as [H1 H2]. split.
    + intros d Hd Hne. destruct (H1 d Hd Hne) as (ctx & -> & H3 & H4). exists ctx. split_and!; try done.
      intros Hq. apply H4. by rewrite Hpc, (Hpd d Hd).
    + intros H3. destruct (H2 H3) as [-> ->]. by split_and!.
  - exists s3, None. split_and!; try done; []. intros c' [= <-] _. split; [done|]. split.
    + intros Hlt. rewrite (proj2 (Z.ltb_lt 0 _)) in Hts3 by lia. by split_and!.
    + intros Hle. destruct (Z.ltb_spec 0 (time_slice (pr s c))); lia.
Qed.

(** [scheduler_sleep] of the running process when no other process of its
    priority is ready: it is put in the sleep queue behind every process that
    wakes no later and before every one that wakes later, and the highest ready
    process gets the processor; the invariant holds again. *)
Theorem scheduler_sleep_correct s Q zs (c i h : nat) (l : list nat) (ticks : Z) :
  sched_inv s Q zs -> current_process (ps s) = Some c -> (c < MAX_PROCESSES)%nat ->
  state (pr s c) = PROC_RUNNING ->
  Q !! Z.to_nat (queue_of (priority (pr s c))) = Some [] -> highest Q i h l ->
  let w := u64 (current_tick s + ticks) in
  exists s' l1 l2, scheduler_sleep ticks s = Some (s', Some (SwitchCall (Some c) (context (pr s h)))) /\
    zs = l1 ++ l2 /\ Forall (fun p => wake_time (pr s p) <= w) l1 /\
    Forall (fun p => w < wake_time (pr s p)) l2 /\
    sched_inv s' (alter (drop 1) i Q) (l1 ++ c :: l2) /\ current_process (ps s') = Some h.
Proof.
  intros Hinv Hcur Hc Hrun Hempty Hh w. pose proof (si_table _ _ _ Hinv) as Htab.
  assert (Huq : unqueued Q zs c) by (apply (unqueued_state s); congruence).
  unfold scheduler_sleep, process_current. rewrite Hcur. fold w.
  set (s1 := updp c (set_state PROC_BLOCKED) _).
  assert (P1 : forall q, pr s1 q = if decide (q = c) then set_state PROC_BLOCKED (set_wake_time w (pr s q))
    else pr s q).
  { intros q. unfold s1. rewrite !pr_updp by (rewrite ?len_updp; lia). by destruct (decide (q = c)). }
  assert (I1 : sched_inv s1 Q zs).
  { apply (inv_frame s); try done; [unfold s1; by rewrite !len_updp| |]; intros p; rewrite P1;
      destruct (decide (p = c)) as [->|]; try done; [by left|by right]. }
  assert (Hc1 : pr s1 c = set_state PROC_BLOCKED (set_wake_time w (pr s c))) by by rewrite P1, decide_True.
  destruct (remove_unqueued s1 Q zs c I1 Huq Hc) as (I2 & E2 & L2); [by rewrite Hc1|].
  set (s2 := scheduler_remove (Some c) s1) in *. clearbody s2.
  assert (Hw2 : wake_time (pr s2 c) = w).
  { destruct (linkless_core _ _ (L2 c)) as (_ & _ & ->). by rewrite Hc1. }
  destruct (sleep_insert_spec s2 Q zs c I2 Huq Hc) as (s3 & l1 & l2 & -> & Hzs & F1 & F2 & I3 & L3 & C3 & _).
  { destruct (linkless_core _ _ (L2 c)) as (-> & _). by rewrite Hc1. }
  rewrite Hw2 in F1, F2.
  assert (Hcur3 : current_process (ps s3) = Some c) by (rewrite C3, (se_current _ _ E2); exact Hcur).
  assert (Hwz : forall q, q ∈ zs -> wake_time (pr s2 q) = wake_time (pr s q)).
  { intros q Hq. destruct (linkless_core _ _ (L2 q)) as (_ & _ & ->).
    rewrite P1, decide_False; [done|]. intros ->. by destruct Huq. }
  assert (Hst3 : state (pr s3 c) = PROC_BLOCKED).
  { destruct (linkless_core _ _ (L3 c)) as (-> & _). destruct (linkless_core _ _ (L2 c)) as (-> & _).
    by rewrite Hc1. }
  assert (Hhc : h <> c).
  { intros ->. destruct Hh as [Hi _]. destruct Huq as [_ Huq]. apply (Huq i _ Hi). by left. }
  destruct (schedule_spec s3 Q (l1 ++ c :: l2) i h l (Some c) I3 Hh Hcur3) as (s' & H1 & H2 & H3 & _);
    [congruence|by intros c' [= <-]|].
  rewrite decide_False in H2 by congruence.
  exists s', l1, l2. rewrite H1. split_and!; try done.
  - do 3 f_equal. rewrite (f_equal context (L3 h) : context (pr s3 h) = context (pr s2 h)).
    rewrite (f_equal context (L2 h) : context (pr s2 h) = context (pr s1 h)).
    by rewrite P1, decide_False.
  - rewrite Forall_forall in F1 |- *. intros q Hq. rewrite <- Hwz by set_solver. by apply F1.
  - rewrite Forall_forall in F2 |- *. intros q Hq. rewrite <- Hwz by set_solver. by apply F2.
Qed.

(** [scheduler_unblock] of a blocked process that does not sleep puts it at
    the end of the queue of its priority, ready, with a fresh time slice; every
    other control block is as before up to its links. *)
Theorem scheduler_unblock_correct s Q zs (p : nat) :
  sched_inv s Q zs -> (p < MAX_PROCESSES)%nat -> state (pr s p) = PROC_BLOCKED -> p ∉ zs ->
  exists s', scheduler_unblock (Some p) s = Some s' /\ sched_inv s' (enqueue s Q p) zs /\
    state (pr s' p) = PROC_READY /\
    time_slice (pr s' p) = 37 - queue_of (priority (pr s p)) /\
    forall q, q <> p -> linkless (pr s' q) (pr s q).
Proof.
  intros Hinv Hp Hst Hz. unfold scheduler_unblock. rewrite decide_True by done.
  assert (Huq : unqueued Q zs p).
  { split; [done|]. intros i q Hi Hin.
    destruct (si_ready _ _ _ Hinv i q p Hi Hin) as (_ & _ & ?). congruence. }
  destruct (add_spec s Q zs p Hinv Huq Hp) as (s' & H1 & H2 & _ & H4 & H5); [congruence|].
  exists s'. split_and!; try done.
  - exact (f_equal state H5).
  - exact (f_equal time_slice H5).
Qed.

(** C25: defect: blocking the running process (or putting it to sleep) calls
    [scheduler_remove] on a process that is in no queue, which empties the queue
    of its priority: every process that was ready there stays marked ready but
    no ready queue leads to it any more. *)
Theorem scheduler_remove_running_drops_queue s Q zs (c : nat) (l : list nat) :
  sched_inv s Q zs -> (c < MAX_PROCESSES)%nat -> state (pr s c) = PROC_RUNNING ->
  let i := queue_of (priority (pr s c)) in
  Q !! Z.to_nat i = Some l ->
  let s' := scheduler_remove (Some c) (updp c (set_state PROC_BLOCKED) s) in
  rq s' i = None /\ Z.testbit (ready_bitmap s') i = false /\
  forall p, p ∈ l -> state (pr s' p) = PROC_READY /\
    forall (j : nat) q, Q !! j = Some q -> j <> Z.to_nat i ->
      dll (pr s') (rq s' (Z.of_nat j)) q /\ p ∉ q.
Proof.
  intros Hinv Hc Hrun i Hl s'. pose proof (queue_of_range (priority (pr s c))) as Hi. fold i in Hi.
  pose proof (si_table _ _ _ Hinv) as Htab. destruct (si_len _ _ _ Hinv) as [Hlq _].
  assert (Huq : unqueued Q zs c) by (apply (unqueued_state s); congruence).
  destruct (si_free _ _ _ Hinv c Hc Huq) as [Fn Fp].
  set (s1 := updp c (set_state PROC_BLOCKED) s) in *.
  assert (Hc1 : pr s1 c = set_state PROC_BLOCKED (pr s c))
    by (unfold s1; by rewrite pr_updp, decide_True by lia).
  assert (Es' : s' = set_bitmap (Z.land (ready_bitmap s) (u32 (Z.lnot (Z.shiftl 1 i))))
    (updp c unlink (set_rq i None s1))).
  { unfold s'. rewrite remove_unlinked; [by rewrite Hc1|by rewrite Hc1|by rewrite Hc1|exact Hlq]. }
  assert (Hpr : forall q, q <> c -> pr s' q = pr s q).
  { intros q Hq. rewrite Es'. change (pr (set_bitmap _ ?x) q) with (pr x q).
    rewrite pr_updp by (cbn; rewrite length_alter; lia). rewrite decide_False by done.
    change (pr (set_rq i None s1) q) with (pr s1 q). unfold s1.
    by rewrite pr_updp, decide_False by lia. }
  split_and!.
  - rewrite Es'. unfold rq. cbn. by rewrite list_lookup_insert_eq by lia.
  - rewrite Es'. cbn -[Z.lnot]. pose proof (bit_clear (ready_bitmap s) (Z.to_nat i) i) as Hb.
    rewrite Z2Nat.id in Hb by lia. rewrite Hb, Z.eqb_refl; [by rewrite andb_false_r| |lia|lia].
    apply (si_bitmap _ _ _ Hinv).
  - intros p Hp. destruct Huq as [_ Huq].
    assert (p <> c) by (intros ->; by apply (Huq _ _ Hl)). rewrite Hpr by done.
    split; [by apply (si_ready _ _ _ Hinv _ _ _ Hl)|]. intros j q Hj Hne. split.
    + destruct (si_queue _ _ _ Hinv _ _ Hj) as [Hd _]. unfold rq. rewrite Nat2Z.id.
      replace (ready_queues s' !! j) with (ready_queues s !! j)
        by (rewrite Es'; cbn; by rewrite list_lookup_insert_ne).
      revert Hd. apply dseg_ext. intros x Hx. rewrite Hpr; [done|]. intros ->. by apply (Huq j q).
    + intros Hin. apply Hne. by eapply (queues_disjoint s Q zs j (Z.to_nat i) q l p).
Qed.

(** C26: defect: when no queue holds a process, [schedule] takes the processor
    from a running process of the lowest priority for the idle process, and
    [scheduler_remove] of the idle process then empties the queue the running
    process was just put in: it is ready, in no queue, and never runs again. *)
Theorem schedule_idle_loses_process s zs (c d : nat) :
  sched_inv s (replicate 32 []) zs -> current_process (ps s) = Some c -> (c < MAX_PROCESSES)%nat ->
  state (pr s c) = PROC_RUNNING -> queue_of (priority (pr s c)) = 31 ->
  idle_proc s = Some d -> d <> c -> (d < MAX_PROCESSES)%nat -> d ∉ zs -> priority (pr s d) = 31 ->
  exists s' ctx, schedule s = Some (s', Some (SwitchCall (Some c) ctx)) /\
    current_process (ps s') = Some d /\ state (pr s' c) = PROC_READY /\
    ready_bitmap s' = 0 /\ forall j, 0 <= j < 32 -> rq s' j = None.
Proof.
  intros Hinv Hcur Hc Hrun Hqc Hidle Hdc Hd Hdz Hpd.
  assert (HQ : forall (j : nat) q, replicate 32 ([] : list nat) !! j = Some q -> q = [])
    by (intros j q [-> _]%lookup_replicate; done).
  assert (Hfn : find_next_process s = Some d).
  { destruct (find_next_spec s _ zs Hinv) as [[_ ->]|(i' & h' & l' & [Hi' _] & _)]; [done|].
    by apply HQ in Hi'. }
  unfold schedule, process_current. rewrite Hfn, Hcur, decide_False, decide_True by congruence.
  destruct (requeue_spec s _ zs c Hinv Hc Hrun) as (s1 & -> & I1 & _ & O1 & C1).
  assert (Hst1 : state (pr s1 c) = PROC_READY) by exact (f_equal state C1).
  rewrite Hqc in I1. change (Z.to_nat 31) with 31%nat in I1.
  assert (HQ1 : forall (j : nat) q, alter (fun l => l ++ [c]) 31%nat (replicate 32 []) !! j = Some q ->
    j <> 31%nat -> q = []) by (intros j q Hj Hne; rewrite list_lookup_alter_ne in Hj by done; by apply (HQ j)).
  assert (Hpd1 : queue_of (priority (pr s1 d)) = 31)
    by (by rewrite (f_equal priority (O1 d Hdc) : priority (pr s1 d) = priority (pr s d)), Hpd).
  assert (Hud : unqueued (alter (fun l => l ++ [c]) 31%nat (replicate 32 [])) zs d).
  { split; [done|]. intros j q Hj Hin. destruct (decide (j = 31%nat)) as [->|Hne].
    - cbn in Hj. injection Hj as <-. set_solver.
    - apply HQ1 in Hj as ->; [|done]. set_solver. }
  destruct (remove_unlinked_clears s1 _ zs d I1 Hud Hd) as (L2 & Hbm & Hrq & Hpr);
    [rewrite Hpd1; exact HQ1|].
  set (s2 := scheduler_remove (Some d) s1) in *.
  clearbody s2. set (s3 := if _ =? 0 then _ else _).
  assert (E3 : current_process (ps s3) = Some d /\ state (pr s3 c) = PROC_READY /\
    ready_bitmap s3 = ready_bitmap s2 /\ ready_queues s3 = ready_queues s2).
  { assert (Hst : state (pr (updp d (set_state PROC_RUNNING) s2) c) = PROC_READY)
      by (by rewrite pr_updp, decide_False, Hpr by congruence).
    unfold s3. by destruct (_ =? 0). }
  clearbody s3. destruct E3 as (E3 & E4 & E5 & E6).
  eexists s3, _. split; [reflexivity|]. split_and!; try done; [congruence|].
  intros j Hj. unfold rq. rewrite E6. by apply Hrq.
Qed.

(** ** Initialisation and new processes *)

Section Init.
  Context {RL : RunAllocatorLaws S}.

(** A process created in an unused slot is in no queue. *)
Lemma create_inv s Q zs (p : nat) (ps' : pstate S) (nm : list Z) (entry prio : Z) :
  sched_inv s Q zs -> pa_ok (frames (vm (ps s))) -> 0 <= entry < 2 ^ 64 ->
  process_create_kernel_thread nm entry prio (ps s) = (Some p, ps') ->
  sched_inv (with_ps ps' s) Q zs /\ unqueued Q zs p /\ (p < MAX_PROCESSES)%nat /\
  state (proc ps' p) = PROC_READY /\ priority (proc ps' p) = prio /\ pa_ok (frames (vm ps')) /\
  current_process ps' = current_process (ps s) /\ forall q, q <> p -> proc ps' q = proc (ps s) q.
Proof.
  intros Hinv Hpa He Hc. pose proof (create_cases (ps s) nm entry prio Hpa He) as H. rewrite Hc in H.
  destruct H as [(Hlt & Hun & _) _ Hst Hpr [Hn Hp] _ Hoth (Hlen & Hcur & _) _ _ _ _ Hok].
  assert (Huq : unqueued Q zs p) by (apply (unqueued_state s); unfold pr; congruence).
  pose proof (si_table _ _ _ Hinv) as Htab. rewrite Htab in *.
  split_and!; try done. apply (inv_frame s); try done.
  - intros q. destruct (decide (q = p)) as [->|Hne].
    + destruct (si_free _ _ _ Hinv p Hlt Huq) as [-> ->]. done.
    + unfold pr. cbn. by rewrite Hoth.
  - intros q. destruct (decide (q = p)) as [->|Hne]; [by left|right]. unfold pr. cbn. by rewrite Hoth.
Qed.

(** Zeroed tables satisfy the invariant. *)
Lemma zeroed_inv s :
  processes (ps s) = replicate 64 proc_zero -> length (ready_queues s) = 32%nat ->
  (forall i, default None (ready_queues s !! i) = None) -> ready_bitmap s = 0 ->
  sleep_queue s = None -> sched_inv s (replicate 32 []) [].
Proof.
  intros Hproc Hlq Hrq Hbm Hsq.
  assert (Hpr : forall p, pr s p = proc_zero).
  { intros p. unfold pr, proc. rewrite Hproc. destruct (_ !! p) as [x|] eqn:E; [|done].
    by apply lookup_replicate in E as [-> _]. }
  assert (HQ : forall (j : nat) q, replicate 32 ([] : list nat) !! j = Some q -> q = [])
    by (intros j q [-> _]%lookup_replicate; done).
  split.
  - by rewrite Hproc.
  - done.
  - intros i q Hi. apply HQ in Hi as ->. split; [apply Hrq|by constructor].
  - intros i q p Hi. apply HQ in Hi as ->. set_solver.
  - rewrite Hbm. split; [lia|]. intros i q Hi. apply HQ in Hi as ->.
    rewrite Z.bits_0. symmetry. apply bool_decide_eq_false. tauto.
  - rewrite Hsq. split_and!; [done|by constructor|by constructor|set_solver].
  - intros p _ _. by rewrite Hpr.
Qed.

(** [scheduler_init] on the zeroed tables of a fresh kernel: empty queues,
    the invariant, and an idle process in slot 0 (unless no stack can be
    allocated) that is ready but in no queue. *)
Theorem scheduler_init_correct s (idle_entry : Z) :
  processes (ps s) = replicate 64 proc_zero -> length (ready_queues s) = 32%nat ->
  pa_ok (frames (vm (ps s))) -> 0 <= idle_entry < 2 ^ 64 ->
  let s' := scheduler_init idle_entry s in
  sched_inv s' (replicate 32 []) [] /\ current_process (ps s') = None /\ ready_bitmap s' = 0 /\
  match idle_proc s' with
  | Some d => d = 0%nat /\ state (pr s' d) = PROC_READY /\ priority (pr s' d) = SCHED_PRIORITY_IDLE
  | None => ra_alloc STACK_PAGES (frames (vm (ps s))) = (0, frames (vm (ps s)))
  end.
Proof.
  intros Htab Hlq Hpa He s'. unfold s', scheduler_init. clear s'.
  set (s0 := with_ps _ _).
  assert (Hproc : processes (ps s0) = replicate 64 proc_zero)
    by (cbn [s0 with_ps ps process_init processes]; rewrite Htab; by rewrite fmap_replicate).
  assert (Hpr : forall p, pr s0 p = proc_zero).
  { intros p. unfold pr, proc. rewrite Hproc. destruct (_ !! p) as [x|] eqn:E; [|done].
    by apply lookup_replicate in E as [-> _]. }
  assert (I0 : sched_inv s0 (replicate 32 []) []).
  { apply zeroed_inv; try done; cbn; [by rewrite length_fmap|]. intros i. rewrite list_lookup_fmap.
    by destruct (ready_queues s !! i). }
  destruct (process_create_kernel_thread _ _ _ _) as [o ps'] eqn:Ec.
  destruct o as [d|].
  - destruct (create_inv s0 _ [] d ps' _ idle_entry SCHED_PRIORITY_IDLE I0 Hpa He Ec)
      as (I1 & U1 & Hd & Hst & Hprio & _ & Hcur & _).
    pose proof (create_cases (ps s0) [105; 100; 108; 101] idle_entry SCHED_PRIORITY_IDLE Hpa He) as Hcr.
    rewrite Ec in Hcr. destruct (cr_slot _ _ _ _ _ Hcr) as (_ & _ & Hlow).
    assert (Hd0 : d = 0%nat).
    { destruct d as [|d]; [done|]. exfalso. apply (Hlow 0%nat); [lia|].
      change (proc (ps s0) 0) with (pr s0 0). by rewrite Hpr. }
    set (s1 := Sched ps' _ _ _ _ _ _ _).
    assert (P1 : forall q, pr (updp d (set_state PROC_READY) s1) q =
      if decide (q = d) then set_state PROC_READY (proc ps' q) else proc ps' q).
    { intros q. apply (pr_updp s1). pose proof (si_table _ _ _ I1) as Hl. cbn in Hl |- *. lia. }
    split; [|split; [exact Hcur|split; [done|split; [done|]]]].
    + apply (inv_frame (with_ps ps' s0)); try done.
      * rewrite len_updp. exact (si_table _ _ _ I1).
      * intros q. rewrite P1. by destruct (decide (q = d)).
      * intros q. rewrite P1. destruct (decide (q = d)) as [->|]; [by left|by right].
    + by rewrite P1, decide_True.
  - pose proof (create_cases (ps s0) [105; 100; 108; 101] idle_entry SCHED_PRIORITY_IDLE Hpa He) as Hcr.
    rewrite Ec in Hcr. destruct Hcr as [-> [Hfull|Hoom]].
    + exfalso. apply (Hfull 0%nat); [rewrite Hproc; cbn; lia|].
      change (proc (ps s0) 0) with (pr s0 0). by rewrite Hpr.
    + split_and!; try done. destruct I0. by split.
Qed.

End Init.
End Specs.

(** ** Concrete instances

    A kernel with the idle process in slot 0 and two threads that were added;
    the first one runs. *)

Definition demo_zero : sched pages := Sched demo_ps (replicate 32 None) 0 None 0 0 None false.
Definition demo_spawn (prio : Z) (s : sched pages) : sched pages :=
  with_ps (process_create_kernel_thread demo_name 0x7000 prio (ps s)).2 s.
Definition demo_add (p : nat) (s : sched pages) : sched pages := default s (scheduler_add (Some p) s).
Definition demo_with_idle (d : ptr) (s : sched pages) : sched pages :=
  Sched (ps s) (ready_queues s) (ready_bitmap s) (sleep_queue s) (scheduler_running s) (current_tick s)
    d (tick_callback s).
Definition demo_idle : sched pages := demo_with_idle (Some 0%nat) (demo_spawn 31 demo_zero).
Definition demo_run (s : sched pages) : sched pages :=
  match scheduler_start s with Some (s', _) => s' | None => s end.

#[local] Opaque scheduler_add scheduler_remove schedule scheduler_tick scheduler_sleep scheduler_unblock.

Lemma demo_spawn_inv (prio : Z) (s : sched pages) (Q : list (list nat)) (zs : list nat) (p : nat) :
  sched_inv s Q zs -> pa_ok (frames (vm (ps s))) ->
  (process_create_kernel_thread demo_name 0x7000 prio (ps s)).1 = Some p ->
  sched_inv (demo_spawn prio s) Q zs /\ pa_ok (frames (vm (ps (demo_spawn prio s)))).
Proof.
  intros Hinv Hpa Hp. unfold demo_spawn.
  destruct (process_create_kernel_thread _ _ _ _) as [o ps'] eqn:E. cbn in Hp. subst o.
  destruct (create_inv s Q zs p ps' demo_name 0x7000 prio Hinv Hpa ltac:(lia) E)
    as (H1 & _ & _ & _ & _ & H2 & _). by split.
Qed.

Lemma demo_add_inv (s : sched pages) (Q : list (list nat)) (zs : list nat) (p : nat) :
  sched_inv s Q zs -> unqueued Q zs p -> (p < MAX_PROCESSES)%nat -> state (pr s p) <> PROC_UNUSED ->
  sched_inv (demo_add p s) (enqueue s Q p) zs.
Proof.
  intros Hinv Hu Hp Hst. destruct (add_spec s Q zs p Hinv Hu Hp Hst) as (s' & E & H & _).
  unfold demo_add. rewrite E. exact H.
Qed.

Lemma demo_run_inv (s : sched pages) (Q : list (list nat)) (zs : list nat) (i h : nat) (l : list nat) :
  sched_inv s Q zs -> current_process (ps s) = None -> highest Q i h l ->
  sched_inv (demo_run s) (alter (drop 1) i Q) zs /\ current_process (ps (demo_run s)) = Some h /\
  state (pr (demo_run s) h) = PROC_RUNNING.
Proof.
  intros Hinv Hcur Hh. unfold demo_run, scheduler_start. set (s0 := Sched _ _ _ _ 1 _ _ _).
  assert (I0 : sched_inv s0 Q zs)
    by (apply (inv_frame s); try done; [exact (si_table _ _ _ Hinv)|intros p; by right]).
  destruct (schedule_spec s0 Q zs i h l None I0 Hh Hcur) as (s' & -> & H1 & H2 & H3 & _);
    [done|done|]. by split_and!.
Qed.

Lemma demo_with_idle_inv (d : ptr) (s : sched pages) (Q : list (list nat)) (zs : list nat) :
  sched_inv s Q zs -> pa_ok (frames (vm (ps s))) ->
  sched_inv (demo_with_idle d s) Q zs /\ pa_ok (frames (vm (ps (demo_with_idle d s)))).
Proof. intros [] H. split; [by split|exact H]. Qed.

Lemma demo_idle_inv : sched_inv demo_idle (replicate 32 []) [] /\ pa_ok (frames (vm (ps demo_idle))).
Proof.
  assert (H0 : sched_inv demo_zero (replicate 32 []) []).
  { apply zeroed_inv; try reflexivity. intros i. change (ready_queues demo_zero) with (replicate 32 (None : ptr)).
    destruct (_ !! i) as [x|] eqn:E; [by apply lookup_replicate in E as [-> _]|done]. }
  destruct (demo_spawn_inv 31 demo_zero _ _ 0 H0 demo_ps_frames_ok) as [H1 H2];
    [vm_compute; reflexivity|].
  unfold demo_idle. exact (demo_with_idle_inv (Some 0%nat) _ _ _ H1 H2).
Qed.

(** The queues of a list of (queue, slots) pairs. *)
Definition demo_queues (qs : list (nat * list nat)) : list (list nat) :=
  foldr (fun '(i, q) Q => <[i := q]> Q) (replicate 32 []) qs.

Definition demo_two (p1 p2 : Z) : sched pages :=
  demo_add 2 (demo_add 1 (demo_spawn p2 (demo_spawn p1 demo_idle))).

Lemma unqueued_empty (p : nat) : unqueued (replicate 32 []) [] p.
Proof.
  split; [apply not_elem_of_nil|]. intros i q [-> _]%lookup_replicate. apply not_elem_of_nil.
Qed.

Lemma unqueued_one (i p q : nat) :
  p <> q -> unqueued (alter (fun l => l ++ [q]) i (replicate 32 [])) [] p.
Proof.
  intros Hne. split; [apply not_elem_of_nil|]. intros j l Hj. destruct (decide (j = i)) as [->|Hji].
  - rewrite list_lookup_alter_eq in Hj. destruct (replicate 32 [] !! _) as [x|] eqn:E; [|done].
    apply lookup_replicate in E as [-> _]. cbn in Hj. injection Hj as <-.
    by intros ->%list_elem_of_singleton.
  - rewrite list_lookup_alter_ne in Hj by done. apply lookup_replicate in Hj as [-> _].
    apply not_elem_of_nil.
Qed.

Lemma demo_two_inv (p1 p2 : Z) (Q : list (list nat)) :
  (process_create_kernel_thread demo_name 0x7000 p1 (ps demo_idle)).1 = Some 1%nat ->
  let s1 := demo_spawn p1 demo_idle in
  (process_create_kernel_thread demo_name 0x7000 p2 (ps s1)).1 = Some 2%nat ->
  let s2 := demo_spawn p2 s1 in
  let s3 := demo_add 1 s2 in
  state (pr s2 1) <> PROC_UNUSED -> state (pr s3 2) <> PROC_UNUSED ->
  enqueue s3 (enqueue s2 (replicate 32 []) 1) 2 = Q ->
  sched_inv (demo_two p1 p2) Q [].
Proof.
  intros E1 s1 E2 s2 s3 S1 S2 <-.
  destruct (demo_spawn_inv p1 demo_idle _ _ 1 (proj1 demo_idle_inv) (proj2 demo_idle_inv) E1) as [H1 H2].
  destruct (demo_spawn_inv p2 s1 _ _ 2 H1 H2 E2) as [H3 _].
  apply demo_add_inv; [|by apply unqueued_one|unfold MAX_PROCESSES; lia|exact S2].
  apply demo_add_inv; [exact H3|apply unqueued_empty|unfold MAX_PROCESSES; lia|exact S1].
Qed.

(** Two threads of priorities 5 and 6, and of the same priority 5. *)
Lemma demo_56_inv : sched_inv (demo_two 5 6) (demo_queues [(5, [1]); (6, [2])]%nat) [].
Proof. apply demo_two_inv; vm_compute; (reflexivity || discriminate). Qed.

Lemma demo_55_inv : sched_inv (demo_two 5 5) (demo_queues [(5, [1; 2])]%nat) [].
Proof. apply demo_two_inv; vm_compute; (reflexivity || discriminate). Qed.

Lemma demo_running (p1 p2 : Z) (Q : list (list nat)) (i h : nat) (l : list nat) :
  sched_inv (demo_two p1 p2) Q [] -> current_process (ps (demo_two p1 p2)) = None -> highest Q i h l ->
  sched_inv (demo_run (demo_two p1 p2)) (alter (drop 1) i Q) [] /\
  current_process (ps (demo_run (demo_two p1 p2))) = Some h /\
  state (pr (demo_run (demo_two p1 p2)) h) = PROC_RUNNING.
Proof. apply demo_run_inv. Qed.

Definition demo_56 : sched pages := demo_run (demo_two 5 6).
Definition demo_55 : sched pages := demo_run (demo_two 5 5).

Lemma demo_56_running :
  sched_inv demo_56 (demo_queues [(6, [2])]%nat) [] /\ current_process (ps demo_56) = Some 1%nat /\
  state (pr demo_56 1) = PROC_RUNNING.
Proof.
  destruct (demo_running 5 6 _ 5 1 [] demo_56_inv) as (H1 & H2 & H3).
  - vm_compute. reflexivity.
  - split; [vm_compute; reflexivity|]. intros j Hj. destruct j as [|[|[|[|[|j]]]]]; (reflexivity || lia).
  - split; [exact H1|]. split; [exact H2|exact H3].
Qed.

Lemma demo_55_running :
  sched_inv demo_55 (demo_queues [(5, [2])]%nat) [] /\ state (pr demo_55 1) = PROC_RUNNING.
Proof.
  destruct (demo_running 5 5 _ 5 1 [2%nat] demo_55_inv) as (H1 & _ & H3).
  - vm_compute. reflexivity.
  - split; [vm_compute; reflexivity|]. intros j Hj. destruct j as [|[|[|[|[|j]]]]]; (reflexivity || lia).
  - split; [exact H1|exact H3].
Qed.

Lemma demo_56_highest : highest (demo_queues [(6, [2])]%nat) 6 2 [].
Proof.
  split; [reflexivity|]. intros j Hj. destruct j as [|[|[|[|[|[|j]]]]]]; (reflexivity || lia).
Qed.

Lemma schedule_switches_to_highest_witness :
  exists s' ctx, schedule demo_56 = Some (s', Some (SwitchCall (Some 1%nat) ctx)) /\
    current_process (ps s') = Some 2%nat.
Proof.
  destruct demo_56_running as (H1 & H2 & H3).
  destruct (schedule_switches_to_highest demo_56 _ _ 1 6 2 [] H1 H2) as (s' & E & _ & H & _).
  - unfold MAX_PROCESSES. lia.
  - exact H3.
  - exact demo_56_highest.
  - exact (ex_intro _ s' (ex_intro _ _ (conj E H))).
Defined.

Lemma scheduler_tick_correct_witness :
  exists s', scheduler_tick demo_56 = Some (s', None) /\
    sched_inv s' (demo_queues [(6, [2])]%nat) [] /\ total_time (pr s' 1) = 1.
Proof.
  destruct demo_56_running as (H1 & H2 & H3).
  destruct (scheduler_tick_correct demo_56 _ _ H1) as (ws & rest & s' & w & Hz & _ & _ & E & _ & Hrun & _).
  - rewrite H2. intros c [= <-]. split; [unfold MAX_PROCESSES; lia|]. vm_compute. discriminate.
  - assert (Ed : idle_proc demo_56 = Some 0%nat) by (vm_compute; reflexivity). rewrite Ed. intros d [= <-].
    split; [unfold MAX_PROCESSES; lia|apply not_elem_of_nil].
  - symmetry in Hz. apply app_eq_nil in Hz as [-> ->].
    destruct (Hrun 1%nat H2 H3) as (T & Hgo & _). destruct Hgo as (-> & I & _); [vm_compute; reflexivity|].
    exists s'. split; [exact E|]. split; [exact I|]. rewrite T. vm_compute. reflexivity.
Defined.

Lemma scheduler_sleep_correct_witness :
  exists s' ctx, scheduler_sleep 10 demo_56 = Some (s', Some (SwitchCall (Some 1%nat) ctx)) /\
    sched_inv s' (replicate 32 []) [1%nat].
Proof.
  destruct demo_56_running as (H1 & H2 & H3).
  destruct (scheduler_sleep_correct demo_56 _ _ 1 6 2 [] 10 H1 H2)
    as (s' & l1 & l2 & E & Hz & _ & _ & I & _).
  - unfold MAX_PROCESSES. lia.
  - exact H3.
  - vm_compute. reflexivity.
  - exact demo_56_highest.
  - symmetry in Hz. apply app_eq_nil in Hz as [-> ->].
    exact (ex_intro _ s' (ex_intro _ _ (conj E I))).
Defined.

(** The new thread of [demo_idle], blocked before it was ever added. *)
Definition demo_blocked : sched pages := updp 1 (set_state PROC_BLOCKED) (demo_spawn 7 demo_idle).

Lemma demo_block_inv (s : sched pages) :
  sched_inv s (replicate 32 []) [] -> sched_inv (updp 1 (set_state PROC_BLOCKED) s) (replicate 32 []) [].
Proof.
  intros H. pose proof (si_table _ _ _ H) as Htab.
  assert (P : forall q, pr (updp 1 (set_state PROC_BLOCKED) s) q
    = if decide (q = 1%nat) then set_state PROC_BLOCKED (pr s q) else pr s q)
    by (intros q; apply pr_updp; rewrite Htab; unfold MAX_PROCESSES; lia).
  apply (inv_frame s); try done.
  - by rewrite len_updp.
  - intros p. rewrite P. by destruct (decide _).
  - intros p. left. apply unqueued_empty.
Qed.

Lemma demo_blocked_inv : sched_inv demo_blocked (replicate 32 []) [].
Proof.
  destruct (demo_spawn_inv 7 demo_idle _ _ 1 (proj1 demo_idle_inv) (proj2 demo_idle_inv)) as [H _];
    [vm_compute; reflexivity|].
  exact (demo_block_inv _ H).
Qed.

Lemma scheduler_unblock_correct_witness :
  exists s', scheduler_unblock (Some 1%nat) demo_blocked = Some s' /\
    time_slice (pr s' 1) = 30.
Proof.
  destruct (scheduler_unblock_correct demo_blocked _ _ 1 demo_blocked_inv) as (s' & E & _ & _ & T & _).
  - unfold MAX_PROCESSES. lia.
  - vm_compute. reflexivity.
  - apply not_elem_of_nil.
  - exists s'. split; [exact E|]. rewrite T. vm_compute. reflexivity.
Defined.

Lemma scheduler_remove_running_drops_queue_witness :
  let s' := scheduler_remove (Some 1%nat) (updp 1 (set_state PROC_BLOCKED) demo_55) in
  rq s' (queue_of (priority (pr demo_55 1))) = None /\ state (pr s' 2) = PROC_READY.
Proof.
  destruct demo_55_running as (H1 & H3).
  destruct (scheduler_remove_running_drops_queue demo_55 _ _ 1 [2%nat] H1) as (E & _ & H).
  - unfold MAX_PROCESSES. lia.
  - exact H3.
  - vm_compute. reflexivity.
  - split; [exact E|]. apply (H 2%nat). by left.
Defined.

Lemma scheduler_init_correct_witness :
  let s' := scheduler_init 0x7000 demo_zero in sched_inv s' (replicate 32 []) [].
Proof.
  assert (Hpa : pa_ok (frames (vm (ps demo_zero)))) by exact demo_ps_frames_ok.
  apply (scheduler_init_correct demo_zero 0x7000 eq_refl eq_refl Hpa). lia.
Defined.

(** One thread of the lowest priority, running, and the idle process. *)
Definition demo_31 : sched pages := demo_run (demo_add 1 (demo_spawn 31 demo_idle)).

Lemma demo_31_running :
  sched_inv demo_31 (replicate 32 []) [] /\ current_process (ps demo_31) = Some 1%nat /\
  state (pr demo_31 1) = PROC_RUNNING.
Proof.
  destruct (demo_spawn_inv 31 demo_idle _ _ 1 (proj1 demo_idle_inv) (proj2 demo_idle_inv)) as [H1 _];
    [vm_compute; reflexivity|].
  assert (H2 : sched_inv (demo_add 1 (demo_spawn 31 demo_idle)) (demo_queues [(31, [1])]%nat) []).
  { replace (demo_queues [(31, [1])]%nat) with (enqueue (demo_spawn 31 demo_idle) (replicate 32 []) 1)
      by (vm_compute; reflexivity).
    apply demo_add_inv; [exact H1|apply unqueued_empty|unfold MAX_PROCESSES; lia
      |vm_compute; discriminate]. }
  destruct (demo_run_inv _ _ _ 31 1 [] H2) as (I & C & R).
  - vm_compute. reflexivity.
  - split; [reflexivity|]. intros j Hj.
    do 31 (destruct j as [|j]; [reflexivity|]). lia.
  - split; [exact I|]. split; [exact C|exact R].
Qed.

Lemma schedule_idle_loses_process_witness :
  exists s' ctx, schedule demo_31 = Some (s', Some (SwitchCall (Some 1%nat) ctx)) /\
    current_process (ps s') = Some 0%nat /\ state (pr s' 1) = PROC_READY /\ ready_bitmap s' = 0.
Proof.
  destruct demo_31_running as (H1 & H2 & H3).
  destruct (schedule_idle_loses_process demo_31 [] 1 0 H1 H2) as (s' & ctx & E & C & R & B & _).
  - unfold MAX_PROCESSES. lia.
  - exact H3.
  - vm_compute. reflexivity.
  - vm_compute. reflexivity.
  - discriminate.
  - unfold MAX_PROCESSES. lia.
  - apply not_elem_of_nil.
  - vm_compute. reflexivity.
  - exact (ex_intro _ s' (ex_intro _ ctx (conj E (conj C (conj R B))))).
Defined.
