(* ===== verification/SchedSpec.v ===== *)
(** * What the scheduler promises

    An abstract scheduler: control blocks without links, the ready queues as
    lists, the sleepers as a list in wake order, no bitmap.  Its steps are the
    entry points of [kernel/proc/scheduler.c]; [None] is a call outside of the
    contract, where the code loses a process or goes on with one that is
    blocked.  [Scheduler.v]'s operations on the linked queues implement it. *)

From Stdlib Require Import Sorted.
From S2P Require Import Prelude Mem PageAlloc Vmm Gdt Process Scheduler.

Record asched := ASched {
  a_procs : nat -> process;       (** the links of these are not used *)
  a_queues : list (list nat);     (** the slots of each ready queue, in order *)
  a_sleep : list nat;             (** the sleepers, first to wake first *)
  a_current : nat;
  a_now : Z;
  a_idle : ptr
}.

Definition a_upd (p : nat) (f : process -> process) (a : asched) : asched :=
  ASched (fun q => if decide (q = p) then f (a_procs a q) else a_procs a q)
    (a_queues a) (a_sleep a) (a_current a) (a_now a) (a_idle a).
Definition a_set_queues (Q : list (list nat)) (a : asched) : asched :=
  ASched (a_procs a) Q (a_sleep a) (a_current a) (a_now a) (a_idle a).
Definition a_set_sleep (zs : list nat) (a : asched) : asched :=
  ASched (a_procs a) (a_queues a) zs (a_current a) (a_now a) (a_idle a).

Definition a_queue (a : asched) (p : nat) : nat := Z.to_nat (queue_of (priority (a_procs a p))).

Definition running (a : asched) : Prop := state (a_procs a (a_current a)) = PROC_RUNNING.
#[export] Instance running_dec (a : asched) : Decision (running a).
Proof. unfold running. apply _. Defined.

(** Ready, with a fresh time slice, at the end of the queue of its priority. *)
Definition refreshed (x : process) : process :=
  set_time_slice (37 - queue_of (priority x)) (set_state PROC_READY x).
Definition a_add (p : nat) (a : asched) : asched :=
  a_upd p refreshed (a_set_queues (alter (fun l => l ++ [p]) (a_queue a p) (a_queues a)) a).

(** The first non-empty queue and its head. *)
Fixpoint first_ready (Q : list (list nat)) : option (nat * nat) :=
  match Q with
  | [] => None
  | [] :: Q => (fun '(i, h) => (S i, h)) <$> first_ready Q
  | (h :: _) :: _ => Some (0%nat, h)
  end.

Definition a_requeue (a : asched) : asched :=
  if decide (running a) then a_add (a_current a) a else a.
Definition a_dispatch (n : nat) (a : asched) : asched :=
  let a := a_upd n (set_state PROC_RUNNING) a in
  ASched (a_procs a) (a_queues a) (a_sleep a) n (a_now a) (a_idle a).
Definition a_pop (i : nat) (a : asched) : asched := a_set_queues (alter (drop 1) i (a_queues a)) a.

Definition a_schedule (a : asched) : option asched :=
  match first_ready (a_queues a) with
  | Some (i, h) => Some (a_dispatch h (a_pop i (a_requeue a)))
  | None =>
      match a_idle a with
      | None => if decide (running a) then Some a else None
      | Some d =>
          if decide (d = a_current a) then if decide (running a) then Some a else None
          else if decide (running a /\ a_queue a (a_current a) = a_queue a d) then None
          else Some (a_dispatch d (a_requeue a))
      end
  end.

(** The expired prefix of the sleepers becomes ready, in order. *)
Fixpoint a_wake (zs : list nat) (a : asched) : asched :=
  match zs with
  | [] => a
  | p :: zs => if wake_time (a_procs a p) <=? a_now a then a_wake zs (a_add p (a_set_sleep zs a)) else a
  end.

Definition a_tick (a : asched) : option asched :=
  let a := ASched (a_procs a) (a_queues a) (a_sleep a) (a_current a) (u64 (a_now a + 1)) (a_idle a) in
  let a := a_wake (a_sleep a) a in
  let c := a_current a in
  let a := a_upd c (fun x => set_total_time (u64 (total_time x + 1)) x) a in
  let a := if 0 <? time_slice (a_procs a c) then a_upd c (fun x => set_time_slice (time_slice x - 1) x) a
           else a in
  if time_slice (a_procs a c) =? 0 then a_schedule a else Some a.

Definition a_yield (a : asched) : option asched := a_schedule (a_upd (a_current a) (set_time_slice 0) a).

(** Behind every sleeper that wakes no later. *)
Fixpoint by_wake (wake : nat -> Z) (c : nat) (zs : list nat) : list nat :=
  match zs with
  | [] => [c]
  | p :: zs => if wake p <=? wake c then p :: by_wake wake c zs else c :: p :: zs
  end.

(** The current process may stop running: it is not the idle process, and nobody waits in
    its queue, which [scheduler_remove] would empty. *)
Definition may_stop (a : asched) : bool :=
  bool_decide (a_idle a <> Some (a_current a)) &&
  bool_decide (a_queues a !! a_queue a (a_current a) = Some []).

Definition a_block_self (a : asched) : option asched :=
  if may_stop a then a_schedule (a_upd (a_current a) (set_state PROC_BLOCKED) a) else None.

Definition a_sleep_for (ticks : Z) (a : asched) : option asched :=
  if may_stop a then
    let c := a_current a in
    let w := u64 (a_now a + ticks) in
    let a := a_upd c (set_state PROC_BLOCKED) (a_upd c (set_wake_time w) a) in
    a_schedule (a_set_sleep (by_wake (fun p => wake_time (a_procs a p)) c (a_sleep a)) a)
  else None.

(** Another process can be blocked while it waits in its queue. *)
Definition a_block_other (p : nat) (a : asched) : option asched :=
  match a_queues a !! a_queue a p with
  | Some l =>
      if decide (p ∈ l) then
        Some (a_upd p (set_state PROC_BLOCKED)
          (a_set_queues (<[a_queue a p := filter (fun q => q <> p) l]> (a_queues a)) a))
      else None
  | None => None
  end.

Definition a_unblock (p : nat) (a : asched) : option asched :=
  if decide (state (a_procs a p) = PROC_BLOCKED) then
    if decide ((p < MAX_PROCESSES)%nat /\ p ∉ a_sleep a) then Some (a_add p a) else None
  else Some a.

(** The entry points. *)
Inductive event := Tick | Yield | Sleep (ticks : Z) | Block (p : ptr) | Unblock (p : nat).

Definition a_step (e : event) (a : asched) : option asched :=
  match e with
  | Tick => a_tick a
  | Yield => a_yield a
  | Sleep n => a_sleep_for n a
  | Block None => a_block_self a
  | Block (Some p) => if decide (p = a_current a) then a_block_self a else a_block_other p a
  | Unblock p => a_unblock p a
  end.
Fixpoint a_run (es : list event) (a : asched) : option asched :=
  match es with
  | [] => Some a
  | e :: es => match a_step e a with Some a => a_run es a | None => None end
  end.

(** No process is lost: whoever is ready waits in the queue of its priority (but the idle
    process, which [scheduler_init] leaves ready and in no queue). *)
Record kept (a : asched) : Prop := Kept {
  kp_len : length (a_queues a) = 32%nat;
  kp_ready : forall p, state (a_procs a p) = PROC_READY -> a_idle a <> Some p ->
    exists l, a_queues a !! a_queue a p = Some l /\ p ∈ l
}.

Lemma a_queue_upd (p q : nat) (f : process -> process) (a : asched) :
  (forall z, priority (f z) = priority z) -> a_queue (a_upd p f a) q = a_queue a q.
Proof. intros Hf. unfold a_queue. cbn. destruct (decide (q = p)); by rewrite ?Hf. Qed.

Lemma kept_upd (p : nat) (f : process -> process) (a : asched) :
  kept a -> (forall z, priority (f z) = priority z) ->
  (state (f (a_procs a p)) = PROC_READY -> state (a_procs a p) = PROC_READY) -> kept (a_upd p f a).
Proof.
  intros [Hl Hk] Hprio Hst. split; [done|]. intros q. unfold a_queue. cbn.
  destruct (decide (q = p)) as [->|]; [rewrite Hprio; intros H; by apply Hk, Hst|apply Hk].
Qed.

Lemma kept_add (p : nat) (a : asched) : kept a -> kept (a_add p a).
Proof.
  intros [Hl Hk]. split; [cbn; by rewrite length_alter|]. intros q Hq Hi.
  pose proof (queue_of_range (priority (a_procs a p))) as Hr.
  assert (Eq : a_queue (a_add p a) q = a_queue a q) by (unfold a_queue; cbn; by destruct (decide (q = p))).
  rewrite Eq. cbn in Hq |- *. destruct (decide (q = p)) as [->|Hne].
  - destruct (lookup_lt_is_Some_2 (a_queues a) (a_queue a p)) as [l Hlk]; [unfold a_queue; lia|].
    exists (l ++ [p]). rewrite list_lookup_alter_eq, Hlk. split; [done|set_solver].
  - destruct (Hk q Hq Hi) as (l & Hlk & Hin). destruct (decide (a_queue a q = a_queue a p)) as [E|E].
    + exists (l ++ [p]). rewrite <- E, list_lookup_alter_eq, Hlk. split; [done|set_solver].
    + exists l. by rewrite list_lookup_alter_ne.
Qed.

Lemma kept_requeue (a : asched) : kept a -> kept (a_requeue a).
Proof. intros K. unfold a_requeue. destruct (decide _); [by apply kept_add|done]. Qed.

Lemma kept_dispatch (n : nat) (a : asched) : kept a -> kept (a_dispatch n a).
Proof. intros K. destruct (kept_upd n (set_state PROC_RUNNING) a K) as [Hl Hk]; [done..|]. by split. Qed.

(** The head leaves its queue to run. *)
Lemma kept_switch (i h : nat) (l : list nat) (a : asched) :
  kept a -> a_queues a !! i = Some (h :: l) -> kept (a_dispatch h (a_pop i a)).
Proof.
  intros [Hl Hk] Hi. split; [cbn; by rewrite length_alter|]. intros q Hq Hid.
  assert (Eq : a_queue (a_dispatch h (a_pop i a)) q = a_queue a q)
    by (unfold a_queue; cbn; by destruct (decide (q = h))).
  rewrite Eq. cbn in Hq |- *. destruct (decide (q = h)) as [->|Hne]; [done|].
  destruct (Hk q Hq Hid) as (l' & Hlk & Hin). destruct (decide (a_queue a q = i)) as [E|E].
  - exists l. rewrite E in Hlk |- *. rewrite list_lookup_alter_eq, Hi. rewrite Hi in Hlk. injection Hlk as <-.
    split; [done|set_solver].
  - exists l'. by rewrite list_lookup_alter_ne.
Qed.

Section Refinement.
  Context {S : Type} {PA : PageAllocator S} {RA : RunAllocator S}.
  Implicit Types s : sched S.
  Implicit Types a : asched.

Definition c_step (e : event) s : option (sched S) :=
  match e with
  | Tick => fst <$> scheduler_tick s
  | Yield => fst <$> scheduler_yield s
  | Sleep n => fst <$> scheduler_sleep n s
  | Block p => fst <$> scheduler_block p s
  | Unblock p => scheduler_unblock (Some p) s
  end.
Fixpoint c_run (es : list event) s : option (sched S) :=
  match es with
  | [] => Some s
  | e :: es => match c_step e s with Some s => c_run es s | None => None end
  end.

(** The linked queues hold the lists, the control blocks agree up to their links. *)
Record represents s a : Prop := Represents {
  rp_inv : sched_inv s (a_queues a) (a_sleep a);
  rp_procs : forall p, linkless (pr s p) (a_procs a p);
  rp_cur : current_process (ps s) = Some (a_current a);
  rp_cur_lt : (a_current a < MAX_PROCESSES)%nat;
  rp_now : current_tick s = a_now a;
  rp_idle : idle_proc s = a_idle a;
  rp_idle_ok : forall d, a_idle a = Some d -> (d < MAX_PROCESSES)%nat /\ d ∉ a_sleep a
}.

(** ** Control blocks up to their links *)

Lemma linkless_trans (x y z : process) : linkless x y -> linkless y z -> linkless x z.
Proof. unfold linkless. congruence. Qed.

Lemma linkless_map (f : process -> process) (x y : process) :
  (forall z, f (unlink z) = unlink (f z)) -> linkless x y -> linkless (f x) (f y).
Proof. unfold linkless. intros Hf H. by rewrite <- !Hf, H. Qed.

Lemma first_ready_spec (Q : list (list nat)) :
  match first_ready Q with
  | Some (i, h) => exists l, highest Q i h l
  | None => forall (j : nat) l, Q !! j = Some l -> l = []
  end.
Proof.
  induction Q as [|[|h l] Q IH]; cbn [first_ready]; [done| |].
  - destruct (first_ready Q) as [[i h]|]; cbn.
    + destruct IH as [l [Hi Hlow]]. exists l. split; [done|]. intros [|j] Hj; [done|]. apply Hlow. lia.
    + intros [|j] l Hj; [by injection Hj|by apply (IH j)].
  - exists l. split; [done|]. intros j Hj. lia.
Qed.

(** A head determines the members of a queue. *)
Lemma dseg_unique (f : nat -> process) (l1 : list nat) : forall l2 pv hd,
  dseg f pv hd l1 None -> dseg f pv hd l2 None -> l1 = l2.
Proof.
  induction l1 as [|x l1 IH]; intros l2 pv hd H1 H2; destruct l2 as [|y l2]; cbn [dseg] in *; naive_solver.
Qed.

Lemma dll_unique (f : nat -> process) (hd : ptr) (l1 l2 : list nat) : dll f hd l1 -> dll f hd l2 -> l1 = l2.
Proof. apply dseg_unique. Qed.

(** ** The steps *)

Lemma rp_state s a p : represents s a -> state (pr s p) = state (a_procs a p).
Proof. intros R. exact (f_equal state (rp_procs _ _ R p)). Qed.
Lemma rp_priority s a p : represents s a -> priority (pr s p) = priority (a_procs a p).
Proof. intros R. exact (f_equal priority (rp_procs _ _ R p)). Qed.
Lemma rp_wake s a p : represents s a -> wake_time (pr s p) = wake_time (a_procs a p).
Proof. intros R. exact (f_equal wake_time (rp_procs _ _ R p)). Qed.
Lemma rp_slice s a p : represents s a -> time_slice (pr s p) = time_slice (a_procs a p).
Proof. intros R. exact (f_equal time_slice (rp_procs _ _ R p)). Qed.

(** A change of the fields of a process that does not concern its queue. *)
Lemma sim_upd s a (p : nat) (f : process -> process) :
  represents s a -> (p < MAX_PROCESSES)%nat -> (forall z, f (unlink z) = unlink (f z)) ->
  (forall z, next (f z) = next z /\ prev (f z) = prev z) ->
  (unqueued (a_queues a) (a_sleep a) p \/ forall z, core_eq (f z) z) ->
  represents (updp p f s) (a_upd p f a).
Proof.
  intros R Hp Hf Hl Hc. pose proof (si_table _ _ _ (rp_inv _ _ R)) as Htab.
  assert (P : forall q, pr (updp p f s) q = if decide (q = p) then f (pr s q) else pr s q)
    by (intros q; apply pr_updp; lia).
  destruct R as [I L C Hlt T D Dok]. split; try done.
  - apply (inv_frame s); try done; [by rewrite len_updp| |]; intros q; rewrite P;
      destruct (decide (q = p)) as [->|]; [apply Hl|done| |by right].
    destruct Hc as [Hu|Hc]; [by left|by right].
  - intros q. rewrite P. cbn. destruct (decide (q = p)) as [->|]; [by apply linkless_map|done].
Qed.

(** [scheduler_add] *)
Lemma sim_add s a (p : nat) :
  represents s a -> unqueued (a_queues a) (a_sleep a) p -> (p < MAX_PROCESSES)%nat ->
  state (a_procs a p) <> PROC_UNUSED ->
  exists s', scheduler_add (Some p) s = Some s' /\ represents s' (a_add p a).
Proof.
  intros R Hu Hp Hst. pose proof (rp_priority s a p R) as Hprio.
  destruct (add_spec s _ _ p (rp_inv _ _ R) Hu Hp) as (s' & Hs' & I' & E' & O' & C').
  { by rewrite (rp_state s a p R). }
  exists s'. split; [done|]. destruct R as [I L C Hlt T D Dok]. rewrite Hprio in I', C'. split; cbn; try done.
  - intros q. destruct (decide (q = p)) as [->|Hq].
    + eapply linkless_trans; [exact C'|]. unfold refreshed. apply linkless_map; [done|].
      by apply linkless_map.
    + eapply linkless_trans; [by apply O'|apply L].
  - by rewrite (se_current _ _ E').
  - by rewrite (se_tick _ _ E').
  - by rewrite (se_idle _ _ E').
Qed.

(** The requeueing of [schedule]. *)
Lemma sim_requeue s a :
  represents s a ->
  exists s', (if decide (state (pr s (a_current a)) = PROC_RUNNING)
              then scheduler_add (Some (a_current a)) (updp (a_current a) (set_state PROC_READY) s)
              else Some s) = Some s' /\ represents s' (a_requeue a).
Proof.
  intros R. unfold a_requeue, running. rewrite (rp_state s a _ R).
  destruct (decide (state (a_procs a (a_current a)) = PROC_RUNNING)) as [Hr|_]; [|by exists s].
  pose proof R as [I L C Hlt T D Dok]. pose proof (rp_priority s a (a_current a) R) as Hprio.
  destruct (requeue_spec s _ _ (a_current a) I Hlt) as (s' & Hs' & I' & E' & O' & C').
  { by rewrite (rp_state s a _ R). }
  exists s'. split; [done|]. rewrite Hprio in I', C'. split; cbn; try done.
  - intros q. destruct (decide (q = a_current a)) as [->|Hq].
    + eapply linkless_trans; [exact C'|]. unfold refreshed. apply linkless_map; [done|].
      by apply linkless_map.
    + eapply linkless_trans; [by apply O'|apply L].
  - by rewrite (se_current _ _ E').
  - by rewrite (se_tick _ _ E').
  - by rewrite (se_idle _ _ E').
Qed.

(** The switch at the end of [schedule]. *)
Lemma sim_dispatch s a (n : nat) :
  represents s a -> unqueued (a_queues a) (a_sleep a) n -> (n < MAX_PROCESSES)%nat ->
  let s1 := updp n (set_state PROC_RUNNING) s in
  let s2 := with_ps (process_set_current (Some n) (ps s1)) s1 in
  let pt := page_table (pr s2 n) in
  let s3 := if pt =? 0 then s2
            else with_ps (with_vm (vmm_switch_address_space pt (vm (ps s2))) (ps s2)) s2 in
  represents s3 (a_dispatch n a).
Proof.
  intros [I L C Hlt T D Dok] Hu Hn s1 s2 pt s3.
  destruct (dispatch_inv s _ _ n I Hu Hn) as (I3 & C3 & P3 & _). fold s1 s2 pt s3 in I3, C3, P3.
  assert (E : current_tick s3 = current_tick s /\ idle_proc s3 = idle_proc s)
    by (unfold s3; by destruct (pt =? 0)).
  clearbody s3. destruct E as [ET ED]. split; cbn; try done; try congruence.
  intros q. rewrite P3. destruct (decide (q = n)) as [->|]; [by apply linkless_map|apply L].
Qed.

Lemma requeue_frame a : a_sleep (a_requeue a) = a_sleep a /\ a_idle (a_requeue a) = a_idle a /\
  a_queues (a_requeue a) = (if decide (running a)
    then alter (fun l => l ++ [a_current a]) (a_queue a (a_current a)) (a_queues a) else a_queues a) /\
  forall p, priority (a_procs (a_requeue a) p) = priority (a_procs a p).
Proof.
  unfold a_requeue. destruct (decide (running a)); split_and!; try done. intros p. cbn.
  by destruct (decide (p = a_current a)).
Qed.

(** An operation that keeps everything but the links and the queues. *)
Lemma sim_same_env s s' a Q :
  represents s a -> sched_inv s' Q (a_sleep a) -> same_env s s' ->
  (forall q, linkless (pr s' q) (pr s q)) -> represents s' (a_set_queues Q a).
Proof.
  intros [I L C Hlt T D Dok] I' E' L'. split; cbn; try done.
  - intros q. eapply linkless_trans; [apply L'|apply L].
  - by rewrite (se_current _ _ E').
  - by rewrite (se_tick _ _ E').
  - by rewrite (se_idle _ _ E').
Qed.

Lemma set_queues_id a : a_set_queues (a_queues a) a = a.
Proof. by destruct a. Qed.

Lemma requeued_head a (i h : nat) (l : list nat) :
  a_queues a !! i = Some (h :: l) -> exists l', a_queues (a_requeue a) !! i = Some (h :: l').
Proof.
  intros Hi. destruct (requeue_frame a) as (_ & _ & -> & _). destruct (decide (running a)); [|by exists l].
  destruct (decide (i = a_queue a (a_current a))) as [->|Hne].
  - rewrite list_lookup_alter_eq, Hi. by exists (l ++ [a_current a]).
  - rewrite list_lookup_alter_ne by done. by exists l.
Qed.

(** With every queue empty and the idle process in another queue than the current one, taking
    the idle process off the queues changes nothing. *)
Lemma idle_unqueued s a (d : nat) :
  represents s a -> (forall (j : nat) l, a_queues a !! j = Some l -> l = []) -> a_idle a = Some d ->
  d <> a_current a -> ~ (running a /\ a_queue a (a_current a) = a_queue a d) ->
  unqueued (a_queues (a_requeue a)) (a_sleep a) d /\
  a_queues (a_requeue a) !! a_queue a d = Some [].
Proof.
  intros R He Hd Hne Hsafe. destruct (rp_idle_ok _ _ R d Hd) as [Hlt Hz].
  destruct (requeue_frame a) as (_ & _ & -> & _).
  assert (Hq : a_queues a !! a_queue a d = Some []).
  { destruct (queue_exists s _ _ (priority (a_procs a d)) (rp_inv _ _ R)) as [l Hl].
    fold (a_queue a d) in Hl. rewrite Hl. by rewrite (He _ _ Hl). }
  destruct (decide (running a)) as [Hr|].
  - split; [split; [done|]|].
    + intros j l Hj Hin. destruct (decide (j = a_queue a (a_current a))) as [->|Hj'].
      * rewrite list_lookup_alter_eq in Hj. apply fmap_Some in Hj as (l' & ->%He & ->). set_solver.
      * rewrite list_lookup_alter_ne in Hj by done. apply He in Hj as ->. set_solver.
    + rewrite list_lookup_alter_ne; [done|]. intros E. by apply Hsafe.
  - split; [split; [done|]|done]. intros j l Hj. apply He in Hj as ->. set_solver.
Qed.

(** [schedule] *)
Lemma sim_schedule s a a' :
  represents s a -> state (a_procs a (a_current a)) <> PROC_READY -> a_schedule a = Some a' ->
  exists s' w, schedule s = Some (s', w) /\ represents s' a' /\ running a'.
Proof.
  intros R Hst Ha. pose proof (rp_inv _ _ R) as I. pose proof (first_ready_spec (a_queues a)) as Hfr.
  unfold schedule, process_current. rewrite (rp_cur _ _ R). unfold a_schedule in Ha.
  destruct (first_ready (a_queues a)) as [[i h]|].
  - destruct Hfr as [l Hh]. rewrite (find_next_highest s _ _ i h l I Hh). destruct Hh as [Hi _].
    destruct (si_ready _ _ _ I i _ h Hi ltac:(by left)) as (Hlt & _ & Hh).
    rewrite (rp_state s a h R) in Hh. rewrite decide_False by congruence.
    destruct (sim_requeue s a R) as (s1 & -> & R1). destruct (requeued_head a i h l Hi) as [l' Hi1].
    destruct (remove_head_spec s1 _ _ i h l' (rp_inv _ _ R1) Hi1) as (I2 & U2 & E2 & L2).
    pose proof (sim_same_env s1 _ _ _ R1 I2 E2 L2) as R2. injection Ha as <-. eexists _, _. split; [reflexivity|].
    split; [by apply sim_dispatch|]. unfold running. cbn. by rewrite decide_True.
  - assert (Hfn : find_next_process s = a_idle a).
    { destruct (find_next_spec s _ _ I) as [[_ ->]|(i & h & l & [Hi _] & _)]; [apply (rp_idle _ _ R)|].
      by apply Hfr in Hi. }
    rewrite Hfn. destruct (a_idle a) as [d|] eqn:Ed.
    2: { destruct (decide (running a)); [|done]. injection Ha as <-. by eexists _, _. }
    destruct (decide (d = a_current a)) as [->|Hne].
    { rewrite decide_True by done. destruct (decide (running a)); [|done]. injection Ha as <-.
      by eexists _, _. }
    rewrite decide_False by congruence. destruct (decide (running a /\ _)) as [|Hsafe]; [done|].
    destruct (idle_unqueued s a d R Hfr Ed Hne Hsafe) as [Hu Hq].
    destruct (rp_idle_ok _ _ R d Ed) as [Hlt _]. destruct (sim_requeue s a R) as (s1 & -> & R1).
    destruct (requeue_frame a) as (Ez & _ & _ & Hprio). rewrite <- Ez in Hu.
    destruct (remove_unqueued s1 _ _ d (rp_inv _ _ R1) Hu Hlt) as (I2 & E2 & L2).
    { rewrite (rp_priority s1 _ d R1), Hprio. exact Hq. }
    pose proof (sim_same_env s1 _ _ _ R1 I2 E2 L2) as R2. rewrite set_queues_id in R2.
    injection Ha as <-. eexists _, _. split; [reflexivity|].
    split; [by apply sim_dispatch|]. unfold running. cbn. by rewrite decide_True.
Qed.

Lemma running_unqueued s a :
  represents s a -> running a -> unqueued (a_queues a) (a_sleep a) (a_current a).
Proof.
  intros R Hr. apply (unqueued_state s); [apply (rp_inv _ _ R)|..]; rewrite (rp_state s a _ R), Hr; done.
Qed.

Lemma kept_schedule a a' : kept a -> a_schedule a = Some a' -> kept a'.
Proof.
  intros K Ha. unfold a_schedule in Ha. pose proof (first_ready_spec (a_queues a)) as Hfr.
  destruct (first_ready (a_queues a)) as [[i h]|].
  - injection Ha as <-. destruct Hfr as [l [Hi _]]. destruct (requeued_head a i h l Hi) as [l' Hi'].
    by apply (kept_switch i h l'); [apply kept_requeue|].
  - destruct (a_idle a) as [d|]; repeat case_decide; simplify_eq; try done.
    by apply kept_dispatch, kept_requeue.
Qed.

(** The waking loop of [scheduler_tick]. *)
Lemma wake_frame (zs : list nat) : forall a,
  a_current (a_wake zs a) = a_current a /\
  forall p, p ∉ zs -> a_procs (a_wake zs a) p = a_procs a p.
Proof.
  induction zs as [|z zs IH]; intros a; cbn [a_wake]; [done|].
  destruct (wake_time (a_procs a z) <=? a_now a); [|done].
  destruct (IH (a_add z (a_set_sleep zs a))) as [-> Hp]. split; [done|]. intros p Hz.
  rewrite Hp by set_solver. cbn. rewrite decide_False; [done|]. set_solver.
Qed.

Lemma sim_wake (zs : list nat) : forall s a (fuel : nat),
  represents s a -> a_sleep a = zs -> (length zs <= fuel)%nat ->
  exists s', wake_loop fuel s = Some s' /\ represents s' (a_wake zs a).
Proof.
  induction zs as [|p zs IH]; intros s a fuel R Hz Hf; pose proof R as [I L C Hlt T D Dok]; rewrite Hz in *.
  - destruct (si_sleep _ _ _ I) as (Hd & _). apply dseg_head in Hd. exists s. split; [|done].
    destruct fuel; cbn [wake_loop]; by rewrite Hd.
  - destruct (si_sleep _ _ _ I) as (Hd & _ & _ & Hb). destruct (Hb p ltac:(by left)) as [Hp Hpst].
    cbn [length] in Hf. destruct fuel as [|fuel]; [lia|]. cbn [wake_loop a_wake].
    rewrite (dseg_head _ _ _ _ _ Hd). cbn [head]. rewrite (rp_wake s a p R), T.
    destruct (wake_time (a_procs a p) <=? a_now a); [|by exists s].
    destruct (sleep_pop_inv s _ zs p I) as (I3 & U3 & L3 & T3 & C3).
    set (s3 := updp p unlink _) in *.
    assert (D3 : idle_proc s3 = idle_proc s) by (unfold s3; cbn; by destruct (next (pr s p))).
    clearbody s3. assert (R3 : represents s3 (a_set_sleep zs a)).
    { split; cbn; [done| |congruence..|].
      - intros q. eapply linkless_trans; [apply L3|apply L].
      - intros d Hd'. destruct (Dok d Hd') as [? ?]. split; [done|]. set_solver. }
    destruct (sim_add s3 _ p R3 U3 Hp) as (s4 & -> & R4).
    { cbn. rewrite <- (rp_state s a p R), Hpst. done. }
    apply (IH s4 _ fuel R4); [done|lia].
Qed.

(** [scheduler_tick] *)
Lemma sim_tick s a a' :
  represents s a -> running a -> a_tick a = Some a' ->
  exists s' w, scheduler_tick s = Some (s', w) /\ represents s' a' /\ running a'.
Proof.
  intros R Hr Ha. pose proof R as [I L C Hlt T D Dok]. unfold scheduler_tick, a_tick in *.
  set (s0 := Sched _ _ _ _ _ _ _ _). set (a0 := ASched _ _ _ _ _ _) in Ha.
  assert (R0 : represents s0 a0).
  { split; try done; [|cbn; by rewrite T]. apply (inv_frame s); try done; [apply (si_table _ _ _ I)|].
    intros p. by right. }
  assert (Hfuel : (length (a_sleep a) <= QUEUE_FUEL)%nat).
  { destruct (si_sleep _ _ _ I) as (_ & Hnd & _ & Hb).
    apply (nodup_bound _ MAX_PROCESSES Hnd). intros p Hp. by apply Hb. }
  destruct (sim_wake (a_sleep a) s0 a0 QUEUE_FUEL R0 eq_refl Hfuel) as (s1 & -> & R1).
  destruct (wake_frame (a_sleep a) a0) as [Hc Hp]. change (a_sleep a0) with (a_sleep a) in Ha.
  set (a1 := a_wake (a_sleep a) a0) in *. change (a_current a0) with (a_current a) in Hc.
  assert (Hr1 : state (a_procs a1 (a_current a)) = PROC_RUNNING)
    by (rewrite Hp by (by apply (running_unqueued s)); done).
  unfold process_current. rewrite (rp_cur _ _ R1), Hc. rewrite Hc in Ha. set (c := a_current a) in *.
  rewrite decide_True by (by rewrite (rp_state s1 a1 c R1)).
  clearbody a1. cbv zeta in Ha |- *.
  pose proof (sim_upd s1 a1 c (fun x => set_total_time (u64 (total_time x + 1)) x) R1 Hlt
    ltac:(done) ltac:(done) ltac:(by right)) as R2.
  set (s2 := updp c _ s1) in *. set (a2 := a_upd c _ a1) in *.
  assert (Hr2 : a_current a2 = c /\ state (a_procs a2 c) = PROC_RUNNING)
    by (cbn; by rewrite decide_True).
  rewrite (rp_slice s2 a2 c R2). clearbody s2 a2. set (s3 := if 0 <? _ then _ else s2).
  set (a3 := if 0 <? _ then _ else a2) in Ha.
  assert (R3 : represents s3 a3 /\ a_current a3 = c /\ state (a_procs a3 c) = PROC_RUNNING).
  { unfold s3, a3. destruct (0 <? time_slice (a_procs a2 c)); [|by destruct Hr2].
    split; [apply sim_upd; try done; by right|]. cbn. rewrite decide_True by done. by destruct Hr2. }
  clearbody s3 a3. destruct R3 as (R3 & Hc3 & Hr3). rewrite (rp_slice s3 a3 c R3).
  destruct (time_slice (a_procs a3 c) =? 0).
  - apply (sim_schedule s3 a3 a' R3); [by rewrite Hc3, Hr3|done].
  - injection Ha as <-. exists s3, None. split_and!; try done. unfold running. by rewrite Hc3.
Qed.

(** [scheduler_yield] *)
Lemma sim_yield s a a' :
  represents s a -> running a -> a_yield a = Some a' ->
  exists s' w, scheduler_yield s = Some (s', w) /\ represents s' a' /\ running a'.
Proof.
  intros R Hr Ha. unfold scheduler_yield, process_current. rewrite (rp_cur _ _ R).
  apply (sim_schedule _ (a_upd (a_current a) (set_time_slice 0) a)); [| |done].
  - apply sim_upd; try done; [apply (rp_cur_lt _ _ R)|by right].
  - cbn. rewrite decide_True by done. cbn. by rewrite Hr.
Qed.

Lemma may_stop_spec a :
  may_stop a = true <-> a_idle a <> Some (a_current a) /\ a_queues a !! a_queue a (a_current a) = Some [].
Proof. unfold may_stop. rewrite andb_true_iff, !bool_decide_eq_true. done. Qed.

(** Stopping: the current process, already marked as blocked, is taken off the empty queue of
    its priority. *)
Lemma sim_stop s a :
  represents s a -> unqueued (a_queues a) (a_sleep a) (a_current a) ->
  a_queues a !! a_queue a (a_current a) = Some [] ->
  represents (scheduler_remove (Some (a_current a)) s) a.
Proof.
  intros R Hu Hq. destruct (remove_unqueued s _ _ _ (rp_inv _ _ R) Hu (rp_cur_lt _ _ R)) as (I2 & E2 & L2).
  { rewrite (rp_priority s a _ R). exact Hq. }
  pose proof (sim_same_env s _ a _ R I2 E2 L2) as R2. by rewrite set_queues_id in R2.
Qed.

(** [scheduler_block] of the current process. *)
Lemma sim_block_self s a a' (p : ptr) :
  represents s a -> running a -> p = None \/ p = Some (a_current a) -> a_block_self a = Some a' ->
  exists s' w, scheduler_block p s = Some (s', w) /\ represents s' a' /\ running a'.
Proof.
  intros R Hr Hp Ha. pose proof (running_unqueued s a R Hr) as Hu. unfold a_block_self in Ha.
  destruct (may_stop a) eqn:Hm; [|done]. apply may_stop_spec in Hm as [_ Hq].
  unfold scheduler_block, process_current.
  replace (match p with None => current_process (ps s) | Some _ => p end) with (Some (a_current a))
    by (destruct Hp as [->| ->]; [by rewrite (rp_cur _ _ R)|done]).
  set (s1 := updp (a_current a) (set_state PROC_BLOCKED) s). set (a1 := a_upd _ _ a) in Ha.
  assert (R1 : represents s1 a1) by (apply sim_upd; try done; [apply (rp_cur_lt _ _ R)|by left]).
  assert (R2 : represents (scheduler_remove (Some (a_current a)) s1) a1).
  { apply (sim_stop s1 a1 R1); [done|]. unfold a_queue. cbn. by rewrite decide_True. }
  rewrite decide_True by (by rewrite (rp_cur _ _ R2)).
  apply (sim_schedule _ a1 a' R2); [|done]. cbn. by rewrite decide_True.
Qed.

Lemma by_wake_app (wake : nat -> Z) (c : nat) (l1 l2 : list nat) :
  Forall (fun p => wake p <= wake c) l1 -> Forall (fun p => wake c < wake p) l2 ->
  by_wake wake c (l1 ++ l2) = l1 ++ c :: l2.
Proof.
  intros H1 H2. induction H1 as [|p l1 Hp _ IH]; cbn [app by_wake].
  - destruct H2 as [|p l2 Hp _]; cbn [by_wake]; [done|]. by rewrite (proj2 (Z.leb_gt _ _)).
  - rewrite (proj2 (Z.leb_le _ _)) by done. by f_equal.
Qed.

(** [scheduler_sleep] *)
Lemma sim_sleep s a a' (ticks : Z) :
  represents s a -> running a -> a_sleep_for ticks a = Some a' ->
  exists s' w, scheduler_sleep ticks s = Some (s', w) /\ represents s' a' /\ running a'.
Proof.
  intros R Hr Ha. pose proof (running_unqueued s a R Hr) as Hu. pose proof (rp_cur_lt _ _ R) as Hlt.
  unfold a_sleep_for in Ha. destruct (may_stop a) eqn:Hm; [|done]. apply may_stop_spec in Hm as [Hid Hq].
  unfold scheduler_sleep, process_current. rewrite (rp_cur _ _ R), (rp_now _ _ R).
  set (c := a_current a) in *. cbv zeta in Ha. set (w := u64 (a_now a + ticks)) in *.
  assert (R1 : represents (updp c (set_state PROC_BLOCKED) (updp c (set_wake_time w) s))
    (a_upd c (set_state PROC_BLOCKED) (a_upd c (set_wake_time w) a)))
    by (apply sim_upd; try done; [apply sim_upd; try done; by left|by left]).
  set (s1 := updp c _ (updp c _ s)) in *. set (a1 := a_upd c _ (a_upd c _ a)) in *.
  assert (Hc1 : a_procs a1 c = set_state PROC_BLOCKED (set_wake_time w (a_procs a c)))
    by (cbn; rewrite !decide_True by done; done).
  assert (R2 : represents (scheduler_remove (Some c) s1) a1).
  { apply (sim_stop s1 a1 R1); [done|]. unfold a_queue. change (a_current a1) with c. by rewrite Hc1. }
  change (a_current a1) with c in R2. set (s2 := scheduler_remove (Some c) s1) in *. clearbody s2.
  destruct (sleep_insert_spec s2 _ _ c (rp_inv _ _ R2) Hu Hlt)
    as (s3 & l1 & l2 & -> & Ez & F1 & F2 & I3 & L3 & C3 & _ & D3 & T3).
  { by rewrite (rp_state s2 a1 c R2), Hc1. }
  rewrite (rp_wake s2 a1 c R2) in F1, F2.
  assert (Hby : by_wake (fun p => wake_time (a_procs a1 p)) c (a_sleep a1) = l1 ++ c :: l2).
  { rewrite Ez. apply by_wake_app.
    - eapply Forall_impl; [exact F1|]. intros p. cbv beta. by rewrite (rp_wake s2 a1 p R2).
    - eapply Forall_impl; [exact F2|]. intros p. cbv beta. by rewrite (rp_wake s2 a1 p R2). }
  rewrite Hby in Ha.
  apply (sim_schedule s3 _ a') in Ha; [done| |cbn -[a1]; change (a_current a1) with c; by rewrite Hc1].
  destruct R2 as [_ L C _ T D Dok]. split; cbn -[a1]; [done| |congruence|done|congruence..|].
  - intros q. eapply linkless_trans; [apply L3|apply L].
  - intros d Hd. destruct (Dok d Hd) as [? Hz]. split; [done|]. rewrite Ez in Hz.
    assert (d <> c) by (intros ->; done). set_solver.
Qed.

(** [scheduler_unblock] *)
Lemma sim_unblock s a a' (p : nat) :
  represents s a -> running a -> a_unblock p a = Some a' ->
  exists s', scheduler_unblock (Some p) s = Some s' /\ represents s' a' /\ running a'.
Proof.
  intros R Hr Ha. unfold scheduler_unblock, a_unblock in *. rewrite (rp_state s a p R).
  destruct (decide (state (a_procs a p) = PROC_BLOCKED)) as [Hst|].
  2: { injection Ha as <-. by exists s. }
  destruct (decide _) as [[Hp Hz]|]; [|done]. injection Ha as <-.
  destruct (sim_add s a p R) as (s' & -> & R'); [|done|by rewrite Hst|].
  - split; [done|]. intros i l Hi Hin.
    destruct (si_ready _ _ _ (rp_inv _ _ R) i l p Hi Hin) as (_ & _ & Hx).
    rewrite (rp_state s a p R) in Hx. congruence.
  - exists s'. split_and!; try done. unfold running in *. cbn. rewrite decide_False; [done|].
    intros E. rewrite E in Hr. congruence.
Qed.

(** [scheduler_block] marks the process before it unlinks it; the order does not matter. *)
Lemma alter_comm {A} (f g : A -> A) (p q : nat) (l : list A) :
  (forall x, f (g x) = g (f x)) -> alter f p (alter g q l) = alter g q (alter f p l).
Proof.
  intros H. apply list_eq. intros j. rewrite !list_lookup_alter.
  repeat case_decide; simplify_eq; try done. destruct (l !! _); cbn; by rewrite ?H.
Qed.

Lemma updp_comm s (p q : nat) (f g : process -> process) :
  (forall x, f (g x) = g (f x)) -> updp p f (updp q g s) = updp q g (updp p f s).
Proof. intros H. unfold updp, with_ps, upd. cbn. by rewrite alter_comm. Qed.

Lemma remove_set_state s (p : nat) (v : proc_state) :
  (p < length (processes (ps s)))%nat ->
  scheduler_remove (Some p) (updp p (set_state v) s) = updp p (set_state v) (scheduler_remove (Some p) s).
Proof.
  intros Hp. assert (P : forall s', length (processes (ps s')) = length (processes (ps s)) ->
    pr (updp p (set_state v) s') p = set_state v (pr s' p)).
  { intros s' Hl. rewrite pr_updp, decide_True by (done || lia). done. }
  unfold scheduler_remove. rewrite P by done. cbn [prev next priority set_state].
  set (i := queue_of (priority (pr s p))).
  set (s1 := match prev (pr s p) with Some q => updp q (set_next (next (pr s p))) s | None => _ end).
  assert (E1 : match prev (pr s p) with
    | Some q => updp q (set_next (next (pr s p))) (updp p (set_state v) s)
    | None => set_rq i (next (pr s p)) (updp p (set_state v) s) end = updp p (set_state v) s1)
    by (unfold s1; destruct (prev (pr s p)); [by rewrite updp_comm|done]).
  assert (L1 : length (processes (ps s1)) = length (processes (ps s)))
    by (unfold s1; destruct (prev (pr s p)); [apply len_updp|done]).
  rewrite E1, P by done. cbn [prev next set_state]. clearbody s1.
  set (s2 := match next (pr s1 p) with Some q => updp q _ s1 | None => s1 end).
  assert (E2 : match next (pr s1 p) with
    | Some q => updp q (set_prev (prev (pr s1 p))) (updp p (set_state v) s1)
    | None => updp p (set_state v) s1 end = updp p (set_state v) s2)
    by (unfold s2; destruct (next (pr s1 p)); [by rewrite updp_comm|done]).
  rewrite E2, (updp_comm s2 p p) by done. clearbody s2.
  change (rq (updp p (set_state v) (updp p unlink s2)) i) with (rq (updp p unlink s2) i).
  by destruct (rq (updp p unlink s2) i).
Qed.

Lemma filter_ne_id (p : nat) (l : list nat) : p ∉ l -> filter (fun q => q <> p) l = l.
Proof.
  induction l as [|x l IH]; [done|]. intros [Hx Hl]%not_elem_of_cons.
  rewrite filter_cons_True by (by intros ->). f_equal. by apply IH.
Qed.

Lemma filter_ne_middle (p : nat) (l1 l2 : list nat) :
  NoDup (l1 ++ p :: l2) -> filter (fun q => q <> p) (l1 ++ p :: l2) = l1 ++ l2.
Proof.
  intros (_ & N12 & [Np _]%NoDup_cons)%NoDup_app.
  rewrite filter_app, filter_cons_False by (intros H; by apply H).
  rewrite !filter_ne_id; [done|done|]. intros Hp. apply (N12 p Hp). by left.
Qed.

Lemma sim_block_other s a a' (p : nat) :
  represents s a -> running a -> p <> a_current a -> a_block_other p a = Some a' ->
  exists s' w, scheduler_block (Some p) s = Some (s', w) /\ represents s' a' /\ running a'.
Proof.
  intros R Hr Hpc Ha. unfold a_block_other in Ha.
  destruct (a_queues a !! a_queue a p) as [l|] eqn:Hl; [|done]. destruct (decide (p ∈ l)) as [Hin|]; [|done].
  injection Ha as <-. pose proof (rp_inv _ _ R) as I.
  destruct (si_ready _ _ _ I _ _ _ Hl Hin) as (Hp & _ & _). destruct (si_queue _ _ _ I _ _ Hl) as [_ Hnd].
  apply list_elem_of_split in Hin as (l1 & l2 & ->).
  assert (Hq : Z.to_nat (queue_of (priority (pr s p))) = a_queue a p) by (by rewrite (rp_priority s a p R)).
  pose proof (remove_spec s _ _ p l1 l2 I) as Hrm. cbv zeta in Hrm. rewrite Hq in Hrm.
  destruct (Hrm Hl) as (I1 & E1 & L1). pose proof (sim_same_env s _ a _ R I1 E1 L1) as R1.
  rewrite filter_ne_middle by done.
  assert (Hu : unqueued (<[a_queue a p:=l1 ++ l2]> (a_queues a)) (a_sleep a) p).
  { split; [apply (ready_not_sleeping s _ _ _ _ p I Hl); set_solver|].
    intros j q Hj Hx. apply list_lookup_insert_Some in Hj as [(_ & <- & _)|[Hne Hj]].
    - apply NoDup_app in Hnd as (_ & N12 & [Np _]%NoDup_cons). apply elem_of_app in Hx as [Hx|Hx]; [|done].
      apply (N12 p Hx). by left.
    - apply Hne. apply (queues_disjoint s _ _ _ j _ _ p I Hl Hj); set_solver. }
  unfold scheduler_block. rewrite remove_set_state by (rewrite (si_table _ _ _ I); done).
  unfold process_current. cbn [ps current_process updp with_ps upd].
  rewrite decide_False by (rewrite (se_current _ _ E1), (rp_cur _ _ R); congruence).
  eexists _, _. split; [reflexivity|]. split; [apply sim_upd; try done; by left|].
  unfold running. cbn. by rewrite decide_False.
Qed.

(** ** The whole interface *)

Lemma sim_step s a a' (e : event) :
  represents s a -> running a -> a_step e a = Some a' ->
  exists s', c_step e s = Some s' /\ represents s' a' /\ running a'.
Proof.
  intros R Hr Ha. destruct e as [| |n|[p|]|p]; cbn [a_step c_step] in *;
    [edestruct sim_tick as (s' & w & -> & ?)|edestruct sim_yield as (s' & w & -> & ?)
    |edestruct sim_sleep as (s' & w & -> & ?)|destruct (decide (p = a_current a)) as [->|Hne];
      [edestruct sim_block_self as (s' & w & -> & ?)|edestruct sim_block_other as (s' & w & -> & ?)]
    |edestruct sim_block_self as (s' & w & -> & ?)|by eapply sim_unblock];
    try done; try (by left); try (by right); by exists s'.
Qed.

Lemma sim_run (es : list event) : forall s a a',
  represents s a -> running a -> a_run es a = Some a' ->
  exists s', c_run es s = Some s' /\ represents s' a' /\ running a'.
Proof.
  induction es as [|e es IH]; intros s a a' R Hr Ha; cbn [a_run c_run] in *.
  - injection Ha as <-. by exists s.
  - destruct (a_step e a) as [a1|] eqn:E; [|done].
    destruct (sim_step s a a1 e R Hr E) as (s1 & -> & R1 & Hr1). by apply (IH s1 a1).
Qed.

Lemma kept_wake (zs : list nat) : forall a, kept a -> kept (a_wake zs a).
Proof.
  induction zs as [|z zs IH]; intros a K; cbn [a_wake]; [done|].
  destruct (_ <=? _); [|done]. apply IH, kept_add. by destruct K.
Qed.

Lemma kept_step a a' (e : event) : kept a -> a_step e a = Some a' -> kept a'.
Proof.
  intros K Ha.
  assert (Hblock : a_block_self a = Some a' -> kept a').
  { unfold a_block_self. destruct (may_stop a); [|done]. apply kept_schedule. by apply kept_upd. }
  destruct e as [| |n|[p|]|p]; cbn [a_step] in Ha.
  - unfold a_tick in Ha. set (a0 := ASched _ _ _ _ _ _) in Ha.
    assert (K1 : kept (a_wake (a_sleep a0) a0)) by (apply kept_wake; by destruct K).
    set (a1 := a_wake _ a0) in *. clearbody a1. cbv zeta in Ha.
    assert (K2 := kept_upd (a_current a1) (fun x => set_total_time (u64 (total_time x + 1)) x) a1 K1
      ltac:(done) ltac:(done)).
    set (a2 := a_upd _ _ a1) in *. set (a3 := if 0 <? _ then _ else a2) in Ha.
    assert (K3 : kept a3) by (unfold a3; destruct (0 <? _); [by apply kept_upd|done]).
    destruct (_ =? 0); [by apply (kept_schedule a3)|by injection Ha as <-].
  - eapply kept_schedule; [|exact Ha]. by apply kept_upd.
  - unfold a_sleep_for in Ha. destruct (may_stop a); [|done]. eapply kept_schedule; [|exact Ha].
    destruct (kept_upd (a_current a) (set_state PROC_BLOCKED)
      (a_upd (a_current a) (set_wake_time (u64 (a_now a + n))) a)) as [Hl Hk]; [by apply kept_upd|done..|].
    by split.
  - destruct (decide (p = a_current a)); [by apply Hblock|]. unfold a_block_other in Ha.
    destruct (a_queues a !! a_queue a p) as [l|] eqn:Hl; [|done]. case_decide; [|done]. injection Ha as <-.
    destruct K as [Hlen Hk]. split; [cbn; by rewrite length_insert|]. intros q Hq Hid.
    rewrite a_queue_upd by done. change (a_queue (a_set_queues _ a) q) with (a_queue a q).
    cbn in Hq |- *. destruct (decide (q = p)) as [->|Hne]; [done|].
    destruct (Hk q Hq Hid) as (l' & Hlk & Hin). destruct (decide (a_queue a q = a_queue a p)) as [E|E].
    + rewrite E in *. rewrite Hl in Hlk. injection Hlk as <-. eexists.
      rewrite list_lookup_insert_eq by (by eapply lookup_lt_Some). split; [done|].
      by apply list_elem_of_filter.
    + exists l'. by rewrite list_lookup_insert_ne.
  - by apply Hblock.
  - unfold a_unblock in Ha. repeat case_decide; simplify_eq; [by apply kept_add|done].
Qed.

Lemma kept_run (es : list event) : forall a a', kept a -> a_run es a = Some a' -> kept a'.
Proof.
  induction es as [|e es IH]; intros a a' K Ha; cbn [a_run] in Ha; [by injection Ha as <-|].
  destruct (a_step e a) as [a1|] eqn:E; [|done]. apply (IH a1); [|done]. by apply (kept_step a a1 e).
Qed.

(** ** Theorems *)

(** C14: The linked queues, the bitmap and the sleep queue implement the abstract scheduler: over any
    sequence of ticks, yields, sleeps, blocks and unblocks inside its contract every call ends
    (no loop over a queue runs out of fuel), and the result represents the abstract one. *)
Theorem scheduler_refines s a (es : list event) (a' : asched) :
  represents s a -> running a -> a_run es a = Some a' ->
  exists s', c_run es s = Some s' /\ represents s' a' /\ running a'.
Proof. apply sim_run. Qed.

(** C15: Inside that contract no process is lost: after any sequence of calls a ready process is a
    member of the linked queue of its priority, and of no other. *)
Theorem scheduler_keeps_ready s a (es : list event) (a' : asched) :
  represents s a -> running a -> kept a -> a_run es a = Some a' ->
  exists s', c_run es s = Some s' /\
    forall p, state (pr s' p) = PROC_READY -> idle_proc s' <> Some p ->
      exists l, dll (pr s') (rq s' (queue_of (priority (pr s' p)))) l /\ p ∈ l /\
        forall (j : nat) l', (j < 32)%nat -> j <> Z.to_nat (queue_of (priority (pr s' p))) ->
          dll (pr s') (rq s' (Z.of_nat j)) l' -> p ∉ l'.
Proof.
  intros R Hr K Ha. destruct (sim_run es s a a' R Hr Ha) as (s' & Hs' & R' & _).
  exists s'. split; [done|]. intros p Hp Hid. pose proof (rp_inv _ _ R') as I'.
  rewrite (rp_state s' a' p R') in Hp. rewrite (rp_idle _ _ R') in Hid. rewrite (rp_priority s' a' p R').
  destruct (kp_ready _ (kept_run es a a' K Ha) p Hp Hid) as (l & Hl & Hin).
  exists l. split_and!; [by apply (si_queue _ _ _ I')|done|].
  intros j l' Hj Hne Hd Hin'. destruct (lookup_lt_is_Some_2 (a_queues a') j) as [l2 Hl2].
  { destruct (si_len _ _ _ I') as [_ ->]. lia. }
  destruct (si_queue _ _ _ I' _ _ Hl2) as [Hd2 _]. unfold rq in Hd. rewrite Nat2Z.id in Hd.
  rewrite (dll_unique _ _ _ _ Hd Hd2) in Hin'.
  apply Hne. symmetry. exact (queues_disjoint s' _ _ _ _ _ _ p I' Hl Hl2 Hin Hin').
Qed.

(** Outside of the contract: [scheduler_unblock] of a sleeper queues it again without taking it
    off the sleep queue.  The sleep queue then ends behind it: whoever slept after it is no
    longer linked. *)
Theorem unblock_sleeper_cuts_queue s Q (p : nat) (zs : list nat) :
  sched_inv s Q (p :: zs) ->
  exists s', scheduler_unblock (Some p) s = Some s' /\ state (pr s' p) = PROC_READY /\
    dseg (pr s') (prev (pr s' p)) (sleep_queue s') [p] None.
Proof.
  intros I. pose proof (si_table _ _ _ I) as Htab. destruct (si_sleep _ _ _ I) as (Hd & _ & _ & Hb).
  destruct (Hb p ltac:(by left)) as [Hp Hst]. apply dseg_head in Hd. cbn [head] in Hd.
  unfold scheduler_unblock. rewrite decide_True by done. unfold scheduler_add.
  rewrite decide_False by congruence. set (i := queue_of (priority (pr s p))).
  destruct (queue_exists s Q _ (priority (pr s p)) I) as [l Hl]. fold i in Hl.
  assert (Hrq : rq (updp p unlink s) i = match head l with Some h => Some h | None => None end)
    by exact (dseg_head _ _ _ _ _ (proj1 (si_queue _ _ _ I _ _ Hl))).
  rewrite Hrq. destruct l as [|h l]; cbn [head].
  - set (s1 := set_bitmap _ _). assert (P1 : pr s1 p = unlink (pr s p))
      by (change (pr (updp p unlink s) p = unlink (pr s p)); by rewrite pr_updp, decide_True by lia).
    assert (L1 : length (processes (ps s1)) = MAX_PROCESSES) by (cbn; by rewrite length_alter).
    eexists. split; [reflexivity|]. cbn [dseg]. rewrite !pr_updp by (rewrite ?len_updp; lia).
    rewrite !decide_True, P1 by done. by split_and!.
  - destruct (queue_tail s Q _ p _ h l I Hl Hp) as (t & _ & Ht & Htp & ->).
    { intros Hin. apply (ready_not_sleeping s Q _ _ _ p I Hl Hin). by left. }
    eexists. split; [reflexivity|]. cbn [dseg]. rewrite !pr_updp by (rewrite ?len_updp; lia).
    rewrite !(decide_True (P := p = p)), decide_False by done. by split_and!.
Qed.

End Refinement.

(** ** Witnesses *)

(** The abstract state of a scheduler with the given queues and no sleepers. *)
Definition abstraction {S} (Q : list (list nat)) (c : nat) (s : sched S) : asched :=
  ASched (pr s) Q [] c (current_tick s) (idle_proc s).

Lemma abstraction_represents {S} (Q : list (list nat)) (c : nat) (s : sched S) :
  sched_inv s Q [] -> current_process (ps s) = Some c -> (c < MAX_PROCESSES)%nat ->
  (forall d, idle_proc s = Some d -> (d < MAX_PROCESSES)%nat) -> represents s (abstraction Q c s).
Proof.
  intros I C Hc Hd. split; try done. intros d Hi. split; [by apply Hd|apply not_elem_of_nil].
Qed.

(** Thread 1 runs with priority 5, thread 2 waits with priority 6. *)
Definition demo_spec : asched := abstraction (demo_queues [(6, [2])]%nat) 1 demo_56.

Lemma demo_spec_represents : represents demo_56 demo_spec /\ running demo_spec.
Proof.
  destruct demo_56_running as (H1 & H2 & H3). split; [|exact H3].
  apply abstraction_represents; [exact H1|exact H2|unfold MAX_PROCESSES; lia|].
  intros d Hd. assert (E : idle_proc demo_56 = Some 0%nat) by (vm_compute; reflexivity).
  rewrite E in Hd. injection Hd as <-. unfold MAX_PROCESSES. lia.
Qed.

Definition demo_events : list event := [Yield; Tick; Yield; Sleep 2; Tick; Tick; Block (Some 1%nat); Unblock 1; Yield].

Lemma demo_events_safe : exists a', a_run demo_events demo_spec = Some a' /\ a_current a' = 1%nat.
Proof.
  assert (H : a_current <$> a_run demo_events demo_spec = Some 1%nat) by (vm_compute; reflexivity).
  destruct (a_run demo_events demo_spec) as [a'|]; [|discriminate H].
  exists a'. split; [reflexivity|]. by injection H.
Qed.

Lemma scheduler_refines_witness :
  exists s', c_run demo_events demo_56 = Some s' /\ current_process (ps s') = Some 1%nat.
Proof.
  destruct demo_spec_represents as [R Hr]. destruct demo_events_safe as (a' & Ha & Hc).
  destruct (scheduler_refines demo_56 demo_spec demo_events a' R Hr Ha) as (s' & E & R' & _).
  exists s'. split; [exact E|]. rewrite <- Hc. exact (rp_cur _ _ R').
Defined.

Lemma ready_slots_of (l : list process) (n p : nat) :
  state <$> l = [PROC_READY; PROC_RUNNING; PROC_READY] ++ replicate n PROC_UNUSED ->
  state (default proc_zero (l !! p)) = PROC_READY -> p = 0%nat \/ p = 2%nat.
Proof.
  intros Hall Hp. apply (f_equal (lookup p)) in Hall. rewrite list_lookup_fmap in Hall.
  destruct (l !! p) as [x|]; [|discriminate Hp]. cbn in Hp, Hall. rewrite Hp in Hall.
  destruct p as [|[|[|p]]]; [by left|discriminate Hall|by right|].
  symmetry in Hall. apply lookup_replicate in Hall as [Hall _]. discriminate Hall.
Qed.

Lemma demo_56_states (p : nat) : state (pr demo_56 p) = PROC_READY -> p = 0%nat \/ p = 2%nat.
Proof.
  assert (Hall : state <$> processes (ps demo_56)
    = [PROC_READY; PROC_RUNNING; PROC_READY] ++ replicate 61 PROC_UNUSED) by (vm_compute; reflexivity).
  exact (ready_slots_of _ _ p Hall).
Qed.

Lemma demo_spec_kept : kept demo_spec.
Proof.
  assert (Hidle : idle_proc demo_56 = Some 0%nat) by (vm_compute; reflexivity).
  assert (H2 : priority (pr demo_56 2) = 6) by (vm_compute; reflexivity).
  split; [reflexivity|]. unfold a_queue, demo_spec, abstraction. cbn [a_procs a_idle a_queues].
  intros p Hp Hid. destruct (demo_56_states p Hp) as [-> | ->].
  - by destruct Hid.
  - rewrite H2. exists [2%nat]. split; [reflexivity|by left].
Qed.

Lemma scheduler_keeps_ready_witness :
  exists s', c_run demo_events demo_56 = Some s' /\
    (state (pr s' 2) = PROC_READY -> idle_proc s' <> Some 2%nat ->
     exists l, dll (pr s') (rq s' (queue_of (priority (pr s' 2)))) l /\ 2%nat ∈ l).
Proof.
  destruct demo_spec_represents as [R Hr]. destruct demo_events_safe as (a' & Ha & _).
  destruct (scheduler_keeps_ready demo_56 demo_spec demo_events a' R Hr demo_spec_kept Ha) as (s' & E & H).
  exists s'. split; [exact E|]. intros H1 H2. destruct (H 2%nat H1 H2) as (l & Hd & Hin & _).
  exists l. split; [exact Hd|exact Hin].
Defined.

(** Threads 1 and 2 both asleep, the idle process running. *)
Lemma unblock_sleeper_cuts_queue_witness :
  exists s s', c_run [Sleep 5; Sleep 9] demo_56 = Some s /\ scheduler_unblock (Some 1%nat) s = Some s' /\
    dseg (pr s') (prev (pr s' 1)) (sleep_queue s') [1%nat] None.
Proof.
  destruct demo_spec_represents as [R Hr].
  assert (H : a_sleep <$> a_run [Sleep 5; Sleep 9] demo_spec = Some [1%nat; 2%nat]) by (vm_compute; reflexivity).
  destruct (a_run [Sleep 5; Sleep 9] demo_spec) as [a'|] eqn:Ha; [|discriminate H].
  destruct (sim_run [Sleep 5; Sleep 9] demo_56 demo_spec a' R Hr Ha) as (s & E & R' & _).
  pose proof (rp_inv _ _ R') as I. injection H as H. rewrite H in I.
  destruct (unblock_sleeper_cuts_queue s (a_queues a') 1 [2%nat] I) as (s' & E' & _ & Hd).
  exact (ex_intro _ s (ex_intro _ s' (conj E (conj E' Hd)))).
Defined.
