(* ===== verification/Threads.v ===== *)
(** * The demonstration threads ([kernel/kernel.c])

    [demo_thread_1] and [demo_thread_2] count to 100000 in a volatile variable
    and yield, forever.  A round is one pass through the body of the loop; the
    processor executes the round of whichever thread is current, and the yield
    at its end is where another thread goes on.  Threads that only do this take
    turns. *)

From S2P Require Import Prelude Mem PageAlloc Vmm Gdt Process Scheduler SchedSpec.

(** [for (volatile int i = 0; i < 100000; i++);] from [i] on *)
Fixpoint demo_delay (fuel : nat) (i : Z) : option Z :=
  if i <? 100000 then
    match fuel with O => None | S f => demo_delay f (s32 (i + 1)) end
  else Some i.
Definition DELAY_FUEL : nat := Z.to_nat 100000.

Lemma demo_delay_ends (fuel : nat) : forall i,
  0 <= i <= 100000 -> 100000 - i <= Z.of_nat fuel -> demo_delay fuel i = Some 100000.
Proof.
  induction fuel as [|fuel IH]; intros i Hi Hf; cbn [demo_delay].
  - rewrite (proj2 (Z.ltb_ge _ _)) by lia. f_equal. lia.
  - destruct (Z.ltb_spec i 100000); [|f_equal; lia]. rewrite s32_small by lia. apply IH; lia.
Qed.

(** The loop ends. *)
Lemma delay_over : demo_delay DELAY_FUEL 0 = Some 100000.
Proof. apply demo_delay_ends; [lia|]. unfold DELAY_FUEL. rewrite Z2Nat.id; lia. Qed.

#[global] Opaque DELAY_FUEL.

Lemma rotate_cons {A} (n : nat) (x : A) (l : list A) : rotate n (l ++ [x]) = rotate (S n) (x :: l).
Proof.
  apply list_eq. intros j. destruct (Nat.lt_ge_cases j (S (length l))) as [Hj|Hj].
  2: { rewrite !lookup_ge_None_2; [done|..]; rewrite length_rotate, ?length_app; cbn [length]; lia. }
  rewrite !lookup_rotate_r by (rewrite ?length_app; cbn [length]; lia).
  rewrite length_app. cbn [length]. rewrite Nat.add_1_r. unfold rotate_nat_add.
  set (L := Z.of_nat (S (length l))). set (r := (Z.of_nat n + Z.of_nat j) mod L).
  assert (Hr : 0 <= r < L) by (apply Z.mod_pos_bound; lia).
  replace ((Z.of_nat (S n) + Z.of_nat j) mod L) with ((r + 1) mod L)
    by (unfold r; rewrite Zplus_mod_idemp_l; f_equal; lia).
  destruct (Z.eq_dec (r + 1) L) as [E|E].
  - rewrite E, Z_mod_same_full. rewrite lookup_app_r by lia.
    replace (Z.to_nat r - length l)%nat with 0%nat by lia. done.
  - rewrite Z.mod_small by lia. replace (Z.to_nat (r + 1)) with (S (Z.to_nat r)) by lia.
    cbn. rewrite lookup_app_l by lia. done.
Qed.

Section Threads.
  Context {S : Type} {PA : PageAllocator S} {RA : RunAllocator S}.
  Implicit Types s : sched S.

Definition demo_thread_1 s : option (sched S) :=
  demo_delay DELAY_FUEL 0 ≫= fun _ => fst <$> scheduler_yield s.
Definition demo_thread_2 s : option (sched S) :=
  demo_delay DELAY_FUEL 0 ≫= fun _ => fst <$> scheduler_yield s.

(** [first c]: the process [c] was created with the entry point [demo_thread_1]. *)
Fixpoint demo_rounds (first : nat -> bool) (n : nat) s : option (sched S) :=
  match n with
  | O => Some s
  | Datatypes.S n =>
      match process_current (ps s) with
      | None => None
      | Some c =>
          match (if first c then demo_thread_1 s else demo_thread_2 s) with
          | Some s => demo_rounds first n s
          | None => None
          end
      end
  end.

Lemma demo_threads_yield (b : bool) s :
  (if b then demo_thread_1 s else demo_thread_2 s) = c_step Yield s.
Proof.
  unfold demo_thread_1, demo_thread_2. rewrite delay_over. by destruct b.
Qed.

(** The current process and those that wait in its queue, in the order of their turns. *)
Definition ring (i : nat) (a : asched) : list nat := a_current a :: default [] (a_queues a !! i).

(** One turn. *)
Lemma yield_rotates s (a : asched) (i h : nat) (l : list nat) :
  represents s a -> running a -> i = a_queue a (a_current a) ->
  (forall j, (j < i)%nat -> a_queues a !! j = Some []) -> a_queues a !! i = Some (h :: l) ->
  exists a', a_step Yield a = Some a' /\ ring i a' = h :: l ++ [a_current a] /\
    i = a_queue a' (a_current a') /\
    (forall j, j <> i -> a_queues a' !! j = a_queues a !! j).
Proof.
  intros R Hr Hi Hlow Hl. cbn [a_step]. unfold a_yield, a_schedule.
  pose proof (first_ready_spec (a_queues a)) as Hfr. cbn [a_queues a_upd].
  destruct (first_ready (a_queues a)) as [[i' h']|].
  2: { by apply Hfr in Hl. }
  assert (i' = i /\ h' = h) as [-> ->].
  { destruct Hfr as [l' [Hi' Hlow']]. destruct (Nat.lt_trichotomy i i') as [Hlt|[<-|Hlt]].
    - by rewrite (Hlow' i Hlt) in Hl.
    - by simplify_eq.
    - by rewrite (Hlow i' Hlt) in Hi'. }
  set (a1 := a_upd (a_current a) (set_time_slice 0) a).
  assert (Hr1 : running a1) by (unfold running; cbn; by rewrite decide_True).
  assert (Eq : forall q, a_queue a1 q = a_queue a q) by (intros q; by apply a_queue_upd).
  eexists. split; [reflexivity|]. unfold a_requeue. rewrite decide_True by done.
  unfold ring, a_add, a_pop, a_dispatch. cbn [a_queues a_current a_upd a_set_queues a_procs].
  rewrite Eq. change (a_current a1) with (a_current a). change (a_queues a1) with (a_queues a). rewrite <- Hi.
  split_and!.
  - rewrite !list_lookup_alter_eq, Hl. done.
  - destruct (si_ready _ _ _ (rp_inv _ _ R) i _ h Hl ltac:(by left)) as (_ & Hq & _).
    rewrite (rp_priority s a h R) in Hq. unfold a_queue. cbn. repeat case_decide; cbn; by rewrite Hq, Nat2Z.id.
  - intros j Hj. by rewrite !list_lookup_alter_ne.
Qed.

(** Turns of threads of one priority. *)
Lemma rounds_rotate (first : nat -> bool) (n : nat) : forall s (a : asched) (i : nat),
  represents s a -> running a -> i = a_queue a (a_current a) ->
  (forall j, (j < i)%nat -> a_queues a !! j = Some []) -> a_queues a !! i <> Some [] ->
  exists s' a', demo_rounds first n s = Some s' /\ represents s' a' /\ running a' /\
    ring i a' = rotate n (ring i a) /\ (forall j, j <> i -> a_queues a' !! j = a_queues a !! j).
Proof.
  induction n as [|n IH]; intros s a i R Hr Hi Hlow Hne.
  - exists s, a. split_and!; try done. unfold rotate. rewrite Nat.Div0.mod_0_l. cbn. by rewrite app_nil_r.
  - destruct (a_queues a !! i) as [[|h l]|] eqn:Hl; [done| |].
    2: { destruct (queue_exists s _ _ (priority (a_procs a (a_current a))) (rp_inv _ _ R)) as [x Hx].
         fold (a_queue a (a_current a)) in Hx. rewrite <- Hi in Hx. congruence. }
    destruct (yield_rotates s a i h l R Hr Hi Hlow Hl) as (a1 & Ha & Hring & Hi1 & Hoth).
    destruct (sim_step s a a1 Yield R Hr Ha) as (s1 & Hs & R1 & Hr1).
    cbn [demo_rounds]. unfold process_current. rewrite (rp_cur _ _ R), demo_threads_yield, Hs.
    destruct (IH s1 a1 i R1 Hr1 Hi1) as (s' & a' & -> & R' & Hr' & E' & O').
    { intros j Hj. rewrite Hoth by lia. by apply Hlow. }
    { intros E. unfold ring in Hring. rewrite E in Hring. cbn in Hring. destruct l; discriminate. }
    exists s', a'. split_and!; try done.
    + rewrite E', Hring. unfold ring. rewrite Hl. cbn [default].
      apply (rotate_cons n (a_current a) (h :: l)).
    + intros j Hj. by rewrite O', Hoth.
Qed.

(** C16: The threads of the highest ready priority take turns: after [n] rounds the processor is with
    the one [n] places further in the ring of the running thread and its queue, every call of
    [scheduler_yield] on the way returned, and the threads of other queues did not run.  So each
    of [k] threads runs once in every [k] rounds. *)
Theorem demo_threads_round_robin (first : nat -> bool) (n : nat) s (a : asched) :
  let i := a_queue a (a_current a) in
  represents s a -> running a -> (forall j, (j < i)%nat -> a_queues a !! j = Some []) ->
  a_queues a !! i <> Some [] ->
  exists s' a', demo_rounds first n s = Some s' /\ represents s' a' /\
    current_process (ps s') = ring i a !! (n mod length (ring i a))%nat /\
    ring i a' = rotate n (ring i a) /\
    forall j, j <> i -> a_queues a' !! j = a_queues a !! j.
Proof.
  intros i R Hr Hlow Hne.
  destruct (rounds_rotate first n s a i R Hr eq_refl Hlow Hne) as (s' & a' & E & R' & _ & Hring & Ho).
  exists s', a'. split_and!; try done. rewrite (rp_cur _ _ R').
  assert (H0 : ring i a' !! 0%nat = Some (a_current a')) by done. rewrite <- H0, Hring.
  rewrite lookup_rotate_r by (cbn; lia). unfold rotate_nat_add. f_equal.
  rewrite Z.add_0_r, <- Nat2Z.inj_mod, Nat2Z.id. done.
Qed.

End Threads.

(** Threads 1 and 2, both of priority 5. *)
Lemma demo_threads_round_robin_witness :
  exists s', demo_rounds (fun c => bool_decide (c = 1%nat)) 3 demo_55 = Some s' /\
    current_process (ps s') = Some 2%nat.
Proof.
  destruct demo_55_running as (H1 & H3). set (a := abstraction (demo_queues [(5, [2])]%nat) 1 demo_55).
  assert (Hid : idle_proc demo_55 = Some 0%nat) by (vm_compute; reflexivity).
  assert (Hq : a_queue a 1 = 5%nat) by (vm_compute; reflexivity).
  assert (R : represents demo_55 a).
  { apply abstraction_represents; [exact H1|vm_compute; reflexivity|unfold MAX_PROCESSES; lia|].
    rewrite Hid. intros d [= <-]. unfold MAX_PROCESSES. lia. }
  destruct (demo_threads_round_robin (fun c => bool_decide (c = 1%nat)) 3 demo_55 a R H3)
    as (s' & a' & E & _ & C & _).
  - change (a_current a) with 1%nat. rewrite Hq. intros j Hj.
    destruct j as [|[|[|[|[|j]]]]]; (reflexivity || lia).
  - change (a_current a) with 1%nat. rewrite Hq. discriminate.
  - exists s'. split; [exact E|]. rewrite C. change (a_current a) with 1%nat. rewrite Hq. reflexivity.
Defined.
