(* ===== verification/Syscall.v ===== *)
(** * System calls ([kernel/syscall/syscall.c], [kernel/syscall/syscall_entry.S])

    The model-specific registers that [syscall_init] programs, the dispatcher
    with its table, and the entry stub as a transformation of the registers and
    the stack.  The processor's SYSRET is described by the selectors it loads
    from STAR. *)

From S2P Require Import Prelude Mem Gdt Process.

Definition MSR_EFER : Z := 0xC0000080.
Definition MSR_STAR : Z := 0xC0000081.
Definition MSR_LSTAR : Z := 0xC0000082.
Definition MSR_CSTAR : Z := 0xC0000083.
Definition MSR_SFMASK : Z := 0xC0000084.
Definition EFER_SCE : Z := 1.

Definition SYS_READ : Z := 0.

(** ** Model-specific registers *)

(** [rdmsr] gives the two halves in EDX:EAX; the code puts them together. *)
Definition rdmsr (msr : Z) (r : gmap Z Z) : Z :=
  let v := u64 (default 0 (r !! msr)) in
  let low := v mod 2 ^ 32 in
  let high := v / 2 ^ 32 in
  Z.lor (u64 (Z.shiftl high 32)) low.

Definition wrmsr (msr value : Z) (r : gmap Z Z) : gmap Z Z :=
  let low := u32 (Z.land value 0xFFFFFFFF) in
  let high := u32 (Z.shiftr value 32) in
  <[msr := low + 2 ^ 32 * high]> r.

(** [entry] is the address of [syscall_entry]. *)
Definition syscall_init (entry : Z) (r : gmap Z Z) : gmap Z Z :=
  let efer := rdmsr MSR_EFER r in
  let r := wrmsr MSR_EFER (Z.lor efer EFER_SCE) r in
  let star := Z.lor (u64 (Z.shiftl 0x18 48)) (u64 (Z.shiftl 0x08 32)) in
  let r := wrmsr MSR_STAR star r in
  let r := wrmsr MSR_LSTAR entry r in
  wrmsr MSR_SFMASK 0x200 r.

(** ** Handlers and dispatch *)







(** ** The entry stub *)



Section Entry.
  (** What the C call, with its return address on the stack, leaves in the caller-saved
      registers and in memory. *)
  Context (scratch : Z -> Z) (callee : memory -> memory).


End Entry.

(** ** Theorems *)






(** *** Selectors *)

(** The selectors of 64-bit SYSCALL and SYSRET, from STAR. *)
Definition syscall_cs (star : Z) : Z := star / 2 ^ 32 mod 2 ^ 16 / 4 * 4.
Definition syscall_ss (star : Z) : Z := syscall_cs star + 8.
Definition sysret_cs (star : Z) : Z := Z.lor (star / 2 ^ 48 mod 2 ^ 16 + 16) 3.
Definition sysret_ss (star : Z) : Z := Z.lor (star / 2 ^ 48 mod 2 ^ 16 + 8) 3.
(** The index in the table of a selector. *)
Definition sel_index (sel : Z) : Z := sel / 8.

Lemma rdmsr_value (msr : Z) (r : gmap Z Z) : rdmsr msr r = u64 (default 0 (r !! msr)).
Proof.
  unfold rdmsr. cbv zeta. set (v := u64 (default _ _)). assert (0 <= v < 2 ^ 64) by (apply uwrap_range; lia).
  clearbody v. rewrite Z.shiftl_mul_pow2 by lia. rewrite (uwrap_small 64) by dlia.
  rewrite lor_low by dlia. dlia.
Qed.

Lemma wrmsr_value (msr value : Z) (r : gmap Z Z) :
  0 <= value < 2 ^ 64 -> wrmsr msr value r = <[msr := value]> r.
Proof.
  intros Hv. unfold wrmsr. f_equal. rewrite land_ffffffff, Z.shiftr_div_pow2 by lia.
  unfold uwrap. dlia.
Qed.

(** [syscall_init] enables SYSCALL, keeps the other EFER bits, sets the entry
    point and the flag mask, and gives SYSCALL the kernel code and data segments
    that [gdt_init] built.  For SYSRET it stores 0x18: in 64-bit mode the
    processor then loads CS with slot 5, the TSS descriptor, instead of the
    user code segment of slot 3 that the comment names. *)
Theorem syscall_init_correct (entry : Z) (r : gmap Z Z) :
  0 <= entry < 2 ^ 64 ->
  let r' := syscall_init entry r in
  let star := rdmsr MSR_STAR r' in
  rdmsr MSR_LSTAR r' = entry /\ rdmsr MSR_SFMASK r' = 0x200 /\
  (forall i, 0 <= i < 64 ->
     Z.testbit (rdmsr MSR_EFER r') i = (i =? 0) || Z.testbit (rdmsr MSR_EFER r) i) /\
  sel_index (syscall_cs star) = GDT_KERNEL_CODE /\ sel_index (syscall_ss star) = GDT_KERNEL_DATA /\
  sel_index (sysret_ss star) = GDT_USER_DATA /\
  sel_index (sysret_cs star) = GDT_TSS_LOW.
Proof.
  intros He. unfold syscall_init.
  assert (Hef : 0 <= Z.lor (rdmsr MSR_EFER r) EFER_SCE < 2 ^ 64).
  { apply lor_range; [lia| |unfold EFER_SCE; lia]. rewrite rdmsr_value. by apply uwrap_range. }
  set (e0 := rdmsr MSR_EFER r) in *.
  rewrite !wrmsr_value by (done || lia).
  set (star := Z.lor _ (u64 (Z.shiftl 0x08 32))).
  assert (Estar : star = 0x0018000800000000) by reflexivity. rewrite Estar.
  rewrite !rdmsr_value. unfold MSR_LSTAR, MSR_SFMASK, MSR_EFER, MSR_STAR.
  repeat first [rewrite lookup_insert_eq | rewrite lookup_insert_ne by lia]. cbn [default id].
  rewrite !(uwrap_small 64) by lia. split_and!; [done|done| |reflexivity..].
  intros i Hi. rewrite Z.lor_spec. unfold EFER_SCE, e0. rewrite orb_comm. f_equal.
Qed.

(** ** Examples *)



Lemma syscall_init_correct_witness :
  rdmsr MSR_LSTAR (syscall_init 0x100000 {[MSR_EFER := 0xD00]}) = 0x100000.
Proof. exact (proj1 (syscall_init_correct 0x100000 {[MSR_EFER := 0xD00]} ltac:(lia))). Defined.
