(* ===== verification/Pic.v ===== *)
(** * The interrupt controllers and the timer ([kernel/cpu/pic.c],
    [kernel/drivers/timer.c])

    The drivers are sequences of port accesses over the device interface of
    [Io.v].  What the theorems need of the 8259 (that its data port holds the
    mask register once it is initialised) is the class [Pic8259]. *)

From S2P Require Import Prelude Io.

Definition PIC1_COMMAND : Z := 0x20.
Definition PIC1_DATA : Z := 0x21.
Definition PIC2_COMMAND : Z := 0xA0.
Definition PIC2_DATA : Z := 0xA1.
Definition PIC_EOI : Z := 0x20.
Definition PIC_ICW1_INIT : Z := 0x11.
Definition PIC_ICW1_ICW4 : Z := 0x01.
Definition PIC_ICW4_8086 : Z := 0x01.
Definition PIC1_OFFSET : Z := 0x20.
Definition PIC2_OFFSET : Z := 0x28.

Section Pic.
  Context {D : Type} {PD : PortDevice D}.

Definition pic_send_command (pic cmd : Z) (s : io D) : io D := io_wait (outb (u8 pic) (u8 cmd) s).
Definition pic_send_data (pic data : Z) (s : io D) : io D := io_wait (outb (u8 pic) (u8 data) s).

Definition pic_init (s : io D) : io D :=
  let s := pic_send_command PIC1_COMMAND (Z.lor PIC_ICW1_INIT PIC_ICW1_ICW4) s in
  let s := pic_send_data PIC1_DATA PIC1_OFFSET s in
  let s := pic_send_data PIC1_DATA (Z.shiftl 1 2) s in
  let s := pic_send_data PIC1_DATA PIC_ICW4_8086 s in
  let s := pic_send_command PIC2_COMMAND (Z.lor PIC_ICW1_INIT PIC_ICW1_ICW4) s in
  let s := pic_send_data PIC2_DATA PIC2_OFFSET s in
  let s := pic_send_data PIC2_DATA 2 s in
  let s := pic_send_data PIC2_DATA PIC_ICW4_8086 s in
  let s := pic_send_data PIC1_DATA 0xFB s in
  pic_send_data PIC2_DATA 0xFF s.

Definition pic_eoi (irq : Z) (s : io D) : io D :=
  let s := if 8 <=? irq then pic_send_command PIC2_COMMAND PIC_EOI s else s in
  pic_send_command PIC1_COMMAND PIC_EOI s.

Definition pic_disable (s : io D) : io D := pic_send_data PIC2_DATA 0xFF (pic_send_data PIC1_DATA 0xFF s).

(** The data port and the bit of an interrupt line. *)
Definition irq_port (irq : Z) : Z := if irq <? 8 then PIC1_DATA else PIC2_DATA.
Definition irq_bit (irq : Z) : Z := if irq <? 8 then irq else u8 (irq - 8).

Definition pic_enable_irq (irq : Z) (s : io D) : io D :=
  let port := irq_port irq in
  let irq := irq_bit irq in
  let '(v, s) := inb port s in
  let value := u8 (Z.land v (Z.lnot (Z.shiftl 1 irq))) in
  outb port value s.

Definition pic_disable_irq (irq : Z) (s : io D) : io D :=
  let port := irq_port irq in
  let irq := irq_bit irq in
  let '(v, s) := inb port s in
  let value := u8 (Z.lor v (Z.shiftl 1 irq)) in
  outb port value s.

End Pic.

(** ** The timer *)

Definition PIT_CHANNEL0 : Z := 0x40.
Definition PIT_COMMAND : Z := 0x43.
Definition PIT_CHANNEL0_SEL : Z := 0x00.
Definition PIT_ACCESS_LOHI : Z := 0x30.
Definition PIT_MODE2 : Z := 0x04.
Definition PIT_BINARY : Z := 0x00.
Definition PIT_FREQUENCY : Z := 1193182.

(** The tick counter and the callback: [None] is NULL, [Some] an address. *)
Record timer := Timer { timer_ticks : Z; timer_callback : option Z }.

Section Timer.
  Context {D : Type} {PD : PortDevice D}.

(** [None]: the division faults for a frequency of 0. *)
Definition timer_init (frequency : Z) (s : io D) : option (io D) :=
  if frequency =? 0 then None
  else
    let divisor := PIT_FREQUENCY / frequency in
    let s := outb PIT_COMMAND
               (Z.lor (Z.lor (Z.lor PIT_CHANNEL0_SEL PIT_ACCESS_LOHI) PIT_MODE2) PIT_BINARY) s in
    let s := outb PIT_CHANNEL0 (Z.land divisor 0xFF) s in
    let s := outb PIT_CHANNEL0 (Z.land (Z.shiftr divisor 8) 0xFF) s in
    Some (pic_enable_irq 0 s).

(** [timer_handler]: counts, and returns the callback it calls. *)
Definition timer_handler (t : timer) : timer * option Z :=
  (Timer (u64 (timer_ticks t + 1)) (timer_callback t), timer_callback t).
Definition timer_get_ticks (t : timer) : Z := timer_ticks t.
Definition timer_set_callback (cb : option Z) (t : timer) : timer := Timer (timer_ticks t) cb.

End Timer.

(** ** The mask registers *)

(** The documented behaviour of the pair of 8259s the driver relies on: after
    the initialisation sequence ([ready]) an access of a data port reads or
    writes the mask register of that controller. *)
Class Pic8259 (D : Type) `{PortDevice D} := {
  ready : D -> Prop;
  mask : D -> Z -> Z;
  mask_in : forall d p, ready d -> p = PIC1_DATA \/ p = PIC2_DATA ->
    fst (port_in 8 p d) = mask d p /\ ready (snd (port_in 8 p d)) /\
    forall q, mask (snd (port_in 8 p d)) q = mask d q;
  mask_out : forall d p v, ready d -> p = PIC1_DATA \/ p = PIC2_DATA ->
    ready (port_out 8 p v d) /\
    forall q, mask (port_out 8 p v d) q = if q =? p then v else mask d q
}.

Section Masks.
  Context {D : Type} {PD : PortDevice D} {PIC : Pic8259 D}.

(** Is line [irq] masked? *)
Definition masked (d : D) (irq : Z) : bool := Z.testbit (mask d (irq_port irq)) (irq mod 8).

Lemma irq_bit_mod (irq : Z) : 0 <= irq < 16 -> irq_bit irq = irq mod 8.
Proof. intros H. unfold irq_bit. destruct (Z.ltb_spec irq 8); [|rewrite uwrap_small by lia]; dlia. Qed.

Lemma irq_port_cases (irq : Z) : irq_port irq = PIC1_DATA \/ irq_port irq = PIC2_DATA.
Proof. unfold irq_port. destruct (irq <? 8); auto. Qed.

Lemma irq_unique (i j : Z) :
  0 <= i < 16 -> 0 <= j < 16 -> irq_port i = irq_port j -> i mod 8 = j mod 8 -> i = j.
Proof.
  unfold irq_port, PIC1_DATA, PIC2_DATA. intros Hi Hj.
  destruct (Z.ltb_spec i 8), (Z.ltb_spec j 8); intros; dlia.
Qed.

(** Storing a new mask for the controller of [irq]. *)
Lemma mask_update (d : D) (irq : Z) (f : Z -> Z) :
  ready d ->
  let p := irq_port irq in
  let d' := port_out 8 p (f (fst (port_in 8 p d))) (snd (port_in 8 p d)) in
  ready d' /\ forall q, mask d' q = if q =? p then f (mask d p) else mask d q.
Proof.
  intros Hr p d'. destruct (mask_in d p Hr (irq_port_cases irq)) as (E1 & R1 & M1).
  destruct (mask_out (snd (port_in 8 p d)) p (f (fst (port_in 8 p d))) R1 (irq_port_cases irq)) as [R2 M2].
  split; [done|]. intros q. unfold d'. rewrite M2, M1, E1. done.
Qed.

(** [pic_enable_irq] unmasks exactly the line it is given and
    [pic_disable_irq] masks exactly that line, on either controller, for all
    sixteen lines. *)
Theorem pic_irq_mask_correct (s : io D) (irq : Z) :
  ready (dev s) -> 0 <= irq < 16 ->
  let e := dev (pic_enable_irq irq s) in
  let d := dev (pic_disable_irq irq s) in
  ready e /\ ready d /\
  forall i, 0 <= i < 16 ->
    masked e i = negb (i =? irq) && masked (dev s) i /\ masked d i = (i =? irq) || masked (dev s) i.
Proof.
  intros Hr Hirq e d. set (p := irq_port irq). set (k := irq mod 8).
  pose proof (irq_bit_mod irq Hirq) as Hk. fold k in Hk.
  assert (Hk8 : 0 <= k < 8) by (apply Z.mod_pos_bound; lia).
  set (fe := fun v => u8 (u8 (Z.land (u8 v) (Z.lnot (Z.shiftl 1 k))))).
  set (fd := fun v => u8 (u8 (Z.lor (u8 v) (Z.shiftl 1 k)))).
  assert (Ee : e = port_out 8 p (fe (fst (port_in 8 p (dev s)))) (snd (port_in 8 p (dev s)))).
  { unfold e, pic_enable_irq, inb, outb, port_read, port_write, fe. rewrite Hk. fold p.
    by destruct (port_in 8 p (dev s)). }
  assert (Ed : d = port_out 8 p (fd (fst (port_in 8 p (dev s)))) (snd (port_in 8 p (dev s)))).
  { unfold d, pic_disable_irq, inb, outb, port_read, port_write, fd. rewrite Hk. fold p.
    by destruct (port_in 8 p (dev s)). }
  destruct (mask_update (dev s) irq fe Hr) as [Re Me]. fold p in Re, Me. rewrite <- Ee in Re, Me.
  destruct (mask_update (dev s) irq fd Hr) as [Rd Md]. fold p in Rd, Md. rewrite <- Ed in Rd, Md.
  split_and!; [done|done|]. intros i Hi. unfold masked. rewrite Me, Md.
  assert (Hi8 : 0 <= i mod 8 < 8) by (apply Z.mod_pos_bound; lia).
  destruct (Z.eqb_spec (irq_port i) p) as [Hp|Hp].
  - rewrite <- Hp. unfold fe, fd.
    rewrite !uwrap_testbit, Z.land_spec, Z.lor_spec, Z.lnot_spec, shiftl_1_testbit, !uwrap_testbit by lia.
    rewrite (proj2 (Z.ltb_lt _ 8)) by lia. cbn [andb].
    destruct (Z.eqb_spec i irq) as [->|Hne].
    + unfold k. rewrite Z.eqb_refl. cbn. by rewrite andb_false_r, orb_true_r.
    + rewrite (proj2 (Z.eqb_neq k (i mod 8))).
      * cbn. by rewrite andb_true_r, orb_false_r.
      * intros E. apply Hne. by apply irq_unique.
  - rewrite (proj2 (Z.eqb_neq i irq)); [done|]. intros ->. done.
Qed.

End Masks.

(** ** Initialisation

    The documented initialisation protocol of the 8259: a command with bits 0 and
    4 set starts it, and the data port then takes three command words before it
    holds the mask again.  [icws d p] is the number of words still expected at
    data port [p].  Other ports do not reach the controllers. *)

Class Pic8259Init (D : Type) `{Pic8259 D} := {
  icws : D -> Z -> nat;
  icw_ready : forall d, ready d <-> icws d PIC1_DATA = O /\ icws d PIC2_DATA = O;
  icw_start : forall d p, p = PIC1_DATA \/ p = PIC2_DATA ->
    forall q, icws (port_out 8 (p - 1) (Z.lor PIC_ICW1_INIT PIC_ICW1_ICW4) d) q = if q =? p then 3%nat else icws d q;
  icw_next : forall d p v n, p = PIC1_DATA \/ p = PIC2_DATA -> icws d p = S n ->
    forall q, icws (port_out 8 p v d) q = if q =? p then n else icws d q;
  other_out : forall d p v, (p ∉ [PIC1_COMMAND; PIC1_DATA; PIC2_COMMAND; PIC2_DATA]) ->
    forall q, icws (port_out 8 p v d) q = icws d q /\ mask (port_out 8 p v d) q = mask d q
}.

Section InitMasks.
  Context {D : Type} {PD : PortDevice D} {PIC : Pic8259 D} {INI : Pic8259Init D}.

(** A write to a port of another device. *)
Lemma other_ready (s : io D) (p v : Z) :
  ready (dev s) -> (p ∉ [PIC1_COMMAND; PIC1_DATA; PIC2_COMMAND; PIC2_DATA]) ->
  ready (dev (outb p v s)) /\ forall q, mask (dev (outb p v s)) q = mask (dev s) q.
Proof.
  intros Hr Hp. unfold outb, port_write. cbn [dev]. pose proof (other_out (dev s) p (uwrap 8 v) Hp) as Ho.
  split; [|intros q; apply Ho]. apply icw_ready in Hr as [H1 H2]. apply icw_ready.
  by rewrite (proj1 (Ho _)), (proj1 (Ho _)).
Qed.

Lemma wait_port : 0x80 ∉ [PIC1_COMMAND; PIC1_DATA; PIC2_COMMAND; PIC2_DATA].
Proof. rewrite !not_elem_of_cons. unfold PIC1_COMMAND, PIC1_DATA, PIC2_COMMAND, PIC2_DATA. split_and!; try lia. apply not_elem_of_nil. Qed.

(** Writing a mask. *)
Lemma send_mask (s : io D) (p v : Z) :
  ready (dev s) -> p = PIC1_DATA \/ p = PIC2_DATA -> 0 <= v < 2 ^ 8 ->
  ready (dev (pic_send_data p v s)) /\
  forall q, mask (dev (pic_send_data p v s)) q = if q =? p then v else mask (dev s) q.
Proof.
  intros Hr Hp Hv. unfold pic_send_data, io_wait.
  assert (Hp8 : u8 p = p) by (apply uwrap_small; unfold PIC1_DATA, PIC2_DATA in Hp; lia).
  rewrite Hp8, (uwrap_small 8 v) by done.
  assert (H1 : ready (dev (outb p v s)) /\ forall q, mask (dev (outb p v s)) q = if q =? p then v else mask (dev s) q).
  { unfold outb, port_write. cbn [dev]. rewrite (uwrap_small 8 v) by done. by apply mask_out. }
  destruct H1 as [R1 M1]. destruct (other_ready (outb p v s) 0x80 0 R1 wait_port) as [R2 M2].
  split; [exact R2|]. intros q. rewrite M2. apply M1.
Qed.

(** The words of one controller, with the waits in between. *)
Lemma wait_icws (s : io D) (q : Z) : icws (dev (io_wait s)) q = icws (dev s) q.
Proof. unfold io_wait, outb, port_write. cbn [dev]. apply other_out, wait_port. Qed.

Lemma send_icw (s : io D) (p v : Z) (n : nat) (q : Z) :
  p = PIC1_DATA \/ p = PIC2_DATA -> icws (dev s) p = S n ->
  icws (dev (pic_send_data p v s)) q = if q =? p then n else icws (dev s) q.
Proof.
  intros Hp Hn. unfold pic_send_data. rewrite wait_icws. unfold outb, port_write. cbn [dev].
  rewrite (uwrap_small 8 p) by (unfold PIC1_DATA, PIC2_DATA in Hp; lia). by apply icw_next.
Qed.

Lemma start_icw (s : io D) (p q : Z) :
  p = PIC1_DATA \/ p = PIC2_DATA ->
  icws (dev (pic_send_command (p - 1) (Z.lor PIC_ICW1_INIT PIC_ICW1_ICW4) s)) q
  = if q =? p then 3%nat else icws (dev s) q.
Proof.
  intros Hp. unfold pic_send_command. rewrite wait_icws. unfold outb, port_write. cbn [dev].
  rewrite (uwrap_small 8 (p - 1)) by (unfold PIC1_DATA, PIC2_DATA in Hp; lia). by apply icw_start.
Qed.

Lemma icw_sequence (s : io D) (p o c w q : Z) :
  p = PIC1_DATA \/ p = PIC2_DATA ->
  icws (dev (pic_send_data p w (pic_send_data p c (pic_send_data p o
    (pic_send_command (p - 1) (Z.lor PIC_ICW1_INIT PIC_ICW1_ICW4) s))))) q
  = if q =? p then 0%nat else icws (dev s) q.
Proof.
  intros Hp. set (s1 := pic_send_command _ _ s). set (s2 := pic_send_data p o s1). set (s3 := pic_send_data p c s2).
  assert (E1 := fun q => start_icw s p q Hp). fold s1 in E1.
  assert (E2 := fun q => send_icw s1 p o 2 q Hp ltac:(by rewrite E1, Z.eqb_refl)). fold s2 in E2.
  assert (E3 := fun q => send_icw s2 p c 1 q Hp ltac:(by rewrite E2, Z.eqb_refl)). fold s3 in E3.
  rewrite (send_icw s3 p w 0 q Hp) by (by rewrite E3, Z.eqb_refl). rewrite E3, E2, E1. by destruct (q =? p).
Qed.

(** Whatever state the controllers were in, [pic_init] leaves them operational
    with every line masked but the cascade; [pic_disable] masks all sixteen. *)
Theorem pic_init_correct (s : io D) :
  let s' := pic_init s in
  ready (dev s') /\ (forall i, 0 <= i < 16 -> masked (dev s') i = negb (i =? 2)) /\
  ready (dev (pic_disable s')) /\ forall i, 0 <= i < 16 -> masked (dev (pic_disable s')) i = true.
Proof.
  cbv zeta. unfold pic_init. set (s1 := pic_send_data PIC2_DATA PIC_ICW4_8086 _).
  assert (R1 : ready (dev s1)).
  { apply icw_ready. unfold s1. change PIC2_COMMAND with (PIC2_DATA - 1). change PIC1_COMMAND with (PIC1_DATA - 1).
    rewrite !(icw_sequence _ PIC2_DATA), (icw_sequence _ PIC1_DATA) by auto. done. }
  destruct (send_mask s1 PIC1_DATA 0xFB R1) as [R2 M2]; [auto|lia|].
  destruct (send_mask _ PIC2_DATA 0xFF R2) as [R3 M3]; [auto|lia|].
  set (s3 := pic_send_data PIC2_DATA 255 _) in *.
  destruct (send_mask s3 PIC1_DATA 0xFF R3) as [R4 M4]; [auto|lia|].
  destruct (send_mask _ PIC2_DATA 0xFF R4) as [R5 M5]; [auto|lia|].
  assert (H16 : forall (P : Z -> Prop), (forall n, (n < 16)%nat -> P (Z.of_nat n)) -> forall i, 0 <= i < 16 -> P i).
  { intros P HP i Hi. rewrite <- (Z2Nat.id i) by lia. apply HP. lia. }
  split_and!; [done| |done|]; apply H16; intros n Hn; unfold masked, pic_disable, irq_port;
    rewrite ?M5, ?M4, ?M3, ?M2; do 16 (destruct n as [|n]; [reflexivity|]); lia.
Qed.

End InitMasks.

(** ** The programmed rate *)

Section Rate.
  Context {D : Type} {PD : PortDevice D}.

(** The divisor the PIT has after a trace: the last two bytes written to
    channel 0, low byte first. *)
Definition is_out8 (port : Z) (e : io_event) : bool :=
  match e with Out w p _ => (w =? 8) && (p =? port) | In _ _ _ => false end.
Definition out_value (e : io_event) : Z := match e with Out _ _ v | In _ _ v => v end.
Fixpoint pit_divisor (t : list io_event) : option Z :=
  match t with
  | [] => None
  | hi :: t' =>
      match t' with
      | lo :: _ => if is_out8 PIT_CHANNEL0 hi && is_out8 PIT_CHANNEL0 lo
                   then Some (out_value lo + 2 ^ 8 * out_value hi) else pit_divisor t'
      | [] => None
      end
  end.

(** Unmasking a line does not program the PIT. *)
Lemma pit_divisor_enable (irq : Z) (s : io D) :
  0 <= irq < 16 -> pit_divisor (trace (pic_enable_irq irq s)) = pit_divisor (trace s).
Proof.
  intros Hi. unfold pic_enable_irq, inb, port_read. destruct (port_in _ _ _) as [v d].
  unfold outb, port_write. cbn [trace pit_divisor].
  assert (E : irq_port irq = PIC1_DATA \/ irq_port irq = PIC2_DATA) by (unfold irq_port; destruct (_ <? _); auto).
  destruct E as [-> | ->]; cbn; by destruct (trace s).
Qed.

(** [timer_init] programs the PIT with the quotient of its base frequency
    when the quotient fits in 16 bits, that is for 19 Hz and more; below that it
    silently programs the quotient modulo 2^16. *)
Theorem timer_init_divisor (frequency : Z) (s : io D) :
  0 < frequency < 2 ^ 32 ->
  exists s', timer_init frequency s = Some s' /\
    pit_divisor (trace s') = Some ((PIT_FREQUENCY / frequency) mod 2 ^ 16) /\
    (19 <= frequency -> pit_divisor (trace s') = Some (PIT_FREQUENCY / frequency)).
Proof.
  intros Hf. unfold timer_init. rewrite (proj2 (Z.eqb_neq frequency 0)) by lia.
  eexists. split; [reflexivity|].
  set (dv := PIT_FREQUENCY / frequency).
  assert (Hdv : 0 <= dv) by (apply Z.div_pos; unfold PIT_FREQUENCY; lia).
  assert (E : pit_divisor (trace (pic_enable_irq 0
      (outb PIT_CHANNEL0 (Z.land (Z.shiftr dv 8) 0xFF) (outb PIT_CHANNEL0 (Z.land dv 0xFF)
        (outb PIT_COMMAND (Z.lor (Z.lor (Z.lor PIT_CHANNEL0_SEL PIT_ACCESS_LOHI) PIT_MODE2) PIT_BINARY) s)))))
    = Some (dv mod 2 ^ 16)).
  { unfold pic_enable_irq, inb, port_read. destruct (port_in _ _ _) as [v d].
    unfold outb, port_write. cbn [trace pit_divisor].
    change (is_out8 PIT_CHANNEL0 (Out 8 (irq_port 0) _)) with false.
    change (is_out8 PIT_CHANNEL0 (In 8 (irq_port 0) _)) with false.
    change (is_out8 PIT_CHANNEL0 (Out 8 PIT_CHANNEL0 _)) with true. cbn [andb out_value].
    rewrite !land_ff, Z.shiftr_div_pow2 by lia. f_equal.
    rewrite !(uwrap_small 8) by (apply Z.mod_pos_bound; lia). dlia. }
  split; [exact E|]. intros H19. rewrite E. f_equal. apply Z.mod_small. split; [done|].
  unfold dv, PIT_FREQUENCY. apply Z.div_lt_upper_bound; lia.
Qed.

End Rate.

(** ** Concrete instances: two mask registers *)

Record demo_pics := DemoPics { master_mask : Z; slave_mask : Z }.
#[export] Instance demo_pics_ports : PortDevice demo_pics := {
  port_in w p d := (if p =? PIC1_DATA then master_mask d else slave_mask d, d);
  port_out w p v d := if p =? PIC1_DATA then DemoPics v (slave_mask d)
                      else if p =? PIC2_DATA then DemoPics (master_mask d) v else d
}.
#[export] Instance demo_pics_8259 : Pic8259 demo_pics.
Proof.
  refine {|
    ready := fun _ => True;
    mask := fun d p => if p =? PIC1_DATA then master_mask d
                       else if p =? PIC2_DATA then slave_mask d else 0 |}.
  - intros d p _ [-> | ->]; by split_and!.
  - intros d p v _ Hp. split; [done|]. intros q. cbn. unfold PIC1_DATA, PIC2_DATA in *.
    destruct Hp as [-> | ->]; cbn; destruct (Z.eqb_spec q 0x21) as [->|Hq]; try done.
    by destruct (q =? 0xA1).
Defined.

Lemma pic_irq_mask_correct_witness :
  let s := Io (DemoPics 0xFB 0xFF) [] in
  masked (dev (pic_enable_irq 1 s)) 1 = false /\ masked (dev (pic_enable_irq 1 s)) 0 = true.
Proof.
  intros s. destruct (pic_irq_mask_correct s 1) as (_ & _ & H).
  - exact I.
  - lia.
  - split; [rewrite (proj1 (H 1 ltac:(lia)))|rewrite (proj1 (H 0 ltac:(lia)))]; vm_compute; reflexivity.
Defined.

Lemma timer_init_divisor_witness :
  exists s', timer_init 100 (Io (DemoPics 0xFB 0xFF) []) = Some s' /\ pit_divisor (trace s') = Some 11931.
Proof.
  destruct (timer_init_divisor 100 (Io (DemoPics 0xFB 0xFF) [])) as (s' & E & H & _).
  - lia.
  - exists s'. split; [exact E|]. rewrite H. vm_compute. reflexivity.
Defined.

(** Two controllers with their initialisation sequence. *)
Record demo_8259 := Demo8259 { d_mask1 : Z; d_mask2 : Z; d_icw1 : nat; d_icw2 : nat }.
#[export] Instance demo_8259_ports : PortDevice demo_8259 := {
  port_in w p d := (if p =? PIC1_DATA then d_mask1 d else if p =? PIC2_DATA then d_mask2 d else 0, d);
  port_out w p v d :=
    if p =? PIC1_COMMAND then Demo8259 (d_mask1 d) (d_mask2 d) 3 (d_icw2 d)
    else if p =? PIC2_COMMAND then Demo8259 (d_mask1 d) (d_mask2 d) (d_icw1 d) 3
    else if p =? PIC1_DATA then
      match d_icw1 d with S n => Demo8259 (d_mask1 d) (d_mask2 d) n (d_icw2 d)
                        | O => Demo8259 v (d_mask2 d) O (d_icw2 d) end
    else if p =? PIC2_DATA then
      match d_icw2 d with S n => Demo8259 (d_mask1 d) (d_mask2 d) (d_icw1 d) n
                        | O => Demo8259 (d_mask1 d) v (d_icw1 d) O end
    else d
}.
#[export] Instance demo_8259_pic : Pic8259 demo_8259.
Proof.
  refine {|
    ready := fun d => d_icw1 d = O /\ d_icw2 d = O;
    mask := fun d p => if p =? PIC1_DATA then d_mask1 d else if p =? PIC2_DATA then d_mask2 d else 0 |}.
  - intros d p Hd [-> | ->]; (split; [done|split; [exact Hd|done]]).
  - intros [m1 m2 n1 n2] p v [H1 H2] Hp. cbn in H1, H2. subst. destruct Hp as [-> | ->].
    + split; [done|]. intros q. cbn. by destruct (q =? PIC1_DATA).
    + split; [done|]. intros q. cbn. unfold PIC1_DATA, PIC2_DATA.
      destruct (Z.eqb_spec q 0x21) as [->|]; [done|]. by destruct (q =? 0xA1).
Defined.
#[export] Instance demo_8259_init : Pic8259Init demo_8259.
Proof.
  refine {| icws := fun d p => if p =? PIC1_DATA then d_icw1 d else if p =? PIC2_DATA then d_icw2 d else O |}.
  - done.
  - intros d p Hp q. destruct Hp as [-> | ->]; cbn; unfold PIC1_DATA, PIC2_DATA.
    + by destruct (q =? 0x21).
    + destruct (Z.eqb_spec q 0x21) as [->|]; [done|]. by destruct (q =? 0xA1).
  - intros [m1 m2 n1 n2] p v n Hp Hn q. destruct Hp as [-> | ->]; cbn in Hn |- *; subst; cbn; unfold PIC1_DATA, PIC2_DATA.
    + by destruct (q =? 0x21).
    + destruct (Z.eqb_spec q 0x21) as [->|]; [done|]. by destruct (q =? 0xA1).
  - intros d p v Hp q. rewrite !not_elem_of_cons in Hp. destruct Hp as (H1 & H2 & H3 & H4 & _). cbn.
    by rewrite !(proj2 (Z.eqb_neq p _)) by done.
Defined.
