(* ===== verification/Keyboard.v ===== *)
(** * The keyboard driver ([kernel/drivers/keyboard.c])

    The interrupt handler decodes scancodes with the modifier keys and puts
    characters in a ring of 256 bytes, which the readers empty.  A [char] is the
    byte it is stored as.  The theorems relate the ring to a queue of at most 255
    characters and the handler to a decoder that knows nothing of the ring. *)

From S2P Require Import Prelude Io Pic.

Definition KEYBOARD_DATA : Z := 0x60.
Definition SCANCODE_LSHIFT : Z := 0x2A.
Definition SCANCODE_RSHIFT : Z := 0x36.
Definition SCANCODE_LCTRL : Z := 0x1D.
Definition SCANCODE_LALT : Z := 0x38.
Definition SCANCODE_CAPSLOCK : Z := 0x3A.
Definition SCANCODE_RELEASE : Z := 0x80.
Definition SCANCODE_EXTENDED : Z := 0xE0.
Definition KEYBOARD_BUFFER_SIZE : Z := 256.
Definition KEY_UP : Z := 0x80.
Definition KEY_DOWN : Z := 0x81.
Definition KEY_LEFT : Z := 0x82.
Definition KEY_RIGHT : Z := 0x83.

(** The tables, as character codes. *)
Definition scancode_to_ascii : list Z :=
  [0; 27; 49; 50; 51; 52; 53; 54; 55; 56; 57; 48; 45;
   61; 8; 9; 113; 119; 101; 114; 116; 121; 117; 105; 111; 112;
   91; 93; 10; 0; 97; 115; 100; 102; 103; 104; 106; 107; 108;
   59; 39; 96; 0; 92; 122; 120; 99; 118; 98; 110; 109; 44;
   46; 47; 0; 42; 0; 32; 0; 0; 0; 0; 0; 0; 0] ++ replicate 63 0.
Definition scancode_to_ascii_shifted : list Z :=
  [0; 27; 33; 64; 35; 36; 37; 94; 38; 42; 40; 41; 95;
   43; 8; 9; 81; 87; 69; 82; 84; 89; 85; 73; 79; 80;
   123; 125; 10; 0; 65; 83; 68; 70; 71; 72; 74; 75; 76;
   58; 34; 126; 0; 124; 90; 88; 67; 86; 66; 78; 77; 60;
   62; 63; 0; 42; 0; 32; 0; 0; 0; 0; 0; 0; 0] ++ replicate 63 0.

(** The modifier keys and the pending 0xE0 prefix. *)
Record modifiers := Modifiers {
  shift_pressed : bool; ctrl_pressed : bool; alt_pressed : bool; capslock_on : bool;
  extended_scancode : bool
}.

Record keyboard := Keyboard {
  key_buffer : list Z; buffer_head : Z; buffer_tail : Z; mods : modifiers
}.

Definition with_mods (m : modifiers) (k : keyboard) : keyboard :=
  Keyboard (key_buffer k) (buffer_head k) (buffer_tail k) m.
Definition set_shift (b : bool) (m : modifiers) : modifiers :=
  Modifiers b (ctrl_pressed m) (alt_pressed m) (capslock_on m) (extended_scancode m).
Definition set_ctrl (b : bool) (m : modifiers) : modifiers :=
  Modifiers (shift_pressed m) b (alt_pressed m) (capslock_on m) (extended_scancode m).
Definition set_alt (b : bool) (m : modifiers) : modifiers :=
  Modifiers (shift_pressed m) (ctrl_pressed m) b (capslock_on m) (extended_scancode m).
Definition set_caps (b : bool) (m : modifiers) : modifiers :=
  Modifiers (shift_pressed m) (ctrl_pressed m) (alt_pressed m) b (extended_scancode m).
Definition set_ext (b : bool) (m : modifiers) : modifiers :=
  Modifiers (shift_pressed m) (ctrl_pressed m) (alt_pressed m) (capslock_on m) b.

Definition buffer_put (c : Z) (k : keyboard) : keyboard :=
  let next := (buffer_head k + 1) mod KEYBOARD_BUFFER_SIZE in
  if negb (next =? buffer_tail k)
  then Keyboard (zset (key_buffer k) (buffer_head k) c) next (buffer_tail k) (mods k)
  else k.

Definition buffer_get (k : keyboard) : Z * keyboard :=
  if buffer_head k =? buffer_tail k then (0, k)
  else (zget (key_buffer k) (buffer_tail k),
        Keyboard (key_buffer k) (buffer_head k) ((buffer_tail k + 1) mod KEYBOARD_BUFFER_SIZE) (mods k)).

Definition is_lower (c : Z) : bool := (97 <=? c) && (c <=? 122).
Definition is_upper (c : Z) : bool := (65 <=? c) && (c <=? 90).

(** The body of [keyboard_handler] after the read of the scancode. *)
Definition handle_scancode (scancode : Z) (k : keyboard) : keyboard :=
  let m := mods k in
  if scancode =? SCANCODE_EXTENDED then with_mods (set_ext true m) k
  else if negb (Z.land scancode SCANCODE_RELEASE =? 0) then
    let released := Z.land scancode 0x7F in
    if extended_scancode m then with_mods (set_ext false m) k
    else if (released =? SCANCODE_LSHIFT) || (released =? SCANCODE_RSHIFT)
    then with_mods (set_shift false m) k
    else if released =? SCANCODE_LCTRL then with_mods (set_ctrl false m) k
    else if released =? SCANCODE_LALT then with_mods (set_alt false m) k
    else k
  else if extended_scancode m then
    let special := if scancode =? 0x48 then KEY_UP
                   else if scancode =? 0x50 then KEY_DOWN
                   else if scancode =? 0x4B then KEY_LEFT
                   else if scancode =? 0x4D then KEY_RIGHT else 0 in
    let k := with_mods (set_ext false m) k in
    if special =? 0 then k else buffer_put special k
  else if (scancode =? SCANCODE_LSHIFT) || (scancode =? SCANCODE_RSHIFT)
  then with_mods (set_shift true m) k
  else if scancode =? SCANCODE_LCTRL then with_mods (set_ctrl true m) k
  else if scancode =? SCANCODE_LALT then with_mods (set_alt true m) k
  else if scancode =? SCANCODE_CAPSLOCK then with_mods (set_caps (negb (capslock_on m)) m) k
  else
    let c :=
      if scancode <? 128 then
        let c := if shift_pressed m then zget scancode_to_ascii_shifted scancode
                 else zget scancode_to_ascii scancode in
        let c := if capslock_on m && is_lower c then c - 97 + 65
                 else if capslock_on m && is_upper c then c - 65 + 97 else c in
        if ctrl_pressed m && is_lower c then c - 97 + 1 else c
      else 0 in
    if c =? 0 then k else buffer_put c k.

Definition keyboard_available (k : keyboard) : bool := negb (buffer_head k =? buffer_tail k).

(** [None]: the buffer is empty, the processor waits for the next interrupt. *)
Definition keyboard_getchar (k : keyboard) : option (Z * keyboard) :=
  if keyboard_available k then Some (buffer_get k) else None.

(** [while (count < n && keyboard_available()) buf[count++] = buffer_get()]:
    the characters stored, in order. *)
Fixpoint keyboard_read (n : nat) (k : keyboard) : list Z * keyboard :=
  match n with
  | O => ([], k)
  | S n' =>
      if keyboard_available k then
        let '(c, k1) := buffer_get k in
        let '(cs, k2) := keyboard_read n' k1 in (c :: cs, k2)
      else ([], k)
  end.

Section Device.
  Context {D : Type} {PD : PortDevice D}.

Definition keyboard_init (k : keyboard) (s : io D) : keyboard * io D :=
  (Keyboard (key_buffer k) 0 0
     (Modifiers false false false false (extended_scancode (mods k))),
   pic_enable_irq 1 s).

Definition keyboard_handler (k : keyboard) (s : io D) : keyboard * io D :=
  let '(scancode, s) := inb KEYBOARD_DATA s in
  (handle_scancode scancode k, s).

End Device.

(** ** The ring as a queue *)

(** The characters waiting, oldest first. *)
Definition pending (k : keyboard) : list Z :=
  (fun i => zget (key_buffer k) ((buffer_tail k + Z.of_nat i) mod 256)) <$>
    seq 0 (Z.to_nat ((buffer_head k - buffer_tail k) mod 256)).

Record ring_ok (k : keyboard) : Prop := RingOk {
  ring_len : zlen (key_buffer k) = 256;
  ring_head : 0 <= buffer_head k < 256;
  ring_tail : 0 <= buffer_tail k < 256
}.

Lemma pending_length (k : keyboard) :
  length (pending k) = Z.to_nat ((buffer_head k - buffer_tail k) mod 256).
Proof. unfold pending. by rewrite length_fmap, length_seq. Qed.

Lemma pending_bound (k : keyboard) : (length (pending k) <= 255)%nat.
Proof. rewrite pending_length. pose proof (Z.mod_pos_bound (buffer_head k - buffer_tail k) 256). lia. Qed.

Lemma put_spec (k : keyboard) (c : Z) :
  ring_ok k ->
  ring_ok (buffer_put c k) /\ mods (buffer_put c k) = mods k /\
  pending (buffer_put c k)
  = if decide (length (pending k) < 255)%nat then pending k ++ [c] else pending k.
Proof.
  intros [Hl Hh Ht]. pose proof (pending_length k) as Hn. unfold buffer_put, KEYBOARD_BUFFER_SIZE.
  set (n := (buffer_head k - buffer_tail k) mod 256) in *.
  assert (Hnr : 0 <= n < 256) by (apply Z.mod_pos_bound; lia).
  assert (Hnh : (buffer_tail k + n) mod 256 = buffer_head k) by (unfold n; dlia).
  destruct (Z.eqb_spec ((buffer_head k + 1) mod 256) (buffer_tail k)) as [E|E]; cbn [negb].
  { split_and!; [done|done|]. rewrite decide_False; [done|]. rewrite Hn. unfold n. dlia. }
  assert (Hn1 : ((buffer_head k + 1) mod 256 - buffer_tail k) mod 256 = n + 1) by (unfold n; dlia).
  split_and!; [split; cbn; [by rewrite zlen_zset|apply Z.mod_pos_bound; lia|done]|done|].
  rewrite decide_True by (rewrite Hn; dlia). unfold pending at 1. cbn [key_buffer buffer_head buffer_tail].
  rewrite Hn1, Z2Nat.inj_add, Nat.add_1_r, seq_S, fmap_app by lia. cbn [fmap list_fmap]. f_equal.
  - unfold pending. fold n. apply list_fmap_ext. intros j i Hi. apply lookup_seq in Hi as [-> Hi].
    apply zget_zset_ne; [lia|apply Z.mod_pos_bound; lia|]. unfold n in Hi. dlia.
  - f_equal. replace ((buffer_tail k + _) mod 256) with (buffer_head k) by (rewrite <- Hnh; f_equal; lia).
    apply zget_zset_eq. lia.
Qed.

Lemma get_spec (k : keyboard) :
  ring_ok k ->
  ring_ok (buffer_get k).2 /\ mods (buffer_get k).2 = mods k /\
  keyboard_available k = bool_decide (pending k <> []) /\
  match pending k with
  | [] => buffer_get k = (0, k)
  | x :: q => (buffer_get k).1 = x /\ pending (buffer_get k).2 = q
  end.
Proof.
  intros [Hl Hh Ht]. unfold buffer_get, keyboard_available, KEYBOARD_BUFFER_SIZE.
  destruct (Z.eqb_spec (buffer_head k) (buffer_tail k)) as [E|E]; cbn [negb fst snd].
  { assert (Ep : pending k = []) by (unfold pending; by rewrite E, Z.sub_diag). rewrite Ep. by split_and!. }
  split_and!; [split; cbn; [done|done|apply Z.mod_pos_bound; lia]|done| |].
  all: unfold pending; set (n := (buffer_head k - buffer_tail k) mod 256);
    assert (Hn : 0 < n < 256) by (unfold n; dlia);
    replace (Z.to_nat n) with (S (Z.to_nat (n - 1))) by lia; cbn [seq fmap list_fmap].
  - by rewrite bool_decide_eq_true_2.
  - cbn [key_buffer buffer_head buffer_tail]. split; [f_equal; rewrite Z.add_0_r; dlia|].
    replace ((buffer_head k - (buffer_tail k + 1) mod 256) mod 256) with (n - 1) by (unfold n; dlia).
    rewrite <- fmap_S_seq, <- list_fmap_compose. apply list_fmap_ext. intros j i Hi.
    apply lookup_seq in Hi as [-> Hi]. cbn. f_equal. dlia.
Qed.

(** ** The decoder

    A description of the handler that knows nothing of the ring: the modifiers
    after a scancode, and the character it types. *)

(** The letter of a scancode, in lower case. *)
Definition letter (scancode : Z) : option Z :=
  let c := zget scancode_to_ascii scancode in if is_lower c then Some c else None.

(** Shift and caps lock cancel out on letters; Ctrl makes a control code of a
    letter that comes out in lower case; other keys depend on shift only. *)
Definition typed (scancode : Z) (m : modifiers) : option Z :=
  match letter scancode with
  | Some c => Some (if xorb (shift_pressed m) (capslock_on m) then c - 32
                    else if ctrl_pressed m then c - 96 else c)
  | None =>
      let c := if shift_pressed m then zget scancode_to_ascii_shifted scancode
               else zget scancode_to_ascii scancode in
      if c =? 0 then None else Some c
  end.

Definition arrow (scancode : Z) : option Z :=
  if scancode =? 0x48 then Some KEY_UP else if scancode =? 0x50 then Some KEY_DOWN
  else if scancode =? 0x4B then Some KEY_LEFT else if scancode =? 0x4D then Some KEY_RIGHT else None.

(** Press ([b = true]) or release of a modifier key. *)
Definition modifier (scancode : Z) (b : bool) (m : modifiers) : option modifiers :=
  if (scancode =? SCANCODE_LSHIFT) || (scancode =? SCANCODE_RSHIFT) then Some (set_shift b m)
  else if scancode =? SCANCODE_LCTRL then Some (set_ctrl b m)
  else if scancode =? SCANCODE_LALT then Some (set_alt b m)
  else if scancode =? SCANCODE_CAPSLOCK then
    Some (if b then set_caps (negb (capslock_on m)) m else m)
  else None.

Definition decode (scancode : Z) (m : modifiers) : modifiers * option Z :=
  if scancode =? SCANCODE_EXTENDED then (set_ext true m, None)
  else if extended_scancode m then
    (set_ext false m, if scancode <? 128 then arrow scancode else None)
  else if scancode <? 128 then
    match modifier scancode true m with
    | Some m' => (m', None)
    | None => (m, typed scancode m)
    end
  else (default m (modifier (scancode - 128) false m), None).

(** The handler is the decoder followed by at most one [buffer_put]. *)
Lemma handle_put (scancode : Z) (m : modifiers) :
  exists m' oc, forall buf h t,
    handle_scancode scancode (Keyboard buf h t m)
    = match oc with
      | Some c => buffer_put c (Keyboard buf h t m')
      | None => Keyboard buf h t m'
      end.
Proof.
  unfold handle_scancode. cbn [mods].
  repeat match goal with
  | |- context [if ?b then _ else _] =>
      lazymatch b with context [if _ then _ else _] => fail | _ => idtac end; destruct b
  end;
  first [ eexists _, None; intros; reflexivity | eexists _, (Some _); intros; reflexivity
        | idtac ].
Qed.

(** The effect of a scancode on an empty ring. *)
Definition observe (scancode : Z) (m : modifiers) : modifiers * option Z :=
  let k := handle_scancode scancode (Keyboard (replicate 256 0) 0 0 m) in
  (mods k, head (pending k)).

#[export] Instance modifiers_eq_dec : EqDecision modifiers.
Proof. solve_decision. Defined.

Definition all_bools : list bool := [false; true].
Definition all_modifiers : list modifiers :=
  a ← all_bools; b ← all_bools; c ← all_bools; d ← all_bools; e ← all_bools; [Modifiers a b c d e].

Lemma all_modifiers_complete (m : modifiers) : m ∈ all_modifiers.
Proof.
  destruct m as [[] [] [] [] []]; apply (bool_decide_eq_true _); vm_compute; reflexivity.
Qed.

(** All 256 scancodes with all 32 states of the modifiers. *)
Lemma observe_decode_check :
  forallb (fun i => forallb (fun m => bool_decide (observe (Z.of_nat i) m = decode (Z.of_nat i) m))
    all_modifiers) (seq 0 256) = true.
Proof. vm_compute. reflexivity. Qed.

Lemma observe_decode (scancode : Z) (m : modifiers) :
  0 <= scancode < 256 -> observe scancode m = decode scancode m.
Proof.
  intros Hs. pose proof observe_decode_check as H. rewrite forallb_forall in H.
  specialize (H (Z.to_nat scancode)). rewrite forallb_forall in H.
  rewrite Z2Nat.id in H by lia.
  apply (bool_decide_eq_true (observe scancode m = decode scancode m)), H.
  - apply in_seq. lia.
  - apply list_elem_of_In, all_modifiers_complete.
Qed.

Lemma handle_spec (scancode : Z) (k : keyboard) :
  0 <= scancode < 256 ->
  let '(m', oc) := decode scancode (mods k) in
  handle_scancode scancode k
  = match oc with
    | Some c => buffer_put c (with_mods m' k)
    | None => with_mods m' k
    end.
Proof.
  intros Hs. destruct (handle_put scancode (mods k)) as (m' & oc & H).
  assert (E : decode scancode (mods k) = (m', oc)).
  { rewrite <- observe_decode by done. unfold observe. rewrite H. by destruct oc. }
  rewrite E. destruct k as [buf h t m]. apply H.
Qed.

(** ** Refinement

    Keys arrive and readers read; the abstract keyboard is the modifiers and a
    queue of at most 255 characters. *)

Inductive event := Key (scancode : Z) | Read (n : nat).

Definition step (e : event) (k : keyboard) : list Z * keyboard :=
  match e with
  | Key sc => ([], handle_scancode sc k)
  | Read n => keyboard_read n k
  end.

Definition astate := (modifiers * list Z)%type.
Definition astep (e : event) (a : astate) : list Z * astate :=
  let '(m, q) := a in
  match e with
  | Key sc =>
      let '(m', oc) := decode sc m in
      ([], (m', match oc with
                | Some c => if decide (length q < 255)%nat then q ++ [c] else q
                | None => q
                end))
  | Read n => (take n q, (m, drop n q))
  end.

Definition abstract (k : keyboard) : astate := (mods k, pending k).
Definition event_ok (e : event) : Prop := match e with Key sc => 0 <= sc < 256 | Read _ => True end.

Lemma read_spec (n : nat) : forall k, ring_ok k ->
  ring_ok (keyboard_read n k).2 /\ mods (keyboard_read n k).2 = mods k /\
  (keyboard_read n k).1 = take n (pending k) /\ pending (keyboard_read n k).2 = drop n (pending k).
Proof.
  induction n as [|n IH]; intros k Hk; cbn [keyboard_read]; [by split_and!|].
  destruct (get_spec k Hk) as (Hg & Hm & Ha & Hp). rewrite Ha. destruct (pending k) as [|x q] eqn:E.
  - rewrite bool_decide_eq_false_2 by tauto. cbn. by rewrite E.
  - rewrite bool_decide_eq_true_2 by done. destruct (buffer_get k) as [c k1]. cbn [fst snd] in *.
    destruct Hp as [-> Hp]. destruct (IH k1 Hg) as (R1 & R2 & R3 & R4).
    destruct (keyboard_read n k1) as [cs k2]. cbn [fst snd] in *.
    rewrite R3, R4, R2, Hp. by split_and!.
Qed.

(** The outputs of a sequence of events, and the final state. *)
Fixpoint run {A} (f : event -> A -> list Z * A) (es : list event) (a : A) : list Z * A :=
  match es with
  | [] => ([], a)
  | e :: es' => let '(o, a1) := f e a in let '(os, a2) := run f es' a1 in (o ++ os, a2)
  end.

Lemma step_refines (e : event) (k : keyboard) :
  ring_ok k -> event_ok e ->
  ring_ok (step e k).2 /\ astep e (abstract k) = ((step e k).1, abstract (step e k).2).
Proof.
  intros Hk He. destruct e as [sc|n]; cbn [step astep abstract fst snd].
  - pose proof (handle_spec sc k He) as H. destruct (decode sc (mods k)) as [m' oc]. rewrite H.
    assert (Hk' : ring_ok (with_mods m' k)) by (destruct Hk; by split).
    destruct oc as [c|]; [|by split].
    destruct (put_spec (with_mods m' k) c Hk') as (H1 & H2 & H3). split; [done|].
    unfold abstract. rewrite H2, H3. done.
  - destruct (read_spec n k Hk) as (H1 & H2 & H3 & H4). split; [done|].
    unfold abstract. by rewrite H2, H3, H4.
Qed.

(** C8: the keyboard driver refines a bounded queue behind the decoder: for
    every interleaving of scancodes and reads the readers get exactly the
    characters of the abstract keyboard, in order; characters are lost only when
    255 are waiting. *)
Theorem keyboard_refines_queue (es : list event) (k : keyboard) :
  ring_ok k -> Forall event_ok es ->
  let '(out, k') := run step es k in
  ring_ok k' /\ run astep es (abstract k) = (out, abstract k').
Proof.
  intros Hk Hes. revert k Hk. induction Hes as [|e es He _ IH]; intros k Hk; cbn [run]; [done|].
  destruct (step_refines e k Hk He) as [Hk1 E1]. rewrite E1.
  destruct (step e k) as [o k1]. cbn [fst snd] in *.
  specialize (IH k1 Hk1). destruct (run step es k1) as [os k2]. destruct IH as [IH1 IH2].
  by rewrite IH2.
Qed.

Definition demo_keyboard : keyboard :=
  Keyboard (replicate 256 0) 0 0 (Modifiers false false false false false).

(** Shift+A, then an arrow key, then a read of ten characters. *)
Lemma keyboard_refines_queue_witness :
  (run astep [Key 0x2A; Key 0x1E; Key 0xAA; Key 0xE0; Key 0x48; Read 10] (abstract demo_keyboard)).1
  = [65; KEY_UP].
Proof.
  pose proof (keyboard_refines_queue [Key 0x2A; Key 0x1E; Key 0xAA; Key 0xE0; Key 0x48; Read 10]
    demo_keyboard) as H.
  assert (Ho : (run step [Key 0x2A; Key 0x1E; Key 0xAA; Key 0xE0; Key 0x48; Read 10] demo_keyboard).1
    = [65; KEY_UP]) by (vm_compute; reflexivity).
  destruct (run step _ demo_keyboard) as [out k']. cbn [fst] in Ho. subst out.
  destruct H as [_ H].
  - split; vm_compute; repeat split; (reflexivity || discriminate).
  - repeat constructor; cbn; lia.
  - rewrite H. reflexivity.
Defined.
