(* ===== verification/Idt.v ===== *)
(** * The interrupt descriptor table and the dispatcher ([kernel/cpu/idt.c])

    The 256 gates with the processor's reading of them, and
    [interrupt_handler], which composes the timer, the keyboard and the
    interrupt controllers.  The addresses of the assembly stubs are parameters. *)

From S2P Require Import Prelude Io Pic Keyboard.

Record idt_entry := IdtEntry {
  offset_low : Z; selector : Z; ist : Z; type_attr : Z; offset_mid : Z; offset_high : Z;
  reserved_ : Z
}.
Definition idt_zero : idt_entry := IdtEntry 0 0 0 0 0 0 0.

Definition IDT_TYPE_INTERRUPT : Z := 0x8E.
Definition IDT_TYPE_TRAP : Z := 0x8F.
Definition IDT_PRESENT : Z := 0x80.
Definition IDT_DPL0 : Z := 0x00.
Definition IDT_DPL3 : Z := 0x60.
Definition IRQ_TIMER : Z := 0.
Definition IRQ_KEYBOARD : Z := 1.

(** The table and what [lidt] loads. *)
Record idt_state := Idt { idt : list idt_entry; idtr : Z * Z }.

Definition idt_set_entry (num handler sel attr : Z) (s : idt_state) : idt_state :=
  let num := u8 num in
  Idt (<[Z.to_nat num := IdtEntry (Z.land handler 0xFFFF) (u16 sel) 0 (u8 attr)
         (Z.land (Z.shiftr handler 16) 0xFFFF) (Z.land (Z.shiftr handler 32) 0xFFFFFFFF) 0]> (idt s))
      (idtr s).

Definition idt_load (addr : Z) (s : idt_state) : idt_state := Idt (idt s) (256 * 16 - 1, addr).

Fixpoint idt_clear (n : nat) (s : idt_state) : idt_state :=
  match n with
  | O => s
  | S n' => idt_set_entry (Z.of_nat n') 0 0 0 (idt_clear n' s)
  end.

Definition GATE_INT : Z := Z.lor (Z.lor IDT_TYPE_INTERRUPT IDT_PRESENT) IDT_DPL0.
Definition GATE_TRAP3 : Z := Z.lor (Z.lor IDT_TYPE_TRAP IDT_PRESENT) IDT_DPL3.

(** The exceptions the code installs, with the attributes it gives them. *)
Definition exceptions : list (Z * Z) :=
  [(0, GATE_INT); (1, GATE_INT); (2, GATE_INT); (3, GATE_TRAP3); (4, GATE_TRAP3); (5, GATE_INT);
   (6, GATE_INT); (7, GATE_INT); (8, GATE_INT); (10, GATE_INT); (11, GATE_INT); (12, GATE_INT);
   (13, GATE_INT); (14, GATE_INT); (16, GATE_INT); (17, GATE_INT); (18, GATE_INT); (19, GATE_INT);
   (20, GATE_INT)].
Definition irqs : list Z := [0; 1; 2; 3; 4; 5; 6; 7; 8; 9; 10; 11; 12; 13; 14; 15].

(** [isr n] and [irq n] are the addresses of the stubs, [addr] that of the table. *)
Definition idt_init (isr irq : Z -> Z) (addr : Z) (s : idt_state) : idt_state :=
  let s := idt_clear 256 s in
  let s := foldl (fun s '(n, attr) => idt_set_entry n (isr n) 0x08 attr s) s exceptions in
  let s := foldl (fun s n => idt_set_entry (32 + n) (irq n) 0x08 GATE_INT s) s irqs in
  idt_load addr s.

(** The processor's reading of a gate. *)
Definition gate_offset (e : idt_entry) : Z :=
  offset_low e + 2 ^ 16 * offset_mid e + 2 ^ 32 * offset_high e.
Definition gate_present (e : idt_entry) : bool := Z.testbit (type_attr e) 7.
Definition idt_at (n : Z) (s : idt_state) : idt_entry := default idt_zero (idt s !! Z.to_nat n).

Lemma idt_set_length (num handler sel attr : Z) (s : idt_state) :
  length (idt (idt_set_entry num handler sel attr s)) = length (idt s).
Proof. cbn. apply length_insert. Qed.

(** A gate leads to the handler it was set to; other gates do not change. *)
Lemma idt_set_spec (num handler attr n : Z) (s : idt_state) :
  length (idt s) = 256%nat -> 0 <= num < 256 -> 0 <= n < 256 -> 0 <= handler < 2 ^ 64 ->
  0 <= attr < 256 ->
  let e := idt_at n (idt_set_entry num handler 0x08 attr s) in
  if n =? num then gate_offset e = handler /\ selector e = 0x08 /\ type_attr e = attr /\ ist e = 0
  else e = idt_at n s.
Proof.
  intros Hl Hnum Hn Hh Ha. unfold idt_at, idt_set_entry. cbn [idt].
  rewrite (uwrap_small 8 num) by done. destruct (Z.eqb_spec n num) as [->|Hne].
  - rewrite list_lookup_insert_eq by lia. unfold gate_offset.
    cbn [from_option id offset_low offset_mid offset_high selector type_attr ist].
    rewrite !land_ffff, land_ffffffff, !Z.shiftr_div_pow2, !uwrap_small by lia. repeat split; dlia.
  - by rewrite list_lookup_insert_ne by lia.
Qed.

Lemma idt_clear_spec (k : nat) (s : idt_state) (n : Z) :
  length (idt s) = 256%nat -> (k <= 256)%nat -> 0 <= n < 256 ->
  length (idt (idt_clear k s)) = 256%nat /\
  (n < Z.of_nat k -> idt_at n (idt_clear k s) = idt_zero).
Proof.
  intros Hl Hk Hn. induction k as [|k IH]; [split; [done|lia]|]. cbn [idt_clear].
  destruct (IH ltac:(lia)) as [IH1 IH2]. rewrite idt_set_length. split; [done|]. intros Hlt.
  unfold idt_at, idt_set_entry. cbn [idt]. rewrite (uwrap_small 8) by lia.
  destruct (Z.eqb_spec n (Z.of_nat k)) as [->|Hne].
  - by rewrite list_lookup_insert_eq by lia.
  - rewrite list_lookup_insert_ne by lia. apply IH2. lia.
Qed.

(** Installing a list of gates. *)
Section Install.
  Context {A : Type} (num handler attr : A -> Z).
Let inst (s : idt_state) (a : A) : idt_state := idt_set_entry (num a) (handler a) 0x08 (attr a) s.

Lemma install_spec (l : list A) (n : Z) : forall s,
  length (idt s) = 256%nat -> 0 <= n < 256 -> NoDup (num <$> l) ->
  Forall (fun a => 0 <= num a < 256 /\ 0 <= handler a < 2 ^ 64 /\ 0 <= attr a < 256) l ->
  let s' := foldl inst s l in
  length (idt s') = 256%nat /\
  (forall a, a ∈ l -> num a = n ->
     gate_offset (idt_at n s') = handler a /\ selector (idt_at n s') = 0x08 /\
     type_attr (idt_at n s') = attr a /\ ist (idt_at n s') = 0) /\
  (n ∉ (num <$> l) -> idt_at n s' = idt_at n s).
Proof.
  induction l as [|a l IH]; intros s Hl Hn Hnd Hok; cbn [foldl].
  { split_and!; [done|set_solver|done]. }
  apply Forall_cons in Hok as [(H1 & H2 & H3) Hok]. cbn in Hnd. apply NoDup_cons in Hnd as [Hna Hnd].
  destruct (IH (inst s a)) as (I1 & I2 & I3); [by unfold inst; rewrite idt_set_length|done|done|done|].
  pose proof (idt_set_spec (num a) (handler a) (attr a) n s Hl H1 Hn H2 H3) as Hset.
  split_and!; [done| |].
  - intros b [->|Hb]%elem_of_cons Hbn; [|by apply I2].
    rewrite I3 by (by rewrite <- Hbn). rewrite <- Hbn, Z.eqb_refl in Hset. rewrite <- Hbn. exact Hset.
  - intros Hout. cbn in Hout. apply not_elem_of_cons in Hout as [Hne Hout]. rewrite (I3 Hout).
    by rewrite (proj2 (Z.eqb_neq _ _) Hne) in Hset.
Qed.
End Install.

Lemma idt_gates (isr irq : Z -> Z) (addr : Z) (s : idt_state) (n : Z) :
  length (idt s) = 256%nat -> (forall i, 0 <= isr i < 2 ^ 64) -> (forall i, 0 <= irq i < 2 ^ 64) ->
  0 <= n < 256 ->
  let s' := idt_init isr irq addr s in
  let e := idt_at n s' in
  idtr s' = (4095, addr) /\ length (idt s') = 256%nat /\
  (gate_present e = true <-> n ∈ fst <$> exceptions \/ n ∈ (Z.add 32) <$> irqs) /\
  (n ∈ fst <$> exceptions -> gate_offset e = isr n /\ selector e = 0x08 /\
     type_attr e = if (n =? 3) || (n =? 4) then 0xEF else 0x8E) /\
  (n ∈ (Z.add 32) <$> irqs -> gate_offset e = irq (n - 32) /\ selector e = 0x08 /\ type_attr e = 0x8E).
Proof.
  intros Hl Hisr Hirq Hn s' e.
  destruct (idt_clear_spec 256 s n Hl ltac:(lia) Hn) as [L0 C0].
  set (s0 := idt_clear 256 s) in *. specialize (C0 ltac:(lia)).
  destruct (install_spec fst (fun p => isr p.1) snd exceptions n s0 L0 Hn) as (L1 & A1 & O1).
  { apply (bool_decide_eq_true _). vm_compute. reflexivity. }
  { repeat constructor; cbn; try apply Hisr; try lia; by vm_compute. }
  set (s1 := foldl _ s0 exceptions) in *.
  destruct (install_spec (Z.add 32) irq (fun _ => GATE_INT) irqs n s1 L1 Hn) as (L2 & A2 & O2).
  { apply (bool_decide_eq_true _). vm_compute. reflexivity. }
  { repeat constructor; cbn; try apply Hirq; try lia; by vm_compute. }
  assert (Es : s' = idt_load addr (foldl (fun s a => idt_set_entry (32 + a) (irq a) 0x08 GATE_INT s) s1 irqs)).
  { unfold s', idt_init. fold s0. do 2 f_equal. }
  set (s2 := foldl _ s1 irqs) in *.
  assert (Ee : e = idt_at n s2) by (unfold e; by rewrite Es). clearbody s2.
  assert (Hdisj : n ∈ fst <$> exceptions -> n ∉ Z.add 32 <$> irqs).
  { intros H1 H2. assert (Hf : Forall (fun x => x < 32) (fst <$> exceptions))
      by (repeat constructor).
    rewrite Forall_forall in Hf. specialize (Hf n H1).
    apply list_elem_of_fmap in H2 as (k & -> & Hk).
    assert (Hp : Forall (fun x => 0 <= x) irqs) by (repeat constructor; lia).
    rewrite Forall_forall in Hp. specialize (Hp k Hk). lia. }
  assert (Hexc : n ∈ fst <$> exceptions -> gate_offset e = isr n /\ selector e = 0x08 /\
    type_attr e = if (n =? 3) || (n =? 4) then 0xEF else 0x8E).
  { intros Hin. rewrite Ee, (O2 (Hdisj Hin)). apply list_elem_of_fmap in Hin as ([k attr] & -> & Hk).
    destruct (A1 _ Hk eq_refl) as (G1 & G2 & G3 & _). split_and!; [exact G1|exact G2|].
    rewrite G3. clear -Hk. unfold exceptions in Hk.
    repeat (apply elem_of_cons in Hk as [[= -> ->]|Hk]; [reflexivity|]). by apply not_elem_of_nil in Hk. }
  assert (Hirqs : n ∈ Z.add 32 <$> irqs -> gate_offset e = irq (n - 32) /\ selector e = 0x08 /\
    type_attr e = 0x8E).
  { intros Hin. rewrite Ee. apply list_elem_of_fmap in Hin as (k & -> & Hk).
    destruct (A2 _ Hk eq_refl) as (G1 & G2 & G3 & _). replace (32 + k - 32) with k by lia.
    by split_and!. }
  split; [by rewrite Es|]. split; [by rewrite Es|]. split; [|by split]. split.
  - destruct (decide (n ∈ fst <$> exceptions)) as [H1|H1]; [by left|].
    destruct (decide (n ∈ Z.add 32 <$> irqs)) as [H2|H2]; [by right|].
    rewrite Ee, (O2 H2), (O1 H1), C0. by intros [=].
  - unfold gate_present. intros [H|H].
    + destruct (Hexc H) as (_ & _ & ->). by destruct (_ || _).
    + by destruct (Hirqs H) as (_ & _ & ->).
Qed.

(** after [idt_init] a vector's gate is present exactly for the exceptions
    0-8, 10-14, 16-20 and the interrupts 32-47, each gate leads to its own stub in
    the kernel code segment, only vectors 3 and 4 may be raised from user mode, and
    IDTR covers the 256 gates. *)
Theorem idt_init_correct (isr irq : Z -> Z) (addr : Z) (s : idt_state) (n : Z) :
  length (idt s) = 256%nat -> (forall i, 0 <= isr i < 2 ^ 64) -> (forall i, 0 <= irq i < 2 ^ 64) ->
  0 <= n < 256 ->
  let s' := idt_init isr irq addr s in
  let e := idt_at n s' in
  idtr s' = (4095, addr) /\ length (idt s') = 256%nat /\
  (gate_present e = true <-> n ∈ fst <$> exceptions \/ n ∈ (Z.add 32) <$> irqs) /\
  (n ∈ fst <$> exceptions -> gate_offset e = isr n /\ selector e = 0x08 /\
     type_attr e = if (n =? 3) || (n =? 4) then 0xEF else 0x8E) /\
  (n ∈ (Z.add 32) <$> irqs -> gate_offset e = irq (n - 32) /\ selector e = 0x08 /\ type_attr e = 0x8E).
Proof. apply idt_gates. Qed.

(** ** The dispatcher *)

(** The devices an interrupt reaches. *)
Record devices (D : Type) := Devices { tm : timer; kbd : keyboard; bus : io D }.
Arguments Devices {D}.
Arguments tm {D}.
Arguments kbd {D}.
Arguments bus {D}.

Inductive outcome (D : Type) :=
| Halts                       (** [cli] and [hlt] for ever *)
| Resumes (d : devices D).
Arguments Halts {D}.
Arguments Resumes {D}.

Section Dispatch.
  Context {D : Type} {PD : PortDevice D}.
  (** The effect of calling the timer callback at an address. *)
  Context (call : Z -> devices D -> devices D).

Definition interrupt_handler (interrupt_number : Z) (d : devices D) : outcome D :=
  if interrupt_number <? 32 then Halts
  else if (32 <=? interrupt_number) && (interrupt_number <? 48) then
    let irq := u8 (interrupt_number - 32) in
    let d :=
      if irq =? IRQ_TIMER then
        let '(t, cb) := timer_handler (tm d) in
        let d := Devices t (kbd d) (bus d) in
        match cb with Some f => call f d | None => d end
      else if irq =? IRQ_KEYBOARD then
        let '(k, b) := keyboard_handler (kbd d) (bus d) in Devices (tm d) k b
      else d in
    Resumes (Devices (tm d) (kbd d) (pic_eoi irq (bus d)))
  else Resumes d.

(** The accesses of an end of interrupt, newest first. *)
Definition eoi_trace (irq : Z) : list io_event :=
  [Out 8 0x80 0; Out 8 PIC1_COMMAND PIC_EOI] ++
  (if 8 <=? irq then [Out 8 0x80 0; Out 8 PIC2_COMMAND PIC_EOI] else []).

Lemma pic_eoi_trace (irq : Z) (s : io D) : trace (pic_eoi irq s) = eoi_trace irq ++ trace s.
Proof. unfold pic_eoi, eoi_trace. by destruct (8 <=? irq). Qed.

(** C33: dispatch of an interrupt: exceptions halt the machine without an end of
    interrupt; the sixteen lines run their device's handler (the timer counts and
    calls its callback, the keyboard reads one scancode from port 0x60 and decodes
    it) and are then acknowledged, at the slave controller first for lines 8-15;
    any other vector does nothing. *)
Theorem interrupt_handler_correct (n : Z) (d : devices D) :
  0 <= n < 2 ^ 64 ->
  (n < 32 -> interrupt_handler n d = Halts) /\
  (48 <= n -> interrupt_handler n d = Resumes d) /\
  (32 <= n < 48 -> exists d1 d2, interrupt_handler n d = Resumes d2 /\
     trace (bus d2) = eoi_trace (n - 32) ++ trace (bus d1) /\ tm d2 = tm d1 /\ kbd d2 = kbd d1 /\
     if n =? 32 then
       let d' := Devices (Timer (u64 (timer_ticks (tm d) + 1)) (timer_callback (tm d))) (kbd d) (bus d) in
       d1 = match timer_callback (tm d) with Some f => call f d' | None => d' end
     else if n =? 33 then
       exists sc, 0 <= sc < 256 /\ trace (bus d1) = In 8 0x60 sc :: trace (bus d) /\
         kbd d1 = handle_scancode sc (kbd d) /\ tm d1 = tm d
     else d1 = d).
Proof.
  intros Hn. unfold interrupt_handler. split_and!.
  - intros H. by rewrite (proj2 (Z.ltb_lt n 32)).
  - intros H. rewrite (proj2 (Z.ltb_ge n 32)), (proj2 (Z.ltb_ge n 48)) by lia. by rewrite andb_false_r.
  - intros H. rewrite (proj2 (Z.ltb_ge n 32)), (proj2 (Z.leb_le 32 n)), (proj2 (Z.ltb_lt n 48)) by lia.
    cbn [andb]. rewrite (uwrap_small 8 (n - 32)) by lia. unfold IRQ_TIMER, IRQ_KEYBOARD.
    replace (n - 32 =? 0) with (n =? 32) by (zcases; lia).
    replace (n - 32 =? 1) with (n =? 33) by (zcases; lia).
    destruct (Z.eqb_spec n 32) as [->|H32].
    + eexists _, _. split; [reflexivity|]. cbn [bus tm kbd]. split; [apply pic_eoi_trace|].
      by split_and!.
    + destruct (Z.eqb_spec n 33) as [->|H33].
      * unfold keyboard_handler, inb, port_read. destruct (port_in 8 KEYBOARD_DATA (dev (bus d))) as [v d0].
        exists (Devices (tm d) (handle_scancode (u8 v) (kbd d))
          (Io d0 (In 8 KEYBOARD_DATA (u8 v) :: trace (bus d)))).
        eexists. split; [reflexivity|]. cbn [bus tm kbd]. split; [apply pic_eoi_trace|].
        split; [done|]. split; [done|]. exists (u8 v). by split_and!; [apply uwrap_range; lia..| | |].
      * exists d. eexists. split; [reflexivity|]. cbn [bus tm kbd]. split; [apply pic_eoi_trace|].
        by split_and!.
Qed.

End Dispatch.

(** ** Concrete instances *)

Definition demo_isr (i : Z) : Z := 0x100000 + 16 * (i mod 64).

Lemma idt_init_correct_witness :
  let s := idt_init demo_isr (fun i => demo_isr (i + 32)) 0x9000 (Idt (replicate 256 idt_zero) (0, 0)) in
  gate_offset (idt_at 33 s) = 0x100000 + 16 * 33.
Proof.
  destruct (idt_init_correct demo_isr (fun i => demo_isr (i + 32)) 0x9000
    (Idt (replicate 256 idt_zero) (0, 0)) 33) as (_ & _ & _ & _ & H).
  - reflexivity.
  - intros i. unfold demo_isr. dlia.
  - intros i. unfold demo_isr. dlia.
  - lia.
  - apply H. apply (bool_decide_eq_true _). vm_compute. reflexivity.
Defined.

Lemma interrupt_handler_correct_witness :
  interrupt_handler (fun _ d => d) 13 (Devices (Timer 0 None) demo_keyboard (Io (DemoPics 0 0) [])) = Halts.
Proof.
  apply (interrupt_handler_correct (fun _ d => d) 13
    (Devices (Timer 0 None) demo_keyboard (Io (DemoPics 0 0) []))); lia.
Defined.
