(* ===== verification/Isr.v ===== *)
(** * The interrupt stubs ([kernel/cpu/isr.S], [kernel/cpu/idt.h])

    What happens around [interrupt_handler]: the processor pushes its state, the
    stub the vector number and the registers, the handler gets the address of
    this frame, and the registers are popped again.  The theorem shows that an
    interrupt is transparent to the code it interrupts. *)

From S2P Require Import Prelude Mem Process Io Pic Keyboard Idt.

(** The registers of the interrupted code. *)
Record iregs := IRegs {
  i_rax : Z; i_rbx : Z; i_rcx : Z; i_rdx : Z; i_rsi : Z; i_rdi : Z; i_rbp : Z;
  i_r8 : Z; i_r9 : Z; i_r10 : Z; i_r11 : Z; i_r12 : Z; i_r13 : Z; i_r14 : Z; i_r15 : Z;
  i_rip : Z; i_cs : Z; i_rflags : Z; i_rsp : Z; i_ss : Z
}.

(** [interrupt_frame_t], and the structure at an address. *)
Record interrupt_frame := Frame {
  f_r15 : Z; f_r14 : Z; f_r13 : Z; f_r12 : Z; f_r11 : Z; f_r10 : Z; f_r9 : Z; f_r8 : Z;
  f_rbp : Z; f_rdi : Z; f_rsi : Z; f_rdx : Z; f_rcx : Z; f_rbx : Z; f_rax : Z;
  f_interrupt_number : Z; f_error_code : Z;
  f_rip : Z; f_cs : Z; f_rflags : Z; f_rsp : Z; f_ss : Z
}.
Definition frame_at (m : memory) (a : Z) : interrupt_frame :=
  Frame (rd64 m a) (rd64 m (a + 8)) (rd64 m (a + 16)) (rd64 m (a + 24)) (rd64 m (a + 32)) (rd64 m (a + 40))
    (rd64 m (a + 48)) (rd64 m (a + 56)) (rd64 m (a + 64)) (rd64 m (a + 72)) (rd64 m (a + 80)) (rd64 m (a + 88))
    (rd64 m (a + 96)) (rd64 m (a + 104)) (rd64 m (a + 112)) (rd64 m (a + 120)) (rd64 m (a + 128))
    (rd64 m (a + 136)) (rd64 m (a + 144)) (rd64 m (a + 152)) (rd64 m (a + 160)) (rd64 m (a + 168)).

(** The processor aligns the stack to 16 bytes and pushes its state, for some
    exceptions with an error code. *)
Definition aligned_top (rsp : Z) : Z := rsp / 16 * 16.
Definition cpu_interrupt (e : option Z) (r : iregs) (m : memory) : Z * memory :=
  push_words ([i_ss r; i_rsp r; i_rflags r; i_cs r; i_rip r] ++ option_list e) (aligned_top (i_rsp r)) m.

(** The stubs made by [ISR_ERRCODE]; all others are made by [ISR_NOERRCODE]. *)
Definition isr_errcode (num : Z) : bool := bool_decide (num ∈ [8; 10; 11; 12; 13; 14]).
Definition isr_stub (num sp : Z) (m : memory) : Z * memory :=
  push_words (if isr_errcode num then [num] else [0; num]) sp m.

(** The general registers are pushed and the stack is adjusted; the handler gets the address
    of the frame in RDI. *)
Definition isr_save (r : iregs) (sp : Z) (m : memory) : Z * memory :=
  let '(sp, m) := push_words [i_rax r; i_rbx r; i_rcx r; i_rdx r; i_rsi r; i_rdi r; i_rbp r; i_r8 r; i_r9 r;
                              i_r10 r; i_r11 r; i_r12 r; i_r13 r; i_r14 r; i_r15 r] sp m in
  let sp := sp - 8 in
  let rdi := sp + 8 in
  (rdi, m).

(** The registers are popped, number and error code dropped, and [iretq] pops the rest. *)
Definition isr_restore (sp : Z) (m : memory) : iregs :=
  let sp := sp + 8 in
  let pop k := rd64 m (sp + 8 * k) in
  let '(r15, r14, r13, r12, r11, r10, r9, r8) :=
    (pop 0, pop 1, pop 2, pop 3, pop 4, pop 5, pop 6, pop 7) in
  let '(rbp, rdi, rsi, rdx, rcx, rbx, rax) := (pop 8, pop 9, pop 10, pop 11, pop 12, pop 13, pop 14) in
  let sp := sp + 120 + 16 in
  IRegs rax rbx rcx rdx rsi rdi rbp r8 r9 r10 r11 r12 r13 r14 r15
    (rd64 m sp) (rd64 m (sp + 8)) (rd64 m (sp + 16)) (rd64 m (sp + 24)) (rd64 m (sp + 32)).

Inductive isr_result (D : Type) := IsrHalts | IsrResumes (r : iregs) (m : memory) (d : devices D).
Arguments IsrHalts {D}.
Arguments IsrResumes {D}.

(** What the handler is called with: the frame's address, and memory. *)
Definition isr_frame (num : Z) (e : option Z) (r : iregs) (m : memory) : Z * memory :=
  let '(sp, m) := cpu_interrupt e r m in
  let '(sp, m) := isr_stub num sp m in
  isr_save r sp m.

Section Stub.
  Context {D : Type} {PD : PortDevice D} (call : Z -> devices D -> devices D).
  (** What the C call leaves in memory: its return address, its stack and its variables. *)
  Context (callee : memory -> memory).

(** The handler reads the number in the frame that RDI points to. *)
Definition isr_common_stub (r : iregs) (sp : Z) (m : memory) (d : devices D) : isr_result D :=
  let '(rdi, m) := isr_save r sp m in
  let sp := rdi - 8 in
  match interrupt_handler call (f_interrupt_number (frame_at m rdi)) d with
  | Halts => IsrHalts
  | Resumes d => let m := callee m in IsrResumes (isr_restore sp m) m d
  end.

(** An interrupt with vector [num], for which the processor pushes [e]. *)
Definition isr_entry (num : Z) (e : option Z) (r : iregs) (m : memory) (d : devices D) : isr_result D :=
  let '(sp, m) := cpu_interrupt e r m in
  let '(sp, m) := isr_stub num sp m in
  isr_common_stub r sp m d.
End Stub.

(** ** Theorems *)

Definition iregs_ok (r : iregs) : Prop :=
  Forall (fun v => 0 <= v < 2 ^ 64)
    [i_ss r; i_rsp r; i_rflags r; i_cs r; i_rip r; i_rax r; i_rbx r; i_rcx r; i_rdx r; i_rsi r; i_rdi r; i_rbp r;
     i_r8 r; i_r9 r; i_r10 r; i_r11 r; i_r12 r; i_r13 r; i_r14 r; i_r15 r].

Lemma push_words_app (vs ws : list Z) : forall (sp : Z) (m : memory),
  push_words (vs ++ ws) sp m = let '(sp, m) := push_words vs sp m in push_words ws sp m.
Proof. induction vs as [|v vs IH]; intros sp m; [done|]. cbn [app push_words]. apply IH. Qed.

(** The words below the aligned stack pointer, in the order they are pushed. *)
Definition entry_words (num : Z) (e : option Z) (r : iregs) : list Z :=
  [i_ss r; i_rsp r; i_rflags r; i_cs r; i_rip r] ++ option_list e
  ++ (if isr_errcode num then [num] else [0; num])
  ++ [i_rax r; i_rbx r; i_rcx r; i_rdx r; i_rsi r; i_rdi r; i_rbp r; i_r8 r; i_r9 r;
      i_r10 r; i_r11 r; i_r12 r; i_r13 r; i_r14 r; i_r15 r].

Lemma entry_words_ok (num : Z) (e : option Z) (r : iregs) :
  iregs_ok r -> 0 <= num < 2 ^ 64 -> 0 <= default 0 e < 2 ^ 64 ->
  Forall (fun v => 0 <= v < 2 ^ 64) (entry_words num e r).
Proof.
  intros Hr Hn He. unfold iregs_ok in Hr. rewrite !Forall_cons in Hr. unfold entry_words.
  destruct e as [c|], (isr_errcode num); cbn [app option_list default] in *;
    repeat (apply Forall_cons; split; [(tauto || lia)|]); done.
Qed.

Lemma push_words_sp (ws : list Z) : forall sp m, (push_words ws sp m).1 = sp - 8 * zlen ws.
Proof. unfold zlen. induction ws as [|w ws IH]; intros sp m; cbn [push_words length]; [cbn; lia|]. rewrite IH. lia. Qed.

Lemma isr_frame_words (num : Z) (e : option Z) (r : iregs) (m : memory) :
  isr_frame num e r m = push_words (entry_words num e r) (aligned_top (i_rsp r)) m.
Proof.
  unfold isr_frame, cpu_interrupt, isr_stub, isr_save, entry_words.
  rewrite (app_assoc _ (option_list e)), (push_words_app (_ ++ option_list e)).
  destruct (push_words (_ ++ option_list e) _ m) as [sp1 m1]. rewrite (push_words_app (if isr_errcode num then _ else _)).
  destruct (push_words (if isr_errcode num then _ else _) sp1 m1) as [sp2 m2].
  destruct (push_words _ sp2 m2) as [sp3 m3]. f_equal. lia.
Qed.

(** The words pushed below [top], as long as their bytes are kept. *)
Lemma frame_word (ws : list Z) (top : Z) (m m' : memory) (i : nat) (v : Z) :
  Forall (fun v => 0 <= v < 2 ^ 64) ws ->
  (forall x, top - 8 * zlen ws <= x < top -> rd8 m' x = rd8 (push_words ws top m).2 x) ->
  ws !! i = Some v -> rd64 m' (top - 8 * Z.of_nat (i + 1)) = v.
Proof.
  intros Hws Hm Hi. pose proof (push_words_spec ws top m Hws) as P.
  destruct (push_words ws top m) as [sp m1]. destruct P as (-> & Hr & _). rewrite <- (Hr i v Hi).
  pose proof (lookup_lt_Some _ _ _ Hi). apply rdN_ext. intros x Hx. apply Hm. unfold zlen. lia.
Qed.

(** Try the words one after another. *)
Ltac pick_word W i n :=
  match n with
  | S ?n' => first [ apply (W i); [reflexivity|lia] | pick_word W (S i) n' ]
  end.

(** The stub agrees with the processor on the error code. *)
Definition matches (num : Z) (e : option Z) : Prop := isr_errcode num = true <-> is_Some e.

(** The frame of [interrupt_frame_t]. *)
Definition frame_of (num err : Z) (r : iregs) : interrupt_frame :=
  Frame (i_r15 r) (i_r14 r) (i_r13 r) (i_r12 r) (i_r11 r) (i_r10 r) (i_r9 r) (i_r8 r) (i_rbp r) (i_rdi r)
    (i_rsi r) (i_rdx r) (i_rcx r) (i_rbx r) (i_rax r) num err (i_rip r) (i_cs r) (i_rflags r) (i_rsp r) (i_ss r).

Lemma matching_words (num : Z) (e : option Z) (r : iregs) :
  matches num e -> entry_words num e r
  = [i_ss r; i_rsp r; i_rflags r; i_cs r; i_rip r; default 0 e; num;
     i_rax r; i_rbx r; i_rcx r; i_rdx r; i_rsi r; i_rdi r; i_rbp r; i_r8 r; i_r9 r;
     i_r10 r; i_r11 r; i_r12 r; i_r13 r; i_r14 r; i_r15 r].
Proof.
  intros He. unfold matches, entry_words in *. destruct (isr_errcode num), e as [c|]; try done.
  - destruct (proj1 He eq_refl) as [? [=]].
  - discriminate (proj2 He (mk_is_Some _ _ eq_refl)).
Qed.

Section Words.
  Context (num : Z) (e : option Z) (r : iregs) (m m' : memory).
Let top := aligned_top (i_rsp r).
  Context (Hr : iregs_ok r) (Hn : 0 <= num < 2 ^ 64) (He : 0 <= default 0 e < 2 ^ 64)
    (Hm : forall x, top - 8 * zlen (entry_words num e r) <= x < top ->
            rd8 m' x = rd8 (push_words (entry_words num e r) top m).2 x).

Lemma entry_word (i : nat) (a v : Z) :
  entry_words num e r !! i = Some v -> a = top - 8 * Z.of_nat (i + 1) -> rd64 m' a = v.
Proof. intros Hi ->. apply (frame_word (entry_words num e r) top m m' i v); [by apply entry_words_ok|done|done]. Qed.

Lemma frame_at_words : matches num e -> frame_at m' (top - 176) = frame_of num (default 0 e) r.
Proof.
  intros Hma. pose proof entry_word as W. rewrite (matching_words num e r Hma) in W.
  unfold frame_at, frame_of. f_equal; pick_word W 0%nat 22%nat.
Qed.

Lemma restore_words : matches num e -> isr_restore (top - 184) m' = r.
Proof.
  intros Hma. pose proof entry_word as W. rewrite (matching_words num e r Hma) in W.
  unfold isr_restore. destruct r as [rax rbx rcx rdx rsi rdi rbp r8 r9 r10 r11 r12 r13 r14 r15 rip cs rfl rsp ss].
  cbn [i_rax i_rbx i_rcx i_rdx i_rsi i_rdi i_rbp i_r8 i_r9 i_r10 i_r11 i_r12 i_r13 i_r14 i_r15
    i_rip i_cs i_rflags i_rsp i_ss] in W.
  f_equal; pick_word W 0%nat 22%nat.
Qed.

(** With an error code that the stub does not expect, everything is a word further down. *)
Lemma frame_at_shifted (c : Z) :
  isr_errcode num = false -> e = Some c ->
  f_interrupt_number (frame_at m' (top - 184)) = num /\ f_error_code (frame_at m' (top - 184)) = 0 /\
  f_rip (frame_at m' (top - 184)) = c.
Proof.
  intros Hs Hc. pose proof entry_word as W. unfold entry_words in W. rewrite Hs, Hc in W.
  cbn [f_interrupt_number f_error_code f_rip frame_at].
  split; [|split]; [apply (W 7%nat)|apply (W 6%nat)|apply (W 5%nat)]; (reflexivity || lia).
Qed.
End Words.

(** The words are below the stack pointer of the interrupted code. *)
Lemma aligned_top_le (rsp : Z) : aligned_top rsp <= rsp < aligned_top rsp + 16.
Proof. unfold aligned_top. dlia. Qed.

(** At the call the stack pointer is 8 modulo 16; the calling convention of the
    compiler has it divisible by 16 there. *)
Lemma isr_call_misaligned (rsp : Z) : (aligned_top rsp - 176 - 8) mod 16 = 8.
Proof. unfold aligned_top. dlia. Qed.

(** The vectors that have a stub, and those for which the processor pushes an error code. *)
Definition has_stub (num : Z) : Prop := 0 <= num <= 20 \/ 32 <= num < 48.
Definition cpu_errcode (num : Z) : bool := bool_decide (num ∈ [8; 10; 11; 12; 13; 14; 17; 21; 29; 30]).

Lemma stub_matches (num : Z) (e : option Z) :
  has_stub num -> num <> 17 -> (is_Some e <-> cpu_errcode num = true) -> matches num e.
Proof.
  intros Hs Hne Hi. unfold matches. rewrite Hi. unfold isr_errcode, cpu_errcode, has_stub in *. rewrite !bool_decide_eq_true, !elem_of_cons.
  split; [tauto|]. intros H. rewrite elem_of_nil in *. repeat (destruct H as [H|H]; [(tauto || lia)|]). done.
Qed.

(** C20: An interrupt is transparent.  For every vector that has a stub, the handler gets the
    address of a frame below the stack of the interrupted code, and up to there nothing but the
    bytes of the frame is written.  For every vector but 17 the frame holds the interrupted
    registers, the number and the error code (or 0) in the layout of [interrupt_frame_t]; for
    vector 17, whose error code the stub does not expect, it is shifted by a word, with the
    error code in the place of RIP.  When the handler returns, every register, with
    instruction and stack pointer and flags, is what it was, memory is what the handler left,
    and the devices are what it made of them; when it halts, as for every exception, the code
    is not resumed.  The C code must leave the frame as it is. *)
Theorem isr_transparent {D} {PD : PortDevice D} (call : Z -> devices D -> devices D) (callee : memory -> memory)
    (num : Z) (e : option Z) (r : iregs) (m : memory) (d : devices D) :
  iregs_ok r -> has_stub num -> (is_Some e <-> cpu_errcode num = true) -> 0 <= default 0 e < 2 ^ 64 ->
  let top := aligned_top (i_rsp r) in
  (forall m x, top - 176 <= x < top -> rd8 (callee m) x = rd8 m x) ->
  exists frame m1, isr_frame num e r m = (frame, m1) /\
    (forall x, x < frame \/ i_rsp r <= x -> rd8 m1 x = rd8 m x) /\
    (if num =? 17
     then f_interrupt_number (frame_at m1 frame) = num /\ f_error_code (frame_at m1 frame) = 0 /\
          f_rip (frame_at m1 frame) = default 0 e
     else frame_at m1 frame = frame_of num (default 0 e) r) /\
    match interrupt_handler call num d with
    | Halts => isr_entry call callee num e r m d = IsrHalts
    | Resumes d' => isr_entry call callee num e r m d = IsrResumes r (callee m1) d'
    end.
Proof.
  intros Hr Hs He Hc top Hcal. assert (Hn : 0 <= num < 2 ^ 64) by (unfold has_stub in Hs; lia).
  pose proof (isr_frame_words num e r m) as Ef. fold top in Ef.
  pose proof (push_words_spec _ top m (entry_words_ok num e r Hr Hn Hc)) as P.
  pose proof (aligned_top_le (i_rsp r)) as Ht. fold top in Ht.
  assert (Een : isr_entry call callee num e r m d
    = let '(rdi, m) := isr_frame num e r m in
      match interrupt_handler call (f_interrupt_number (frame_at m rdi)) d with
      | Halts => IsrHalts
      | Resumes d => let m := callee m in IsrResumes (isr_restore (rdi - 8) m) m d
      end).
  { unfold isr_entry, isr_frame, isr_common_stub. destruct (cpu_interrupt e r m) as [sp1 m1].
    by destruct (isr_stub num sp1 m1) as [sp2 m2]. }
  rewrite Een, Ef. clear Een Ef. pose proof (fun m' => frame_at_words num e r m m' Hr Hn Hc) as Wf.
  pose proof (fun m' => restore_words num e r m m' Hr Hn Hc) as Wr.
  pose proof (fun m' => frame_at_shifted num e r m m' Hr Hn Hc) as Wx. fold top in Wf, Wr, Wx.
  destruct (push_words (entry_words num e r) top m) as [frame m1]. cbn [snd] in *. destruct P as (-> & _ & Hout).
  eexists _, m1. split; [reflexivity|]. split; [intros x Hx; apply Hout; lia|].
  destruct (Z.eqb_spec num 17) as [->|Hne].
  - destruct e as [c|]; [|by destruct (proj2 He eq_refl)]. cbn [default].
    destruct (Wx m1 ltac:(done) c eq_refl eq_refl) as (E1 & E2 & E3). change (top - 8 * _) with (top - 184).
    rewrite E1. by split_and!.
  - pose proof (stub_matches num e Hs Hne He) as Hma. rewrite (matching_words num e r Hma) in *.
    change (8 * zlen _) with 176 in *. rewrite (Wf m1) by done. split; [done|]. cbn [f_interrupt_number frame_of].
    destruct (interrupt_handler call num d); [done|]. cbv zeta. f_equal.
    replace (top - 176 - 8) with (top - 184) by lia. apply Wr; [|done]. intros x Hx. by apply Hcal.
Qed.

(** ** Example *)

Definition demo_iregs : iregs := IRegs 1 2 3 4 5 6 7 8 9 10 11 12 13 14 15 0x101234 8 0x202 0x180018 16.
Definition demo_devices : devices demo_pics := Devices (Timer 0 None) demo_keyboard (Io (DemoPics 0 0) []).

Lemma isr_transparent_witness : exists frame m1 d',
  isr_frame 32 None demo_iregs ∅ = (frame, m1) /\ frame_at m1 frame = frame_of 32 0 demo_iregs /\
  isr_entry (fun _ d => d) (fun m => m) 32 None demo_iregs ∅ demo_devices = IsrResumes demo_iregs m1 d'.
Proof.
  pose proof (isr_transparent (fun _ d => d) (fun m => m) 32 None demo_iregs ∅ demo_devices) as H.
  assert (E : exists d', interrupt_handler (fun _ d => d) 32 demo_devices = Resumes d')
    by (eexists; vm_compute; reflexivity).
  destruct E as [d' E]. rewrite E in H. destruct H as (frame & m1 & Hf & _ & Hl & He).
  - repeat constructor; cbn; lia.
  - right. lia.
  - split; [intros [? [=]]|discriminate].
  - cbn. lia.
  - done.
  - exists frame, m1, d'. split; [exact Hf|]. split; [exact Hl|exact He].
Defined.
