(* ===== verification/Entry.v ===== *)
(** * The entry point of the kernel ([kernel/entry.S])

    The loader jumps to [_start] with the address of the boot information in RCX
    (the calling convention of the firmware).  It clears the BSS, switches to the
    stack in the data section and calls [kernel_main] with the address in RDI
    (the convention of the kernel's compiler).  The processor's arithmetic flags
    are not modelled. *)

From S2P Require Import Prelude Mem Process.

Inductive reg :=
  | RAX | RBX | RCX | RDX | RSI | RDI | RBP | RSP
  | R8 | R9 | R10 | R11 | R12 | R13 | R14 | R15.
#[export] Instance reg_eq_dec : EqDecision reg.
Proof. solve_decision. Defined.

(** The general registers, the direction flag and memory. *)
Record machine := Machine { gpr : reg -> Z; df : bool; mem : memory }.

Definition set_reg (d : reg) (v : Z) (s : machine) : machine :=
  Machine (fun q => if decide (q = d) then v else gpr s q) (df s) (mem s).

(** The instructions the routine is made of. *)
Definition cld (s : machine) : machine := Machine (gpr s) false (mem s).
Definition mov (src dst : reg) (s : machine) : machine := set_reg dst (gpr s src) s.
Definition lea (address : Z) (dst : reg) (s : machine) : machine := set_reg dst address s.
Definition and_imm (v : Z) (dst : reg) (s : machine) : machine := set_reg dst (Z.land (gpr s dst) (u64 v)) s.
Definition sub (src dst : reg) (s : machine) : machine := set_reg dst (u64 (gpr s dst - gpr s src)) s.
Definition shr (n : Z) (dst : reg) (s : machine) : machine := set_reg dst (Z.shiftr (gpr s dst) n) s.
Definition xor_self (dst : reg) (s : machine) : machine := set_reg dst (Z.lxor (gpr s dst) (gpr s dst)) s.
Definition push (v : Z) (s : machine) : machine :=
  let sp := u64 (gpr s RSP - 8) in
  let s := set_reg RSP sp s in
  Machine (gpr s) (df s) (wr64 (mem s) sp v).
(** [rep stosq]: RCX words of RAX from RDI on, upwards when the direction flag is clear. *)
Fixpoint stosq (n : nat) (s : machine) : machine :=
  match n with
  | O => s
  | S n =>
      let step := if df s then -8 else 8 in
      let m := wr64 (mem s) (gpr s RDI) (gpr s RAX) in
      let s := set_reg RDI (u64 (gpr s RDI + step)) (set_reg RCX (u64 (gpr s RCX - 1)) s) in
      stosq n (Machine (gpr s) (df s) m)
  end.
Definition rep_stosq (s : machine) : machine := stosq (Z.to_nat (gpr s RCX)) s.

Section Start.
  (** The addresses of the symbols, and of the label [halt] behind the call. *)
  Context (stack_top bss_start bss_end halt : Z).

Definition clear_bss (s : machine) : machine :=
  let s := lea bss_start RDI s in
  let s := lea bss_end RCX s in
  let s := sub RDI RCX s in
  if gpr s RCX =? 0 then s
  else
    let s := shr 3 RCX s in
    if gpr s RCX =? 0 then s
    else rep_stosq (xor_self RAX s).

Definition set_stack (s : machine) : machine := and_imm (Z.lnot 0xF) RSP (lea stack_top RSP s).

(** The machine at the first instruction of [kernel_main]. *)
Definition start (s : machine) : machine :=
  let s := cld s in
  let s := mov RCX R12 s in
  let s := set_stack s in
  let s := clear_bss s in
  let s := set_stack s in
  let s := push 0 s in
  let s := mov R12 RDI s in
  let s := foldl (fun s d => xor_self d s) s
             [RAX; RBX; RCX; RDX; RSI; R8; R9; R10; R11; R13; R14; R15; RBP] in
  push halt s.
End Start.

(** ** Lemmas *)

Lemma gpr_set (d q : reg) (v : Z) (s : machine) :
  gpr (set_reg d v s) q = if decide (q = d) then v else gpr s q.
Proof. done. Qed.

(** [rep stosq] with RAX zero and the direction flag clear. *)
Lemma stosq_spec (n : nat) : forall s,
  df s = false -> gpr s RAX = 0 -> 0 <= gpr s RDI -> gpr s RDI + 8 * Z.of_nat n < 2 ^ 64 ->
  let s' := stosq n s in
  df s' = false /\ (forall q, q <> RDI -> q <> RCX -> gpr s' q = gpr s q) /\
  forall x, rd8 (mem s') x
    = if (gpr s RDI <=? x) && (x <? gpr s RDI + 8 * Z.of_nat n) then 0 else rd8 (mem s) x.
Proof.
  induction n as [|n IH]; intros s Hd Ha H0 H1; cbn [stosq].
  - split_and!; try done. intros x. zcases; cbn [andb]; (lia || done).
  - rewrite Hd. set (s1 := Machine _ _ _).
    assert (E : gpr s1 RDI = gpr s RDI + 8) by (cbn; apply uwrap_small; lia).
    destruct (IH s1) as (D & R & M); [done|done|lia|lia|]. split_and!; [done| |].
    + intros q Hq1 Hq2. rewrite R by done. cbn. by rewrite !decide_False.
    + intros x. rewrite M, E. change (mem s1) with (wr64 (mem s) (gpr s RDI) (gpr s RAX)).
      rewrite Ha, rd8_wrN, Zdiv_0_l. change (u8 0) with 0. zcases; cbn [andb]; (lia || done).
Qed.

(** The words of the BSS. *)
Definition bss_words (bss_start bss_end : Z) : Z := 8 * ((bss_end - bss_start) / 8).

Lemma clear_bss_spec (bss_start bss_end : Z) (s : machine) :
  0 <= bss_start <= bss_end -> bss_end < 2 ^ 64 -> df s = false ->
  let s' := clear_bss bss_start bss_end s in
  df s' = false /\ (forall q, q ∉ [RAX; RDI; RCX] -> gpr s' q = gpr s q) /\
  forall x, rd8 (mem s') x
    = if (bss_start <=? x) && (x <? bss_start + bss_words bss_start bss_end) then 0 else rd8 (mem s) x.
Proof.
  intros Hs He Hd. unfold clear_bss, bss_words. set (s1 := sub RDI RCX _).
  assert (E1 : gpr s1 RCX = bss_end - bss_start) by (cbn; apply uwrap_small; lia).
  assert (R1 : forall q, q ∉ [RAX; RDI; RCX] -> gpr s1 q = gpr s q).
  { intros q Hq. cbn. rewrite !decide_False by set_solver. done. }
  assert (M1 : mem s1 = mem s /\ df s1 = false /\ gpr s1 RDI = bss_start) by done.
  clearbody s1. destruct M1 as (M1 & D1 & B1). rewrite E1.
  destruct (Z.eqb_spec (bss_end - bss_start) 0) as [E|E].
  { rewrite E, M1. change (8 * (0 / 8)) with 0. split_and!; try done.
    intros x. zcases; cbn [andb]; (lia || done). }
  set (s2 := shr 3 RCX s1). assert (E2 : gpr s2 RCX = (bss_end - bss_start) / 8)
    by (cbn; rewrite E1; by rewrite Z.shiftr_div_pow2 by lia).
  assert (R2 : forall q, q ∉ [RAX; RDI; RCX] -> gpr s2 q = gpr s q).
  { intros q Hq. rewrite <- R1 by done. cbn. rewrite decide_False by set_solver. done. }
  rewrite E2. destruct (Z.eqb_spec ((bss_end - bss_start) / 8) 0) as [E'|E'].
  { rewrite E'. change (mem s2) with (mem s1). rewrite M1. split_and!; try done.
    intros x. zcases; cbn [andb]; (lia || done). }
  unfold rep_stosq. set (s3 := xor_self RAX s2).
  assert (Hn : 0 <= (bss_end - bss_start) / 8) by (apply Z.div_pos; lia).
  assert (Hb : 8 * ((bss_end - bss_start) / 8) <= bss_end - bss_start) by (apply Z.mul_div_le; lia).
  change (gpr s3 RCX) with (gpr s2 RCX). rewrite E2.
  assert (A3 : gpr s3 RAX = 0) by apply Z.lxor_nilpotent.
  assert (B3 : gpr s3 RDI = bss_start) by exact B1.
  destruct (stosq_spec (Z.to_nat ((bss_end - bss_start) / 8)) s3) as (D & R & M);
    [done|done|lia|rewrite Z2Nat.id; lia|]. split_and!; [done| |].
  - intros q Hq. rewrite R by set_solver. rewrite <- R2 by done. cbn. rewrite decide_False by set_solver. done.
  - intros x. rewrite M, B3, Z2Nat.id by lia. change (mem s3) with (mem s1). by rewrite M1.
Qed.

Lemma xors_spec (ds : list reg) : forall s,
  let s' := foldl (fun s d => xor_self d s) s ds in
  mem s' = mem s /\ df s' = df s /\ forall q, gpr s' q = if decide (q ∈ ds) then 0 else gpr s q.
Proof.
  induction ds as [|d ds IH]; intros s; cbn [foldl].
  - by split_and!.
  - destruct (IH (xor_self d s)) as (-> & -> & H). split_and!; try done. intros q. rewrite H.
    unfold xor_self. rewrite gpr_set, Z.lxor_nilpotent.
    destruct (decide (q ∈ ds)); [rewrite decide_True by set_solver; done|].
    destruct (decide (q = d)) as [->|]; [by rewrite decide_True by set_solver|].
    rewrite decide_False by set_solver. done.
Qed.

(** The stack pointer is cut down to a multiple of 16. *)
Lemma align_16 (a : Z) : 0 <= a < 2 ^ 64 -> Z.land a (u64 (Z.lnot 0xF)) = 16 * (a / 16).
Proof.
  intros Ha. apply Z.bits_inj'. intros j Hj. rewrite Z.land_spec, uwrap_testbit, Z.lnot_spec by lia.
  change 15 with (Z.ones 4). change 16 with (2 ^ 4). rewrite Z.mul_comm, <- Z.shiftr_div_pow2, <- Z.shiftl_mul_pow2 by lia.
  rewrite Z.shiftl_spec by lia. destruct (Z.ltb_spec j 4).
  - rewrite Z.ones_spec_low, (Z.testbit_neg_r _ (j - 4)) by lia. cbn. by rewrite !andb_false_r.
  - rewrite Z.ones_spec_high, Z.shiftr_spec by lia. cbn. rewrite andb_true_r.
    replace (j - 4 + 4) with j by lia. destruct (Z.ltb_spec j 64); [apply andb_true_r|].
    rewrite andb_false_r. symmetry. apply (testbit_high 64); lia.
Qed.

Lemma set_stack_spec (stack_top : Z) (s : machine) :
  0 <= stack_top < 2 ^ 64 ->
  let s' := set_stack stack_top s in
  mem s' = mem s /\ df s' = df s /\
  forall q, gpr s' q = if decide (q = RSP) then 16 * (stack_top / 16) else gpr s q.
Proof.
  intros H. split_and!; try done. intros q. unfold set_stack, and_imm, lea. rewrite !gpr_set.
  destruct (decide (q = RSP)) as [->|]; [|done]. rewrite decide_True by done. by apply align_16.
Qed.

Lemma push_spec (v : Z) (s : machine) :
  8 <= gpr s RSP < 2 ^ 64 ->
  let s' := push v s in
  mem s' = wr64 (mem s) (gpr s RSP - 8) v /\ df s' = df s /\
  forall q, gpr s' q = if decide (q = RSP) then gpr s RSP - 8 else gpr s q.
Proof.
  intros H. unfold push. rewrite uwrap_small by lia. split_and!; try done.
Qed.

(** A register that is not in a literal list. *)
Ltac notin :=
  let H := fresh in intros H; repeat (apply elem_of_cons in H as [H|H]; [discriminate H|]);
  by apply not_elem_of_nil in H.

(** ** Theorems *)

(** C17: [_start] enters [kernel_main] with the boot information that the loader passed in RCX as
    the first argument (and still in R12), on the kernel's stack with the label [halt] as return
    address above a zero word, the direction flag clear and every register but RDI, RSP and R12
    zero.  The whole 8-byte words of the BSS are zero; no other byte outside of the two stack
    words has changed, so the up to seven bytes of the BSS behind its last whole word keep what
    was there.  The stack pointer is then divisible by 16, where the calling convention has it
    8 modulo 16. *)
Theorem start_correct (stack_top bss_start bss_end halt : Z) (s : machine) :
  let top := 16 * (stack_top / 16) in
  16 <= stack_top < 2 ^ 64 -> 0 <= bss_start <= bss_end -> bss_end < 2 ^ 64 -> 0 <= halt < 2 ^ 64 ->
  top <= bss_start \/ bss_end <= top - 16 ->
  let s' := start stack_top bss_start bss_end halt s in
  gpr s' RDI = gpr s RCX /\ gpr s' R12 = gpr s RCX /\ gpr s' RSP = top - 16 /\ gpr s' RSP mod 16 = 0 /\ df s' = false /\
  (forall q, q ∉ [RDI; RSP; R12] -> gpr s' q = 0) /\
  rd64 (mem s') (top - 16) = halt /\ rd64 (mem s') (top - 8) = 0 /\
  (forall x, bss_start <= x < bss_start + bss_words bss_start bss_end -> rd8 (mem s') x = 0) /\
  (forall x, ~ (bss_start <= x < bss_start + bss_words bss_start bss_end) -> ~ (top - 16 <= x < top) ->
     rd8 (mem s') x = rd8 (mem s) x).
Proof.
  intros top Hst Hb He Hh Hdis. unfold start. fold top.
  assert (Htop : 16 <= top < 2 ^ 64 /\ top mod 16 = 0) by (unfold top; dlia).
  set (s1 := mov RCX R12 (cld s)).
  destruct (set_stack_spec stack_top s1 ltac:(lia)) as (M2 & D2 & R2). fold top in R2.
  set (s2 := set_stack stack_top s1) in *.
  destruct (clear_bss_spec bss_start bss_end s2 Hb He D2) as (D3 & R3 & M3).
  set (s3 := clear_bss _ _ s2) in *. clearbody s3.
  destruct (set_stack_spec stack_top s3 ltac:(lia)) as (M4 & D4 & R4). fold top in R4.
  set (s4 := set_stack stack_top s3) in *. clearbody s4.
  assert (E4 : gpr s4 RSP = top) by by rewrite R4.
  destruct (push_spec 0 s4 ltac:(lia)) as (M5 & D5 & R5). rewrite E4 in M5, R5.
  set (s5 := push 0 s4) in *. clearbody s5.
  set (ds := [RAX; _; _; _; _; _; _; _; _; _; _; _; _]). set (s6 := mov R12 RDI s5).
  destruct (xors_spec ds s6) as (M7 & D7 & R7). set (s7 := foldl _ s6 ds) in *. clearbody s7.
  assert (E7 : gpr s7 RSP = top - 8) by (rewrite R7; exact (R5 RSP)).
  destruct (push_spec halt s7 ltac:(lia)) as (M8 & D8 & G8). rewrite E7 in M8, G8.
  set (s8 := push halt s7) in *. clearbody s8. replace (top - 8 - 8) with (top - 16) in * by lia.
  assert (Em : mem s8 = wr64 (wr64 (mem s3) (top - 8) 0) (top - 16) halt).
  { rewrite M8, M7. change (mem s6) with (mem s5). by rewrite M5, M4. }
  assert (Hwords : 0 <= bss_words bss_start bss_end <= bss_end - bss_start) by (unfold bss_words; dlia).
  split_and!.
  - rewrite G8, R7. change (gpr s5 R12 = gpr s RCX). rewrite R5, R4. change (gpr s3 R12 = gpr s RCX).
    rewrite R3 by notin. by rewrite R2.
  - rewrite G8, R7. change (gpr s5 R12 = gpr s RCX). rewrite R5, R4. change (gpr s3 R12 = gpr s RCX).
    rewrite R3 by notin. by rewrite R2.
  - by rewrite G8.
  - rewrite G8, decide_True by done. dlia.
  - rewrite D8, D7. change (df s6) with (df s5). by rewrite D5, D4.
  - intros q Hq. rewrite G8, R7. destruct q; try reflexivity; exfalso; apply Hq.
    + by left.
    + right. by left.
    + right. right. by left.
  - rewrite Em. by apply rd64_wr64.
  - rewrite Em, rdN_wrN_disj by lia. by apply rd64_wr64.
  - intros x Hx. rewrite Em, !rd8_wrN_out by lia. rewrite M3. zcases; cbn [andb]; (lia || done).
  - intros x Hx Hs. rewrite Em, !rd8_wrN_out by lia. rewrite M3, M2. zcases; cbn [andb]; (lia || done).
Qed.

(** A kernel of 64 KB at 1 MB with its stack in front of the BSS. *)
Lemma start_correct_witness :
  let s := Machine (fun q => if decide (q = RCX) then 0x7F000 else 3) true ∅ in
  let s' := start 0x10A000 0x10B000 0x10B123 0x10005A s in
  gpr s' RDI = 0x7F000 /\ gpr s' RSP = 0x109FF0 /\ rd64 (mem s') 0x109FF0 = 0x10005A.
Proof.
  destruct (start_correct 0x10A000 0x10B000 0x10B123 0x10005A
    (Machine (fun q => if decide (q = RCX) then 0x7F000 else 3) true ∅)) as (H1 & _ & H2 & _ & _ & _ & H3 & _).
  - lia.
  - lia.
  - lia.
  - lia.
  - left. vm_compute. discriminate.
  - split; [exact H1|]. split; [exact H2|exact H3].
Defined.
