(* ===== verification/History.v ===== *)
(** * The shell's command history ([kernel/shell/history.c])

    A ring of 16 lines of 128 bytes with a navigation cursor.  The theorem
    relates it to a list of at most 16 strings: any sequence of additions and
    navigation shows the caller the same strings. *)

From S2P Require Import Prelude.

Definition HISTORY_MAX_ENTRIES : Z := 16.
Definition HISTORY_MAX_LINE : Z := 128.

Record history := History {
  history_entries : list (list Z);
  history_count : Z;
  history_start : Z;
  nav_pos : Z                     (** -1: no selection *)
}.

Definition with_nav (n : Z) (h : history) : history :=
  History (history_entries h) (history_count h) (history_start h) n.

Fixpoint str_equal (a b : list Z) : bool :=
  match a, b with
  | x :: a', y :: b' =>
      if (x =? 0) || (y =? 0) then x =? y
      else if x =? y then str_equal a' b' else false
  | [], [] => true
  | [], y :: _ => y =? 0
  | x :: _, [] => x =? 0
  end.

(** The line at an index of the array. *)
Definition entry (h : history) (i : Z) : list Z := default [] (history_entries h !! Z.to_nat i).

Definition history_init (h : history) : history := History (history_entries h) 0 0 (-1).

Definition history_add (line : option (list Z)) (h : history) : history :=
  match line with
  | None => with_nav (-1) h
  | Some line =>
      if zget line 0 =? 0 then with_nav (-1) h
      else
        let last_index := (history_start h + history_count h - 1) mod HISTORY_MAX_ENTRIES in
        if (0 <? history_count h) && str_equal (entry h last_index) line then with_nav (-1) h
        else
          let '(insert_index, count, start) :=
            if history_count h <? HISTORY_MAX_ENTRIES
            then ((history_start h + history_count h) mod HISTORY_MAX_ENTRIES,
                  history_count h + 1, history_start h)
            else (history_start h, history_count h, (history_start h + 1) mod HISTORY_MAX_ENTRIES) in
          let dst := copy_cstr (Z.to_nat (HISTORY_MAX_LINE - 1)) line 0 (entry h insert_index) in
          History (<[Z.to_nat insert_index := dst]> (history_entries h)) count start (-1)
  end.

(** The pointer returned is the index of the line; [None] is NULL. *)
Definition history_prev (h : history) : option Z * history :=
  if history_count h =? 0 then (None, h)
  else
    let nav := if nav_pos h <? history_count h - 1 then nav_pos h + 1 else nav_pos h in
    (Some ((history_start h + history_count h - 1 - nav) mod HISTORY_MAX_ENTRIES), with_nav nav h).

Definition history_next (h : history) : option Z * history :=
  if history_count h =? 0 then (None, h)
  else if nav_pos h =? -1 then (None, h)
  else if 0 <? nav_pos h then
    let nav := nav_pos h - 1 in
    (Some ((history_start h + history_count h - 1 - nav) mod HISTORY_MAX_ENTRIES), with_nav nav h)
  else (None, with_nav (-1) h).

Definition history_reset_nav (h : history) : history := with_nav (-1) h.

(** ** The list the ring stands for *)

Record history_ok (h : history) : Prop := HistoryOk {
  ho_entries : length (history_entries h) = 16%nat /\ Forall (fun e => length e = 128%nat) (history_entries h);
  ho_count : 0 <= history_count h <= 16;
  ho_start : 0 <= history_start h < 16;
  ho_nav : -1 <= nav_pos h < Z.max 1 (history_count h)
}.

(** The stored strings, oldest first. *)
Definition lines (h : history) : list (list Z) :=
  (fun i => cstr (entry h ((history_start h + Z.of_nat i) mod 16))) <$> seq 0 (Z.to_nat (history_count h)).

Lemma lines_length (h : history) : length (lines h) = Z.to_nat (history_count h).
Proof. unfold lines. by rewrite length_fmap, length_seq. Qed.

Lemma lines_lookup (h : history) (i : nat) :
  (i < Z.to_nat (history_count h))%nat ->
  lines h !! i = Some (cstr (entry h ((history_start h + Z.of_nat i) mod 16))).
Proof. intros Hi. unfold lines. by rewrite list_lookup_fmap, lookup_seq_lt. Qed.

(** [str_equal] compares the strings. *)
Lemma str_equal_spec (a : list Z) : forall b, str_equal a b = bool_decide (cstr a = cstr b).
Proof.
  induction a as [|x a IH]; intros [|y b]; cbn [str_equal cstr].
  - done.
  - destruct (Z.eqb_spec y 0); [done|]. by rewrite bool_decide_eq_false_2.
  - destruct (Z.eqb_spec x 0); [done|]. by rewrite bool_decide_eq_false_2.
  - destruct (Z.eqb_spec x 0) as [->|Hx], (Z.eqb_spec y 0) as [->|Hy]; cbn [orb].
    + done.
    + rewrite (proj2 (Z.eqb_neq 0 y)) by lia. by rewrite bool_decide_eq_false_2.
    + rewrite (proj2 (Z.eqb_neq x 0)) by lia. by rewrite bool_decide_eq_false_2.
    + destruct (Z.eqb_spec x y) as [->|Hne].
      * rewrite IH. apply bool_decide_ext. split; [by intros ->|by intros [=]].
      * rewrite bool_decide_eq_false_2; [done|]. by intros [=].
Qed.

(** ** The abstract history *)

Definition ahist := (list (list Z) * Z)%type.   (** strings oldest first, cursor *)

(** The string [n] places from the newest. *)
Definition from_newest (l : list (list Z)) (n : Z) : option (list Z) :=
  l !! Z.to_nat (Z.of_nat (length l) - 1 - n).

Inductive hop := Add (line : list Z) | Prev | Next | ResetNav.

(** One operation on the ring, with the string the caller sees. *)
Definition hstep (o : hop) (h : history) : option (list Z) * history :=
  match o with
  | Add line => (None, history_add (Some line) h)
  | Prev => let '(i, h') := history_prev h in ((fun i => cstr (entry h' i)) <$> i, h')
  | Next => let '(i, h') := history_next h in ((fun i => cstr (entry h' i)) <$> i, h')
  | ResetNav => (None, history_reset_nav h)
  end.

(** The same on the list: lines are cut at 127 characters, an empty line and a
    repetition of the newest one are not stored, the oldest of 16 is dropped. *)
Definition hspec (o : hop) (a : ahist) : option (list Z) * ahist :=
  let '(l, nav) := a in
  match o with
  | Add line =>
      let s := cstr line in
      if decide (s = [] \/ last l = Some s) then (None, (l, -1))
      else (None, ((if decide (length l < 16)%nat then l else drop 1 l) ++ [take 127 s], -1))
  | Prev =>
      let nav' := if nav <? Z.of_nat (length l) - 1 then nav + 1 else nav in
      if decide (l = []) then (None, (l, nav)) else (from_newest l nav', (l, nav'))
  | Next =>
      if decide (l = []) then (None, (l, nav))
      else if 0 <? nav then (from_newest l (nav - 1), (l, nav - 1)) else (None, (l, -1))
  | ResetNav => (None, (l, -1))
  end.

Definition habs (h : history) : ahist := (lines h, nav_pos h).

Lemma entry_insert (h : history) (i j : Z) (v : list Z) (c s n : Z) :
  0 <= i < 16 -> 0 <= j < 16 -> length (history_entries h) = 16%nat ->
  entry (History (<[Z.to_nat i := v]> (history_entries h)) c s n) j = if j =? i then v else entry h j.
Proof.
  intros Hi Hj Hl. unfold entry. cbn [history_entries]. destruct (Z.eqb_spec j i) as [->|Hne].
  - by rewrite list_lookup_insert_eq by lia.
  - by rewrite list_lookup_insert_ne by lia.
Qed.

(** Storing a line: the two cases of the ring, not full and full. *)
Lemma store_lines (h : history) (v : list Z) :
  history_ok h ->
  (history_count h < 16 ->
     lines (History (<[Z.to_nat ((history_start h + history_count h) mod 16) := v]> (history_entries h))
       (history_count h + 1) (history_start h) (-1)) = lines h ++ [cstr v]) /\
  (history_count h = 16 ->
     lines (History (<[Z.to_nat (history_start h) := v]> (history_entries h))
       (history_count h) ((history_start h + 1) mod 16) (-1)) = drop 1 (lines h) ++ [cstr v]).
Proof.
  intros [[Hl _] Hc Hs _]. split; intros Hcount.
  - unfold lines at 1. cbn [history_count history_start].
    replace (Z.to_nat (history_count h + 1)) with (S (Z.to_nat (history_count h))) by lia.
    rewrite seq_S, fmap_app. cbn [fmap list_fmap]. f_equal.
    + unfold lines. apply list_fmap_ext. intros j i Hi. apply lookup_seq in Hi as [-> Hi].
      rewrite entry_insert by (done || apply Z.mod_pos_bound; lia).
      rewrite (proj2 (Z.eqb_neq _ _)); [done|]. dlia.
    + rewrite entry_insert by (done || apply Z.mod_pos_bound; lia). do 2 f_equal.
      rewrite (proj2 (Z.eqb_eq _ _)); [done|]. f_equal. lia.
  - unfold lines. cbn [history_count history_start]. rewrite Hcount.
    change (Z.to_nat 16) with 16%nat. change (seq 0 16) with (0%nat :: seq 1 15) at 2.
    cbn [fmap list_fmap drop]. rewrite (seq_S 15 0), fmap_app. cbn [fmap list_fmap]. f_equal.
    + rewrite <- fmap_S_seq, <- list_fmap_compose. apply list_fmap_ext. intros j i Hi.
      apply lookup_seq in Hi as [-> Hi]. unfold compose.
      rewrite entry_insert by (done || apply Z.mod_pos_bound; lia).
      rewrite (proj2 (Z.eqb_neq _ _)) by dlia. do 2 f_equal. dlia.
    + rewrite entry_insert by (done || apply Z.mod_pos_bound; lia). do 2 f_equal.
      rewrite (proj2 (Z.eqb_eq _ _)); [done|]. dlia.
Qed.

Lemma entry_len (h : history) (i : Z) : history_ok h -> 0 <= i < 16 -> length (entry h i) = 128%nat.
Proof.
  intros [[Hl Hf] _ _ _] Hi. unfold entry.
  destruct (lookup_lt_is_Some_2 (history_entries h) (Z.to_nat i) ltac:(lia)) as [e He].
  rewrite He. rewrite Forall_lookup in Hf. by apply (Hf _ _ He).
Qed.

Lemma newest_entry (h : history) (n : Z) :
  history_ok h -> 0 <= n < history_count h ->
  from_newest (lines h) n
  = Some (cstr (entry h ((history_start h + history_count h - 1 - n) mod 16))).
Proof.
  intros [_ Hc _ _] Hn. unfold from_newest. rewrite lines_length, lines_lookup by lia.
  do 3 f_equal. f_equal. lia.
Qed.

Lemma cstr_nil (line : list Z) : (zget line 0 =? 0) = bool_decide (cstr line = []).
Proof.
  destruct line as [|c l]; [done|]. change (zget (c :: l) 0) with c. cbn [cstr].
  destruct (c =? 0); [by rewrite bool_decide_eq_true_2|by rewrite bool_decide_eq_false_2].
Qed.

Lemma last_line (h : history) :
  history_ok h -> 0 < history_count h ->
  last (lines h) = Some (cstr (entry h ((history_start h + history_count h - 1) mod 16))).
Proof.
  intros Hok Hc. rewrite last_lookup, lines_length.
  pose proof (newest_entry h 0 Hok ltac:(lia)) as H. unfold from_newest in H.
  rewrite lines_length, Z.sub_0_r in H. rewrite <- (Z.sub_0_r (_ - 1)), <- H. f_equal. lia.
Qed.

Lemma add_refines (line : list Z) (h : history) :
  history_ok h ->
  history_ok (history_add (Some line) h) /\
  hspec (Add line) (habs h) = (None, habs (history_add (Some line) h)).
Proof.
  intros Hok. pose proof Hok as [[Hl Hf] Hc Hs Hn]. unfold history_add, hspec, habs.
  rewrite cstr_nil.
  assert (Hnav : history_ok (with_nav (-1) h)) by (split; cbn; auto; lia).
  destruct (bool_decide_reflect (cstr line = [])) as [E|E].
  { split; [done|]. rewrite decide_True by (by left). done. }
  unfold HISTORY_MAX_ENTRIES, HISTORY_MAX_LINE. rewrite str_equal_spec.
  destruct (decide (last (lines h) = Some (cstr line))) as [El|El].
  { assert (Hpos : 0 < history_count h).
    { destruct (Z.eq_dec (history_count h) 0) as [E0|]; [|lia].
      destruct (lines h) eqn:Elines; [done|]. pose proof (lines_length h) as Hlen.
      rewrite Elines, E0 in Hlen. done. }
    rewrite (proj2 (Z.ltb_lt 0 _) Hpos), bool_decide_eq_true_2
      by (rewrite last_line in El by done; congruence).
    split; [done|]. rewrite decide_True by (by right). done. }
  rewrite decide_False by tauto.
  replace ((0 <? history_count h) && _) with false.
  2: { symmetry. destruct (Z.ltb_spec 0 (history_count h)); [|done].
       rewrite bool_decide_eq_false_2; [done|]. intros E'. apply El. by rewrite last_line, E'. }
  destruct (store_lines h (copy_cstr 127 line 0 (entry h (if history_count h <? 16
    then (history_start h + history_count h) mod 16 else history_start h))) Hok) as [S1 S2].
  assert (Hins : 0 <= (if history_count h <? 16 then (history_start h + history_count h) mod 16
    else history_start h) < 16) by (destruct (_ <? 16); [apply Z.mod_pos_bound; lia|lia]).
  destruct (copy_cstr_spec 127 line (entry h (if history_count h <? 16
    then (history_start h + history_count h) mod 16 else history_start h)) 0) as (C1 & _ & C2);
    [rewrite entry_len by done; lia|].
  rewrite drop_0 in C2. change (Z.of_nat 0) with 0 in C1, C2. rewrite entry_len in C1 by done.
  change (Z.to_nat (128 - 1)) with 127%nat.
  destruct (Z.ltb_spec (history_count h) 16) as [Hlt|Hge].
  - rewrite S1 by lia. rewrite C2, decide_True by (rewrite lines_length; lia). split; [|done].
    split; cbn [history_entries history_count history_start nav_pos]; [|lia|lia|lia]. rewrite length_insert. split; [done|by apply Forall_insert].
  - rewrite S2 by lia. rewrite C2, decide_False by (rewrite lines_length; lia). split; [|done].
    split; cbn [history_entries history_count history_start nav_pos]; [|lia|apply Z.mod_pos_bound; lia|lia].
    rewrite length_insert.
    split; [done|by apply Forall_insert].
Qed.

Lemma hstep_refines (o : hop) (h : history) :
  history_ok h -> history_ok (hstep o h).2 /\ hspec o (habs h) = ((hstep o h).1, habs (hstep o h).2).
Proof.
  intros Hok. pose proof Hok as [He Hc Hs Hn]. destruct o as [line| | |].
  - by apply add_refines.
  - unfold hstep, history_prev, hspec, habs. destruct (Z.eqb_spec (history_count h) 0) as [E|E].
    { split; [done|]. rewrite decide_True; [done|]. unfold lines. by rewrite E. }
    assert (Hne : lines h <> []) by (intros E'; pose proof (lines_length h); rewrite E' in *; cbn in *; lia).
    rewrite decide_False, lines_length, Z2Nat.id by (done || lia).
    set (nav := if nav_pos h <? history_count h - 1 then nav_pos h + 1 else nav_pos h).
    assert (Hnav : 0 <= nav < history_count h)
      by (unfold nav; destruct (Z.ltb_spec (nav_pos h) (history_count h - 1)); lia).
    rewrite newest_entry by done. split; [|done]. split; cbn; auto; lia.
  - unfold hstep, history_next, hspec, habs. destruct (Z.eqb_spec (history_count h) 0) as [E|E].
    { split; [done|]. rewrite decide_True; [done|]. unfold lines. by rewrite E. }
    assert (Hne : lines h <> []) by (intros E'; pose proof (lines_length h); rewrite E' in *; cbn in *; lia).
    rewrite decide_False by done. destruct (Z.eqb_spec (nav_pos h) (-1)) as [E1|E1].
    { split; [done|]. rewrite E1. cbn. by rewrite E1. }
    destruct (Z.ltb_spec 0 (nav_pos h)) as [H0|H0].
    + rewrite newest_entry by (done || lia). split; [|done]. split; cbn; auto; lia.
    + split; [|done]. split; cbn; auto; lia.
  - split; [|done]. split; cbn; auto; lia.
Qed.

(** The strings shown by a sequence of operations. *)
Fixpoint hrun {A} (f : hop -> A -> option (list Z) * A) (os : list hop) (a : A)
  : list (option (list Z)) * A :=
  match os with
  | [] => ([], a)
  | o :: os' => let '(r, a1) := f o a in let '(rs, a2) := hrun f os' a1 in (r :: rs, a2)
  end.

(** C13: the ring of [history.c] refines a list of the last 16 distinct lines cut
    at 127 characters: every sequence of additions and navigation starting from
    [history_init] shows the same strings, and no index leaves the arrays. *)
Theorem history_refines_list (os : list hop) (h : history) :
  length (history_entries h) = 16%nat -> Forall (fun e => length e = 128%nat) (history_entries h) ->
  let '(rs, h') := hrun hstep os (history_init h) in
  history_ok h' /\ hrun hspec os ([], -1) = (rs, habs h').
Proof.
  intros Hl Hf. assert (H0 : history_ok (history_init h)) by (split; cbn; auto; lia).
  change ([], -1) with (habs (history_init h)).
  generalize dependent (history_init h). clear h Hl Hf.
  induction os as [|o os IH]; intros h Hok; cbn [hrun]; [done|].
  destruct (hstep_refines o h Hok) as [H1 H2]. rewrite H2. destruct (hstep o h) as [r h1].
  cbn [fst snd] in *. specialize (IH h1 H1). destruct (hrun hstep os h1) as [rs h2].
  destruct IH as [IH1 IH2]. by rewrite IH2.
Qed.

Definition demo_history : history := History (replicate 16 (replicate 128 0)) 0 0 (-1).

Lemma history_refines_list_witness :
  (hrun hspec [Add [97]; Add [97]; Add [98]; Prev; Prev; Prev; Next; Next] ([], -1)).1
  = [None; None; None; Some [98]; Some [97]; Some [97]; Some [98]; None].
Proof.
  pose proof (history_refines_list [Add [97]; Add [97]; Add [98]; Prev; Prev; Prev; Next; Next]
    demo_history) as H.
  assert (Ho : (hrun hstep [Add [97]; Add [97]; Add [98]; Prev; Prev; Prev; Next; Next]
    (history_init demo_history)).1 = [None; None; None; Some [98]; Some [97]; Some [97]; Some [98]; None])
    by (vm_compute; reflexivity).
  destruct (hrun hstep _ _) as [rs h']. cbn [fst] in Ho. subst rs. destruct H as [_ H].
  - reflexivity.
  - repeat constructor.
  - rewrite H. reflexivity.
Defined.
