(* ===== verification/Text.v ===== *)
(** * Text: literals, numerals and the digit loops

    The kernel console, the shell, the bootloader and the network code print
    numbers with loops of their own.  This file has the C string literals, the
    numerals the loops are compared with ([dec], [hex]) and the loops they
    share; characters are unsigned bytes. *)

From Stdlib Require Import String Ascii.
From S2P Require Import Prelude.
Export String.StringSyntax.

(** A string literal, without its terminating 0. *)
Fixpoint lit (s : string) : list Z :=
  match s with
  | EmptyString => []
  | String c s' => Z.of_nat (nat_of_ascii c) :: lit s'
  end.
Arguments lit s%_string.

Lemma cstr_app_0 (s r : list Z) : Forall (fun c => c <> 0) s -> cstr (s ++ 0 :: r) = s.
Proof.
  induction s as [|c s IH]; intros H; [done|]. apply Forall_cons in H as [Hc H]. simpl.
  rewrite (proj2 (Z.eqb_neq c 0) Hc). by rewrite IH.
Qed.

Lemma cstr_id (s : list Z) : Forall (fun c => c <> 0) s -> cstr s = s.
Proof.
  induction s as [|c s IH]; intros H; [done|]. apply Forall_cons in H as [Hc H]. simpl.
  rewrite (proj2 (Z.eqb_neq c 0) Hc). by rewrite IH.
Qed.

(** ** Numerals *)

Section Numerals.
  Context (base : Z) (digit : Z -> Z).

(** The numeral of [n], most significant digit first, with at most [fuel + 1] digits. *)
Fixpoint numeral (fuel : nat) (n : Z) : list Z :=
  match fuel with
  | O => [digit n]
  | S f => if n <? base then [digit n] else numeral f (n / base) ++ [digit (n mod base)]
  end.

(** [while (num > 0) { *--p = digit(num % base); num /= base; }] with the
    characters already in front of [p] in [acc]. *)
Fixpoint digits_loop (fuel : nat) (num : Z) (acc : list Z) : list Z :=
  match fuel with
  | O => acc
  | S f => if 0 <? num then digits_loop f (num / base) (digit (num mod base) :: acc) else acc
  end.

(** Horner's rule: the value of a list of digits. *)
Fixpoint horner (v : Z) (ds : list Z) : Z :=
  match ds with
  | [] => v
  | d :: ds' => horner (v * base + d) ds'
  end.

Context (Hbase : 2 <= base).

Lemma horner_app (xs ys : list Z) : forall v, horner v (xs ++ ys) = horner (horner v xs) ys.
Proof. induction xs as [|x xs IH]; intros v; [done|]. apply IH. Qed.

Lemma digits_loop_0 (fuel : nat) (acc : list Z) : digits_loop fuel 0 acc = acc.
Proof. by destruct fuel. Qed.

Lemma pow_base_S (f : nat) : base ^ Z.of_nat (S f) = base * base ^ Z.of_nat f.
Proof. rewrite Nat2Z.inj_succ, Z.pow_succ_r; lia. Qed.

Lemma div_base_bound (f : nat) (n : Z) :
  0 <= n < base ^ Z.of_nat (S f) -> 0 <= n / base < base ^ Z.of_nat f.
Proof.
  intros Hn. rewrite pow_base_S in Hn. split; [apply Z.div_pos; lia|].
  apply Z.div_lt_upper_bound; lia.
Qed.

(** The loop writes the numeral. *)
Lemma digits_loop_numeral (fuel : nat) : forall (n : Z) (acc : list Z),
  0 < n < base ^ Z.of_nat (S fuel) ->
  digits_loop (S fuel) n acc = numeral fuel n ++ acc.
Proof.
  induction fuel as [|fuel IH]; intros n acc Hn.
  - cbn [digits_loop numeral]. rewrite (proj2 (Z.ltb_lt 0 n)) by lia. cbn -[Z.pow] in Hn.
    rewrite Z.pow_1_r in Hn. by rewrite Z.mod_small by lia.
  - set (f := S fuel) in *. cbn [digits_loop]. rewrite (proj2 (Z.ltb_lt 0 n)) by lia.
    unfold f at 2. cbn [numeral]. destruct (Z.ltb_spec n base) as [Hs|Hs].
    + rewrite Z.div_small, Z.mod_small by lia. by rewrite digits_loop_0.
    + rewrite IH; [by rewrite <- app_assoc|].
      pose proof (div_base_bound f n ltac:(lia)). split; [|lia].
      apply Z.div_str_pos. lia.
Qed.

(** The value of a numeral is the number. *)
Lemma numeral_value (value : Z -> Z) (fuel : nat) : forall (n : Z),
  (forall d, 0 <= d < base -> value (digit d) = d) ->
  0 <= n < base ^ Z.of_nat (S fuel) -> horner 0 (value <$> numeral fuel n) = n.
Proof.
  induction fuel as [|fuel IH]; intros n Hv Hn; cbn [numeral].
  - cbn -[Z.pow] in Hn. rewrite Z.pow_1_r in Hn. cbn. rewrite Hv by lia. lia.
  - destruct (Z.ltb_spec n base) as [Hs|Hs]; [cbn; rewrite Hv by lia; lia|].
    rewrite fmap_app, horner_app, IH; [|done|by apply div_base_bound]. cbn.
    rewrite Hv by (apply Z.mod_pos_bound; lia). pose proof (Z.div_mod n base). lia.
Qed.

(** Every character of a numeral is the digit of a number below the base. *)
Lemma numeral_digits (P : Z -> Prop) (fuel : nat) : forall (n : Z),
  (forall d, 0 <= d < base -> P (digit d)) ->
  0 <= n < base ^ Z.of_nat (S fuel) -> Forall P (numeral fuel n).
Proof.
  induction fuel as [|fuel IH]; intros n HP Hn; cbn [numeral].
  - cbn -[Z.pow] in Hn. rewrite Z.pow_1_r in Hn. apply Forall_singleton, HP. lia.
  - destruct (Z.ltb_spec n base) as [Hs|Hs]; [apply Forall_singleton, HP; lia|].
    apply Forall_app; split; [apply IH; [done|by apply div_base_bound]|].
    apply Forall_singleton, HP, Z.mod_pos_bound. lia.
Qed.

Lemma numeral_length (fuel : nat) : forall n, (length (numeral fuel n) <= S fuel)%nat.
Proof.
  induction fuel as [|fuel IH]; intros n; cbn [numeral]; [simpl; lia|].
  destruct (n <? base); [simpl; lia|]. rewrite length_app. specialize (IH (n / base)). simpl. lia.
Qed.

End Numerals.

(** Decimal: ['0' + d]; 20 digits hold every 64-bit number. *)
Definition dec_digit (d : Z) : Z := 48 + d.
Definition dec (n : Z) : list Z := numeral 10 dec_digit 19 n.
(** Hexadecimal: ["0123456789ABCDEF"[d]], 16 digits. *)
Definition hex_digits : list Z := lit "0123456789ABCDEF".
Definition hex_digit (d : Z) : Z := zget hex_digits d.
Definition hex (n : Z) : list Z := numeral 16 hex_digit 15 n.

Lemma dec_digit_range (d : Z) : 0 <= d < 10 -> 48 <= dec_digit d <= 57.
Proof. unfold dec_digit. lia. Qed.

(** A finite check over the digits below 16. *)
Lemma below_16 (P : Z -> bool) :
  forallb P (seqZ 0 16) = true -> forall d, 0 <= d < 16 -> P d = true.
Proof.
  intros H d Hd. rewrite forallb_forall in H. apply H, list_elem_of_In, elem_of_seqZ. lia.
Qed.

Lemma pow10_20 : 10 ^ Z.of_nat 20 = 100000000000000000000.
Proof. reflexivity. Qed.

Lemma dec_nonzero (n : Z) : 0 <= n < 2 ^ 64 -> Forall (fun c => c <> 0) (dec n).
Proof.
  intros Hn. apply (numeral_digits 10); [lia| |].
  - intros d Hd. pose proof (dec_digit_range d Hd). lia.
  - rewrite pow10_20. lia.
Qed.

(** No leading zero. *)
Lemma numeral_head (base : Z) (digit : Z -> Z) (fuel : nat) : 2 <= base -> forall n,
  base <= n < base ^ Z.of_nat (S fuel) ->
  exists d ds, numeral base digit fuel n = digit d :: ds /\ 0 < d < base /\ ds <> [].
Proof.
  intros Hb. induction fuel as [|fuel IH]; intros n Hn.
  { cbn -[Z.pow] in Hn. rewrite Z.pow_1_r in Hn. lia. }
  cbn [numeral]. rewrite (proj2 (Z.ltb_ge n base)) by lia.
  assert (Hq : 0 < n / base) by (apply Z.div_str_pos; lia).
  pose proof (div_base_bound base Hb (S fuel) n ltac:(lia)).
  destruct (decide (n / base < base)) as [Hs|Hs].
  - exists (n / base), [digit (n mod base)]. split_and!; [|lia|lia|done].
    destruct fuel as [|fuel]; cbn [numeral]; [done|]. by rewrite (proj2 (Z.ltb_lt (n / base) base)).
  - destruct (IH (n / base) ltac:(split; lia)) as (d & ds & E & Hd & _).
    exists d, (ds ++ [digit (n mod base)]). split_and!; [by rewrite E|lia|lia|].
    intros Hx. by apply app_eq_nil in Hx as [_ ?].
Qed.
