(* ===== verification/Net.v ===== *)
(** * Network formats ([kernel/net.h])

    Packets are lists of bytes; a field of a packed structure is read and
    written at its offset, in the byte order of the processor (little-endian),
    so that the byte swaps of the source are visible.  [be16]/[be32] are the
    fields as the network sees them. *)

From S2P Require Import Prelude Text.

(** ** Fields *)

Definition get16 (p : list Z) (o : Z) : Z := zget p o + 2 ^ 8 * zget p (o + 1).
Definition get32 (p : list Z) (o : Z) : Z := get16 p o + 2 ^ 16 * get16 p (o + 2).
Definition put8 (p : list Z) (o v : Z) : list Z := zset p o (u8 v).
Definition put16 (p : list Z) (o v : Z) : list Z := put8 (put8 p o v) (o + 1) (v / 2 ^ 8).
Definition put32 (p : list Z) (o v : Z) : list Z := put16 (put16 p o v) (o + 2) (v / 2 ^ 16).

Definition be16 (p : list Z) (o : Z) : Z := 2 ^ 8 * zget p o + zget p (o + 1).
Definition be32 (p : list Z) (o : Z) : Z := 2 ^ 16 * be16 p o + be16 p (o + 2).

Definition bytes (p : list Z) : Prop := Forall (fun b => 0 <= b < 2 ^ 8) p.

(** Offsets in [eth_header_t]. *)
Definition ETH_ALEN : Z := 6.
Definition ETH_HLEN : Z := 14.
Definition ETH_FRAME_LEN : Z := 1514.
Definition ETH_TYPE_IP : Z := 0x0800.
Definition ETH_TYPE_ARP : Z := 0x0806.
Definition eth_dest : Z := 0.
Definition eth_src : Z := 6.
Definition eth_type : Z := 12.

(** Offsets in [arp_packet_t], 28 bytes. *)
Definition ARP_HW_ETHER : Z := 1.
Definition ARP_OP_REQUEST : Z := 1.
Definition ARP_OP_REPLY : Z := 2.
Definition arp_hw_type : Z := 0.
Definition arp_proto_type : Z := 2.
Definition arp_hw_len : Z := 4.
Definition arp_proto_len : Z := 5.
Definition arp_operation : Z := 6.
Definition arp_sender_mac : Z := 8.
Definition arp_sender_ip : Z := 14.
Definition arp_target_mac : Z := 18.
Definition arp_target_ip : Z := 24.
Definition sizeof_arp_packet : Z := 28.

(** Offsets in [ip_header_t], 20 bytes. *)
Definition IP_PROTO_ICMP : Z := 1.
Definition ip_version_ihl : Z := 0.
Definition ip_tos : Z := 1.
Definition ip_total_len : Z := 2.
Definition ip_id : Z := 4.
Definition ip_flags_frag : Z := 6.
Definition ip_ttl : Z := 8.
Definition ip_protocol : Z := 9.
Definition ip_checksum_field : Z := 10.
Definition ip_src_ip : Z := 12.
Definition ip_dest_ip : Z := 16.

(** Offsets in [icmp_header_t], 8 bytes. *)
Definition ICMP_ECHO_REPLY : Z := 0.
Definition ICMP_ECHO_REQUEST : Z := 8.
Definition icmp_type : Z := 0.
Definition icmp_code : Z := 1.
Definition icmp_checksum : Z := 2.
Definition icmp_id : Z := 4.
Definition icmp_sequence : Z := 6.

(** ** Byte order *)

Definition htons (val : Z) : Z :=
  u16 (Z.lor (Z.shiftl (Z.land val 0xFF) 8) (Z.land (Z.shiftr val 8) 0xFF)).
Definition ntohs (val : Z) : Z := htons val.
Definition htonl (val : Z) : Z :=
  u32 (Z.lor (Z.lor (Z.lor (Z.shiftl (Z.land val 0xFF) 24)
                           (Z.shiftl (Z.land val 0xFF00) 8))
                    (Z.land (Z.shiftr val 8) 0xFF00))
             (Z.land (Z.shiftr val 24) 0xFF)).
Definition ntohl (val : Z) : Z := htonl val.
Definition MAKE_IP (a b c d : Z) : Z :=
  Z.lor (Z.lor (Z.lor (u32 (Z.shiftl (u32 a) 24)) (u32 (Z.shiftl (u32 b) 16)))
               (u32 (Z.shiftl (u32 c) 8))) (u32 d).

(** ** Strings: the characters written to [out], the final 0 included *)

Fixpoint mac_loop (n : nat) (i : Z) (mac : list Z) : list Z :=
  match n with
  | O => [0]
  | S n' =>
      zget hex_digits (Z.land (Z.shiftr (zget mac i) 4) 0x0F)
        :: zget hex_digits (Z.land (zget mac i) 0x0F)
        :: (if i <? 5 then [58] else []) ++ mac_loop n' (i + 1) mac
  end.
Definition mac_to_string (mac : list Z) : list Z := mac_loop 6 0 mac.

(** One octet: the hundreds and the tens are written when what is left of the
    octet is that large. *)
Definition octet_to_string (octet : Z) : list Z :=
  let '(s, octet) := if 100 <=? octet then ([48 + octet / 100], octet mod 100) else ([], octet) in
  let '(s, octet) := if 10 <=? octet then (s ++ [48 + octet / 10], octet mod 10) else (s, octet) in
  s ++ [48 + octet].
Fixpoint ip_loop (n : nat) (i ip : Z) : list Z :=
  match n with
  | O => [0]
  | S n' =>
      octet_to_string (u8 (Z.land (Z.shiftr ip (24 - i * 8)) 0xFF))
        ++ (if i <? 3 then [46] else []) ++ ip_loop n' (i + 1) ip
  end.
Definition ip_to_string (ip : Z) : list Z := ip_loop 4 0 ip.

(** ** Checksum of the bytes [data] (the [len] bytes of the source) *)

Fixpoint sum_loop (data : list Z) (sum : Z) : Z :=
  match data with
  | a :: b :: data' => sum_loop data' (u32 (sum + (a + 2 ^ 8 * b)))
  | [a] => u32 (sum + a)
  | [] => sum
  end.
(** [while (sum >> 16) sum = (sum & 0xFFFF) + (sum >> 16)] *)
Fixpoint fold_loop (fuel : nat) (sum : Z) : Z :=
  match fuel with
  | O => sum
  | S f => if Z.shiftr sum 16 =? 0 then sum
           else fold_loop f (u32 (Z.land sum 0xFFFF + Z.shiftr sum 16))
  end.
Definition ip_checksum (data : list Z) : Z := u16 (Z.lnot (fold_loop 2 (sum_loop data 0))).

(** ** Byte order: lemmas *)

Lemma shiftl_mul (x k : Z) : 0 <= k -> Z.shiftl x k = x * 2 ^ k.
Proof. intros. by apply Z.shiftl_mul_pow2. Qed.
Lemma shiftr_div (x k : Z) : 0 <= k -> Z.shiftr x k = x / 2 ^ k.
Proof. intros. by apply Z.shiftr_div_pow2. Qed.

Lemma land_ff00 (x : Z) : Z.land x 0xFF00 = (x / 2 ^ 8) mod 2 ^ 8 * 2 ^ 8.
Proof.
  rewrite <- !shiftr_div, <- shiftl_mul, <- land_ff by lia.
  apply Z.bits_inj'. intros i Hi. rewrite Z.shiftl_spec by lia.
  change 0xFF00 with (Z.shiftl 0xFF 8). rewrite Z.land_spec, Z.shiftl_spec by lia.
  destruct (Z.ltb_spec i 8).
  - by rewrite !(Z.testbit_neg_r _ (i - 8)), andb_false_r by lia.
  - rewrite Z.land_spec, Z.shiftr_spec by lia. by replace (i - 8 + 8) with i by lia.
Qed.

Lemma htons_value (v : Z) : 0 <= v < 2 ^ 16 -> htons v = v mod 2 ^ 8 * 2 ^ 8 + v / 2 ^ 8.
Proof.
  intros Hv. unfold htons. rewrite !land_ff, shiftl_mul, shiftr_div by lia.
  rewrite lor_low by dlia. rewrite uwrap_small by dlia. dlia.
Qed.

(** [htons] is the exchange of the bytes, so its own inverse. *)
Lemma htons_involutive (v : Z) : 0 <= v < 2 ^ 16 -> ntohs (htons v) = v.
Proof.
  intros Hv. unfold ntohs. rewrite (htons_value (htons v)); rewrite htons_value by done; dlia.
Qed.

Lemma htonl_value (v : Z) : 0 <= v < 2 ^ 32 ->
  htonl v = v mod 2 ^ 8 * 2 ^ 24 + v / 2 ^ 8 mod 2 ^ 8 * 2 ^ 16
            + v / 2 ^ 16 mod 2 ^ 8 * 2 ^ 8 + v / 2 ^ 24.
Proof.
  intros Hv. unfold htonl. rewrite !land_ff, !land_ff00, !shiftl_mul, !shiftr_div by lia.
  rewrite !Z.div_div by lia. rewrite <- !Z.pow_add_r by lia.
  change (8 + 8) with 16. rewrite <- (Z.mul_assoc _ (2 ^ 8) (2 ^ 8)), <- Z.pow_add_r by lia.
  change (8 + 8) with 16.
  assert (H1 := Z.mod_pos_bound (v / 2 ^ 8) (2 ^ 8) ltac:(lia)).
  assert (H2 := Z.mod_pos_bound (v / 2 ^ 16) (2 ^ 8) ltac:(lia)).
  assert (H0 := Z.mod_pos_bound v (2 ^ 8) ltac:(lia)).
  assert (H3 : 0 <= v / 2 ^ 24 < 2 ^ 8) by dlia. rewrite (Z.mod_small (v / 2 ^ 24)) by lia.
  set (b0 := v mod 2 ^ 8) in *. set (b1 := v / 2 ^ 8 mod 2 ^ 8) in *.
  set (b2 := v / 2 ^ 16 mod 2 ^ 8) in *. set (b3 := v / 2 ^ 24) in *.
  rewrite (lor_low 24) by lia.
  replace (b0 * 2 ^ 24 + b1 * 2 ^ 16) with ((b0 * 2 ^ 8 + b1) * 2 ^ 16) by lia.
  rewrite (lor_low 16) by lia.
  replace ((b0 * 2 ^ 8 + b1) * 2 ^ 16 + b2 * 2 ^ 8)
    with (((b0 * 2 ^ 8 + b1) * 2 ^ 8 + b2) * 2 ^ 8) by lia.
  rewrite (lor_low 8) by lia. rewrite uwrap_small by lia. lia.
Qed.

Lemma htonl_range (v : Z) : 0 <= htonl v < 2 ^ 32.
Proof. by apply uwrap_range. Qed.
Lemma htons_range (v : Z) : 0 <= htons v < 2 ^ 16.
Proof. by apply uwrap_range. Qed.

(** [htonl] reverses the four bytes. *)
Lemma htonl_bytes (b0 b1 b2 b3 : Z) :
  0 <= b0 < 2 ^ 8 -> 0 <= b1 < 2 ^ 8 -> 0 <= b2 < 2 ^ 8 -> 0 <= b3 < 2 ^ 8 ->
  htonl (b0 + 2 ^ 8 * b1 + 2 ^ 16 * b2 + 2 ^ 24 * b3)
  = b3 + 2 ^ 8 * b2 + 2 ^ 16 * b1 + 2 ^ 24 * b0.
Proof.
  intros H0 H1 H2 H3. rewrite htonl_value by lia.
  set (v := b0 + _ + _ + _).
  assert (Hd1 : v / 2 ^ 8 = b1 + 2 ^ 8 * b2 + 2 ^ 16 * b3) by (unfold v; dlia).
  assert (Hd2 : v / 2 ^ 16 = b2 + 2 ^ 8 * b3) by (unfold v; dlia).
  assert (Hd3 : v / 2 ^ 24 = b3) by (unfold v; dlia).
  assert (Hm0 : v mod 2 ^ 8 = b0) by (unfold v; dlia).
  rewrite Hd1, Hd2, Hd3, Hm0.
  assert ((b1 + 2 ^ 8 * b2 + 2 ^ 16 * b3) mod 2 ^ 8 = b1) as -> by dlia.
  assert ((b2 + 2 ^ 8 * b3) mod 2 ^ 8 = b2) as -> by dlia. lia.
Qed.

Lemma split_bytes (v : Z) : 0 <= v < 2 ^ 32 -> exists b0 b1 b2 b3,
  v = b0 + 2 ^ 8 * b1 + 2 ^ 16 * b2 + 2 ^ 24 * b3
  /\ 0 <= b0 < 2 ^ 8 /\ 0 <= b1 < 2 ^ 8 /\ 0 <= b2 < 2 ^ 8 /\ 0 <= b3 < 2 ^ 8.
Proof.
  intros Hv. exists (v mod 2 ^ 8), (v / 2 ^ 8 mod 2 ^ 8), (v / 2 ^ 16 mod 2 ^ 8), (v / 2 ^ 24).
  dlia.
Qed.

Lemma htonl_involutive (v : Z) : 0 <= v < 2 ^ 32 -> ntohl (htonl v) = v.
Proof.
  intros Hv. destruct (split_bytes v Hv) as (b0 & b1 & b2 & b3 & -> & H0 & H1 & H2 & H3).
  unfold ntohl. rewrite htonl_bytes by done. by rewrite htonl_bytes.
Qed.

(** ** Fields: lemmas *)

Lemma zlen_put8 (p : list Z) (o v : Z) : zlen (put8 p o v) = zlen p.
Proof. apply zlen_zset. Qed.
Lemma zlen_put16 (p : list Z) (o v : Z) : zlen (put16 p o v) = zlen p.
Proof. unfold put16. by rewrite !zlen_put8. Qed.
Lemma zlen_put32 (p : list Z) (o v : Z) : zlen (put32 p o v) = zlen p.
Proof. unfold put32. by rewrite !zlen_put16. Qed.

Lemma zget_put8_ne (p : list Z) (o v i : Z) :
  0 <= o -> 0 <= i -> i <> o -> zget (put8 p o v) i = zget p i.
Proof. intros. apply zget_zset_ne; lia. Qed.
Lemma zget_put16_ne (p : list Z) (o v i : Z) :
  0 <= o -> 0 <= i -> i < o \/ o + 2 <= i -> zget (put16 p o v) i = zget p i.
Proof. intros. unfold put16. by rewrite !zget_put8_ne by lia. Qed.
Lemma zget_put32_ne (p : list Z) (o v i : Z) :
  0 <= o -> 0 <= i -> i < o \/ o + 4 <= i -> zget (put32 p o v) i = zget p i.
Proof. intros. unfold put32. by rewrite !zget_put16_ne by lia. Qed.
Lemma zget_put8_eq (p : list Z) (o v : Z) : 0 <= o < zlen p -> zget (put8 p o v) o = u8 v.
Proof. intros. by apply zget_zset_eq. Qed.
Lemma zget_put16_lo (p : list Z) (o v : Z) : 0 <= o < zlen p -> zget (put16 p o v) o = u8 v.
Proof. intros. unfold put16. rewrite zget_put8_ne by lia. by apply zget_put8_eq. Qed.
Lemma zget_put16_hi (p : list Z) (o v : Z) :
  0 <= o -> o + 1 < zlen p -> zget (put16 p o v) (o + 1) = u8 (v / 2 ^ 8).
Proof. intros. unfold put16. rewrite zget_put8_eq; [done|]. rewrite zlen_put8. lia. Qed.

#[export] Hint Rewrite zlen_put8 zlen_put16 zlen_put32 : sos.

Lemma get16_put16 (p : list Z) (o v : Z) :
  0 <= o -> o + 1 < zlen p -> 0 <= v < 2 ^ 16 -> get16 (put16 p o v) o = v.
Proof. intros. unfold get16. rewrite zget_put16_lo, zget_put16_hi by lia. unfold uwrap. dlia. Qed.

Lemma be16_put16 (p : list Z) (o v : Z) :
  0 <= o -> o + 1 < zlen p -> 0 <= v < 2 ^ 16 -> be16 (put16 p o (htons v)) o = v.
Proof.
  intros. unfold be16. rewrite zget_put16_lo, zget_put16_hi, htons_value by lia.
  unfold uwrap. dlia.
Qed.

Lemma be32_put32 (p : list Z) (o v : Z) :
  0 <= o -> o + 3 < zlen p -> 0 <= v < 2 ^ 32 -> be32 (put32 p o (htonl v)) o = v.
Proof.
  intros Ho Hl Hv. destruct (split_bytes v Hv) as (b0 & b1 & b2 & b3 & -> & H0 & H1 & H2 & H3).
  rewrite htonl_bytes by done. unfold be32, be16, put32.
  rewrite zget_put16_lo, zget_put16_hi by (rewrite ?zlen_put16; lia).
  rewrite !(zget_put16_ne _ (o + 2)) by lia. rewrite zget_put16_lo, zget_put16_hi by lia.
  set (w := b3 + _ + _ + _).
  assert (w / 2 ^ 8 = b2 + 2 ^ 8 * b1 + 2 ^ 16 * b0) as -> by (unfold w; dlia).
  assert (w / 2 ^ 16 = b1 + 2 ^ 8 * b0) as -> by (unfold w; dlia).
  assert (u8 w = b3) as -> by (unfold w, uwrap; dlia).
  unfold uwrap. dlia.
Qed.

(** Reading a field in network order is the swap of reading it in the order of the processor. *)
Lemma ntohs_get16 (p : list Z) (o : Z) :
  0 <= zget p o < 2 ^ 8 -> 0 <= zget p (o + 1) < 2 ^ 8 -> ntohs (get16 p o) = be16 p o.
Proof.
  intros H0 H1. unfold ntohs, get16, be16. rewrite htons_value by lia. dlia.
Qed.

Lemma ntohl_get32 (p : list Z) (o : Z) :
  0 <= zget p o < 2 ^ 8 -> 0 <= zget p (o + 1) < 2 ^ 8 ->
  0 <= zget p (o + 2) < 2 ^ 8 -> 0 <= zget p (o + 3) < 2 ^ 8 -> ntohl (get32 p o) = be32 p o.
Proof.
  intros H0 H1 H2 H3. unfold ntohl, get32, get16, be32, be16.
  replace (o + 2 + 1) with (o + 3) by lia.
  set (b0 := zget p o) in *. set (b1 := zget p (o + 1)) in *.
  set (b2 := zget p (o + 2)) in *. set (b3 := zget p (o + 3)) in *.
  replace (b0 + 2 ^ 8 * b1 + 2 ^ 16 * (b2 + 2 ^ 8 * b3))
    with (b0 + 2 ^ 8 * b1 + 2 ^ 16 * b2 + 2 ^ 24 * b3) by lia.
  rewrite htonl_bytes by done. lia.
Qed.

Lemma bytes_zget (p : list Z) (o : Z) : bytes p -> 0 <= zget p o < 2 ^ 8.
Proof.
  intros H. unfold zget. destruct (p !! Z.to_nat o) as [b|] eqn:E; simpl; [|lia].
  unfold bytes in H. rewrite Forall_lookup in H. by apply (H _ _ E).
Qed.
Lemma bytes_zset (p : list Z) (o v : Z) : bytes p -> bytes (put8 p o v).
Proof. intros H. apply Forall_insert; [done|]. by apply uwrap_range. Qed.

Lemma bytes_cons (a : Z) (l : list Z) : bytes (a :: l) <-> 0 <= a < 2 ^ 8 /\ bytes l.
Proof. unfold bytes. by rewrite Forall_cons. Qed.

(** ** Checksum *)

(** The sum of the 16-bit words, without a width. *)
Fixpoint word_sum (data : list Z) : Z :=
  match data with
  | a :: b :: data' => a + 2 ^ 8 * b + word_sum data'
  | [a] => a
  | [] => 0
  end.

(** Induction over a list two elements at a time. *)
Lemma list_ind2 (P : list Z -> Prop) :
  P [] -> (forall a, P [a]) -> (forall a b l, P l -> P (a :: b :: l)) -> forall l, P l.
Proof.
  intros H0 H1 H2 l. assert (H : P l /\ forall a, P (a :: l)); [|apply H].
  induction l as [|x l [IHl IHx]]; [done|]. split; [apply IHx|]. intros a. by apply H2.
Qed.

Lemma word_sum_range (data : list Z) : bytes data -> 0 <= word_sum data <= 0xFFFF * zlen data.
Proof.
  induction data as [|a|a b l IH] using list_ind2; intros H; [done| |].
  - apply bytes_cons in H as [H _]. cbn [word_sum]. change (zlen [a]) with 1. lia.
  - apply bytes_cons in H as [Ha H]. apply bytes_cons in H as [Hb H]. specialize (IH H).
    cbn [word_sum]. replace (zlen (a :: b :: l)) with (zlen l + 2) by (unfold zlen; cbn [length]; lia).
    lia.
Qed.

Lemma sum_loop_spec (data : list Z) : forall sum, bytes data ->
  0 <= sum -> sum + 0xFFFF * zlen data < 2 ^ 32 -> sum_loop data sum = sum + word_sum data.
Proof.
  induction data as [|a|a b l IH] using list_ind2; intros sum H Hs Hb; cbn [sum_loop word_sum].
  - lia.
  - apply bytes_cons in H as [H _]. unfold zlen in Hb. cbn [length] in Hb. by rewrite uwrap_small by lia.
  - apply bytes_cons in H as [Ha H]. apply bytes_cons in H as [Hb' H].
    replace (zlen (a :: b :: l)) with (zlen l + 2) in Hb by (unfold zlen; cbn [length]; lia).
    assert (0 <= zlen l) by (unfold zlen; lia). rewrite uwrap_small by lia.
    rewrite IH by (done || lia). lia.
Qed.

(** Two rounds end the folding loop; it keeps the sum modulo [0xFFFF] and only
    0 folds to 0. *)
Lemma fold_loop_spec (sum : Z) : 0 <= sum < 2 ^ 32 ->
  let r := fold_loop 2 sum in
  Z.shiftr r 16 = 0 /\ 0 <= r <= 0xFFFF /\ r mod 0xFFFF = sum mod 0xFFFF /\ (r = 0 <-> sum = 0).
Proof.
  intros Hs. cbn [fold_loop]. rewrite !shiftr_div, !land_ffff by lia.
  destruct (Z.eqb_spec (sum / 2 ^ 16) 0) as [E|E].
  { rewrite ?shiftr_div by lia. dlia. }
  set (r1 := sum mod 2 ^ 16 + sum / 2 ^ 16).
  assert (H1 : 0 < r1 <= 0x1FFFE /\ exists k, sum = r1 + 0xFFFF * k /\ 0 <= k).
  { split; [unfold r1; dlia|]. exists (sum / 2 ^ 16). unfold r1. dlia. }
  clearbody r1. destruct H1 as (H1 & k & -> & Hk). rewrite uwrap_small by lia.
  assert (Hmod : forall a b c, (a + 0xFFFF * (b + c)) mod 0xFFFF = a mod 0xFFFF).
  { intros a b c. by rewrite Z.add_comm, Z.mul_comm, Z.add_comm, Z.mod_add by lia. }
  destruct (Z.eqb_spec (r1 / 2 ^ 16) 0) as [E1|E1].
  { rewrite ?shiftr_div by lia. rewrite <- (Z.add_0_r k), Hmod. split; [done|]. dlia. }
  set (r2 := r1 mod 2 ^ 16 + r1 / 2 ^ 16).
  assert (H2 : 0 < r2 <= 0xFFFF /\ r1 = r2 + 0xFFFF) by (unfold r2; dlia).
  clearbody r2. destruct H2 as (H2 & ->). rewrite uwrap_small by lia. rewrite ?shiftr_div by lia.
  replace (r2 + 0xFFFF + 0xFFFF * k) with (r2 + 0xFFFF * (1 + k)) by lia. rewrite Hmod.
  rewrite Z.div_small by lia. lia.
Qed.

Lemma ip_checksum_value (data : list Z) :
  bytes data -> zlen data <= 0xFFFF ->
  exists r, ip_checksum data = 0xFFFF - r /\ 0 <= r <= 0xFFFF
    /\ r mod 0xFFFF = word_sum data mod 0xFFFF /\ (r = 0 <-> word_sum data = 0).
Proof.
  intros Hb Hl. unfold ip_checksum. rewrite sum_loop_spec by (done || lia).
  pose proof (word_sum_range data Hb). assert (0 <= zlen data) by (unfold zlen; lia).
  destruct (fold_loop_spec (0 + word_sum data)) as (_ & Hr & Hm & Hz); [lia|].
  set (r := fold_loop 2 _) in *. exists r. split_and!; [|lia|lia|done|done].
  unfold Z.lnot, uwrap. dlia.
Qed.

Lemma word_sum_put16 (k : nat) : forall (data : list Z) (v : Z),
  2 * Z.of_nat k + 1 < zlen data -> 0 <= v < 2 ^ 16 ->
  word_sum (put16 data (2 * Z.of_nat k) v)
  = word_sum data - get16 data (2 * Z.of_nat k) + v.
Proof.
  induction k as [|k IH]; intros data v Hk Hv;
    (destruct data as [|a [|b l]]; [unfold zlen in Hk; cbn [length] in Hk; lia..|]).
  - unfold get16. change (2 * Z.of_nat 0) with 0. change (0 + 1) with 1.
    change (put16 (a :: b :: l) 0 v) with (u8 v :: u8 (v / 2 ^ 8) :: l). cbn [word_sum].
    change (zget (a :: b :: l) 0) with a. change (zget (a :: b :: l) 1) with b.
    rewrite (uwrap_small 8 (v / 2 ^ 8)) by dlia. unfold uwrap. dlia.
  - replace (zlen (a :: b :: l)) with (zlen l + 2) in Hk by (unfold zlen; cbn [length]; lia).
    assert (Hput : forall (i : Z) w, 0 <= i -> put8 (a :: b :: l) (i + 2) w = a :: b :: put8 l i w).
    { intros i w Hi. unfold put8, zset. replace (Z.to_nat (i + 2)) with (S (S (Z.to_nat i))) by lia.
      done. }
    assert (Hget : forall (i : Z), 0 <= i -> zget (a :: b :: l) (i + 2) = zget l i).
    { intros i Hi. unfold zget. replace (Z.to_nat (i + 2)) with (S (S (Z.to_nat i))) by lia. done. }
    specialize (IH l v ltac:(lia) Hv). unfold put16, get16 in *.
    replace (2 * Z.of_nat (S k)) with (2 * Z.of_nat k + 2) by lia.
    rewrite Hput by lia. replace (2 * Z.of_nat k + 2 + 1) with (2 * Z.of_nat k + 1 + 2) by lia.
    assert (put8 (a :: b :: put8 l (2 * Z.of_nat k) v) (2 * Z.of_nat k + 1 + 2) (v / 2 ^ 8)
            = a :: b :: put8 (put8 l (2 * Z.of_nat k) v) (2 * Z.of_nat k + 1) (v / 2 ^ 8)) as ->.
    { unfold put8 at 1, zset at 1.
      replace (Z.to_nat (2 * Z.of_nat k + 1 + 2)) with (S (S (Z.to_nat (2 * Z.of_nat k + 1)))) by lia.
      done. }
    cbn [word_sum]. rewrite IH, !Hget by lia. lia.
Qed.

(** Filling a zeroed field with the checksum makes the checksum of the whole 0. *)
Lemma checksum_fills (data : list Z) (k : nat) :
  bytes data -> zlen data <= 0xFFFF -> 2 * Z.of_nat k + 1 < zlen data ->
  get16 data (2 * Z.of_nat k) = 0 ->
  ip_checksum (put16 data (2 * Z.of_nat k) (ip_checksum data)) = 0.
Proof.
  intros Hb Hl Hk H0. destruct (ip_checksum_value data Hb Hl) as (r & Hc & Hr & Hm & Hz).
  set (data' := put16 _ _ _). assert (Hb' : bytes data') by (by do 2 apply bytes_zset).
  destruct (ip_checksum_value data' Hb') as (r' & Hc' & Hr' & Hm' & Hz').
  { unfold data'. by rewrite zlen_put16. }
  assert (Hs : word_sum data' = word_sum data + (0xFFFF - r)).
  { unfold data'. rewrite word_sum_put16, Hc by (rewrite ?Hc; lia). lia. }
  rewrite Hs in Hm', Hz'. pose proof (word_sum_range data Hb). rewrite Hc'.
  enough (r' = 0xFFFF) by lia. dlia.
Qed.

(** C35: The checksum verifies: filling a zeroed 16-bit field at an even offset
    with the checksum of the data makes the checksum of the whole 0, which is
    what a receiver tests, for every packet length up to 65535 bytes. *)
Theorem ip_checksum_verifies (data : list Z) (k : nat) :
  bytes data -> zlen data <= 0xFFFF -> 2 * Z.of_nat k + 1 < zlen data ->
  get16 data (2 * Z.of_nat k) = 0 ->
  ip_checksum (put16 data (2 * Z.of_nat k) (ip_checksum data)) = 0.
Proof. apply checksum_fills. Qed.

(** ** Dotted addresses *)

(** The number an octet is printed as: the tens digit is dropped when it is 0. *)
Definition shown (o : Z) : Z :=
  if (100 <=? o) && (o / 10 mod 10 =? 0) then 10 * (o / 100) + o mod 10 else o.

(** A finite check over the octets. *)
Lemma below_256 (P : Z -> bool) :
  forallb P (seqZ 0 256) = true -> forall o, 0 <= o < 2 ^ 8 -> P o = true.
Proof.
  intros H o Ho. rewrite forallb_forall in H. apply H, list_elem_of_In, elem_of_seqZ. lia.
Qed.

Lemma octet_shown (o : Z) : 0 <= o < 2 ^ 8 -> octet_to_string o = dec (shown o).
Proof.
  revert o. set (P := fun o => bool_decide (octet_to_string o = dec (shown o))).
  assert (H : forallb P (seqZ 0 256) = true) by (vm_compute; reflexivity).
  intros o Ho. by apply (below_256 P H), bool_decide_eq_true in Ho.
Qed.

Lemma MAKE_IP_value (a b c d : Z) :
  0 <= a < 2 ^ 8 -> 0 <= b < 2 ^ 8 -> 0 <= c < 2 ^ 8 -> 0 <= d < 2 ^ 8 ->
  MAKE_IP a b c d = 2 ^ 24 * a + 2 ^ 16 * b + 2 ^ 8 * c + d.
Proof.
  intros Ha Hb Hc Hd. unfold MAKE_IP. rewrite !shiftl_mul by lia. unwrap.
  rewrite (lor_low 24) by lia.
  replace (a * 2 ^ 24 + b * 2 ^ 16) with ((a * 2 ^ 8 + b) * 2 ^ 16) by lia. rewrite (lor_low 16) by lia.
  replace ((a * 2 ^ 8 + b) * 2 ^ 16 + c * 2 ^ 8) with ((a * 2 ^ 16 + b * 2 ^ 8 + c) * 2 ^ 8) by lia.
  rewrite (lor_low 8) by lia. lia.
Qed.

(** What an address is printed as: each octet in decimal, except that an
    octet of 100..109 or 200..209 loses its 0 in the middle, so that
    [100.0.0.1] is printed as [10.0.0.1]. *)
Theorem ip_to_string_correct (a b c d : Z) :
  0 <= a < 2 ^ 8 -> 0 <= b < 2 ^ 8 -> 0 <= c < 2 ^ 8 -> 0 <= d < 2 ^ 8 ->
  ip_to_string (MAKE_IP a b c d)
  = dec (shown a) ++ [46] ++ dec (shown b) ++ [46] ++ dec (shown c) ++ [46] ++ dec (shown d) ++ [0]
  /\ forall o, 0 <= o < 2 ^ 8 ->
       shown o = o <-> (100 <= o < 110 \/ 200 <= o < 210 -> False).
Proof.
  intros Ha Hb Hc Hd. split.
  - rewrite MAKE_IP_value by done. set (ip := 2 ^ 24 * a + _ + _ + _).
    unfold ip_to_string. cbn [ip_loop]. rewrite !land_ff, !shiftr_div by lia.
    rewrite !(uwrap_small 8) by dlia.
    change (24 - 0 * 8) with 24. change (24 - (0 + 1) * 8) with 16.
    change (24 - (0 + 1 + 1) * 8) with 8. change (24 - (0 + 1 + 1 + 1) * 8) with 0.
    assert (ip / 2 ^ 24 mod 2 ^ 8 = a) as -> by (unfold ip; dlia).
    assert (ip / 2 ^ 16 mod 2 ^ 8 = b) as -> by (unfold ip; dlia).
    assert (ip / 2 ^ 8 mod 2 ^ 8 = c) as -> by (unfold ip; dlia).
    assert (ip / 2 ^ 0 mod 2 ^ 8 = d) as ->
      by (unfold ip; dlia).
    by rewrite !octet_shown by done.
  - intros o Ho. unfold shown. destruct (Z.leb_spec 100 o); destruct (Z.eqb_spec (o / 10 mod 10) 0);
      cbn [andb]; dlia.
Qed.

(** ** Examples *)

(** A header of 20 bytes with its checksum field zeroed. *)
Definition demo_ip_header : list Z :=
  [0x45; 0; 0; 84; 0; 0; 0; 0; 64; 1; 0; 0; 10; 0; 2; 15; 10; 0; 2; 2].

Lemma ip_checksum_verifies_witness :
  ip_checksum demo_ip_header = 0x9962
  /\ ip_checksum (put16 demo_ip_header (2 * Z.of_nat 5) (ip_checksum demo_ip_header)) = 0.
Proof.
  split; [vm_compute; reflexivity|]. apply (ip_checksum_verifies demo_ip_header 5).
  - unfold demo_ip_header. repeat (apply Forall_cons_2; [lia|]). apply Forall_nil_2.
  - vm_compute. discriminate.
  - vm_compute. reflexivity.
  - reflexivity.
Defined.

Lemma ip_to_string_correct_witness :
  cstr (ip_to_string (MAKE_IP 192 168 1 105)) = lit "192.168.1.15".
Proof.
  destruct (ip_to_string_correct 192 168 1 105) as [-> _]; [lia..|]. vm_compute. reflexivity.
Defined.
