(* ===== verification/Framebuffer.v ===== *)
(** * The framebuffer

    The kernel console ([kernel/kernel.c]) and the bootloader's graphics
    ([boot/graphics.h]) draw into a linear framebuffer of 32-bit pixels with the
    same loops.  A framebuffer is a map from pixel indices to colours with its
    geometry; indices are computed in 32 bits as in the source.  [plots] is the
    reference the drawing loops are compared with: a list of points drawn one
    after another. *)

From S2P Require Import Prelude.

Record fbuf := Fb { pixels : gmap Z Z; fb_width : Z; fb_height : Z; fb_pitch : Z }.

Implicit Types fb : fbuf.

(** [fb[y * fb_pitch + x]] in [uint32_t] arithmetic. *)
Definition index fb (x y : Z) : Z := u32 (u32 (y * fb_pitch fb) + x).
Definition load fb (x y : Z) : Z := u32 (default 0 (pixels fb !! index fb x y)).
Definition store (x y color : Z) fb : fbuf :=
  Fb (<[index fb x y := u32 color]> (pixels fb)) (fb_width fb) (fb_height fb) (fb_pitch fb).

Definition put_pixel (x y color : Z) fb : fbuf :=
  if (x <? fb_width fb) && (y <? fb_height fb) then store x y color fb else fb.

Definition fill_rect (x y w h color : Z) fb : fbuf :=
  for_up (Z.to_nat (fb_height fb)) (fun py => (py <? u32 (y + h)) && (py <? fb_height fb))
    (fun py fb =>
       for_up (Z.to_nat (fb_width fb)) (fun px => (px <? u32 (x + w)) && (px <? fb_width fb))
         (fun px fb => store px py color fb) x fb) y fb.

Definition clear_screen (color : Z) fb : fbuf :=
  for_up (Z.to_nat (fb_height fb)) (fun y => y <? fb_height fb)
    (fun y fb =>
       for_up (Z.to_nat (fb_width fb)) (fun x => x <? fb_width fb)
         (fun x fb => store x y color fb) 0 fb) 0 fb.

(** ** Geometry *)

(** The rows do not overlap and the indices fit in 32 bits. *)
Record fb_ok fb : Prop := FbOk {
  fbo_width : 0 <= fb_width fb <= fb_pitch fb;
  fbo_height : 0 <= fb_height fb;
  fbo_size : fb_height fb * fb_pitch fb <= 2 ^ 32
}.

Definition on_screen fb (x y : Z) : Prop := 0 <= x < fb_width fb /\ 0 <= y < fb_height fb.
#[export] Instance on_screen_dec fb x y : Decision (on_screen fb x y).
Proof. unfold on_screen. apply _. Defined.

(** The indices of the pixels on the screen. *)
Definition visible fb (i : Z) : Prop := exists x y, on_screen fb x y /\ i = index fb x y.

(** The same geometry. *)
Definition same_geometry fb fb' : Prop :=
  fb_width fb' = fb_width fb /\ fb_height fb' = fb_height fb /\ fb_pitch fb' = fb_pitch fb.

(** [fb'] results from drawing on [fb]: nothing but pixels on the screen differs. *)
Definition draws fb fb' : Prop :=
  same_geometry fb fb' /\ forall i, (visible fb i -> False) -> pixels fb' !! i = pixels fb !! i.

Lemma visible_geometry fb fb' i : same_geometry fb fb' -> visible fb' i <-> visible fb i.
Proof.
  intros (Hw & Hh & Hp). unfold visible, on_screen, index. rewrite Hw, Hh, Hp. done.
Qed.

#[export] Instance draws_preorder : PreOrder draws.
Proof.
  split; [done|]. intros f g h ((Hw & Hh & Hp) & Hd) ((Hw' & Hh' & Hp') & Hd'). split.
  - unfold same_geometry. rewrite Hw', Hh', Hp'. done.
  - intros i Hi. rewrite Hd', Hd; [done|done|].
    rewrite (visible_geometry f); [done|]. done.
Qed.

Lemma store_draws (x y color : Z) fb : on_screen fb x y -> draws fb (store x y color fb).
Proof.
  intros H. split; [done|]. intros i Hi. cbn [store pixels].
  apply lookup_insert_ne. intros <-. apply Hi. by exists x, y.
Qed.

Lemma put_pixel_draws (x y color : Z) fb : 0 <= x -> 0 <= y -> draws fb (put_pixel x y color fb).
Proof.
  intros Hx Hy. unfold put_pixel. destruct (Z.ltb_spec x (fb_width fb)); [|done].
  destruct (Z.ltb_spec y (fb_height fb)); [|done]. by apply store_draws.
Qed.

(** A loop whose body draws, draws: [lo] bounds the counter from below. *)
Lemma for_up_draws (fuel : nat) (cond : Z -> bool) (body : Z -> fbuf -> fbuf) (i : Z) fb :
  (forall k f, i <= k -> cond k = true -> same_geometry fb f -> draws f (body k f)) ->
  draws fb (for_up fuel cond body i fb).
Proof.
  intros Hb. apply (for_up_inv (draws fb)); [|done]. intros k f Hk Hc Hf.
  transitivity f; [done|]. apply Hb; [done..|]. apply Hf.
Qed.

Lemma fill_rect_draws (x y w h color : Z) fb :
  0 <= x -> 0 <= y -> draws fb (fill_rect x y w h color fb).
Proof.
  intros Hx Hy. apply for_up_draws. intros py f Hpy Hc (Hw & Hh & Hp).
  apply andb_prop in Hc as [_ Hc%Z.ltb_lt].
  apply for_up_draws. intros px g Hpx Hc' (Hw' & Hh' & Hp').
  apply andb_prop in Hc' as [_ Hc'%Z.ltb_lt]. apply store_draws. unfold on_screen.
  rewrite Hw', Hh', Hh. lia.
Qed.

Lemma clear_screen_draws (color : Z) fb : draws fb (clear_screen color fb).
Proof.
  apply for_up_draws. intros y f Hy Hc%Z.ltb_lt (Hw & Hh & Hp).
  apply for_up_draws. intros x g Hx Hc'%Z.ltb_lt (Hw' & Hh' & Hp').
  apply store_draws. unfold on_screen. rewrite Hw', Hh', Hh. lia.
Qed.

(** ** Points *)

Lemma index_value fb (x y : Z) : fb_ok fb -> on_screen fb x y -> index fb x y = y * fb_pitch fb + x.
Proof.
  intros [Hw Hh Hs] [Hx Hy]. assert (0 <= y * fb_pitch fb) by nia.
  assert (y * fb_pitch fb + fb_pitch fb <= fb_height fb * fb_pitch fb) by nia.
  unfold index. rewrite !uwrap_small by (rewrite ?uwrap_small; lia). done.
Qed.

Lemma index_inj fb (x y x' y' : Z) :
  fb_ok fb -> on_screen fb x y -> on_screen fb x' y' -> index fb x y = index fb x' y' ->
  x = x' /\ y = y'.
Proof.
  intros Hok H H'. rewrite !index_value by done. destruct Hok as [Hw Hh Hs].
  destruct H as [Hx Hy], H' as [Hx' Hy']. intros E. assert (y = y') by nia. subst. lia.
Qed.

Lemma load_store fb (x y x' y' color : Z) :
  fb_ok fb -> on_screen fb x y -> on_screen fb x' y' ->
  load (store x y color fb) x' y'
  = if bool_decide ((x, y) = (x', y')) then u32 color else load fb x' y'.
Proof.
  intros Hok H H'. unfold load. cbn [store pixels]. change (index (store x y color fb)) with (index fb).
  destruct (bool_decide_reflect ((x, y) = (x', y'))) as [E|E].
  - injection E as -> ->. rewrite lookup_insert_eq. cbn. by apply uwrap_idemp.
  - rewrite lookup_insert_ne; [done|]. intros Hi%index_inj; [|done..].
    apply E. by destruct Hi as [-> ->].
Qed.

Lemma geometry_ok fb fb' : same_geometry fb fb' -> fb_ok fb -> fb_ok fb'.
Proof. intros (Hw & Hh & Hp) [H1 H2 H3]. split; by rewrite ?Hw, ?Hh, ?Hp. Qed.
Lemma geometry_on fb fb' x y : same_geometry fb fb' -> on_screen fb' x y <-> on_screen fb x y.
Proof. intros (Hw & Hh & Hp). unfold on_screen. by rewrite Hw, Hh. Qed.

(** The points of a list drawn in a colour. *)
Definition plots (color : Z) (ps : list (Z * Z)) fb : fbuf :=
  foldl (fun f p => store p.1 p.2 color f) fb ps.

Lemma plots_app (color : Z) (ps qs : list (Z * Z)) fb :
  plots color (ps ++ qs) fb = plots color qs (plots color ps fb).
Proof. apply foldl_app. Qed.

Lemma plots_geometry (color : Z) (ps : list (Z * Z)) : forall fb, same_geometry fb (plots color ps fb).
Proof. induction ps as [|p ps IH]; intros fb; [done|]. apply (IH (store p.1 p.2 color fb)). Qed.

Lemma load_plots (color : Z) (ps : list (Z * Z)) (x y : Z) : forall fb,
  fb_ok fb -> Forall (fun p => on_screen fb p.1 p.2) ps -> on_screen fb x y ->
  load (plots color ps fb) x y = if bool_decide ((x, y) ∈ ps) then u32 color else load fb x y.
Proof.
  induction ps as [|[a b] ps IH]; intros fb Hok Hps H.
  { rewrite bool_decide_eq_false_2 by apply not_elem_of_nil. done. }
  apply Forall_cons in Hps as [Hp Hps]. cbn [plots foldl].
  change (foldl _ _ ps) with (plots color ps (store a b color fb)).
  rewrite IH; [|by apply (geometry_ok fb)|done|done]. rewrite load_store by done.
  destruct (bool_decide_reflect ((x, y) ∈ ps)) as [Hin|Hin].
  - by rewrite bool_decide_eq_true_2 by (apply elem_of_cons; auto).
  - destruct (bool_decide_reflect ((a, b) = (x, y))) as [E|E].
    + rewrite bool_decide_eq_true_2; [done|]. rewrite E. apply elem_of_cons. auto.
    + rewrite bool_decide_eq_false_2; [done|]. rewrite elem_of_cons. naive_solver.
Qed.

(** A loop that draws a list of points in each round draws all of them. *)
Lemma foldl_plots (color : Z) (row : Z -> list (Z * Z)) (ks : list Z) : forall fb,
  foldl (fun f k => plots color (row k) f) fb ks = plots color (ks ≫= row) fb.
Proof.
  induction ks as [|k ks IH]; intros fb; [done|]. cbn [foldl]. rewrite IH.
  change ((k :: ks) ≫= row) with (row k ++ (ks ≫= row)). by rewrite plots_app.
Qed.

(** The points of a rectangle, row by row. *)
Definition rect (x0 x1 y0 y1 : Z) : list (Z * Z) :=
  seqZ y0 (y1 - y0) ≫= fun y => (fun x => (x, y)) <$> seqZ x0 (x1 - x0).

Lemma elem_of_rect (x0 x1 y0 y1 x y : Z) :
  (x, y) ∈ rect x0 x1 y0 y1 <-> x0 <= x < x1 /\ y0 <= y < y1.
Proof.
  unfold rect. rewrite list_elem_of_bind. split.
  - intros (y' & Hx & Hy). apply list_elem_of_fmap in Hx as (x' & E & Hx).
    apply elem_of_seqZ in Hx, Hy. injection E as -> ->. lia.
  - intros [Hx Hy]. exists y. split; [apply list_elem_of_fmap; exists x; split; [done|]|];
      apply elem_of_seqZ; lia.
Qed.

Lemma row_plots (color y : Z) (xs : list Z) fb :
  foldl (fun f x => store x y color f) fb xs = plots color ((fun x => (x, y)) <$> xs) fb.
Proof. unfold plots. by rewrite foldl_fmap. Qed.

Lemma foldl_ext_geometry (f g : Z -> fbuf -> fbuf) (ks : list Z) : forall fb,
  (forall k h, same_geometry fb h -> f k h = g k h /\ same_geometry h (g k h)) ->
  foldl (fun s k => f k s) fb ks = foldl (fun s k => g k s) fb ks.
Proof.
  induction ks as [|k ks IH]; intros fb H; [done|]. cbn [foldl].
  destruct (H k fb) as [-> Hg]; [done|]. apply IH. intros k' h Hh. apply H.
  destruct Hg as (? & ? & ?), Hh as (? & ? & ?). split_and!; congruence.
Qed.

Lemma fill_rect_plots (x y w h color : Z) fb :
  0 <= x -> 0 <= y ->
  fill_rect x y w h color fb
  = plots color (rect x (Z.min (u32 (x + w)) (fb_width fb)) y (Z.min (u32 (y + h)) (fb_height fb))) fb.
Proof.
  intros Hx Hy. unfold fill_rect.
  assert (Hmin : forall a b k, (k <? a) && (k <? b) = (k <? Z.min a b)).
  { intros a b k. zcases; cbn; lia. }
  rewrite (for_up_range _ _ _ (Z.min (u32 (y + h)) (fb_height fb))); [|intros; apply Hmin|lia].
  unfold rect. rewrite <- foldl_plots. apply foldl_ext_geometry.
  intros py f (Hw & Hh & Hp). split; [|apply plots_geometry].
  rewrite (for_up_range _ _ _ (Z.min (u32 (x + w)) (fb_width fb)));
    [|intros; rewrite Hw; apply Hmin|lia].
  apply row_plots.
Qed.

Lemma clear_screen_plots (color : Z) fb :
  clear_screen color fb = plots color (rect 0 (fb_width fb) 0 (fb_height fb)) fb.
Proof.
  unfold clear_screen. rewrite (for_up_range _ _ _ (fb_height fb)) by (intros; done || lia).
  unfold rect. rewrite <- foldl_plots. apply foldl_ext_geometry.
  intros py f (Hw & Hh & Hp). split; [|apply plots_geometry].
  rewrite (for_up_range _ _ _ (fb_width fb)); [|intros; by rewrite Hw|lia]. apply row_plots.
Qed.
