(* ===== verification/Console.v ===== *)
(** * The kernel console ([kernel/kernel.c], [kernel/console.h])

    Text on the framebuffer: glyphs of 8x8 pixels in lines of 10, a cursor in
    pixels, scrolling, and the number printers.  [ConsoleOps] is the interface
    the shell and the kernel print through; the framebuffer console and a
    transcript of what is printed are its two instances. *)

From S2P Require Import Prelude Text Framebuffer.

Definition COLOR_BLACK : Z := 0x00000000.
Definition COLOR_WHITE : Z := 0x00FFFFFF.
Definition COLOR_GREEN : Z := 0x0000FF00.
Definition COLOR_CYAN : Z := 0x00FFFF00.
Definition COLOR_YELLOW : Z := 0x0000FFFF.
Definition COLOR_RED : Z := 0x000000FF.
Definition COLOR_BLUE : Z := 0x00FF0000.
Definition COLOR_DARK_BG : Z := 0x00202030.

(** The initialisers of the table; the other glyphs are zero. *)
Definition font8x8_init : list (Z * list Z) :=
  [
   (32, [0x00; 0x00; 0x00; 0x00; 0x00; 0x00; 0x00; 0x00]);
   (33, [0x18; 0x18; 0x18; 0x18; 0x18; 0x00; 0x18; 0x00]);
   (34, [0x6C; 0x6C; 0x24; 0x00; 0x00; 0x00; 0x00; 0x00]);
   (48, [0x3C; 0x66; 0x6E; 0x76; 0x66; 0x66; 0x3C; 0x00]);
   (49, [0x18; 0x38; 0x18; 0x18; 0x18; 0x18; 0x7E; 0x00]);
   (50, [0x3C; 0x66; 0x06; 0x0C; 0x18; 0x30; 0x7E; 0x00]);
   (51, [0x3C; 0x66; 0x06; 0x1C; 0x06; 0x66; 0x3C; 0x00]);
   (52, [0x0C; 0x1C; 0x3C; 0x6C; 0x7E; 0x0C; 0x0C; 0x00]);
   (53, [0x7E; 0x60; 0x7C; 0x06; 0x06; 0x66; 0x3C; 0x00]);
   (54, [0x1C; 0x30; 0x60; 0x7C; 0x66; 0x66; 0x3C; 0x00]);
   (55, [0x7E; 0x06; 0x0C; 0x18; 0x30; 0x30; 0x30; 0x00]);
   (56, [0x3C; 0x66; 0x66; 0x3C; 0x66; 0x66; 0x3C; 0x00]);
   (57, [0x3C; 0x66; 0x66; 0x3E; 0x06; 0x0C; 0x38; 0x00]);
   (58, [0x00; 0x18; 0x18; 0x00; 0x18; 0x18; 0x00; 0x00]);
   (65, [0x18; 0x3C; 0x66; 0x66; 0x7E; 0x66; 0x66; 0x00]);
   (66, [0x7C; 0x66; 0x66; 0x7C; 0x66; 0x66; 0x7C; 0x00]);
   (67, [0x3C; 0x66; 0x60; 0x60; 0x60; 0x66; 0x3C; 0x00]);
   (68, [0x78; 0x6C; 0x66; 0x66; 0x66; 0x6C; 0x78; 0x00]);
   (69, [0x7E; 0x60; 0x60; 0x7C; 0x60; 0x60; 0x7E; 0x00]);
   (70, [0x7E; 0x60; 0x60; 0x7C; 0x60; 0x60; 0x60; 0x00]);
   (71, [0x3C; 0x66; 0x60; 0x6E; 0x66; 0x66; 0x3E; 0x00]);
   (72, [0x66; 0x66; 0x66; 0x7E; 0x66; 0x66; 0x66; 0x00]);
   (73, [0x3C; 0x18; 0x18; 0x18; 0x18; 0x18; 0x3C; 0x00]);
   (74, [0x06; 0x06; 0x06; 0x06; 0x66; 0x66; 0x3C; 0x00]);
   (75, [0x66; 0x6C; 0x78; 0x70; 0x78; 0x6C; 0x66; 0x00]);
   (76, [0x60; 0x60; 0x60; 0x60; 0x60; 0x60; 0x7E; 0x00]);
   (77, [0xC6; 0xEE; 0xFE; 0xD6; 0xC6; 0xC6; 0xC6; 0x00]);
   (78, [0x66; 0x76; 0x7E; 0x7E; 0x6E; 0x66; 0x66; 0x00]);
   (79, [0x3C; 0x66; 0x66; 0x66; 0x66; 0x66; 0x3C; 0x00]);
   (80, [0x7C; 0x66; 0x66; 0x7C; 0x60; 0x60; 0x60; 0x00]);
   (81, [0x3C; 0x66; 0x66; 0x66; 0x6A; 0x6C; 0x36; 0x00]);
   (82, [0x7C; 0x66; 0x66; 0x7C; 0x6C; 0x66; 0x66; 0x00]);
   (83, [0x3C; 0x66; 0x60; 0x3C; 0x06; 0x66; 0x3C; 0x00]);
   (84, [0x7E; 0x18; 0x18; 0x18; 0x18; 0x18; 0x18; 0x00]);
   (85, [0x66; 0x66; 0x66; 0x66; 0x66; 0x66; 0x3C; 0x00]);
   (86, [0x66; 0x66; 0x66; 0x66; 0x66; 0x3C; 0x18; 0x00]);
   (87, [0xC6; 0xC6; 0xC6; 0xD6; 0xFE; 0xEE; 0xC6; 0x00]);
   (88, [0x66; 0x66; 0x3C; 0x18; 0x3C; 0x66; 0x66; 0x00]);
   (89, [0x66; 0x66; 0x66; 0x3C; 0x18; 0x18; 0x18; 0x00]);
   (90, [0x7E; 0x06; 0x0C; 0x18; 0x30; 0x60; 0x7E; 0x00]);
   (97, [0x00; 0x00; 0x3C; 0x06; 0x3E; 0x66; 0x3E; 0x00]);
   (98, [0x60; 0x60; 0x7C; 0x66; 0x66; 0x66; 0x7C; 0x00]);
   (99, [0x00; 0x00; 0x3C; 0x66; 0x60; 0x66; 0x3C; 0x00]);
   (100, [0x06; 0x06; 0x3E; 0x66; 0x66; 0x66; 0x3E; 0x00]);
   (101, [0x00; 0x00; 0x3C; 0x66; 0x7E; 0x60; 0x3C; 0x00]);
   (102, [0x1C; 0x30; 0x7C; 0x30; 0x30; 0x30; 0x30; 0x00]);
   (103, [0x00; 0x00; 0x3E; 0x66; 0x66; 0x3E; 0x06; 0x3C]);
   (104, [0x60; 0x60; 0x7C; 0x66; 0x66; 0x66; 0x66; 0x00]);
   (105, [0x18; 0x00; 0x38; 0x18; 0x18; 0x18; 0x3C; 0x00]);
   (106, [0x18; 0x00; 0x18; 0x18; 0x18; 0x18; 0x18; 0x70]);
   (107, [0x60; 0x60; 0x66; 0x6C; 0x78; 0x6C; 0x66; 0x00]);
   (108, [0x38; 0x18; 0x18; 0x18; 0x18; 0x18; 0x3C; 0x00]);
   (109, [0x00; 0x00; 0xEC; 0xFE; 0xD6; 0xC6; 0xC6; 0x00]);
   (110, [0x00; 0x00; 0x7C; 0x66; 0x66; 0x66; 0x66; 0x00]);
   (111, [0x00; 0x00; 0x3C; 0x66; 0x66; 0x66; 0x3C; 0x00]);
   (112, [0x00; 0x00; 0x7C; 0x66; 0x66; 0x7C; 0x60; 0x60]);
   (113, [0x00; 0x00; 0x3E; 0x66; 0x66; 0x3E; 0x06; 0x06]);
   (114, [0x00; 0x00; 0x7C; 0x66; 0x60; 0x60; 0x60; 0x00]);
   (115, [0x00; 0x00; 0x3E; 0x60; 0x3C; 0x06; 0x7C; 0x00]);
   (116, [0x30; 0x30; 0x7C; 0x30; 0x30; 0x30; 0x1C; 0x00]);
   (117, [0x00; 0x00; 0x66; 0x66; 0x66; 0x66; 0x3E; 0x00]);
   (118, [0x00; 0x00; 0x66; 0x66; 0x66; 0x3C; 0x18; 0x00]);
   (119, [0x00; 0x00; 0xC6; 0xC6; 0xD6; 0xFE; 0x6C; 0x00]);
   (120, [0x00; 0x00; 0x66; 0x3C; 0x18; 0x3C; 0x66; 0x00]);
   (121, [0x00; 0x00; 0x66; 0x66; 0x66; 0x3E; 0x06; 0x3C]);
   (122, [0x00; 0x00; 0x7E; 0x0C; 0x18; 0x30; 0x7E; 0x00]);
   (46, [0x00; 0x00; 0x00; 0x00; 0x00; 0x18; 0x18; 0x00]);
   (44, [0x00; 0x00; 0x00; 0x00; 0x00; 0x18; 0x18; 0x30]);
   (45, [0x00; 0x00; 0x00; 0x7E; 0x00; 0x00; 0x00; 0x00]);
   (95, [0x00; 0x00; 0x00; 0x00; 0x00; 0x00; 0x00; 0xFF]);
   (40, [0x0C; 0x18; 0x30; 0x30; 0x30; 0x18; 0x0C; 0x00]);
   (41, [0x30; 0x18; 0x0C; 0x0C; 0x0C; 0x18; 0x30; 0x00]);
   (91, [0x3C; 0x30; 0x30; 0x30; 0x30; 0x30; 0x3C; 0x00]);
   (93, [0x3C; 0x0C; 0x0C; 0x0C; 0x0C; 0x0C; 0x3C; 0x00]);
   (47, [0x00; 0x06; 0x0C; 0x18; 0x30; 0x60; 0x00; 0x00]);
   (61, [0x00; 0x00; 0x7E; 0x00; 0x7E; 0x00; 0x00; 0x00]);
   (43, [0x00; 0x18; 0x18; 0x7E; 0x18; 0x18; 0x00; 0x00]);
   (42, [0x00; 0x66; 0x3C; 0xFF; 0x3C; 0x66; 0x00; 0x00]);
   (64, [0x3C; 0x66; 0x6E; 0x6A; 0x6E; 0x60; 0x3C; 0x00]);
   (35, [0x6C; 0x6C; 0xFE; 0x6C; 0xFE; 0x6C; 0x6C; 0x00]);
   (36, [0x18; 0x3E; 0x60; 0x3C; 0x06; 0x7C; 0x18; 0x00]);
   (37, [0x00; 0x66; 0x0C; 0x18; 0x30; 0x66; 0x00; 0x00]);
   (38, [0x38; 0x6C; 0x38; 0x70; 0x6E; 0x66; 0x3E; 0x00]);
   (60, [0x0C; 0x18; 0x30; 0x60; 0x30; 0x18; 0x0C; 0x00]);
   (62, [0x30; 0x18; 0x0C; 0x06; 0x0C; 0x18; 0x30; 0x00]);
   (63, [0x3C; 0x66; 0x06; 0x0C; 0x18; 0x00; 0x18; 0x00]);
   (124, [0x18; 0x18; 0x18; 0x18; 0x18; 0x18; 0x18; 0x00]);
   (94, [0x18; 0x3C; 0x66; 0x00; 0x00; 0x00; 0x00; 0x00]);
   (126, [0x00; 0x00; 0x32; 0x7E; 0x4C; 0x00; 0x00; 0x00])].
Definition font8x8 (c : Z) : list Z :=
  match list_find (fun e => e.1 = c) font8x8_init with
  | Some (_, (_, rows)) => rows
  | None => replicate 8 0
  end.

Record console := Console {
  scr : fbuf; cursor_x : Z; cursor_y : Z; text_color : Z
}.

Implicit Types k : console.

Definition with_scr (f : fbuf) k : console := Console f (cursor_x k) (cursor_y k) (text_color k).
Definition with_cursor (x y : Z) k : console := Console (scr k) x y (text_color k).

(** ** Drawing a character *)

(** [c] is the character as an unsigned byte. *)
Definition draw_char (x y c color : Z) (fb : fbuf) : fbuf :=
  let c := if 127 <? c then 63 else c in
  let glyph := font8x8 c in
  for_up 8 (fun row => row <? 8)
    (fun row fb =>
       let bits := zget glyph row in
       for_up 8 (fun col => col <? 8)
         (fun col fb =>
            if negb (Z.land bits (Z.shiftr 0x80 col) =? 0)
            then put_pixel (u32 (x + col)) (u32 (y + row)) color fb
            else fb) 0 fb) 0 fb.

(** ** The console *)

(** [fb[(y - 10) * fb_pitch + x] = fb[y * fb_pitch + x]] over the screen. *)
Definition scroll (fb : fbuf) : fbuf :=
  for_up (Z.to_nat (fb_height fb)) (fun y => y <? fb_height fb)
    (fun y fb =>
       for_up (Z.to_nat (fb_width fb)) (fun x => x <? fb_width fb)
         (fun x fb => store x (u32 (y - 10)) (load fb x y) fb) 0 fb) 10 fb.

Definition console_newline k : console :=
  let k := with_cursor 0 (u32 (cursor_y k + 10)) k in
  let h := fb_height (scr k) in
  if h <? u32 (cursor_y k + 10) then
    let f := scroll (scr k) in
    let f := fill_rect 0 (u32 (h - 10)) (fb_width f) 10 COLOR_DARK_BG f in
    with_cursor (cursor_x k) (u32 (h - 10)) (with_scr f k)
  else k.

Definition console_putchar (c : Z) k : console :=
  if c =? 10 then console_newline k
  else if c =? 13 then with_cursor 0 (cursor_y k) k
  else if c =? 9 then
    with_cursor (Z.land (u32 (cursor_x k + 32)) (u32 (Z.lnot 31))) (cursor_y k) k
  else if c =? 8 then
    if 8 <=? cursor_x k then
      let k := with_cursor (u32 (cursor_x k - 8)) (cursor_y k) k in
      with_scr (fill_rect (cursor_x k) (cursor_y k) 8 10 COLOR_DARK_BG (scr k)) k
    else k
  else
    let k := with_scr (draw_char (cursor_x k) (cursor_y k) c (text_color k) (scr k)) k in
    let k := with_cursor (u32 (cursor_x k + 8)) (cursor_y k) k in
    if fb_width (scr k) <? u32 (cursor_x k + 8) then console_newline k else k.

Definition console_set_color (color : Z) k : console :=
  Console (scr k) (cursor_x k) (cursor_y k) (u32 color).

Definition console_clear k : console :=
  with_cursor 0 0 (with_scr (clear_screen COLOR_DARK_BG (scr k)) k).

Definition draw_logo (x y : Z) (fb : fbuf) : fbuf :=
  let color := COLOR_CYAN in
  let fb := fill_rect x y 60 10 color fb in
  let fb := fill_rect x y 10 30 color fb in
  let fb := fill_rect x (u32 (y + 25)) 60 10 color fb in
  let fb := fill_rect (u32 (x + 50)) (u32 (y + 25)) 10 30 color fb in
  fill_rect x (u32 (y + 50)) 60 10 color fb.

(** ** The interface *)

(** What the clients of the console call. *)
Class ConsoleOps (C : Type) := {
  con_putchar : Z -> C -> C;
  con_set_color : Z -> C -> C;
  con_clear : C -> C
}.
#[export] Instance console_ops : ConsoleOps console := {
  con_putchar := console_putchar;
  con_set_color := console_set_color;
  con_clear := console_clear
}.

(** The transcript: the calls, newest first. *)
Inductive con_event := Putchar (c : Z) | SetColor (c : Z) | Clear.
#[export] Instance transcript_ops : ConsoleOps (list con_event) := {
  con_putchar c t := Putchar c :: t;
  con_set_color c t := SetColor c :: t;
  con_clear t := Clear :: t
}.

Section Printers.
  Context {C : Type} `{ConsoleOps C}.
  Implicit Types con : C.

(** [while ( *str) console_putchar( *str++)] *)
Fixpoint console_print (str : list Z) con : C :=
  match str with
  | [] => con
  | c :: str' => if c =? 0 then con else console_print str' (con_putchar c con)
  end.

(** The buffer of 21 characters is filled from the end: 20 digits fit. *)
Definition print_dec (num : Z) con : C :=
  if num =? 0 then console_print (lit "0") con
  else console_print (digits_loop 10 dec_digit 20 num [] ++ [0]) con.

(** The sixteen digits, the last one first; [acc] is [buf + i + 1]. *)
Fixpoint hex_fill (n : nat) (num : Z) (acc : list Z) : list Z :=
  match n with
  | O => acc
  | S n' => hex_fill n' (Z.shiftr num 4) (zget hex_digits (Z.land num 0xF) :: acc)
  end.
(** [while ( *p == '0' && *(p+1) != 0) p++] *)
Fixpoint skip_zeros (p : list Z) : list Z :=
  match p with
  | c :: p' => if (c =? 48) && negb (zget p' 0 =? 0) then skip_zeros p' else p
  | [] => []
  end.
Definition print_hex (num : Z) con : C :=
  let buf := hex_fill 16 num [0] in
  let p := skip_zeros buf in
  console_print p (console_print (lit "0x") con).

End Printers.

(** ** Memory safety *)

Lemma draw_char_draws (x y c color : Z) (fb : fbuf) : draws fb (draw_char x y c color fb).
Proof.
  apply for_up_draws. intros row f _ _ _. apply for_up_draws. intros col g _ _ _.
  destruct (negb _); [|done]. apply put_pixel_draws; by apply uwrap_range.
Qed.

Lemma scroll_draws (fb : fbuf) : fb_height fb < 2 ^ 32 -> draws fb (scroll fb).
Proof.
  intros H32. apply for_up_draws. intros y f Hy Hc%Z.ltb_lt (Hw & Hh & Hp).
  apply for_up_draws. intros x g Hx Hc'%Z.ltb_lt (Hw' & Hh' & Hp').
  apply store_draws. unfold on_screen. rewrite Hw', Hh', Hh. rewrite uwrap_small by lia. lia.
Qed.

(** The pixel rows of the cursor's line are on the screen.  The column has no upper bound: a
    tab moves it without looking at the width. *)
Record console_ok k : Prop := ConsoleOk {
  co_y : 0 <= cursor_y k;
  co_line : cursor_y k + 10 <= fb_height (scr k);
  co_height : fb_height (scr k) < 2 ^ 31;
  co_width : 8 <= fb_width (scr k) < 2 ^ 31;
  co_x : 0 <= cursor_x k
}.
(** The character at the cursor is on the screen. *)
Definition cursor_fits k : Prop := cursor_x k + 8 <= fb_width (scr k).

Definition steps k k' : Prop :=
  draws (scr k) (scr k') /\ console_ok k' /\ text_color k' = text_color k.

Lemma newline_steps k : console_ok k -> steps k (console_newline k) /\ cursor_x (console_newline k) = 0.
Proof.
  intros [Hy Hl Hh Hw Hx]. unfold console_newline. cbn [cursor_y scr with_cursor cursor_x].
  rewrite !(uwrap_small 32) by (rewrite ?uwrap_small; lia).
  destruct (Z.ltb_spec (fb_height (scr k)) (cursor_y k + 10 + 10)).
  - assert (Hd : draws (scr k) (fill_rect 0 (fb_height (scr k) - 10) (fb_width (scroll (scr k))) 10
                                 COLOR_DARK_BG (scroll (scr k)))).
    { transitivity (scroll (scr k)); [apply scroll_draws; lia|]. apply fill_rect_draws; lia. }
    split; [|done]. split; [done|]. split; [|done]. destruct Hd as [(Gw & Gh & Gp) _].
    split; cbn; rewrite ?Gw, ?Gh; lia.
  - split; [|done]. split; [done|]. split; [|done]. split; cbn; lia.
Qed.

Lemma steps_trans k k' k'' : steps k k' -> steps k' k'' -> steps k k''.
Proof.
  intros (Hd & _ & Ht) (Hd' & Hok & Ht'). split; [by transitivity (scr k')|]. split; [done|].
  by rewrite Ht'.
Qed.

(** Moving the cursor along its line. *)
Lemma move_steps k x : console_ok k -> 0 <= x -> steps k (with_cursor x (cursor_y k) k).
Proof. intros [Hy Hl Hh Hw Hx] H. split; [done|]. split; [|done]. by split. Qed.

(** Drawing leaves the cursor alone. *)
Lemma draw_steps k f : console_ok k -> draws (scr k) f -> steps k (with_scr f k).
Proof.
  intros [Hy Hl Hh Hw Hx] Hd. split; [done|]. split; [|done]. destruct Hd as [(Gw & Gh & _) _].
  split; cbn [scr with_scr cursor_x cursor_y]; rewrite ?Gw, ?Gh; lia.
Qed.

Lemma steps_width k k' : steps k k' -> fb_width (scr k') = fb_width (scr k).
Proof. intros [[(-> & _) _] _]. done. Qed.

Lemma putchar_steps (c : Z) k : console_ok k ->
  steps k (console_putchar c k)
  /\ (c <> 9 -> cursor_fits k -> cursor_fits (console_putchar c k)).
Proof.
  intros Hok. unfold console_putchar, cursor_fits.
  destruct (Z.eqb_spec c 10).
  { destruct (newline_steps k Hok) as [Hs ->]. split; [done|]. intros _ _.
    rewrite (steps_width _ _ Hs). pose proof (co_width _ Hok). lia. }
  destruct (Z.eqb_spec c 13).
  { split; [by apply move_steps|]. intros _ _. cbn. pose proof (co_width _ Hok). lia. }
  destruct (Z.eqb_spec c 9).
  { split; [|done]. apply move_steps; [done|]. apply Z.land_nonneg. left. by apply uwrap_range. }
  destruct (Z.eqb_spec c 8).
  { destruct (Z.leb_spec 8 (cursor_x k)) as [H8|H8];
      [|split; [|done]; split; [done|by split]]. cbv zeta.
    assert (Hm := move_steps k (u32 (cursor_x k - 8)) Hok (proj1 (uwrap_range 32 _ ltac:(lia)))).
    set (k1 := with_cursor _ _ _) in *.
    assert (Hd : steps k1 (with_scr (fill_rect (cursor_x k1) (cursor_y k1) 8 10 COLOR_DARK_BG (scr k1)) k1)).
    { destruct Hm as (_ & Hok1 & _). apply draw_steps; [done|].
      apply fill_rect_draws; [apply (co_x _ Hok1)|apply (co_y _ Hok1)]. }
    pose proof (steps_trans _ _ _ Hm Hd) as Hs. split; [done|]. intros _ Hf.
    rewrite (steps_width _ _ Hs). cbn [cursor_x with_scr with_cursor k1].
    pose proof (co_width _ Hok). rewrite uwrap_small by lia. lia. }
  cbv zeta. pose proof (draw_steps k _ Hok
    (draw_char_draws (cursor_x k) (cursor_y k) c (text_color k) (scr k))) as Hd.
  set (k1 := with_scr _ k) in *.
  assert (Hm := move_steps k1 (u32 (cursor_x k1 + 8)) (proj1 (proj2 Hd)) (proj1 (uwrap_range 32 _ ltac:(lia)))).
  set (k2 := with_cursor _ _ k1) in *.
  pose proof (steps_trans _ _ _ Hd Hm) as Hs.
  destruct (Z.ltb_spec (fb_width (scr k2)) (u32 (cursor_x k2 + 8))) as [Hlt|Hge].
  - destruct (newline_steps k2 (proj1 (proj2 Hm))) as [Hn Hx].
    split; [by apply (steps_trans _ k2)|]. intros _ _. rewrite Hx.
    rewrite (steps_width _ _ Hn), (steps_width _ _ Hs). pose proof (co_width _ Hok). lia.
  - split; [done|]. intros _ Hf. pose proof (co_width _ Hok). pose proof (co_x _ Hok).
    rewrite (steps_width _ _ Hs) in *. cbn [cursor_x k2 k1 with_cursor with_scr] in *.
    rewrite !(uwrap_small 32) in Hge by (rewrite ?uwrap_small; lia). rewrite uwrap_small by lia. lia.
Qed.

Lemma print_safe (str : list Z) k :
  console_ok k ->
  let k' := console_print str k in
  draws (scr k) (scr k') /\ console_ok k'
  /\ (9 ∉ str -> cursor_fits k -> cursor_fits k').
Proof.
  cbv zeta. revert k. induction str as [|c str IH]; intros k Hok; cbn [console_print]; [done|].
  destruct (c =? 0); [split; [done|]; split; [done|]; auto|].
  destruct (putchar_steps c k Hok) as [(Hd & Hok1 & _) Hf].
  destruct (IH _ Hok1) as (Hd' & Hok' & Hf'). split; [by transitivity (scr (console_putchar c k))|].
  split; [done|]. intros Hnt%not_elem_of_cons Hfit. apply Hf'; [apply Hnt|]. apply Hf; [|done].
  intros ->. by destruct Hnt.
Qed.

(** Behind a newline the cursor is at the left edge again. *)
Lemma print_after_newline (str rest : list Z) : forall k,
  console_ok k -> 0 ∉ str -> 9 ∉ rest -> cursor_fits (console_print (str ++ 10 :: rest) k).
Proof.
  induction str as [|c str IH]; intros k Hok H0 H9; cbn [app console_print].
  - change (10 =? 0) with false. cbv iota. destruct (newline_steps k Hok) as [(_ & Hn & _) Hx].
    apply print_safe; [done|done|]. unfold cursor_fits. cbn [con_putchar console_ops].
    change (console_putchar 10 k) with (console_newline k). rewrite Hx. pose proof (co_width _ Hn). lia.
  - apply not_elem_of_cons in H0 as [Hc H0]. rewrite (proj2 (Z.eqb_neq c 0)) by done.
    destruct (putchar_steps c k Hok) as [(_ & Hok1 & _) _]. by apply IH.
Qed.

(** C36: The console is memory safe: whatever is printed, only pixels on the screen change and
    the ten pixel rows of the cursor's line stay inside the framebuffer.  The column is kept
    only without tabs: if the character at the cursor fits in the line before, it does so
    after a string without tabs; and whatever came before (a tab may have moved the cursor
    beyond the right edge), behind a newline it fits until the next tab. *)
Theorem console_print_safe (str : list Z) k :
  console_ok k ->
  let k' := console_print str k in
  draws (scr k) (scr k') /\ console_ok k'
  /\ (9 ∉ str -> cursor_fits k -> cursor_fits k')
  /\ (forall before behind, str = before ++ 10 :: behind -> 0 ∉ before -> 9 ∉ behind -> cursor_fits k').
Proof.
  intros Hok. destruct (print_safe str k Hok) as (H1 & H2 & H3). split_and!; try done.
  intros before behind -> H0 H9. by apply print_after_newline.
Qed.

(** ** Scrolling *)

Lemma load_u32 (fb : fbuf) (x y : Z) : u32 (load fb x y) = load fb x y.
Proof. by apply uwrap_idemp. Qed.

(** Copying the first [n] pixels of row [y] to row [y']. *)
Lemma copy_row (y y' : Z) (n : nat) (fb : fbuf) :
  fb_ok fb -> 0 <= y < fb_height fb -> 0 <= y' < fb_height fb -> y <> y' ->
  Z.of_nat n <= fb_width fb ->
  let f := foldl (fun f x => store x y' (load f x y) f) fb (seqZ 0 (Z.of_nat n)) in
  same_geometry fb f /\ forall a b, on_screen fb a b ->
  load f a b = if (b =? y') && (a <? Z.of_nat n) then load fb a y else load fb a b.
Proof.
  intros Hok Hy Hy' Hne Hn. induction n as [|n IH].
  { split; [done|]. intros a b [Ha _]. rewrite (proj2 (Z.ltb_ge a (Z.of_nat 0))) by lia.
    by rewrite andb_false_r. }
  destruct (IH ltac:(lia)) as [Hg Hl]. clear IH.
  replace (Z.of_nat (S n)) with (Z.of_nat n + 1) in * by lia. rewrite seqZ_app by lia.
  rewrite Z.add_0_l, (seqZ_cons _ 1), (seqZ_nil (Z.succ _)), foldl_app by lia. cbn [foldl].
  set (f := foldl _ fb _) in *. split; [done|]. intros a b Hab.
  assert (Hsrc : on_screen fb (Z.of_nat n) y) by (split; lia).
  assert (Hdst : on_screen fb (Z.of_nat n) y') by (split; lia).
  rewrite load_store, load_u32, !Hl;
    [|done..|by apply (geometry_ok fb)|by apply (geometry_on fb)|by apply (geometry_on fb)].
  rewrite (proj2 (Z.eqb_neq y y')) by done. cbn [andb].
  destruct (bool_decide_reflect ((Z.of_nat n, y') = (a, b))) as [E|E].
  - injection E as <- <-. rewrite Z.eqb_refl, (proj2 (Z.ltb_lt _ _)) by lia. done.
  - destruct (Z.eqb_spec b y') as [->|]; cbn [andb]; [|done].
    replace (a <? Z.of_nat n + 1) with (a <? Z.of_nat n); [done|].
    assert (a <> Z.of_nat n) by congruence. zcases; lia.
Qed.

(** The rows [10 .. m - 1] moved ten rows up. *)
Lemma scroll_rows (n : nat) (fb : fbuf) :
  fb_ok fb -> 10 + Z.of_nat n <= fb_height fb -> fb_height fb < 2 ^ 32 ->
  let f := foldl (fun f y => foldl (fun f x => store x (u32 (y - 10)) (load f x y) f) f
                               (seqZ 0 (fb_width fb))) fb (seqZ 10 (Z.of_nat n)) in
  same_geometry fb f /\ forall a b, on_screen fb a b ->
  load f a b = if b <? Z.of_nat n then load fb a (b + 10) else load fb a b.
Proof.
  intros Hok Hn H32. induction n as [|n IH].
  { split; [done|]. intros a b [_ Hb]. by rewrite (proj2 (Z.ltb_ge b (Z.of_nat 0))) by lia. }
  destruct (IH ltac:(lia)) as [Hg Hl]. clear IH.
  replace (Z.of_nat (S n)) with (Z.of_nat n + 1) in * by lia. rewrite seqZ_app by lia.
  rewrite (seqZ_cons _ 1), (seqZ_nil (Z.succ _)), foldl_app by lia. cbn [foldl].
  set (f := foldl _ fb _) in *.
  assert (Hgf := Hg). destruct Hg as (Gw & Gh & Gp). pose proof (fbo_width _ Hok).
  replace (u32 (10 + Z.of_nat n - 10)) with (Z.of_nat n) by (rewrite uwrap_small; lia).
  pose proof (copy_row (10 + Z.of_nat n) (Z.of_nat n) (Z.to_nat (fb_width fb)) f) as Hrow.
  rewrite Z2Nat.id in Hrow by lia.
  destruct Hrow as [(Gw2 & Gh2 & Gp2) Hr]; [by apply (geometry_ok fb)|lia..|].
  split; [split_and!; congruence|]. intros a b Hab.
  rewrite Hr by (by apply (geometry_on fb)). assert (Ha := proj1 Hab). assert (Hb := proj2 Hab).
  rewrite (proj2 (Z.ltb_lt a _)), andb_true_r by lia.
  destruct (Z.eqb_spec b (Z.of_nat n)) as [->|Hne].
  - rewrite Hl by (split; lia). rewrite (proj2 (Z.ltb_ge _ _)), (proj2 (Z.ltb_lt _ _)) by lia.
    f_equal. lia.
  - rewrite Hl by done. by replace (b <? Z.of_nat n + 1) with (b <? Z.of_nat n) by (zcases; lia).
Qed.

Lemma scroll_load (fb : fbuf) (a b : Z) :
  fb_ok fb -> 10 <= fb_height fb < 2 ^ 32 -> on_screen fb a b ->
  load (scroll fb) a b
  = if b <? fb_height fb - 10 then load fb a (b + 10) else load fb a b.
Proof.
  intros Hok H32 Hab.
  assert (E : scroll fb = foldl (fun f y => foldl (fun f x => store x (u32 (y - 10)) (load f x y) f) f
                               (seqZ 0 (fb_width fb))) fb (seqZ 10 (fb_height fb - 10))).
  { unfold scroll. rewrite (for_up_range _ _ _ (fb_height fb)) by (intros; done || lia).
    apply (foldl_ext_geometry
      (fun y fb => for_up (Z.to_nat (fb_width fb)) (fun x => x <? fb_width fb)
         (fun x fb => store x (u32 (y - 10)) (load fb x y) fb) 0 fb)
      (fun y f => foldl (fun f x => store x (u32 (y - 10)) (load f x y) f) f (seqZ 0 (fb_width fb)))).
    intros y f (Hw & Hh & Hp). split.
    - rewrite (for_up_range _ _ _ (fb_width f)) by (intros; done || lia).
      by rewrite Hw, Z.sub_0_r.
    - clear. generalize (seqZ 0 (fb_width fb)) as xs. intros xs. revert f.
      induction xs as [|x xs IH]; intros f; [done|]. cbn [foldl].
      apply (IH (store x (u32 (y - 10)) (load f x y) f)). }
  rewrite E. pose proof (scroll_rows (Z.to_nat (fb_height fb - 10)) fb Hok) as H.
  rewrite Z2Nat.id in H by lia. destruct (H ltac:(lia) ltac:(lia)) as [_ Hl]. by apply Hl.
Qed.

Lemma fill_rect_load (x y w h color : Z) (fb : fbuf) (a b : Z) :
  fb_ok fb -> 0 <= x -> 0 <= y -> 0 <= w -> 0 <= h -> x + w < 2 ^ 32 -> y + h < 2 ^ 32 ->
  on_screen fb a b ->
  load (fill_rect x y w h color fb) a b
  = if bool_decide (x <= a < x + w /\ y <= b < y + h) then u32 color else load fb a b.
Proof.
  intros Hok Hx Hy Hw Hh Hxw Hyh Hab. rewrite fill_rect_plots by done.
  rewrite !(uwrap_small 32) by lia. rewrite load_plots; [|done| |done].
  - destruct Hab as [Ha Hb].
    rewrite (bool_decide_ext _ (x <= a < x + w /\ y <= b < y + h)); [done|].
    rewrite elem_of_rect. lia.
  - apply Forall_forall. intros [p q]. cbn [fst snd]. rewrite elem_of_rect. unfold on_screen. lia.
Qed.

(** A newline on the last line scrolls: every pixel row moves ten rows up,
    the ten rows of the bottom line are cleared and the cursor is at its start;
    above the last line only the cursor moves. *)
Theorem console_newline_scrolls k (a b : Z) :
  console_ok k -> fb_ok (scr k) -> on_screen (scr k) a b ->
  let k' := console_newline k in
  let h := fb_height (scr k) in
  cursor_x k' = 0 /\
  if cursor_y k + 20 <=? h
  then scr k' = scr k /\ cursor_y k' = cursor_y k + 10
  else cursor_y k' = h - 10 /\
       load (scr k') a b = if b <? h - 10 then load (scr k) a (b + 10) else COLOR_DARK_BG.
Proof.
  intros Hok Hfb Hab. cbv zeta. split; [apply (newline_steps k Hok)|].
  pose proof Hok as [Hy Hl Hh Hw Hx]. unfold console_newline. cbn [cursor_y scr with_cursor cursor_x].
  rewrite !(uwrap_small 32) by (rewrite ?uwrap_small; lia).
  destruct (Z.leb_spec (cursor_y k + 20) (fb_height (scr k))).
  { rewrite (proj2 (Z.ltb_ge _ _)) by lia. done. }
  rewrite (proj2 (Z.ltb_lt _ _)) by lia. cbn [cursor_y scr with_cursor with_scr]. split; [done|].
  destruct (scroll_draws (scr k)) as [Hg _]; [lia|]. assert (Gw := proj1 Hg).
  assert (Hab' := proj2 (geometry_on _ _ a b Hg) Hab). pose proof (fbo_width _ Hfb).
  rewrite fill_rect_load; [|by apply (geometry_ok (scr k))|lia..|done].
  rewrite Gw. destruct Hab as [Ha Hb]. destruct (Z.ltb_spec b (fb_height (scr k) - 10)).
  - rewrite bool_decide_eq_false_2 by lia. rewrite scroll_load by (done || lia || split; lia).
    by rewrite (proj2 (Z.ltb_lt b _)) by lia.
  - by rewrite bool_decide_eq_true_2 by lia.
Qed.

(** ** Numbers *)

Section Numbers.
  Context {C : Type} `{ConsoleOps C}.
  Implicit Types con : C.

Lemma console_print_cstr (str : list Z) : forall con, console_print (cstr str) con = console_print str con.
Proof.
  induction str as [|c str IH]; intros con; [done|]. cbn [cstr console_print].
  destruct (c =? 0) eqn:E; [done|]. cbn [console_print]. by rewrite E, IH.
Qed.

Lemma hex_digit_nonzero (d : Z) : 0 <= d < 16 -> hex_digit d <> 0 /\ (hex_digit d = 48 -> d = 0).
Proof.
  intros Hd. set (P := fun d => negb (hex_digit d =? 0) && (negb (hex_digit d =? 48) || (d =? 0))).
  assert (Hc : forallb P (seqZ 0 16) = true) by (vm_compute; reflexivity).
  apply (below_16 P Hc) in Hd. unfold P in Hd. apply andb_prop in Hd as [H1 H2].
  apply negb_true_iff, Z.eqb_neq in H1. split; [done|]. intros E. rewrite E in H2.
  by apply Z.eqb_eq in H2.
Qed.

Lemma hex_fill_spec (n : nat) : forall (num : Z) (acc : list Z),
  0 <= num < 16 ^ Z.of_nat (S n) ->
  hex_fill (S n) num acc
  = replicate (S n - length (numeral 16 hex_digit n num)) 48 ++ numeral 16 hex_digit n num ++ acc.
Proof.
  assert (Hstep : forall m num acc, hex_fill (S m) num acc
    = hex_fill m (num / 16) (hex_digit (num mod 16) :: acc)).
  { intros m num acc. cbn [hex_fill]. rewrite land_0f, Z.shiftr_div_pow2 by lia. done. }
  induction n as [|n IH]; intros num acc Hn.
  - cbn -[Z.pow] in Hn. rewrite Z.pow_1_r in Hn. rewrite Hstep. by rewrite Z.mod_small by lia.
  - rewrite Hstep. pose proof (div_base_bound 16 ltac:(lia) (S n) num Hn) as Hb.
    rewrite IH by done. cbn [numeral]. destruct (Z.ltb_spec num 16) as [Hs|Hs].
    + rewrite Z.div_small, Z.mod_small by lia.
      assert (numeral 16 hex_digit n 0 = [48]) as -> by (by destruct n).
      cbn [length Nat.sub]. rewrite Nat.sub_0_r. rewrite (replicate_S_end n), <- app_assoc. done.
    + rewrite length_app, <- app_assoc. cbn [length]. do 2 f_equal. lia.
Qed.

Lemma skip_zeros_spec (m : nat) (num : Z) :
  0 <= num < 2 ^ 64 -> skip_zeros (replicate m 48 ++ hex num ++ [0]) = hex num ++ [0].
Proof.
  intros Hn. assert (Hlt : num < 16 ^ Z.of_nat 16) by (change (16 ^ Z.of_nat 16) with (2 ^ 64); lia).
  assert (Hnz : Forall (fun c => c <> 0) (hex num)).
  { apply (numeral_digits 16); [lia| |lia]. intros d Hd. by apply hex_digit_nonzero. }
  assert (Hhd : exists c l, hex num = c :: l /\ (c = 48 -> l = [])).
  { destruct (decide (num < 16)) as [Hs|Hs].
    - exists (hex_digit num), []. unfold hex. cbn [numeral]. by rewrite (proj2 (Z.ltb_lt num 16)).
    - destruct (numeral_head 16 hex_digit 15 ltac:(lia) num) as (d & ds & E & Hd & _); [lia|].
      exists (hex_digit d), ds. split; [done|]. intros Hc%hex_digit_nonzero; lia. }
  destruct Hhd as (c & l & E & Hc). rewrite E in *. apply Forall_cons in Hnz as [Hc0 Hl].
  induction m as [|m IH]; cbn [replicate app skip_zeros].
  - destruct (Z.eqb_spec c 48) as [->|]; [|done]. by rewrite (Hc eq_refl).
  - rewrite Z.eqb_refl. cbn [andb].
    assert (Hz : zget (replicate m 48 ++ c :: l ++ [0]) 0 <> 0) by (by destruct m).
    rewrite (proj2 (Z.eqb_neq _ 0) Hz). done.
Qed.

(** The number printers print the numeral: [print_dec] the decimal digits of
    every 64-bit number, never more than its buffer of 20 holds, [print_hex]
    "0x" and the hexadecimal digits without leading zeros; read back by
    Horner's rule the digits give the number. *)
Theorem print_numbers_correct (num : Z) con :
  0 <= num < 2 ^ 64 ->
  print_dec num con = console_print (dec num) con /\
  print_hex num con = console_print (hex num) (console_print (lit "0x") con) /\
  (length (digits_loop 10 dec_digit 20 num []) <= 20)%nat /\
  horner 10 0 ((fun c => c - 48) <$> dec num) = num /\
  (forall d ds, dec num = d :: ds -> d = 48 -> ds = []).
Proof.
  intros Hn. assert (H20 : num < 10 ^ Z.of_nat 20) by (rewrite pow10_20; lia).
  split_and!.
  - unfold print_dec. destruct (Z.eqb_spec num 0) as [->|Hne]; [done|].
    rewrite (digits_loop_numeral 10 dec_digit) by lia. change (numeral 10 dec_digit 19 num) with (dec num).
    rewrite app_nil_r, <- console_print_cstr, cstr_app_0; [done|]. by apply dec_nonzero.
  - unfold print_hex. rewrite (hex_fill_spec 15)
      by (change (16 ^ Z.of_nat 16) with (2 ^ 64); lia).
    change (numeral 16 hex_digit 15 num) with (hex num). rewrite skip_zeros_spec by done.
    rewrite <- (console_print_cstr (hex num ++ [0])), cstr_app_0; [done|].
    apply (numeral_digits 16); [lia| |change (16 ^ Z.of_nat 16) with (2 ^ 64); lia].
    intros d Hd. by apply hex_digit_nonzero.
  - destruct (decide (num = 0)) as [->|]; [cbn; lia|].
    rewrite (digits_loop_numeral 10 dec_digit) by lia. rewrite app_nil_r. apply numeral_length.
  - apply (numeral_value 10); [lia| |lia]. intros d Hd. unfold dec_digit. lia.
  - intros d ds E Hd. destruct (decide (num < 10)) as [Hs|Hs].
    + unfold dec in E. cbn [numeral] in E. rewrite (proj2 (Z.ltb_lt num 10)) in E by done.
      by injection E.
    + destruct (numeral_head 10 dec_digit 19 ltac:(lia) num) as (d' & ds' & E' & Hd' & _); [lia|].
      unfold dec in E. rewrite E in E'. injection E' as -> ->. unfold dec_digit in Hd. lia.
Qed.

End Numbers.

(** ** Glyphs *)

(** The bit of the glyph of [c] at a column and row. *)
Definition glyph_bit (c col row : Z) : bool :=
  Z.testbit (zget (font8x8 (if 127 <? c then 63 else c)) row) (7 - col).

Lemma mask_bit (bits col : Z) :
  0 <= col < 8 -> negb (Z.land bits (Z.shiftr 0x80 col) =? 0) = Z.testbit bits (7 - col).
Proof.
  intros Hc. assert (E : Z.shiftr 0x80 col = Z.shiftl 1 (7 - col)).
  { assert (Hcol : col = 0 \/ col = 1 \/ col = 2 \/ col = 3 \/ col = 4 \/ col = 5 \/ col = 6 \/ col = 7) by lia.
    by destruct Hcol as [->|[->|[->|[->|[->|[->|[->| ->]]]]]]]. }
  rewrite E. destruct (Z.testbit bits (7 - col)) eqn:B.
  - destruct (Z.eqb_spec (Z.land bits (Z.shiftl 1 (7 - col))) 0) as [Hz|]; [|done].
    apply (f_equal (fun z => Z.testbit z (7 - col))) in Hz.
    rewrite Z.land_spec, B, Z.shiftl_spec, Z.sub_diag, Z.bits_0 in Hz by lia. done.
  - apply negb_false_iff, Z.eqb_eq, Z.bits_inj'. intros i Hi.
    rewrite Z.land_spec, Z.bits_0, Z.shiftl_spec by lia.
    destruct (decide (i = 7 - col)) as [->|Hne]; [by rewrite B|].
    destruct (decide (i < 7 - col)); [by rewrite (Z.testbit_neg_r 1), andb_false_r by lia|].
    by rewrite (testbit_high 1 1), andb_false_r by lia.
Qed.

(** [put_pixel] as a list of points. *)
Lemma put_pixel_plots (x y color : Z) (fb : fbuf) : 0 <= x -> 0 <= y ->
  put_pixel x y color fb = plots color (if decide (on_screen fb x y) then [(x, y)] else []) fb.
Proof.
  intros Hx Hy. unfold put_pixel. destruct (decide (on_screen fb x y)) as [[Hxs Hys]|Hns].
  - by rewrite !(proj2 (Z.ltb_lt _ _)) by lia.
  - destruct (Z.ltb_spec x (fb_width fb)), (Z.ltb_spec y (fb_height fb)); try done.
    exfalso. apply Hns. split; lia.
Qed.

(** The point of a glyph at a column and row, when it is set and on the screen. *)
Definition glyph_point (fb : fbuf) (x y c row col : Z) : list (Z * Z) :=
  if glyph_bit c col row && bool_decide (on_screen fb (u32 (x + col)) (u32 (y + row)))
  then [(u32 (x + col), u32 (y + row))] else [].

Lemma draw_point (x y c color row col : Z) (fb f : fbuf) : same_geometry fb f -> 0 <= col < 8 ->
  (if negb (Z.land (zget (font8x8 (if 127 <? c then 63 else c)) row) (Z.shiftr 0x80 col) =? 0)
   then put_pixel (u32 (x + col)) (u32 (y + row)) color f else f)
  = plots color (glyph_point fb x y c row col) f.
Proof.
  intros Hg Hc. rewrite mask_bit by done. unfold glyph_point, glyph_bit.
  destruct (Z.testbit _ _); [|done]. rewrite put_pixel_plots by (by apply uwrap_range).
  cbn [andb]. destruct (bool_decide_reflect (on_screen fb (u32 (x + col)) (u32 (y + row)))) as [H|H].
  - rewrite decide_True; [done|]. by apply (geometry_on fb).
  - rewrite decide_False; [done|]. by rewrite (geometry_on fb).
Qed.

Lemma draw_points (x y c color row : Z) (fb : fbuf) (cols : list Z) : forall f,
  same_geometry fb f -> Forall (fun col => 0 <= col < 8) cols ->
  foldl (fun f col =>
    if negb (Z.land (zget (font8x8 (if 127 <? c then 63 else c)) row) (Z.shiftr 0x80 col) =? 0)
    then put_pixel (u32 (x + col)) (u32 (y + row)) color f else f) f cols
  = plots color (cols ≫= glyph_point fb x y c row) f.
Proof.
  induction cols as [|col cols IH]; intros f Hg Hc; [done|].
  apply Forall_cons in Hc as [Hcol Hc]. cbn [foldl]. rewrite (draw_point _ _ _ _ _ _ fb) by done.
  change ((col :: cols) ≫= glyph_point fb x y c row)
    with (glyph_point fb x y c row col ++ (cols ≫= glyph_point fb x y c row)).
  rewrite plots_app. apply IH; [|done].
  pose proof (plots_geometry color (glyph_point fb x y c row col) f) as (? & ? & ?).
  destruct Hg as (? & ? & ?). split_and!; congruence.
Qed.

(** The points of a glyph, row by row. *)
Definition glyph_points (fb : fbuf) (x y c : Z) : list (Z * Z) :=
  seqZ 0 8 ≫= fun row => seqZ 0 8 ≫= glyph_point fb x y c row.

Lemma seqZ_8_range : Forall (fun i => 0 <= i < 8) (seqZ 0 8).
Proof. apply Forall_forall. intros i Hi%elem_of_seqZ. lia. Qed.

Lemma draw_char_plots (x y c color : Z) (fb : fbuf) :
  draw_char x y c color fb = plots color (glyph_points fb x y c) fb.
Proof.
  unfold draw_char. rewrite (for_up_range _ _ _ 8) by (intros; done || lia).
  unfold glyph_points. rewrite <- foldl_plots.
  set (body := fun (row : Z) (f : fbuf) => for_up 8 (fun col => col <? 8)
    (fun col fb =>
       if negb (Z.land (zget (font8x8 (if 127 <? c then 63 else c)) row) (Z.shiftr 0x80 col) =? 0)
       then put_pixel (u32 (x + col)) (u32 (y + row)) color fb else fb) 0 f).
  apply (foldl_ext_geometry body (fun row => plots color (seqZ 0 8 ≫= glyph_point fb x y c row))).
  intros row f Hg. split; [|apply plots_geometry].
  unfold body. rewrite (for_up_range _ _ _ 8) by (intros; done || lia).
  apply draw_points; [done|]. apply seqZ_8_range.
Qed.

Lemma elem_of_glyph (fb : fbuf) (x y c a b : Z) :
  0 <= x -> 0 <= y -> x + 8 <= 2 ^ 32 -> y + 8 <= 2 ^ 32 -> on_screen fb a b ->
  (a, b) ∈ glyph_points fb x y c
  <-> x <= a < x + 8 /\ y <= b < y + 8 /\ glyph_bit c (a - x) (b - y) = true.
Proof.
  intros Hx Hy Hx8 Hy8 Hab. unfold glyph_points. rewrite list_elem_of_bind. split.
  - intros (row & Hin & Hrow%elem_of_seqZ). apply list_elem_of_bind in Hin as (col & Hin & Hcol%elem_of_seqZ).
    unfold glyph_point in Hin. rewrite !(uwrap_small 32) in Hin by lia.
    destruct (glyph_bit c col row) eqn:Hb; cbn [andb] in Hin; [|by apply not_elem_of_nil in Hin].
    destruct (bool_decide _); [|by apply not_elem_of_nil in Hin].
    apply list_elem_of_singleton in Hin. injection Hin as -> ->.
    replace (x + col - x) with col by lia. replace (y + row - y) with row by lia. split; [lia|]. split; [lia|done].
  - intros (Ha & Hb & Hbit). exists (b - y). split; [|apply elem_of_seqZ; lia].
    apply list_elem_of_bind. exists (a - x). split; [|apply elem_of_seqZ; lia].
    unfold glyph_point. rewrite Hbit. cbn [andb].
    replace (x + (a - x)) with a by lia. replace (y + (b - y)) with b by lia.
    rewrite !(uwrap_small 32) by lia. rewrite bool_decide_eq_true_2 by done.
    by apply list_elem_of_singleton.
Qed.

Lemma glyph_on_screen (fb : fbuf) (x y c : Z) :
  Forall (fun p => on_screen fb p.1 p.2) (glyph_points fb x y c).
Proof.
  apply Forall_forall. intros p Hp. unfold glyph_points in Hp.
  apply list_elem_of_bind in Hp as (row & Hp & _). apply list_elem_of_bind in Hp as (col & Hp & _).
  unfold glyph_point in Hp. destruct (_ && _) eqn:E; [|by apply not_elem_of_nil in Hp].
  apply list_elem_of_singleton in Hp as ->. apply andb_prop in E as [_ E].
  by apply bool_decide_eq_true in E.
Qed.

(** A character is drawn as its glyph: with the cursor's cell at (x, y), a
    pixel of the screen takes the text colour exactly when it is in the cell and
    its bit is set in the font ('?' stands for a byte above 127); no other
    pixel changes. *)
Theorem draw_char_correct (x y c color : Z) (fb : fbuf) (a b : Z) :
  fb_ok fb -> 0 <= x -> 0 <= y -> x + 8 <= 2 ^ 32 -> y + 8 <= 2 ^ 32 -> on_screen fb a b ->
  load (draw_char x y c color fb) a b
  = if bool_decide (x <= a < x + 8 /\ y <= b < y + 8) && glyph_bit c (a - x) (b - y)
    then u32 color else load fb a b.
Proof.
  intros Hok Hx Hy Hx8 Hy8 Hab. rewrite draw_char_plots.
  rewrite load_plots by (done || apply glyph_on_screen).
  rewrite (bool_decide_ext _ _ (elem_of_glyph fb x y c a b Hx Hy Hx8 Hy8 Hab)).
  destruct (glyph_bit c (a - x) (b - y)); repeat case_bool_decide; cbn [andb]; (done || naive_solver).
Qed.

(** ** Examples *)

Definition demo_fb : fbuf := Fb ∅ 24 30 32.
Definition demo_console : console := Console demo_fb 0 0 COLOR_WHITE.

Lemma demo_fb_ok : fb_ok demo_fb.
Proof. split; cbn; lia. Qed.
Lemma demo_console_ok : console_ok demo_console.
Proof. split; cbn; lia. Qed.

Lemma console_print_safe_witness :
  console_ok (console_print (lit "AB" ++ [10; 9; 8]) demo_console).
Proof. exact (proj1 (proj2 (console_print_safe _ demo_console demo_console_ok))). Defined.

(** The last line of the demo screen. *)
Definition demo_last : console := Console (put_pixel 3 12 COLOR_RED demo_fb) 0 20 COLOR_WHITE.
Lemma demo_last_ok : console_ok demo_last.
Proof. split; cbn; lia. Qed.
Lemma demo_last_fb : fb_ok (scr demo_last).
Proof. split; cbn; lia. Qed.

Lemma console_newline_scrolls_witness :
  load (scr (console_newline demo_last)) 3 2 = COLOR_RED.
Proof.
  assert (Hab : on_screen (scr demo_last) 3 2) by (split; cbn; lia).
  destruct (console_newline_scrolls demo_last 3 2 demo_last_ok demo_last_fb Hab) as [_ [_ H]].
  rewrite H. vm_compute. reflexivity.
Defined.

Lemma print_numbers_correct_witness :
  print_dec 1024 [] = console_print (lit "1024") ([] : list con_event).
Proof.
  destruct (print_numbers_correct (C := list con_event) 1024 []) as [-> _]; [lia|].
  vm_compute. reflexivity.
Defined.

Lemma draw_char_correct_witness :
  load (draw_char 8 10 65 COLOR_GREEN demo_fb) 11 10 = COLOR_GREEN.
Proof.
  rewrite (draw_char_correct 8 10 65 COLOR_GREEN demo_fb 11 10 demo_fb_ok) by (lia || split; cbn; lia).
  vm_compute. reflexivity.
Defined.
