(* ===== verification/Shell.v ===== *)
(** * The shell's line editor, tokenizer and number parser ([kernel/shell/shell.c])

    The line buffer is an array of 128 bytes edited key by key; the tokenizer
    cuts it in place by storing zeros and keeps indices into it.  The theorems
    compare the editor with an editor on strings, the tokenizer with the list
    of words of the line and the parser with the printed numbers.  The commands
    are in [Commands.v]. *)

From S2P Require Import Prelude Keyboard History Text Framebuffer Console.

Definition SHELL_MAX_LINE : Z := 128.
Definition SHELL_MAX_ARGS : Z := 8.

(** ** Strings *)

Fixpoint str_len (s : list Z) : Z :=
  match s with
  | [] => 0
  | c :: s' => if c =? 0 then 0 else 1 + str_len s'
  end.

Definition str_copy (dst src : list Z) (max : Z) : list Z :=
  if max =? 0 then dst else copy_cstr (Z.to_nat (max - 1)) src 0 dst.

Definition is_space (c : Z) : bool := (c =? 32) || (c =? 9).

(** ** Numbers *)

(** The digit of a character in a base; [None]: not one. *)
Definition parse_digit (base c : Z) : option Z :=
  if (48 <=? c) && (c <=? 57) then Some (u8 (c - 48))
  else if (base =? 16) && (97 <=? c) && (c <=? 102) then Some (u8 (10 + c - 97))
  else if (base =? 16) && (65 <=? c) && (c <=? 70) then Some (u8 (10 + c - 65))
  else None.
Fixpoint parse_loop (base : Z) (s : list Z) (value : Z) : option Z :=
  match s with
  | [] => Some value
  | c :: s' =>
      if c =? 0 then Some value
      else match parse_digit base c with
           | Some digit => parse_loop base s' (u64 (value * base + digit))
           | None => None
           end
  end.
(** The value and the flag [*ok]. *)
Definition parse_uint (s : list Z) : Z * bool :=
  if zget s 0 =? 0 then (0, false)
  else
    let '(base, s) :=
      if (zget s 0 =? 48) && ((zget s 1 =? 120) || (zget s 1 =? 88)) then (16, drop 2 s) else (10, s) in
    match parse_loop base s 0 with
    | Some value => (value, true)
    | None => (0, false)
    end.

(** ** The line editor *)

(** The locals of [shell_readline]. *)
Record line := Line { buf : list Z; len : Z; saved : list Z; saved_valid : bool }.

Section Editor.
  Context {C : Type} `{ConsoleOps C}.
  Implicit Types con : C.

(** [while ( *len > 0) { console_putchar('\b'); ( *len)--; }] *)
Fixpoint erase (n : nat) con : C :=
  match n with
  | O => con
  | S n' => erase n' (con_putchar 8 con)
  end.

Definition replace_input (size : Z) (new_text : list Z) (l : line) con : line * C :=
  let con := erase (Z.to_nat (len l)) con in
  let b := zset (buf l) 0 0 in
  if negb (zget new_text 0 =? 0) then
    let b := str_copy b new_text size in
    (Line b (str_len b) (saved l) (saved_valid l), console_print b con)
  else (Line b 0 (saved l) (saved_valid l), con).

(** One key: [true] when the line is complete. *)
Definition readline_key (size c : Z) (l : line) (h : history) con : bool * line * history * C :=
  if (c =? KEY_UP) || (c =? KEY_DOWN) then
    let l := if saved_valid l then l
             else Line (buf l) (len l) (str_copy (saved l) (buf l) SHELL_MAX_LINE) true in
    let '(e, h) := if c =? KEY_UP then history_prev h else history_next h in
    let text := match e with
                | Some i => entry h i
                | None => if saved_valid l then saved l else []
                end in
    let '(l, con) := replace_input size text l con in
    (false, l, h, con)
  else if c =? 10 then
    (true, Line (zset (buf l) (len l) 0) (len l) (saved l) (saved_valid l), h, con_putchar 10 con)
  else if c =? 8 then
    if 0 <? len l then
      let n := len l - 1 in
      (false, Line (zset (buf l) n 0) n (saved l) false, h, con_putchar 8 con)
    else (false, Line (buf l) (len l) (saved l) false, h, con)
  else if (32 <=? c) && (c <? 127) then
    if len l <? size - 1 then
      let b := zset (buf l) (len l) c in
      let n := len l + 1 in
      (false, Line (zset b n 0) n (saved l) false, h, con_putchar c con)
    else (false, Line (buf l) (len l) (saved l) false, h, con)
  else (false, l, h, con).

(** The keys that [keyboard_getchar] returns, in order; [None]: the keys are
    used up and the editor waits for the next one. *)
Fixpoint readline_loop (size : Z) (keys : list Z) (l : line) (h : history) con
  : option (list Z * history * C * list Z) :=
  match keys with
  | [] => None
  | c :: keys' =>
      let '(complete, l, h, con) := readline_key size c l h con in
      if complete then Some (buf l, h, con, keys') else readline_loop size keys' l h con
  end.
(** [b] is the caller's buffer and [sv] the uninitialised array [saved]. *)
Definition shell_readline (b sv : list Z) (size : Z) (keys : list Z) (h : history) con :=
  readline_loop size keys (Line (zset b 0 0) 0 sv false) (history_reset_nav h) con.

End Editor.

(** ** The tokenizer *)

(** [while ( *p && f( *p)) p++] *)
Fixpoint skip_while (f : Z -> bool) (fuel : nat) (l : list Z) (p : Z) : Z :=
  match fuel with
  | O => p
  | S n => if negb (zget l p =? 0) && f (zget l p) then skip_while f n l (p + 1) else p
  end.

(** The outer loop; [argv] holds the indices of the arguments found. *)
Fixpoint tokenize_loop (fuel : nat) (l : list Z) (p : Z) (argv : list Z) : list Z * list Z :=
  match fuel with
  | O => (l, argv)
  | S n =>
      if (zget l p =? 0) || negb (zlen argv <? SHELL_MAX_ARGS) then (l, argv)
      else
        let p := skip_while is_space (length l) l p in
        if zget l p =? 0 then (l, argv)
        else
          let argv := argv ++ [p] in
          let p := skip_while (fun c => negb (is_space c)) (length l) l p in
          if zget l p =? 0 then tokenize_loop n l p argv
          else tokenize_loop n (zset l p 0) (p + 1) argv
  end.
(** The line with the zeros stored and the arguments as strings. *)
Definition tokenize (l : list Z) : list Z * list Z := tokenize_loop 9 l 0 [].
Definition argument (l : list Z) (p : Z) : list Z := drop (Z.to_nat p) l.

(** ** Parser: theorems *)

Lemma parse_loop_app_0 (base : Z) (s r : list Z) : forall v, Forall (fun c => c <> 0) s ->
  parse_loop base (s ++ 0 :: r) v = parse_loop base s v.
Proof.
  induction s as [|c s IH]; intros v Hs; [done|]. apply Forall_cons in Hs as [Hc Hs].
  cbn [app parse_loop]. rewrite (proj2 (Z.eqb_neq c 0) Hc). destruct (parse_digit base c); [|done].
  by apply IH.
Qed.

(** The loop is Horner's rule modulo 2^64. *)
Lemma parse_loop_horner (base : Z) (value : Z -> Z) (s : list Z) : forall v,
  0 <= base ->
  Forall (fun c => c <> 0 /\ parse_digit base c = Some (value c)) s ->
  parse_loop base s (u64 v) = Some (u64 (horner base v (value <$> s))).
Proof.
  induction s as [|c s IH]; intros v Hb Hs; [done|]. apply Forall_cons in Hs as [[Hc Hd] Hs].
  cbn [parse_loop fmap list_fmap horner]. rewrite (proj2 (Z.eqb_neq c 0) Hc), Hd.
  rewrite <- IH by done. f_equal. unfold uwrap.
  rewrite Z.add_mod, Z.mul_mod, Z.mod_mod by lia. rewrite <- Z.mul_mod, <- Z.add_mod by lia. done.
Qed.

Definition dec_value (c : Z) : Z := c - 48.
Definition hex_value (c : Z) : Z := if c <? 58 then c - 48 else c - 55.

Lemma parse_dec_digit (d : Z) : 0 <= d < 10 ->
  dec_digit d <> 0 /\ parse_digit 10 (dec_digit d) = Some (dec_value (dec_digit d)).
Proof.
  intros Hd. unfold parse_digit, dec_digit, dec_value.
  rewrite !(proj2 (Z.leb_le _ _)) by lia. cbn [andb]. rewrite uwrap_small by lia. split; [lia|done].
Qed.

Lemma parse_hex_digit (d : Z) : 0 <= d < 16 ->
  hex_digit d <> 0 /\ parse_digit 16 (hex_digit d) = Some (hex_value (hex_digit d))
  /\ hex_value (hex_digit d) = d.
Proof.
  revert d. set (P := fun d => negb (hex_digit d =? 0)
    && bool_decide (parse_digit 16 (hex_digit d) = Some (hex_value (hex_digit d)))
    && (hex_value (hex_digit d) =? d)).
  assert (Hc : forallb P (seqZ 0 16) = true) by (vm_compute; reflexivity).
  intros d Hd. apply (below_16 P Hc) in Hd. unfold P in Hd.
  apply andb_prop in Hd as [Hd H3%Z.eqb_eq]. apply andb_prop in Hd as [H1 H2%bool_decide_eq_true].
  apply negb_true_iff, Z.eqb_neq in H1. done.
Qed.

(** C38: What the kernel prints the shell reads back: [parse_uint] accepts the
    decimal numeral of [print_dec] and the hexadecimal one of [print_hex] with
    its "0x", and gives the number, for every 64-bit number. *)
Theorem parse_uint_roundtrip (n : Z) :
  0 <= n < 2 ^ 64 ->
  parse_uint (dec n) = (n, true) /\ parse_uint (lit "0x" ++ hex n) = (n, true).
Proof.
  intros Hn. assert (H20 : n < 10 ^ Z.of_nat 20) by (rewrite pow10_20; lia).
  assert (H16 : n < 16 ^ Z.of_nat 16) by (change (16 ^ Z.of_nat 16) with (2 ^ 64); lia). split.
  - assert (Hd : Forall (fun c => c <> 0 /\ parse_digit 10 c = Some (dec_value c)) (dec n)).
    { apply (numeral_digits 10); [lia|apply parse_dec_digit|lia]. }
    assert (Hx : Forall (fun c => 48 <= c <= 57) (dec n)).
    { apply (numeral_digits 10); [lia|apply dec_digit_range|lia]. }
    assert (Hv : parse_loop 10 (dec n) 0 = Some n).
    { change 0 with (u64 0). rewrite (parse_loop_horner 10 dec_value) by (lia || done). f_equal.
      unfold dec. rewrite (numeral_value 10); [by apply uwrap_small|lia| |lia].
      intros d Hd'. unfold dec_value, dec_digit. lia. }
    unfold parse_uint. destruct (dec n) as [|c s] eqn:E.
    { exfalso. unfold dec in E. cbn [numeral] in E. destruct (n <? 10); [done|].
      by apply app_eq_nil in E as [_ ?]. }
    change (zget (c :: s) 0) with c. apply Forall_cons in Hx as [Hc Hs].
    rewrite (proj2 (Z.eqb_neq c 0)) by lia.
    assert (Hn1 : (zget (c :: s) 1 =? 120) || (zget (c :: s) 1 =? 88) = false).
    { change (zget (c :: s) 1) with (zget s 0). destruct s as [|c2 s]; [done|].
      apply Forall_cons in Hs as [Hc2 _]. change (zget (c2 :: s) 0) with c2.
      rewrite !(proj2 (Z.eqb_neq c2 _)) by lia. done. }
    rewrite Hn1, andb_false_r, Hv. done.
  - change (parse_uint (lit "0x" ++ hex n)) with
      (match parse_loop 16 (hex n) (u64 0) with Some v => (v, true) | None => (0, false) end).
    rewrite (parse_loop_horner 16 hex_value) by
      (lia || (apply (numeral_digits 16); [lia| |lia]; intros d Hd;
               destruct (parse_hex_digit d Hd) as (? & ? & _); done)).
    f_equal. unfold hex. rewrite (numeral_value 16); [by apply uwrap_small|lia| |lia].
    intros d Hd. apply parse_hex_digit, Hd.
Qed.

(** ** Tokenizer: theorems *)

(** The words of a string: the maximal runs of characters that are not spaces. *)
Fixpoint words_from (cur s : list Z) : list (list Z) :=
  match s with
  | [] => if decide (cur = []) then [] else [cur]
  | c :: s' =>
      if is_space c
      then if decide (cur = []) then words_from [] s' else cur :: words_from [] s'
      else words_from (cur ++ [c]) s'
  end.
Definition words (s : list Z) : list (list Z) := words_from [] s.

(** The longest prefix that satisfies [f]. *)
Fixpoint lead (f : Z -> bool) (s : list Z) : list Z :=
  match s with
  | [] => []
  | c :: s' => if f c then c :: lead f s' else []
  end.

Lemma lead_split (f : Z -> bool) (s : list Z) : exists t,
  s = lead f s ++ t /\ Forall (fun c => f c = true) (lead f s)
  /\ match t with [] => True | c :: _ => f c = false end.
Proof.
  induction s as [|c s (t & E & H & Ht)]; [by exists []|]. cbn [lead]. destruct (f c) eqn:Ef.
  - exists t. split_and!; [by rewrite E at 1|by constructor|done].
  - by exists (c :: s).
Qed.

Lemma words_spaces (sp s : list Z) :
  Forall (fun c => is_space c = true) sp -> words (sp ++ s) = words s.
Proof.
  induction sp as [|c sp IH]; intros H; [done|]. apply Forall_cons in H as [Hc H].
  unfold words in *. cbn [app words_from]. rewrite Hc, decide_True by done. by apply IH.
Qed.

Lemma words_from_word (w s cur : list Z) :
  Forall (fun c => is_space c = false) w -> words_from cur (w ++ s) = words_from (cur ++ w) s.
Proof.
  revert cur. induction w as [|c w IH]; intros cur H; [by rewrite app_nil_r|].
  apply Forall_cons in H as [Hc H]. cbn [app words_from]. rewrite Hc, IH by done. by rewrite <- app_assoc.
Qed.

Lemma words_word (w s : list Z) (c : Z) :
  w <> [] -> Forall (fun c => is_space c = false) w -> is_space c = true ->
  words (w ++ c :: s) = w :: words s /\ words w = [w].
Proof.
  intros Hne Hw Hc. unfold words. split.
  - rewrite words_from_word by done. cbn [app words_from]. by rewrite Hc, decide_False.
  - rewrite <- (app_nil_r w) at 1. rewrite words_from_word by done. cbn [app words_from].
    by rewrite decide_False.
Qed.

(** Where a string ends in an array. *)
Lemma cstr_split (l : list Z) :
  (exists r, l = cstr l ++ 0 :: r) \/ cstr l = l.
Proof.
  induction l as [|c l [(r & E)|E]]; [by right| |]; cbn [cstr]; destruct (Z.eqb_spec c 0) as [->|Hc].
  - left. by exists l.
  - left. exists r. cbn [app]. by rewrite <- E.
  - left. by exists l.
  - right. by rewrite E.
Qed.

Lemma cstr_nonzero (l : list Z) : Forall (fun c => c <> 0) (cstr l).
Proof.
  induction l as [|c l IH]; cbn [cstr]; [done|]. destruct (Z.eqb_spec c 0); [done|]. by constructor.
Qed.

Lemma cstr_length (l : list Z) : (length (cstr l) <= length l)%nat.
Proof. induction l as [|c l IH]; cbn [cstr]; [done|]. destruct (c =? 0); cbn [length]; lia. Qed.

Lemma cstr_drop_in (l : list Z) (n : nat) :
  (n <= length (cstr l))%nat -> cstr (drop n l) = drop n (cstr l).
Proof.
  revert n. induction l as [|c l IH]; intros [|n] Hn; [done..|]. cbn [cstr] in *.
  destruct (Z.eqb_spec c 0); cbn [length] in Hn; [lia|]. cbn [drop]. apply IH. lia.
Qed.

Lemma zget_drop (l : list Z) (p i : Z) :
  0 <= p -> 0 <= i -> zget (drop (Z.to_nat p) l) i = zget l (p + i).
Proof. intros Hp Hi. unfold zget. rewrite lookup_drop. do 2 f_equal. lia. Qed.

Lemma zget_0_cstr (l : list Z) : zget l 0 = match cstr l with [] => 0 | c :: _ => c end.
Proof. destruct l as [|c l]; [done|]. cbn. by destruct (Z.eqb_spec c 0). Qed.

Lemma skip_while_spec (f : Z -> bool) (fuel : nat) (l : list Z) : forall p,
  0 <= p -> (length (cstr (drop (Z.to_nat p) l)) <= fuel)%nat ->
  skip_while f fuel l p = p + zlen (lead f (cstr (drop (Z.to_nat p) l))).
Proof.
  induction fuel as [|fuel IH]; intros p Hp Hf; cbn [skip_while].
  { apply Nat.le_0_r, length_zero_iff_nil in Hf. rewrite Hf. unfold zlen. cbn. lia. }
  replace (zget l p) with (zget (drop (Z.to_nat p) l) 0) by (rewrite zget_drop by lia; f_equal; lia).
  pose proof (cstr_nonzero (drop (Z.to_nat p) l)) as Hnz.
  pose proof (cstr_drop_in (drop (Z.to_nat p) l) 1) as Hd. rewrite drop_drop in Hd.
  rewrite zget_0_cstr. destruct (cstr (drop (Z.to_nat p) l)) as [|c s] eqn:E.
  { cbn. unfold zlen. cbn. lia. }
  apply Forall_cons in Hnz as [Hc _]. rewrite (proj2 (Z.eqb_neq c 0) Hc). cbn [negb andb lead].
  destruct (f c) eqn:Ef; [|unfold zlen; cbn; lia].
  replace (Z.to_nat p + 1)%nat with (Z.to_nat (p + 1)) in Hd by lia. cbn [drop length] in Hd. rewrite drop_0 in Hd.
  rewrite IH; [|lia|rewrite Hd by lia; cbn [length] in Hf; lia].
  rewrite Hd by lia. unfold zlen. cbn [length]. lia.
Qed.

(** An array that agrees with another up to the end of a string has that string. *)
Lemma cstr_cut (l l2 pre w r : list Z) :
  l2 = pre ++ w ++ 0 :: r -> Forall (fun c => c <> 0) w ->
  take (length pre + length w + 1) l = take (length pre + length w + 1) l2 ->
  cstr (drop (length pre) l) = w.
Proof.
  intros -> Hw E. rewrite <- (take_drop (length pre + length w + 1) l), E.
  replace (pre ++ w ++ 0 :: r) with ((pre ++ w ++ [0]) ++ r) by (by rewrite <- !app_assoc).
  rewrite (take_app_length' (pre ++ w ++ [0])) by (rewrite !length_app; cbn [length]; lia).
  rewrite <- !app_assoc, drop_app_length. by apply cstr_app_0.
Qed.

Lemma tokenize_end (fuel : nat) (l : list Z) (p : Z) (argv : list Z) :
  zget l p = 0 -> tokenize_loop fuel l p argv = (l, argv).
Proof. intros E. destruct fuel; cbn [tokenize_loop]; [done|]. by rewrite E. Qed.

Lemma zget_argument (l : list Z) (p : Z) : 0 <= p -> zget l p = zget (argument l p) 0.
Proof. intros Hp. unfold argument. rewrite zget_drop by lia. by rewrite Z.add_0_r. Qed.

(** At the end of the line there is nothing left. *)
Lemma zget_end (l : list Z) (p : Z) : 0 <= p -> zget l p = 0 <-> cstr (argument l p) = [].
Proof.
  intros Hp. rewrite zget_argument, zget_0_cstr by done. pose proof (cstr_nonzero (argument l p)) as H.
  destruct (cstr (argument l p)); [done|]. apply Forall_cons in H as [H _]. split; [done|by intros [=]].
Qed.

(** Skipping a prefix of the rest of the line. *)
Lemma skip_spec (f : Z -> bool) (l : list Z) (p : Z) :
  0 <= p <= zlen l ->
  exists w t, cstr (argument l p) = w ++ t /\ Forall (fun c => f c = true) w
  /\ match t with [] => True | c :: _ => f c = false end
  /\ skip_while f (length l) l p = p + zlen w /\ cstr (argument l (p + zlen w)) = t
  /\ p + zlen w <= zlen l.
Proof.
  intros Hp. destruct (lead_split f (cstr (argument l p))) as (t & E & Hw & Ht).
  set (w := lead f (cstr (argument l p))) in *. exists w, t.
  pose proof (cstr_length (argument l p)) as Hl. unfold argument in Hl at 2. rewrite length_drop in Hl.
  assert (Hwl : (length w <= length (cstr (argument l p)))%nat) by (rewrite E, length_app; lia).
  unfold zlen in *. split_and!; [done|done|done| | |lia].
  - apply skip_while_spec; [lia|]. unfold argument in Hl. lia.
  - unfold argument. replace (Z.to_nat (p + Z.of_nat (length w))) with (Z.to_nat p + length w)%nat by lia.
    rewrite <- drop_drop. change (drop (Z.to_nat p) l) with (argument l p).
    rewrite cstr_drop_in by done. rewrite E. apply drop_app_length.
Qed.

(** Cutting a word: the array before the word, the word, and the rest. *)
Lemma cut_word (l : list Z) (p d : Z) (w u : list Z) :
  0 <= p -> cstr (argument l p) = w ++ d :: u ->
  zset l (p + zlen w) 0 = take (Z.to_nat p) l ++ w ++ 0 :: drop (Z.to_nat (p + zlen w + 1)) l
  /\ cstr (argument (zset l (p + zlen w) 0) (p + zlen w + 1)) = u
  /\ (Z.to_nat p <= length l)%nat /\ p + zlen w + 1 <= zlen l.
Proof.
  intros Hp E. unfold zlen.
  assert (Hc : exists r, argument l p = w ++ d :: u ++ r).
  { destruct (cstr_split (argument l p)) as [(r & Er)|Er]; rewrite E in Er.
    - exists (0 :: r). rewrite Er. by rewrite <- app_assoc.
    - exists []. rewrite app_nil_r. done. }
  destruct Hc as (r & Er).
  assert (El : l = take (Z.to_nat p) l ++ w ++ d :: u ++ r) by (rewrite <- Er; unfold argument; by rewrite take_drop).
  assert (Hpl : (Z.to_nat p + length w < length l)%nat).
  { pose proof (f_equal length Er) as Hl. unfold argument in Hl. rewrite length_drop, length_app in Hl.
    cbn [length] in Hl. lia. }
  assert (Htl : length (take (Z.to_nat p) l) = Z.to_nat p) by (rewrite length_take; lia).
  assert (Ed : drop (Z.to_nat (p + Z.of_nat (length w) + 1)) l = u ++ r).
  { rewrite El at 1. replace (Z.to_nat (p + Z.of_nat (length w) + 1))
      with (length (take (Z.to_nat p) l) + (length w + 1))%nat by lia.
    rewrite <- drop_drop, drop_app_length. rewrite <- drop_drop, drop_app_length. done. }
  assert (Ez : zset l (p + Z.of_nat (length w)) 0 = take (Z.to_nat p) l ++ w ++ 0 :: u ++ r).
  { unfold zset. rewrite El at 1. rewrite insert_app_r_alt by lia. f_equal.
    rewrite insert_app_r_alt by lia. f_equal. rewrite Htl.
    by replace (Z.to_nat (p + Z.of_nat (length w)) - Z.to_nat p - length w)%nat with 0%nat by lia. }
  split_and!; [by rewrite Ed| |lia|lia].
  unfold argument, zset. rewrite drop_insert_lt by lia. rewrite Ed, <- Ed.
  replace (Z.to_nat (p + Z.of_nat (length w) + 1)) with (Z.to_nat p + (length w + 1))%nat by lia.
  rewrite <- drop_drop. change (drop (Z.to_nat p) l) with (argument l p).
  rewrite cstr_drop_in by (rewrite E, length_app; cbn [length]; lia).
  rewrite E, <- drop_drop, drop_app_length. done.
Qed.

(** Where [tokenize_loop] stops: no word is left, or no room for one. *)
Lemma tokenize_stop (l : list Z) (p : Z) (argv : list Z) :
  words (cstr (argument l p)) = [] \/ 8 - zlen argv = 0 ->
  length l = length l /\ take (Z.to_nat p) l = take (Z.to_nat p) l /\
  exists new, argv = argv ++ new /\
  (fun a => cstr (argument l a)) <$> new
  = take (Z.to_nat (8 - zlen argv)) (words (cstr (argument l p))).
Proof.
  intros H. split; [done|]. split; [done|]. exists []. rewrite app_nil_r. split; [done|].
  destruct H as [-> | ->]; [by rewrite take_nil|done].
Qed.

Lemma tokenize_loop_spec (fuel : nat) : forall (l : list Z) (p : Z) (argv : list Z),
  0 <= p <= zlen l -> zlen argv <= 8 -> 8 - zlen argv < Z.of_nat fuel ->
  let '(l', argv') := tokenize_loop fuel l p argv in
  length l' = length l /\ take (Z.to_nat p) l' = take (Z.to_nat p) l /\
  exists new, argv' = argv ++ new /\
  (fun a => cstr (argument l' a)) <$> new
  = take (Z.to_nat (8 - zlen argv)) (words (cstr (argument l p))).
Proof.
  induction fuel as [|fuel IH]; intros l p argv Hp Ha Hf; [lia|]. cbn [tokenize_loop].
  pose proof (tokenize_stop l p argv) as Hnil.
  destruct (Z.eqb_spec (zget l p) 0) as [E|E]; cbn [orb].
  { apply zget_end in E; [|lia]. apply Hnil. left. by rewrite E. }
  destruct (Z.ltb_spec (zlen argv) SHELL_MAX_ARGS) as [Hlt|Hge]; unfold SHELL_MAX_ARGS in *; cbn [negb];
    [|apply Hnil; right; lia].
  destruct (skip_spec is_space l p Hp) as (sp & t & Es & Hsp & Ht & -> & Et & Hp1).
  assert (0 <= zlen sp) by (unfold zlen; lia). rewrite Es, words_spaces in * by done.
  set (p1 := p + zlen sp) in *.
  destruct (Z.eqb_spec (zget l p1) 0) as [E1|E1].
  { apply zget_end in E1; [|lia]. apply Hnil. left. by rewrite <- Et, E1. }
  destruct (skip_spec (fun c => negb (is_space c)) l p1 ltac:(lia)) as (w & u & Ew & Hw & Hu & -> & Eu & Hp2).
  assert (Hw' : Forall (fun c => is_space c = false) w).
  { eapply Forall_impl; [exact Hw|]. intros c Hc. by apply negb_true_iff. }
  assert (Hne : w <> []).
  { intros ->. cbn in Ew. rewrite Et in Ew. subst u. destruct t as [|c t]; [|by rewrite Ht in Hu].
    apply E1, zget_end; [lia|done]. }
  assert (Hpre : length (take (Z.to_nat p1) l) = Z.to_nat p1) by (rewrite length_take; unfold zlen in *; lia).
  rewrite Et in Ew. destruct u as [|d u].
  - rewrite (proj2 (zget_end l (p1 + zlen w) ltac:(unfold zlen; lia)) Eu), Z.eqb_refl.
    rewrite tokenize_end by (apply zget_end; [unfold zlen; lia|done]).
    split; [done|]. split; [done|]. exists [p1]. split; [done|]. cbn [fmap list_fmap].
    rewrite app_nil_r in Ew. rewrite Ew in Et |- *. rewrite Et.
    rewrite (proj2 (words_word w [] 32 Hne Hw' eq_refl)).
    destruct (Z.to_nat (8 - zlen argv)) eqn:E8; [lia|]. cbn [take]. by rewrite take_nil.
  - assert (Hd : is_space d = true) by (by apply negb_false_iff). rewrite Ew in Et |- *.
    destruct (cut_word l p1 d w u ltac:(lia) Et) as (Ez & Ed & Hpl & Hp3).
    assert (Hnz : zget l (p1 + zlen w) <> 0) by (rewrite zget_end by (unfold zlen; lia); by rewrite Eu).
    rewrite (proj2 (Z.eqb_neq _ 0) Hnz). assert (0 <= zlen w) by (unfold zlen; lia).
    assert (E9 : zlen (argv ++ [p1]) = zlen argv + 1) by (unfold zlen; rewrite length_app; cbn [length]; lia).
    specialize (IH (zset l (p1 + zlen w) 0) (p1 + zlen w + 1) (argv ++ [p1])).
    rewrite zlen_zset in IH. specialize (IH ltac:(lia) ltac:(lia) ltac:(lia)).
    destruct (tokenize_loop fuel _ _ _) as [l' argv'] eqn:El'. destruct IH as (Hl & Htk & new & -> & Hnew).
    split; [rewrite Hl; unfold zset; apply length_insert|]. split.
    { apply (f_equal (take (Z.to_nat p))) in Htk. rewrite !take_take, Nat.min_l in Htk by lia.
      rewrite Htk. unfold zset. apply take_insert_ge. lia. }
    exists (p1 :: new). split; [by rewrite <- app_assoc|]. rewrite fmap_cons.
    rewrite (proj1 (words_word w u d Hne Hw' Hd)).
    replace (Z.to_nat (8 - zlen argv)) with (S (Z.to_nat (8 - zlen (argv ++ [p1])))) by lia.
    cbn [take]. rewrite Ed in Hnew. f_equal; [|exact Hnew].
    unfold argument. rewrite <- Hpre. apply (cstr_cut _ _ _ _ _ Ez).
    { pose proof (cstr_nonzero (argument l p1)) as Hz. rewrite Et in Hz. by apply Forall_app in Hz as [Hz _]. }
    rewrite Hpre. replace (Z.to_nat p1 + length w + 1)%nat with (Z.to_nat (p1 + zlen w + 1)) by (unfold zlen; lia).
    done.
Qed.

(** The tokenizer finds the words: for any line in the buffer the arguments are
    its first eight words in order, each a terminated string inside the buffer,
    which keeps its length. *)
Lemma tokenize_spec (l : list Z) :
  let '(l', argv) := tokenize l in
  length l' = length l /\
  (fun a => cstr (argument l' a)) <$> argv = take 8 (words (cstr l)).
Proof.
  unfold tokenize. pose proof (tokenize_loop_spec 9 l 0 []) as H. cbn [zlen length] in H.
  specialize (H ltac:(unfold zlen; lia) ltac:(unfold zlen; cbn; lia) ltac:(unfold zlen; cbn; lia)).
  destruct (tokenize_loop 9 l 0 []) as [l' argv]. destruct H as (Hl & _ & new & -> & Hnew).
  split; [done|]. exact Hnew.
Qed.

(** ** Line editor: theorems *)

(** The abstract editor: the text, the text saved before navigation, the history. *)
Record edit := Edit { text : list Z; kept : option (list Z); past : ahist }.

Definition edit_key (c : Z) (e : edit) : bool * edit :=
  if (c =? KEY_UP) || (c =? KEY_DOWN) then
    let k := default (text e) (kept e) in
    let '(shown, past) := hspec (if c =? KEY_UP then Prev else Next) (past e) in
    (false, Edit (take 127 (default k shown)) (Some k) past)
  else if c =? 10 then (true, e)
  else if c =? 8 then (false, Edit (take (length (text e) - 1) (text e)) None (past e))
  else if (32 <=? c) && (c <? 127) then
    (false, Edit (if decide (length (text e) < 127)%nat then text e ++ [c] else text e) None (past e))
  else (false, e).

Fixpoint edit_loop (keys : list Z) (e : edit) : option (list Z * ahist * list Z) :=
  match keys with
  | [] => None
  | c :: keys' =>
      let '(complete, e) := edit_key c e in
      if complete then Some (text e, past e, keys') else edit_loop keys' e
  end.

(** The array holds the text. *)
Definition holds_text (b t : list Z) : Prop :=
  length b = 128%nat /\ (length t <= 127)%nat /\ cstr b = t.

Record edit_rel (l : line) (h : history) (e : edit) : Prop := EditRel {
  er_buf : holds_text (buf l) (text e);
  er_len : len l = zlen (text e);
  er_saved : length (saved l) = 128%nat;
  er_kept : if saved_valid l then kept e = Some (cstr (saved l)) /\ (length (cstr (saved l)) <= 127)%nat
            else kept e = None;
  er_hist : history_ok h;
  er_past : past e = habs h
}.

Lemma str_len_cstr (s : list Z) : str_len s = zlen (cstr s).
Proof.
  induction s as [|c s IH]; [done|]. cbn [str_len cstr]. destruct (c =? 0); [done|].
  rewrite IH. unfold zlen. cbn [length]. lia.
Qed.

Lemma str_copy_spec (dst src : list Z) :
  length dst = 128%nat ->
  length (str_copy dst src 128) = 128%nat /\ cstr (str_copy dst src 128) = take 127 (cstr src).
Proof.
  intros Hd. unfold str_copy. change (128 =? 0) with false. change (Z.to_nat (128 - 1)) with 127%nat.
  destruct (copy_cstr_spec 127 src dst 0) as (Hl & _ & Hc); [lia|]. change (Z.of_nat 0) with 0 in *.
  rewrite drop_0 in Hc. by rewrite Hc, Hl.
Qed.

(** An array of 128 bytes that holds a text: the text, its 0 and the rest. *)
Lemma holds_split (b t : list Z) : holds_text b t -> exists r, b = t ++ 0 :: r.
Proof.
  intros (Hb & Ht & E). destruct (cstr_split b) as [(r & Er)|Er]; [exists r; by rewrite <- E|].
  exfalso. rewrite Er in E. subst. lia.
Qed.

Lemma holds_nonzero (b t : list Z) : holds_text b t -> Forall (fun c => c <> 0) t.
Proof. intros (_ & _ & <-). apply cstr_nonzero. Qed.

Lemma holds_cut (b t : list Z) (n : nat) :
  holds_text b t -> (n <= length t)%nat -> holds_text (zset b (Z.of_nat n) 0) (take n t).
Proof.
  intros H Hn. pose proof (holds_nonzero b t H) as Hz. destruct (holds_split b t H) as (r & E).
  destruct H as (Hb & Ht & _). unfold zset. split; [by rewrite length_insert|].
  rewrite length_take. split; [lia|]. rewrite Nat2Z.id.
  assert (Hd : exists r', drop n b = r' /\ r' <> []).
  { eexists. split; [done|]. intros Hd. apply (f_equal length) in Hd. rewrite length_drop in Hd. cbn in Hd. lia. }
  destruct Hd as ([|x r'] & Hd & Hne); [done|].
  assert (Eb : b = take n t ++ x :: r').
  { rewrite <- Hd. rewrite <- (take_drop n b) at 1. f_equal. rewrite E. by rewrite take_app_le. }
  rewrite Eb, insert_app_r_alt by (rewrite length_take; lia).
  rewrite length_take, Nat.min_l, Nat.sub_diag by lia. cbn. apply cstr_app_0. by apply Forall_take.
Qed.

Lemma holds_snoc (b t : list Z) (c : Z) :
  holds_text b t -> (length t < 127)%nat -> c <> 0 ->
  holds_text (zset (zset b (zlen t) c) (zlen t + 1) 0) (t ++ [c]).
Proof.
  intros H Hn Hc. pose proof (holds_nonzero b t H) as Hz. destruct (holds_split b t H) as (r & E).
  destruct H as (Hb & Ht & _). unfold zset, zlen. split; [by rewrite !length_insert|].
  rewrite length_app. cbn [length]. split; [lia|].
  rewrite E in Hb. rewrite length_app in Hb. cbn [length] in Hb. destruct r as [|x r]; [cbn in Hb; lia|].
  rewrite E, insert_app_r_alt by lia. rewrite Nat2Z.id, Nat.sub_diag. cbn [insert list_insert].
  rewrite insert_app_r_alt by lia.
  replace (Z.to_nat (Z.of_nat (length t) + 1) - length t)%nat with 1%nat by lia. cbn.
  replace (t ++ c :: 0 :: r) with ((t ++ [c]) ++ 0 :: r) by (by rewrite <- app_assoc).
  apply cstr_app_0. apply Forall_app. split; [done|]. by apply Forall_singleton.
Qed.

Section EditorTheorems.
  Context {C : Type} `{ConsoleOps C}.
  Implicit Types con : C.

Lemma replace_input_spec (new_text t : list Z) (l : line) con :
  holds_text (buf l) t ->
  let '(l', _) := replace_input 128 new_text l con in
  let t' := take 127 (cstr new_text) in
  holds_text (buf l') t' /\ len l' = zlen t' /\ saved l' = saved l /\ saved_valid l' = saved_valid l.
Proof.
  intros Hb. pose proof (holds_cut _ _ 0 Hb ltac:(lia)) as H0. change (Z.of_nat 0) with 0 in H0.
  unfold replace_input. rewrite zget_0_cstr. destruct (cstr new_text) as [|c s] eqn:E; [done|].
  pose proof (cstr_nonzero new_text) as Hz. rewrite E in Hz. apply Forall_cons in Hz as [Hc _].
  rewrite (proj2 (Z.eqb_neq c 0) Hc). cbn [negb].
  destruct (str_copy_spec (zset (buf l) 0 0) new_text (proj1 H0)) as [Hl Hs].
  cbn [buf len saved saved_valid]. rewrite str_len_cstr, Hs, E. split; [|done].
  split; [done|]. rewrite Hs, E. split; [|done]. rewrite length_take. lia.
Qed.

(** The text is saved before the first step of navigation. *)
Lemma save_text (l : line) (h : history) (e : edit) :
  edit_rel l h e ->
  let l1 := if saved_valid l then l
            else Line (buf l) (len l) (str_copy (saved l) (buf l) SHELL_MAX_LINE) true in
  holds_text (buf l1) (text e) /\ length (saved l1) = 128%nat /\ saved_valid l1 = true
  /\ cstr (saved l1) = default (text e) (kept e) /\ (length (cstr (saved l1)) <= 127)%nat.
Proof.
  intros [Hb Hlen Hsv Hk Hh Hp]. cbv zeta. destruct (saved_valid l) eqn:Ev.
  - destruct Hk as [-> Hk]. done.
  - rewrite Hk. cbn [buf saved saved_valid default]. pose proof Hb as (Hb1 & Hb2 & Hb3).
    destruct (str_copy_spec (saved l) (buf l) Hsv) as [Hl Hs].
    unfold SHELL_MAX_LINE. rewrite Hl, Hs, Hb3, take_ge by done. done.
Qed.

Lemma readline_nav_refines (c : Z) (l : line) (h : history) con (e : edit) :
  edit_rel l h e -> (c =? KEY_UP) || (c =? KEY_DOWN) = true ->
  let '(complete, l', h', _) := readline_key 128 c l h con in
  edit_rel l' h' (edit_key c e).2 /\ complete = (edit_key c e).1.
Proof.
  intros Hrel Ek. pose proof (save_text l h e Hrel) as H1. cbv zeta in H1.
  unfold readline_key, edit_key. rewrite Ek. set (l1 := if saved_valid l then l else _) in *.
  clearbody l1. destruct H1 as (Hb1 & Hs1 & Hv1 & Hk1 & Hk1l).
  set (o := if c =? KEY_UP then Prev else Next).
  destruct (hstep_refines o h (er_hist _ _ _ Hrel)) as [Hh' Hsp]. rewrite (er_past _ _ _ Hrel), Hsp.
  assert (Eo : exists i h', (if c =? KEY_UP then history_prev h else history_next h) = (i, h')
    /\ hstep o h = ((fun i => cstr (entry h' i)) <$> i, h')).
  { unfold o. destruct (c =? KEY_UP); cbn [hstep].
    - destruct (history_prev h) as [i h']. by exists i, h'.
    - destruct (history_next h) as [i h']. by exists i, h'. }
  destruct Eo as (i & h' & -> & Eo). rewrite Eo in *. cbn [fst snd] in *. rewrite Hv1.
  set (t := match i with Some i => entry h' i | None => saved l1 end).
  assert (Ht : cstr t = default (default (text e) (kept e)) ((fun i => cstr (entry h' i)) <$> i))
    by (unfold t; by destruct i).
  pose proof (replace_input_spec t (text e) l1 con Hb1) as Hr.
  destruct (replace_input 128 t l1 con) as [l2 con2]. destruct Hr as (Hr1 & Hr2 & Hr3 & Hr4).
  split; [|done]. split; cbn [text kept past]; rewrite ?Hr3, ?Hr4, ?Hv1, <- ?Ht; try done.
  split; [by rewrite Hk1|done].
Qed.

Lemma readline_key_refines (c : Z) (l : line) (h : history) con (e : edit) :
  edit_rel l h e ->
  let '(complete, l', h', _) := readline_key 128 c l h con in
  edit_rel l' h' (edit_key c e).2 /\ complete = (edit_key c e).1.
Proof.
  intros Hrel. destruct ((c =? KEY_UP) || (c =? KEY_DOWN)) eqn:Ek; [by apply readline_nav_refines|].
  pose proof Hrel as [Hb Hlen Hsv Hk Hh Hp]. unfold readline_key, edit_key. rewrite Ek.
  assert (Htl := proj1 (proj2 Hb)).
  destruct (Z.eqb_spec c 10).
  { split; [|done]. split; try done. rewrite Hlen. unfold zlen. cbn [buf].
    pose proof (holds_cut _ _ (length (text e)) Hb ltac:(lia)) as Hcut.
    by rewrite take_ge in Hcut by lia. }
  destruct (Z.eqb_spec c 8).
  { destruct (Z.ltb_spec 0 (len l)) as [H0|H0]; unfold zlen in *.
    - split; [|done]. rewrite Hlen in *.
      replace (Z.of_nat (length (text e)) - 1) with (Z.of_nat (length (text e) - 1)) by lia.
      split; cbn [fst snd buf len saved saved_valid text kept past]; try done.
      + apply holds_cut; [done|lia].
      + unfold zlen. rewrite length_take. lia.
    - split; [|done]. destruct (text e) as [|x t] eqn:Et; [|cbn [length] in Hlen; lia].
      split; cbn [fst snd buf len saved saved_valid text kept past]; try done. }
  destruct ((32 <=? c) && (c <? 127)) eqn:Er; [|done].
  apply andb_prop in Er as [Er1%Z.leb_le Er2%Z.ltb_lt].
  change (128 - 1) with 127. rewrite Hlen. unfold zlen.
  destruct (Z.ltb_spec (Z.of_nat (length (text e))) 127) as [Hlt|Hge].
  - split; [|done]. rewrite decide_True by lia.
    split; cbn [fst snd buf len saved saved_valid text kept past]; try done.
    + apply holds_snoc; [done|lia|lia].
    + unfold zlen. rewrite length_app. cbn [length]. lia.
  - split; [|done]. rewrite decide_False by lia.
    split; cbn [fst snd buf len saved saved_valid text kept past]; done.
Qed.

Lemma shell_readline_spec (b sv : list Z) (keys : list Z) (h : history) con :
  length b = 128%nat -> length sv = 128%nat -> history_ok h ->
  match shell_readline b sv SHELL_MAX_LINE keys h con with
  | Some (b', h', _, rest) =>
      length b' = 128%nat /\ (length (cstr b') <= 127)%nat /\ history_ok h' /\
      edit_loop keys (Edit [] None (lines h, -1)) = Some (cstr b', habs h', rest)
  | None => edit_loop keys (Edit [] None (lines h, -1)) = None
  end.
Proof.
  intros Hb Hsv Hh. unfold shell_readline, SHELL_MAX_LINE.
  set (l := Line (zset b 0 0) 0 sv false). set (e := Edit [] None (lines h, -1)).
  assert (Hrel : edit_rel l (history_reset_nav h) e).
  { split; cbn; try done; [|exact (proj1 (hstep_refines ResetNav h Hh))].
    unfold zset. split; [by rewrite length_insert|]. split; [cbn; lia|]. by destruct b. }
  clearbody l e. generalize dependent (history_reset_nav h). clear h Hh. revert l e con.
  induction keys as [|c keys IH]; intros l e con h Hrel; cbn [readline_loop edit_loop]; [done|].
  pose proof (readline_key_refines c l h con e Hrel) as Hk.
  destruct (readline_key 128 c l h con) as [[[cmp l'] h'] con']. destruct Hk as [Hrel' ->].
  destruct (edit_key c e) as [cmp e']. cbn [fst snd] in *. destruct cmp; [|by apply IH].
  destruct Hrel' as [(Hb1 & Hb2 & Hb3) _ _ _ Hh' Hp']. rewrite Hb3, Hp'. done.
Qed.

(** The line editor on the byte array is an editor on strings: for every
    sequence of keys (characters, backspace, history up and down) the buffer
    that [shell_readline] returns at Enter holds the text of the abstract
    editor, at most 127 characters, the history cursor agrees, the same keys
    are left, and no store is outside of the 128 bytes. *)
Theorem shell_readline_refines (b sv : list Z) (keys : list Z) (h : history) con :
  length b = 128%nat -> length sv = 128%nat -> history_ok h ->
  match shell_readline b sv SHELL_MAX_LINE keys h con with
  | Some (b', h', _, rest) =>
      length b' = 128%nat /\ (length (cstr b') <= 127)%nat /\ history_ok h' /\
      edit_loop keys (Edit [] None (lines h, -1)) = Some (cstr b', habs h', rest)
  | None => edit_loop keys (Edit [] None (lines h, -1)) = None
  end.
Proof. apply shell_readline_spec. Qed.

End EditorTheorems.

(** ** Examples *)

Lemma parse_uint_roundtrip_witness :
  parse_uint (lit "4096") = (4096, true) /\ parse_uint (lit "0x1F00") = (0x1F00, true).
Proof.
  split.
  - exact (proj1 (parse_uint_roundtrip 4096 ltac:(lia))).
  - exact (proj2 (parse_uint_roundtrip 0x1F00 ltac:(lia))).
Defined.

(** "eco", two times backspace, "cho", Enter. *)
Definition demo_keys : list Z := lit "eco" ++ [8; 8] ++ lit "cho" ++ [10].

Lemma shell_readline_refines_witness :
  edit_loop demo_keys (Edit [] None (lines demo_history, -1)) = Some (lit "echo", ([], -1), []).
Proof.
  pose proof (shell_readline_refines (replicate 128 7) (replicate 128 7) demo_keys demo_history
    ([] : list con_event) eq_refl eq_refl) as H.
  assert (Hok : history_ok demo_history) by (split; cbn; try lia; split; [done|repeat constructor]).
  specialize (H Hok).
  set (r := shell_readline _ _ _ _ _ _) in H.
  assert (E : ((fun x => (cstr x.1.1.1, habs x.1.1.2, x.2)) <$> r) = Some (lit "echo", ([], -1), []))
    by (vm_compute; reflexivity).
  destruct r as [[[[b' h'] con'] rest]|]; [|discriminate E].
  destruct H as (_ & _ & _ & ->). exact E.
Defined.
