(* ===== verification/Commands.v ===== *)
(** * The shell's commands ([kernel/shell/shell.c])

    The commands over the state of the kernel they print or change, the
    dispatch of a line and the shell's loop.  Output goes through the console
    interface; [replay] gives it on any console from the transcript. *)

From S2P Require Import Prelude Mem Pmm Heap Vmm Gdt Process Io Pic Keyboard History Text Framebuffer Console Shell.

Definition TIMER_FREQUENCY : Z := 100.

(** The state a command can reach. *)
Record sys (C D : Type) := Sys {
  con : C; hist : history; tim : timer; ps : pstate pmm; hp : heap; ports : io D
}.
Arguments Sys {C D}.
Arguments con {C D}.
Arguments hist {C D}.
Arguments tim {C D}.
Arguments ps {C D}.
Arguments hp {C D}.
Arguments ports {C D}.

(** A command returns, halts the machine for ever, or never stops printing. *)
Inductive result (A : Type) := Continues (s : A) | Halts (s : A) | Loops.
Arguments Continues {A}.
Arguments Halts {A}.
Arguments Loops {A}.

Section Output.
  Context {C : Type} `{ConsoleOps C}.
  Implicit Types c : C.

Definition nl : list Z := [10].

Definition print_bytes_human (bytes : Z) c : C :=
  let unit := 1024 in
  let '(suffix, whole, frac) :=
    if unit * unit * unit <=? bytes then
      (lit "GB", bytes / (unit * unit * unit),
       u64 (bytes mod (unit * unit * unit) * 10) / (unit * unit * unit))
    else if unit * unit <=? bytes then
      (lit "MB", bytes / (unit * unit), u64 (bytes mod (unit * unit) * 10) / (unit * unit))
    else if unit <=? bytes then
      (lit "KB", bytes / unit, u64 (bytes mod unit * 10) / unit)
    else (lit "B", bytes, 0) in
  let c := console_print (lit " (") c in
  let c := print_dec whole c in
  let c := if negb (zget suffix 0 =? 66) then
             con_putchar 32 (print_dec frac (con_putchar 46 c))
           else con_putchar 32 c in
  console_print (lit ")") (console_print suffix c).

Definition shell_print_banner c : C :=
  let c := con_set_color COLOR_CYAN c in
  let c := console_print (lit "========================================" ++ nl) c in
  let c := con_set_color COLOR_GREEN c in
  let c := console_print (lit "            SimpleOS Shell" ++ nl) c in
  let c := con_set_color COLOR_CYAN c in
  let c := console_print (lit "========================================" ++ nl) c in
  let c := con_set_color COLOR_WHITE c in
  console_print (lit "Type 'help' to list commands." ++ nl ++ nl) c.

Definition shell_prompt c : C :=
  let c := con_set_color COLOR_GREEN c in
  let c := console_print (lit "simpleos") c in
  let c := con_set_color COLOR_CYAN c in
  let c := console_print (lit "> ") c in
  con_set_color COLOR_WHITE c.

Definition cmd_help c : C :=
  let c := con_set_color COLOR_CYAN c in
  let c := console_print (lit "Available commands:" ++ nl) c in
  let c := con_set_color COLOR_WHITE c in
  let c := console_print (lit "  help        - Show this help" ++ nl) c in
  let c := console_print (lit "  clear       - Clear the screen" ++ nl) c in
  let c := console_print (lit "  echo [text] - Echo text" ++ nl) c in
  let c := console_print (lit "  version     - Show kernel version" ++ nl) c in
  let c := console_print (lit "  uptime      - Show system uptime" ++ nl) c in
  let c := console_print (lit "  meminfo     - Show memory usage" ++ nl) c in
  let c := console_print (lit "  ps          - List processes" ++ nl) c in
  let c := console_print (lit "  hexdump a l - Dump memory at address" ++ nl) c in
  let c := console_print (lit "  reboot      - Reboot the machine" ++ nl) c in
  console_print (lit "  shutdown    - Power off the machine" ++ nl) c.

Definition cmd_clear c : C := con_clear c.

(** [argv[i]] for [i] from 1 on, with a space in between. *)
Fixpoint echo_loop (args : list (list Z)) c : C :=
  match args with
  | [] => c
  | a :: args' =>
      let c := console_print a c in
      echo_loop args' (match args' with [] => c | _ => con_putchar 32 c end)
  end.
Definition cmd_echo (argv : list (list Z)) c : C := con_putchar 10 (echo_loop (drop 1 argv) c).

Definition cmd_version c : C :=
  let c := con_set_color COLOR_GREEN c in
  let c := console_print (lit "SimpleOS Kernel v0.2" ++ nl) c in
  con_set_color COLOR_WHITE c.

Definition cmd_uptime (t : timer) c : C :=
  let seconds := timer_get_ticks t / TIMER_FREQUENCY in
  let c := console_print (lit "Uptime: ") c in
  console_print (lit "s" ++ nl) (print_dec seconds c).

Definition state_to_str (s : proc_state) : list Z :=
  match s with
  | PROC_READY => lit "READY"
  | PROC_RUNNING => lit "RUN"
  | PROC_BLOCKED => lit "BLOCK"
  | PROC_ZOMBIE => lit "ZOMBIE"
  | PROC_UNUSED => lit "UNUSED"
  end.

(** One row of the process list. *)
Definition ps_row (p : process) c : C :=
  if decide (state p = PROC_UNUSED) then c
  else
    let c := print_dec (pid p) c in
    let c := console_print (lit "   ") c in
    let c := console_print (state_to_str (state p)) c in
    let c := console_print (lit "   ") c in
    let c := print_dec (u64 (priority p)) c in
    let c := console_print (lit "    ") c in
    let c := console_print (name p) c in
    con_putchar 10 c.
Definition cmd_ps (s : pstate pmm) c : C :=
  let '(table, count) := process_get_table s in
  let c := con_set_color COLOR_CYAN c in
  let c := console_print (lit "PID   STATE   PRIO  NAME" ++ nl) c in
  let c := con_set_color COLOR_WHITE c in
  foldl (fun c p => ps_row p c) c (take count table).

Definition cmd_meminfo (p : pmm) (h : heap) c : C :=
  let total_pages := pmm_get_total_pages p in
  let free_pages := pmm_get_free_pages p in
  let used_pages := pmm_get_used_pages p in
  let total_bytes := u64 (total_pages * 4096) in
  let free_bytes := u64 (free_pages * 4096) in
  let used_bytes := u64 (used_pages * 4096) in
  let c := con_set_color COLOR_CYAN c in
  let c := console_print (lit "Memory (pages):" ++ nl) c in
  let c := con_set_color COLOR_WHITE c in
  let c := console_print (lit "  total: ") c in
  let c := print_bytes_human total_bytes (print_dec total_pages c) in
  let c := console_print (nl ++ lit "  free:  ") c in
  let c := print_bytes_human free_bytes (print_dec free_pages c) in
  let c := console_print (nl ++ lit "  used:  ") c in
  let c := print_bytes_human used_bytes (print_dec used_pages c) in
  let c := console_print nl c in
  let c := con_set_color COLOR_CYAN c in
  let c := console_print (lit "Heap (bytes):" ++ nl) c in
  let c := con_set_color COLOR_WHITE c in
  let c := console_print (lit "  total: ") c in
  let heap_total := heap_get_total_size h in
  let heap_free := heap_get_free_size h in
  let heap_used := heap_get_used_size h in
  let c := print_bytes_human heap_total (print_dec heap_total c) in
  let c := console_print (nl ++ lit "  free:  ") c in
  let c := print_bytes_human heap_free (print_dec heap_free c) in
  let c := console_print (nl ++ lit "  used:  ") c in
  let c := print_bytes_human heap_used (print_dec heap_used c) in
  console_print nl c.

(** One line of the dump: the bytes [offset .. offset + 15] below [len]. *)
Definition dump_line (m : memory) (addr len offset : Z) c : C :=
  let c := print_hex (u64 (addr + offset)) c in
  let c := console_print (lit ": ") c in
  let c := for_up 16 (fun i => (i <? 16) && (u64 (offset + i) <? len))
    (fun i c =>
       let byte := rd8 m (u64 (addr + u64 (offset + i))) in
       let out := [zget hex_digits (Z.land (Z.shiftr byte 4) 0xF); zget hex_digits (Z.land byte 0xF); 0] in
       con_putchar 32 (console_print out c)) 0 c in
  con_putchar 10 c.
(** [while (offset < len) { ...; offset += 16; }]; [None] when the rounds are used up *)
Fixpoint dump_loop (fuel : nat) (m : memory) (addr len offset : Z) c : option C :=
  if offset <? len then
    match fuel with
    | O => None
    | S n => dump_loop n m addr len (u64 (offset + 16)) (dump_line m addr len offset c)
    end
  else Some c.
(** [None]: the loop never ends ([dump_loop_terminates] shows that more rounds would not help). *)
Definition cmd_hexdump (m : memory) (argv : list (list Z)) c : option C :=
  if zlen argv <? 3 then Some (console_print (lit "Usage: hexdump <addr> <len>" ++ nl) c)
  else
    let '(addr, ok_addr) := parse_uint (default [] (argv !! 1%nat)) in
    let '(len, ok_len) := parse_uint (default [] (argv !! 2%nat)) in
    if negb ok_addr || negb ok_len || (len =? 0) then
      Some (console_print (lit "Invalid arguments." ++ nl) c)
    else dump_loop (Z.to_nat (len / 16 + 1)) m addr len 0 c.

End Output.

Section Commands.
  Context {C D : Type} `{ConsoleOps C} `{PortDevice D}.
  Implicit Types s : sys C D.

Definition print (f : C -> C) s : sys C D := Sys (f (con s)) (hist s) (tim s) (ps s) (hp s) (ports s).
Definition with_ports (p : io D) s : sys C D := Sys (con s) (hist s) (tim s) (ps s) (hp s) p.
Definition with_hist (h : history) s : sys C D := Sys (con s) h (tim s) (ps s) (hp s) (ports s).

Definition cmd_reboot s : result (sys C D) :=
  let s := print (fun c => con_set_color COLOR_WHITE (console_print (lit "Rebooting..." ++ nl)
                             (con_set_color COLOR_YELLOW c))) s in
  Halts (with_ports (outb 0x64 0xFE (ports s)) s).

Definition cmd_shutdown s : result (sys C D) :=
  let s := print (fun c => con_set_color COLOR_WHITE (console_print (lit "Shutting down..." ++ nl)
                             (con_set_color COLOR_YELLOW c))) s in
  Halts (with_ports (outw 0xB004 0x2000 (outw 0x604 0x2000 (ports s))) s).

Definition unknown_command (a : list Z) (c : C) : C :=
  let c := con_set_color COLOR_RED c in
  let c := console_print (lit "Unknown command: ") c in
  let c := con_set_color COLOR_WHITE c in
  con_putchar 10 (console_print a c).

(** The line is cut in place; the commands see the arguments in it. *)
Definition shell_execute (line : list Z) s : result (sys C D) :=
  let '(line, idx) := tokenize line in
  let argv := argument line <$> idx in
  match argv with
  | [] => Continues s
  | a :: _ =>
      if str_equal a (lit "help") then Continues (print cmd_help s)
      else if str_equal a (lit "clear") then Continues (print cmd_clear s)
      else if str_equal a (lit "echo") then Continues (print (cmd_echo argv) s)
      else if str_equal a (lit "version") then Continues (print cmd_version s)
      else if str_equal a (lit "uptime") then Continues (print (cmd_uptime (tim s)) s)
      else if str_equal a (lit "meminfo") then
        Continues (print (cmd_meminfo (frames (vm (ps s))) (hp s)) s)
      else if str_equal a (lit "ps") then Continues (print (cmd_ps (ps s)) s)
      else if str_equal a (lit "hexdump") then
        match cmd_hexdump (vmem (vm (ps s))) argv (con s) with
        | Some c => Continues (print (fun _ => c) s)
        | None => Loops
        end
      else if str_equal a (lit "reboot") then cmd_reboot s
      else if str_equal a (lit "shutdown") then cmd_shutdown s
      else Continues (print (unknown_command a) s)
  end.

Definition shell_init s : sys C D := print shell_print_banner (with_hist (history_init (hist s)) s).

(** One round of the loop of [shell_run] on the keys to come: [None] when they
    are used up; [line] and [saved] are the arrays on the stack. *)
Definition shell_round (line sv keys : list Z) s : option (result (sys C D) * list Z * list Z) :=
  let s := print shell_prompt s in
  match shell_readline line sv SHELL_MAX_LINE keys (hist s) (con s) with
  | None => None
  | Some (line, h, c, keys) =>
      let s := Sys c h (tim s) (ps s) (hp s) (ports s) in
      if zget line 0 =? 0 then Some (Continues s, line, keys)
      else
        let s := with_hist (history_add (Some line) (hist s)) s in
        Some (shell_execute line s, (tokenize line).1, keys)
  end.
(** The rounds until the keys are used up, with the state before the prompt of
    the line that is not complete, or until a command halts. *)
Fixpoint shell_run (fuel : nat) (line sv keys : list Z) s : result (sys C D) :=
  match fuel with
  | O => Continues s
  | S n =>
      match shell_round line sv keys s with
      | None => Continues s
      | Some (Halts s, _, _) => Halts s
      | Some (Loops, _, _) => Loops
      | Some (Continues s, line, keys) => shell_run n line sv keys s
      end
  end.

End Commands.

(** ** Dispatch *)

(** Words with a space in between. *)
Fixpoint join (ws : list (list Z)) : list Z :=
  match ws with
  | [] => []
  | [w] => w
  | w :: ws' => w ++ 32 :: join ws'
  end.

Section Dispatch.
  Context {C D : Type} `{ConsoleOps C} `{PortDevice D}.
  Implicit Types s : sys C D.

(** The command a list of words stands for. *)
Definition run_words (ws : list (list Z)) s : result (sys C D) :=
  match ws with
  | [] => Continues s
  | w :: args =>
      if decide (w = lit "help") then Continues (print cmd_help s)
      else if decide (w = lit "clear") then Continues (print cmd_clear s)
      else if decide (w = lit "echo") then
        Continues (print (fun c => con_putchar 10 (console_print (join args) c)) s)
      else if decide (w = lit "version") then Continues (print cmd_version s)
      else if decide (w = lit "uptime") then Continues (print (cmd_uptime (tim s)) s)
      else if decide (w = lit "meminfo") then
        Continues (print (cmd_meminfo (frames (vm (ps s))) (hp s)) s)
      else if decide (w = lit "ps") then Continues (print (cmd_ps (ps s)) s)
      else if decide (w = lit "hexdump") then
        match cmd_hexdump (vmem (vm (ps s))) ws (con s) with
        | Some c => Continues (print (fun _ => c) s)
        | None => Loops
        end
      else if decide (w = lit "reboot") then cmd_reboot s
      else if decide (w = lit "shutdown") then cmd_shutdown s
      else Continues (print (unknown_command w) s)
  end.

Lemma console_print_app (a b : list Z) : forall (c : C), Forall (fun x => x <> 0) a ->
  console_print (a ++ b) c = console_print b (console_print a c).
Proof.
  induction a as [|x a IH]; intros c Ha; [done|]. apply Forall_cons in Ha as [Hx Ha].
  cbn [app console_print]. rewrite (proj2 (Z.eqb_neq x 0) Hx). by apply IH.
Qed.

Lemma echo_loop_join (args : list (list Z)) : forall (c : C),
  echo_loop args c = console_print (join (cstr <$> args)) c.
Proof.
  induction args as [|a args IH]; intros c; [done|]. cbn [echo_loop]. rewrite IH.
  destruct args as [|b args].
  - cbn [fmap list_fmap join console_print]. by rewrite console_print_cstr.
  - change (join (cstr <$> a :: b :: args)) with (cstr a ++ 32 :: join (cstr <$> b :: args)).
    rewrite console_print_app by apply cstr_nonzero. by rewrite console_print_cstr.
Qed.

Lemma parse_loop_cstr (base : Z) (a : list Z) : forall v, parse_loop base (cstr a) v = parse_loop base a v.
Proof.
  induction a as [|x a IH]; intros v; [done|]. cbn [cstr parse_loop].
  destruct (x =? 0) eqn:E; [done|]. cbn [parse_loop]. rewrite E. by destruct (parse_digit base x).
Qed.

Lemma parse_uint_cstr (a : list Z) : parse_uint (cstr a) = parse_uint a.
Proof.
  unfold parse_uint. destruct a as [|x a]; [done|]. cbn [cstr].
  destruct (Z.eqb_spec x 0) as [->|Hx]; [done|].
  change (zget (x :: cstr a) 0) with x. change (zget (x :: a) 0) with x.
  change (zget (x :: cstr a) 1) with (zget (cstr a) 0). change (zget (x :: a) 1) with (zget a 0).
  change (drop 2 (x :: cstr a)) with (drop 1 (cstr a)). change (drop 2 (x :: a)) with (drop 1 a).
  rewrite (proj2 (Z.eqb_neq x 0) Hx).
  assert (E0 : zget (cstr a) 0 = zget a 0).
  { destruct a as [|y a]; [done|]. cbn. by destruct (Z.eqb_spec y 0). }
  rewrite E0. destruct (_ && _) eqn:E.
  - assert (Hd : cstr (drop 1 a) = drop 1 (cstr a)).
    { apply cstr_drop_in. destruct a as [|y a]; [by rewrite andb_false_r in E|].
      change (zget (y :: a) 0) with y in E. cbn [cstr]. destruct (Z.eqb_spec y 0) as [->|]; [|cbn; lia].
      by rewrite andb_false_r in E. }
    by rewrite <- Hd, parse_loop_cstr.
  - change (x :: cstr a) with (x :: cstr a). pose proof (parse_loop_cstr 10 (x :: a) 0) as Hp.
    cbn [cstr] in Hp. rewrite (proj2 (Z.eqb_neq x 0) Hx) in Hp. by rewrite Hp.
Qed.

Lemma cmd_hexdump_cstr (m : memory) (argv : list (list Z)) (c : C) :
  cmd_hexdump m (cstr <$> argv) c = cmd_hexdump m argv c.
Proof.
  unfold cmd_hexdump, zlen. rewrite length_fmap, !list_lookup_fmap.
  assert (E : forall i, parse_uint (default [] (cstr <$> argv !! i)) = parse_uint (default [] (argv !! i))).
  { intros i. destruct (argv !! i) as [a|]; [|done]. apply parse_uint_cstr. }
  by rewrite !E.
Qed.

Lemma str_equal_lit (a : list Z) (s : list Z) : cstr s = s -> str_equal a s = bool_decide (cstr a = s).
Proof. intros Hs. by rewrite str_equal_spec, Hs. Qed.

Lemma execute_words (line : list Z) s :
  shell_execute line s = run_words (take 8 (words (cstr line))) s.
Proof.
  unfold shell_execute. pose proof (tokenize_spec line) as Ht.
  destruct (tokenize line) as [l' idx]. destruct Ht as [_ Ht].
  rewrite <- Ht. rewrite (list_fmap_compose (argument l') cstr). clear Ht.
  generalize (argument l' <$> idx) as argv. clear. intros argv.
  destruct argv as [|a args]; [done|]. rewrite fmap_cons. cbn [run_words].
  rewrite !str_equal_lit by reflexivity. unfold cmd_echo.
  repeat match goal with
  | |- context [bool_decide (cstr a = ?w)] =>
      destruct (bool_decide_reflect (cstr a = w));
      [rewrite (decide_True (P := cstr a = w)) by done; try done
      |rewrite (decide_False (P := cstr a = w)) by done]
  end.
  - unfold print. by rewrite echo_loop_join.
  - by rewrite <- cmd_hexdump_cstr.
  - unfold print, unknown_command. by rewrite console_print_cstr.
Qed.

(** A line does what its words say: the tokenizer, the in-place cutting and
    the string comparisons together run the command named by the first word
    with the first eight words as arguments; an empty line does nothing, [echo]
    prints its words separated by single spaces, an unknown word is reported. *)
Theorem shell_execute_correct (line : list Z) s :
  shell_execute line s = run_words (take 8 (words (cstr line))) s.
Proof. apply execute_words. Qed.

End Dispatch.

(** ** Transcripts *)

Section Replay.
  Context {C D : Type} `{ConsoleOps C} `{PortDevice D}.
  Implicit Types (t : list con_event) (c : C).

(** What a transcript does to a console. *)
Fixpoint replay t c : C :=
  match t with
  | [] => c
  | Putchar x :: t' => con_putchar x (replay t' c)
  | SetColor x :: t' => con_set_color x (replay t' c)
  | Clear :: t' => con_clear (replay t' c)
  end.

Lemma replay_putchar (x : Z) t c : con_putchar x (replay t c) = replay (con_putchar x t) c.
Proof. done. Qed.
Lemma replay_set_color (x : Z) t c : con_set_color x (replay t c) = replay (con_set_color x t) c.
Proof. done. Qed.
Lemma replay_clear t c : con_clear (replay t c) = replay (con_clear t) c.
Proof. done. Qed.
Lemma replay_print (str : list Z) : forall t c,
  console_print str (replay t c) = replay (console_print str t) c.
Proof.
  induction str as [|x str IH]; intros t c; [done|]. cbn [console_print].
  destruct (x =? 0); [done|]. by rewrite replay_putchar, IH.
Qed.
Lemma replay_for_up (fuel : nat) (cond : Z -> bool) (f : Z -> C -> C)
    (g : Z -> list con_event -> list con_event) (c : C) : forall i t,
  (forall i t, f i (replay t c) = replay (g i t) c) ->
  for_up fuel cond f i (replay t c) = replay (for_up fuel cond g i t) c.
Proof.
  induction fuel as [|fuel IH]; intros i t Hf; cbn [for_up]; [done|].
  destruct (cond i); [|done]. by rewrite Hf, IH.
Qed.

Create Rewrite HintDb replay.
Hint Rewrite replay_putchar replay_set_color replay_clear replay_print : replay.

Ltac replays := repeat (case_match; simplify_eq); autorewrite with replay; try done.

Lemma replay_dec (n : Z) t c : print_dec n (replay t c) = replay (print_dec n t) c.
Proof. unfold print_dec. replays. Qed.
Lemma replay_hex (n : Z) t c : print_hex n (replay t c) = replay (print_hex n t) c.
Proof. unfold print_hex. replays. Qed.
Hint Rewrite replay_dec replay_hex : replay.
Lemma replay_human (n : Z) t c : print_bytes_human n (replay t c) = replay (print_bytes_human n t) c.
Proof. unfold print_bytes_human. replays. Qed.
Hint Rewrite replay_human : replay.
Lemma replay_help t c : cmd_help (replay t c) = replay (cmd_help t) c.
Proof. unfold cmd_help. replays. Qed.
Lemma replay_version t c : cmd_version (replay t c) = replay (cmd_version t) c.
Proof. unfold cmd_version. replays. Qed.
Lemma replay_uptime (tm : timer) t c : cmd_uptime tm (replay t c) = replay (cmd_uptime tm t) c.
Proof. unfold cmd_uptime. replays. Qed.
Lemma replay_meminfo (p : pmm) (h : heap) t c :
  cmd_meminfo p h (replay t c) = replay (cmd_meminfo p h t) c.
Proof. unfold cmd_meminfo. replays. Qed.
Lemma replay_row (p : process) t c : ps_row p (replay t c) = replay (ps_row p t) c.
Proof. unfold ps_row. destruct (decide _); [done|]. replays. Qed.
Lemma replay_ps (s : pstate pmm) t c : cmd_ps s (replay t c) = replay (cmd_ps s t) c.
Proof.
  unfold cmd_ps. destruct (process_get_table s) as [table count]. autorewrite with replay.
  generalize (con_set_color COLOR_WHITE (console_print (lit "PID   STATE   PRIO  NAME" ++ nl)
                (con_set_color COLOR_CYAN t))) as t'.
  induction (take count table) as [|p ps IH]; intros t'; [done|]. cbn [foldl].
  by rewrite replay_row, IH.
Qed.
Lemma replay_line (m : memory) (addr len offset : Z) t c :
  dump_line m addr len offset (replay t c) = replay (dump_line m addr len offset t) c.
Proof.
  unfold dump_line. autorewrite with replay. erewrite replay_for_up; [by rewrite replay_putchar|].
  intros i t'. by autorewrite with replay.
Qed.
Lemma replay_dump (fuel : nat) (m : memory) (addr len : Z) (c : C) : forall offset t,
  dump_loop fuel m addr len offset (replay t c) = (fun t => replay t c) <$> dump_loop fuel m addr len offset t.
Proof.
  induction fuel as [|fuel IH]; intros offset t; cbn [dump_loop]; destruct (offset <? len); try done.
  by rewrite replay_line, IH.
Qed.
Lemma replay_hexdump (m : memory) (argv : list (list Z)) t c :
  cmd_hexdump m argv (replay t c) = (fun t => replay t c) <$> cmd_hexdump m argv t.
Proof.
  unfold cmd_hexdump. destruct (_ <? 3); [by rewrite replay_print|].
  destruct (parse_uint _) as [addr oka]. destruct (parse_uint _) as [len okl].
  destruct (_ || _); [by autorewrite with replay|apply replay_dump].
Qed.
Hint Rewrite replay_help replay_version replay_uptime replay_meminfo replay_ps : replay.

(** The same state with the transcript replayed on a console. *)
Definition on_console c (s : sys (list con_event) D) : sys C D :=
  Sys (replay (con s) c) (hist s) (tim s) (ps s) (hp s) (ports s).
Definition result_map {A B} (f : A -> B) (r : result A) : result B :=
  match r with Continues s => Continues (f s) | Halts s => Halts (f s) | Loops => Loops end.

Lemma print_replay (f : C -> C) (g : list con_event -> list con_event) c (s : sys (list con_event) D) :
  (forall t, f (replay t c) = replay (g t) c) ->
  print f (on_console c s) = on_console c (print g s).
Proof.
  intros Hf. unfold print, on_console. cbn [con hist tim ps hp ports]. by rewrite Hf.
Qed.

Lemma run_words_replay (ws : list (list Z)) c (s : sys (list con_event) D) :
  run_words ws (on_console c s) = result_map (on_console c) (run_words ws s).
Proof.
  destruct ws as [|w args]; [done|]. cbn [run_words].
  assert (Hcmd : forall f g, (forall t, f (replay t c) = replay (g t) c) ->
    Continues (print f (on_console c s)) = result_map (on_console c) (Continues (print g s)))
    by (intros f g Hf; cbn [result_map]; f_equal; by apply print_replay).
  repeat match goal with
  | |- context [decide (w = ?x)] => destruct (decide (w = x))
  end.
  - apply Hcmd. intros t. apply replay_help.
  - apply Hcmd. intros t. apply replay_clear.
  - apply Hcmd. intros t. by rewrite replay_print, replay_putchar.
  - apply Hcmd. intros t. apply replay_version.
  - apply Hcmd. intros t. apply replay_uptime.
  - apply Hcmd. intros t. apply replay_meminfo.
  - apply Hcmd. intros t. apply replay_ps.
  - cbn [con on_console]. rewrite replay_hexdump. change (ps (on_console c s)) with (ps s).
    by destruct (cmd_hexdump _ _ (con s)).
  - unfold cmd_reboot. erewrite print_replay; [cbn [result_map]; reflexivity|].
    intros t. by rewrite replay_set_color, replay_print, replay_set_color.
  - unfold cmd_shutdown. erewrite print_replay; [cbn [result_map]; reflexivity|].
    intros t. by rewrite replay_set_color, replay_print, replay_set_color.
  - apply Hcmd. intros t. unfold unknown_command.
    by rewrite replay_set_color, replay_print, replay_set_color, replay_print, replay_putchar.
Qed.

(** The output does not depend on the console: what a command puts on any
    console (the framebuffer's among them) is its transcript replayed there,
    and every other effect is the same. *)
Theorem shell_execute_transcript (line : list Z) c (s : sys (list con_event) D) :
  shell_execute line (on_console c s) = result_map (on_console c) (shell_execute line s).
Proof. rewrite !execute_words. apply run_words_replay. Qed.

End Replay.

(** ** Sizes and dumps *)

(** The unit a size is shown in, and its suffix. *)
Definition size_unit (bytes : Z) : Z * list Z :=
  if 2 ^ 30 <=? bytes then (2 ^ 30, lit "GB")
  else if 2 ^ 20 <=? bytes then (2 ^ 20, lit "MB")
  else if 2 ^ 10 <=? bytes then (2 ^ 10, lit "KB")
  else (1, lit "B").

(** A size is shown rounded down to a tenth of the largest binary unit that
    is not larger than it: the digits printed before and after the point are
    the quotient by ten and the last digit of [10 * bytes / unit], computed
    without overflow; below 1024 bytes the number is exact. *)
Theorem print_bytes_human_correct {C : Type} `{ConsoleOps C} (bytes : Z) (c : C) :
  0 <= bytes < 2 ^ 64 ->
  let '(unit, suffix) := size_unit bytes in
  let tenths := 10 * bytes / unit in
  print_bytes_human bytes c
  = console_print (lit ")") (console_print suffix (con_putchar 32
      (if unit =? 1 then print_dec bytes (console_print (lit " (") c)
       else print_dec (tenths mod 10) (con_putchar 46
              (print_dec (tenths / 10) (console_print (lit " (") c)))))).
Proof.
  intros Hb. unfold print_bytes_human, size_unit. cbv zeta.
  change (1024 * 1024 * 1024) with (2 ^ 30). change (1024 * 1024) with (2 ^ 20). change 1024 with (2 ^ 10).
  assert (Htenth : forall u, 0 < u <= 2 ^ 30 ->
    bytes / u = 10 * bytes / u / 10 /\ u64 (bytes mod u * 10) / u = (10 * bytes / u) mod 10).
  { intros u Hu. pose proof (Z.mod_pos_bound bytes u ltac:(lia)). rewrite uwrap_small by lia.
    assert (E : 10 * bytes / u = 10 * (bytes / u) + bytes mod u * 10 / u).
    { rewrite (Z.div_mod bytes u) at 1 by lia.
      replace (10 * (u * (bytes / u) + bytes mod u)) with (10 * (bytes / u) * u + bytes mod u * 10) by lia.
      by rewrite Z.div_add_l by lia. }
    assert (0 <= bytes mod u * 10 / u < 10).
    { split; [apply Z.div_pos; lia|]. apply Z.div_lt_upper_bound; lia. }
    rewrite E. generalize (bytes / u), (bytes mod u * 10 / u), H1. intros a b Hb'. dlia. }
  destruct (Z.leb_spec (2 ^ 30) bytes); [|destruct (Z.leb_spec (2 ^ 20) bytes);
    [|destruct (Z.leb_spec (2 ^ 10) bytes)]].
  - destruct (Htenth (2 ^ 30) ltac:(lia)) as [-> ->]. done.
  - destruct (Htenth (2 ^ 20) ltac:(lia)) as [-> ->]. done.
  - destruct (Htenth (2 ^ 10) ltac:(lia)) as [-> ->]. done.
  - done.
Qed.

(** [hexdump] ends for a length up to 2^64 - 16: the loop prints one line for each started
    sixteen bytes, in order, and stops.  For a longer one the offset wraps before it reaches the
    length, and no number of rounds is enough. *)
Theorem dump_loop_terminates {C : Type} `{ConsoleOps C} (m : memory) (addr len : Z) (c : C) :
  0 <= len < 2 ^ 64 ->
  (len <= 2 ^ 64 - 16 -> dump_loop (Z.to_nat (len / 16 + 1)) m addr len 0 c
     = Some (foldl (fun c i => dump_line m addr len (16 * i) c) c (seqZ 0 ((len + 15) / 16)))) /\
  (2 ^ 64 - 16 < len -> forall fuel, dump_loop fuel m addr len 0 c = None).
Proof.
  intros Hlen. split; intros Hl.
  - assert (Hgen : forall (fuel : nat) k c, 0 <= k -> (len + 15) / 16 - k <= Z.of_nat fuel ->
      16 * k <= len + 15 ->
      dump_loop fuel m addr len (16 * k) c
      = Some (foldl (fun c i => dump_line m addr len (16 * i) c) c (seqZ k ((len + 15) / 16 - k)))).
    { intros fuel. induction fuel as [|fuel IH]; intros k c' Hk Hf Hk2; cbn [dump_loop];
        (destruct (Z.ltb_spec (16 * k) len) as [Hlt|Hge]; [|by rewrite seqZ_nil by dlia]).
      - dlia.
      - assert (k < (len + 15) / 16) by dlia. rewrite seqZ_cons by lia. cbn [foldl].
        rewrite uwrap_small by lia. replace (16 * k + 16) with (16 * (k + 1)) by lia.
        rewrite IH by lia. replace (Z.succ k) with (k + 1) by lia.
        by replace (Z.pred ((len + 15) / 16 - k)) with ((len + 15) / 16 - (k + 1)) by lia. }
    pose proof (Hgen (Z.to_nat (len / 16 + 1)) 0 c) as H0. rewrite Z.mul_0_r, Z.sub_0_r in H0.
    apply H0; dlia.
  - assert (Hgen : forall (fuel : nat) k c, 0 <= k < 2 ^ 60 -> dump_loop fuel m addr len (16 * k) c = None).
    { intros fuel. induction fuel as [|fuel IH]; intros k c' Hk; cbn [dump_loop];
        rewrite (proj2 (Z.ltb_lt _ _)) by lia; [done|].
      replace (u64 (16 * k + 16)) with (16 * ((k + 1) mod 2 ^ 60)) by (unfold uwrap; dlia).
      apply IH. apply Z.mod_pos_bound. lia. }
    intros fuel. apply (Hgen fuel 0). lia.
Qed.

(** ** A round of the shell *)

Section Round.
  Context {C D : Type} `{ConsoleOps C} `{PortDevice D}.
  Implicit Types s : sys C D.

(** C32: A round of the shell: on the keys to come it waits exactly when the editor
    does; otherwise the line it edited, if not empty, is added to the history and
    then its words are run; the keys after Enter are left for the next round. *)
Theorem shell_round_correct (line sv keys : list Z) s :
  length line = 128%nat -> length sv = 128%nat -> history_ok (hist s) ->
  match edit_loop keys (Edit [] None (lines (hist s), -1)) with
  | None => shell_round line sv keys s = None
  | Some (t, past, rest) =>
      exists r line' h c, shell_round line sv keys s = Some (r, line', rest) /\
      length line' = 128%nat /\ history_ok h /\
      habs h = (if decide (t = []) then past else (hspec (Add t) past).2) /\
      r = run_words (take 8 (words t)) (Sys c h (tim s) (ps s) (hp s) (ports s))
  end.
Proof.
  intros Hl Hs Hh. unfold shell_round. set (s0 := print shell_prompt s).
  change (hist s0) with (hist s).
  pose proof (shell_readline_spec line sv keys (hist s) (con s0) Hl Hs Hh) as Hr.
  destruct (shell_readline line sv SHELL_MAX_LINE keys (hist s) (con s0)) as [[[[b h] c] rest]|];
    [|by rewrite Hr].
  destruct Hr as (Hb & Hbl & Hok & ->). cbn [con hist tim ps hp ports with_hist].
  pose proof (zget_0_cstr b) as Hz. pose proof (cstr_nonzero b) as Hnz.
  destruct (cstr b) as [|x t] eqn:Eb.
  - rewrite Hz. exists (Continues (Sys c h (tim s) (ps s) (hp s) (ports s))), b, h, c. by rewrite decide_True.
  - apply Forall_cons in Hnz as [Hx _]. rewrite Hz, (proj2 (Z.eqb_neq x 0) Hx).
    destruct (hstep_refines (Add b) h Hok) as [Hok' Hsp].
    assert (Hadd : hspec (Add (x :: t)) (habs h) = hspec (Add b) (habs h)).
    { unfold hspec. destruct (habs h). rewrite Eb.
      rewrite (cstr_id (x :: t)); [done|]. rewrite <- Eb. apply cstr_nonzero. }
    eexists _, _, (history_add (Some b) h), c. split; [reflexivity|]. split.
    { pose proof (tokenize_spec b) as Ht. destruct (tokenize b) as [l' idx]. destruct Ht as [Ht _].
      cbn [fst]. by rewrite Ht. }
    split; [exact Hok'|]. split.
    { rewrite decide_False by done. rewrite Hadd, Hsp. done. }
    rewrite execute_words, Eb. done.
Qed.

End Round.

(** ** Examples *)

Lemma print_bytes_human_correct_witness :
  print_bytes_human 1572864 ([] : list con_event) = console_print (lit " (1.5 MB)") [].
Proof.
  pose proof (print_bytes_human_correct 1572864 ([] : list con_event) ltac:(lia)) as Hs.
  etransitivity; [exact Hs|]. vm_compute. reflexivity.
Defined.

Lemma dump_loop_terminates_witness :
  dump_loop (Z.to_nat (20 / 16 + 1)) ∅ 0x1000 20 0 ([] : list con_event)
  = Some (dump_line ∅ 0x1000 20 16 (dump_line ∅ 0x1000 20 0 [])).
Proof. exact (proj1 (dump_loop_terminates ∅ 0x1000 20 [] ltac:(lia)) ltac:(lia)). Defined.

Definition demo_boot_ps : pstate pmm :=
  PState (replicate 64 proc_zero) None 1 (Vmm 0 0 ∅ pmm_bss [])
    (Gdt (replicate 7 null_entry) tss_zero (0, 0) 0 0 0 0).
Definition demo_sys : sys (list con_event) demo_pics :=
  Sys [] demo_history (Timer 0 None) demo_boot_ps (Heap ∅ 0 0 0) (Io (DemoPics 0 0) []).

Lemma shell_round_correct_witness :
  exists r line h c,
    shell_round (replicate 128 0) (replicate 128 0) demo_keys demo_sys = Some (r, line, []) /\
    habs h = ([lit "echo"], -1) /\
    r = Continues (print (fun c => con_putchar 10 c)
          (Sys c h (Timer 0 None) demo_boot_ps (Heap ∅ 0 0 0) (Io (DemoPics 0 0) []))).
Proof.
  assert (Hok : history_ok demo_history) by (split; cbn; try lia; split; [done|repeat constructor]).
  pose proof (shell_round_correct (replicate 128 0) (replicate 128 0) demo_keys demo_sys
    eq_refl eq_refl Hok) as Hr.
  assert (E : edit_loop demo_keys (Edit [] None (lines demo_history, -1)) = Some (lit "echo", ([], -1), []))
    by (vm_compute; reflexivity).
  change (hist demo_sys) with demo_history in Hr. rewrite E in Hr.
  destruct Hr as (r & line & h & c & Hs & _ & _ & Hh & Hr). exists r, line, h, c.
  split; [exact Hs|]. split; [exact Hh|]. exact Hr.
Defined.
