(* ===== verification/Pci.v ===== *)
(** * The PCI bus ([kernel/pci.h])

    Configuration space is reached through an address and a data port; the
    devices behind them are a parameter.  [PciHost] states the documented
    behaviour of the host bridge the enumeration relies on: after a write of an
    address to port 0xCF8, a read of port 0xCFC gives the configuration word at
    that address, and neither changes the configuration. *)

From S2P Require Import Prelude Io.

Definition PCI_CONFIG_ADDR : Z := 0xCF8.
Definition PCI_CONFIG_DATA : Z := 0xCFC.
Definition PCI_VENDOR_ID : Z := 0x00.
Definition PCI_DEVICE_ID : Z := 0x02.
Definition PCI_COMMAND : Z := 0x04.
Definition PCI_REVISION_ID : Z := 0x08.
Definition PCI_PROG_IF : Z := 0x09.
Definition PCI_SUBCLASS : Z := 0x0A.
Definition PCI_CLASS : Z := 0x0B.
Definition PCI_HEADER_TYPE : Z := 0x0E.
Definition PCI_BAR0 : Z := 0x10.
Definition PCI_INTERRUPT_LINE : Z := 0x3C.
Definition PCI_INTERRUPT_PIN : Z := 0x3D.
Definition PCI_COMMAND_IO : Z := 0x0001.
Definition PCI_COMMAND_MEMORY : Z := 0x0002.
Definition PCI_COMMAND_MASTER : Z := 0x0004.
Definition PCI_VENDOR_REDHAT : Z := 0x1AF4.
Definition PCI_DEVICE_VIRTIO_NET : Z := 0x1000.
Definition PCI_MAX_DEVICES : Z := 32.

(** [pci_device_t]; an entry of the list is valid once it is written. *)
Record pci_device := PciDevice {
  pd_bus : Z; pd_device : Z; pd_function : Z; vendor_id : Z; device_id : Z;
  class_code : Z; subclass : Z; prog_if : Z; revision : Z;
  interrupt_line : Z; interrupt_pin : Z; bar : list Z
}.

Definition pci_address (bus device func offset : Z) : Z :=
  Z.lor (Z.lor (Z.lor (Z.lor (Z.shiftl 1 31) (u32 (Z.shiftl bus 16)))
                      (u32 (Z.shiftl (Z.land device 0x1F) 11)))
               (u32 (Z.shiftl (Z.land func 0x07) 8)))
        (Z.land offset 0xFC).

Section Pci.
  Context {D : Type} {PD : PortDevice D}.
  Implicit Types s : io D.

Definition pci_read32 (bus device func offset : Z) s : Z * io D :=
  inl PCI_CONFIG_DATA (outl PCI_CONFIG_ADDR (pci_address bus device func offset) s).

Definition pci_read16 (bus device func offset : Z) s : Z * io D :=
  let '(v, s) := inl PCI_CONFIG_DATA (outl PCI_CONFIG_ADDR (pci_address bus device func offset) s) in
  (u16 (Z.shiftr v (Z.land offset 2 * 8)), s).

Definition pci_read8 (bus device func offset : Z) s : Z * io D :=
  let '(v, s) := inl PCI_CONFIG_DATA (outl PCI_CONFIG_ADDR (pci_address bus device func offset) s) in
  (u8 (Z.shiftr v (Z.land offset 3 * 8)), s).

Definition pci_write32 (bus device func offset value : Z) s : io D :=
  outl PCI_CONFIG_DATA value (outl PCI_CONFIG_ADDR (pci_address bus device func offset) s).

Definition pci_write16 (bus device func offset value : Z) s : io D :=
  let s := outl PCI_CONFIG_ADDR (pci_address bus device func offset) s in
  let '(tmp, s) := inl PCI_CONFIG_DATA s in
  let tmp := Z.land tmp (u32 (Z.lnot (Z.shiftl 0xFFFF (Z.land offset 2 * 8)))) in
  let tmp := Z.lor tmp (u32 (Z.shiftl value (Z.land offset 2 * 8))) in
  outl PCI_CONFIG_DATA tmp s.

Definition pci_device_exists (bus device func : Z) s : bool * io D :=
  let '(vendor, s) := pci_read16 bus device func PCI_VENDOR_ID s in
  (negb (vendor =? 0xFFFF), s).

(** [for (i = 0; i < 6; i++) dev->bar[i] = pci_read32(..., PCI_BAR0 + i * 4)] *)
Fixpoint read_bars (n : nat) (i bus device func : Z) s : list Z * io D :=
  match n with
  | O => ([], s)
  | S n' =>
      let '(b, s) := pci_read32 bus device func (u8 (PCI_BAR0 + i * 4)) s in
      let '(bs, s) := read_bars n' (i + 1) bus device func s in (b :: bs, s)
  end.

Definition pci_get_device_info (bus device func : Z) s : pci_device * io D :=
  let '(vendor, s) := pci_read16 bus device func PCI_VENDOR_ID s in
  let '(dev, s) := pci_read16 bus device func PCI_DEVICE_ID s in
  let '(cls, s) := pci_read8 bus device func PCI_CLASS s in
  let '(sub, s) := pci_read8 bus device func PCI_SUBCLASS s in
  let '(prog, s) := pci_read8 bus device func PCI_PROG_IF s in
  let '(rev, s) := pci_read8 bus device func PCI_REVISION_ID s in
  let '(iline, s) := pci_read8 bus device func PCI_INTERRUPT_LINE s in
  let '(ipin, s) := pci_read8 bus device func PCI_INTERRUPT_PIN s in
  let '(bars, s) := read_bars 6 0 bus device func s in
  (PciDevice bus device func vendor dev cls sub prog rev iline ipin bars, s).

(** The loop over the functions of a device; [devs] is the part of
    [pci_devices] that is filled, its length [pci_device_count]. *)
Fixpoint scan_functions (n : nat) (func bus device : Z) (devs : list pci_device) s
  : list pci_device * io D :=
  match n with
  | O => (devs, s)
  | S n' =>
      if negb (zlen devs <? PCI_MAX_DEVICES) then (devs, s)
      else
        let '(skip, s) :=
          if 0 <? func then let '(e, s) := pci_device_exists bus device func s in (negb e, s)
          else (false, s) in
        if skip then scan_functions n' (func + 1) bus device devs s
        else
          let '(d, s) := pci_get_device_info bus device func s in
          scan_functions n' (func + 1) bus device (devs ++ [d]) s
  end.

(** The loop over the devices of a bus. *)
Fixpoint scan_devices (n : nat) (device bus : Z) (devs : list pci_device) s
  : list pci_device * io D :=
  match n with
  | O => (devs, s)
  | S n' =>
      if negb (zlen devs <? PCI_MAX_DEVICES) then (devs, s)
      else
        let '(e, s) := pci_device_exists bus device 0 s in
        if negb e then scan_devices n' (device + 1) bus devs s
        else
          let '(header, s) := pci_read8 bus device 0 PCI_HEADER_TYPE s in
          let max_func := if negb (Z.land header 0x80 =? 0) then 8%nat else 1%nat in
          let '(devs, s) := scan_functions max_func 0 bus device devs s in
          scan_devices n' (device + 1) bus devs s
  end.

(** Bus 0 only; the count returned is the length. *)
Definition pci_enumerate s : list pci_device * io D := scan_devices 32 0 0 [] s.

Definition pci_find_device (vendor dev : Z) (devs : list pci_device) : option nat :=
  fst <$> list_find (fun d => vendor_id d = vendor /\ device_id d = dev) devs.

Definition pci_find_class (cls sub : Z) (devs : list pci_device) : option nat :=
  fst <$> list_find (fun d => class_code d = cls /\ subclass d = sub) devs.

Definition pci_enable_bus_master (dev : pci_device) s : io D :=
  let '(cmd, s) := pci_read16 (pd_bus dev) (pd_device dev) (pd_function dev) PCI_COMMAND s in
  let cmd := Z.lor cmd (Z.lor (Z.lor PCI_COMMAND_MASTER PCI_COMMAND_MEMORY) PCI_COMMAND_IO) in
  pci_write16 (pd_bus dev) (pd_device dev) (pd_function dev) PCI_COMMAND cmd s.

End Pci.

(** [bar[bar_num + 1]] of the last BAR is outside of the array: [None]. *)
Definition pci_get_bar_address (dev : pci_device) (bar_num : Z) : option Z :=
  match bar dev !! Z.to_nat bar_num with
  | None => None
  | Some b =>
      if negb (Z.land b 0x01 =? 0) then Some (Z.land b 0xFFFFFFFC)
      else if Z.land (Z.shiftr b 1) 0x03 =? 0x02 then
        match bar dev !! Z.to_nat (bar_num + 1) with
        | None => None
        | Some hi => Some (Z.lor (Z.land b 0xFFFFFFF0) (u64 (Z.shiftl hi 32)))
        end
      else Some (Z.land b 0xFFFFFFF0)
  end.

(** ** The host bridge *)

Class PciHost (D : Type) {PD : PortDevice D} := {
  (** the configuration word at an address *)
  config : D -> Z -> Z;
  config_select (a : Z) (d : D) :
    0 <= a < 2 ^ 32 ->
    (port_in 32 PCI_CONFIG_DATA (port_out 32 PCI_CONFIG_ADDR a d)).1 = config d a;
  config_stable (a x : Z) (d : D) :
    config (port_in 32 PCI_CONFIG_DATA (port_out 32 PCI_CONFIG_ADDR a d)).2 x = config d x
}.

Section Theorems.
  Context {D : Type} {PD : PortDevice D} {PH : PciHost D}.
  Implicit Types s : io D.

(** A configuration word of a function. *)
Definition cfg32 (d : D) (bus device func offset : Z) : Z :=
  u32 (config d (pci_address bus device func offset)).
Definition cfg16 (d : D) (bus device func offset : Z) : Z :=
  u16 (Z.shiftr (cfg32 d bus device func offset) (Z.land offset 2 * 8)).
Definition cfg8 (d : D) (bus device func offset : Z) : Z :=
  u8 (Z.shiftr (cfg32 d bus device func offset) (Z.land offset 3 * 8)).

(** The same configuration. *)
Definition same_config s s' : Prop := forall a, config (dev s') a = config (dev s) a.

#[local] Instance same_config_preorder : PreOrder same_config.
Proof. split; [done|]. intros s1 s2 s3 H1 H2 a. by rewrite H2, H1. Qed.

Lemma cfg32_same s s' (b d f o : Z) : same_config s s' -> cfg32 (dev s') b d f o = cfg32 (dev s) b d f o.
Proof. intros H. unfold cfg32. by rewrite H. Qed.

Lemma pci_address_range (b d f o : Z) : 0 <= b < 2 ^ 8 -> 0 <= pci_address b d f o < 2 ^ 32.
Proof.
  intros Hb. unfold pci_address. repeat apply lor_range; try lia; try (by apply uwrap_range).
  - by cbn.
  - rewrite Z.land_comm. by apply (land_range 32).
Qed.

(** A read of the configuration, of any width. *)
Lemma config_read (b d f o : Z) s : 0 <= b < 2 ^ 8 ->
  let r := inl PCI_CONFIG_DATA (outl PCI_CONFIG_ADDR (pci_address b d f o) s) in
  r.1 = cfg32 (dev s) b d f o /\ same_config s r.2.
Proof.
  intros Hb. pose proof (pci_address_range b d f o Hb) as Ha.
  unfold inl, outl, port_read, port_write. cbn [dev]. rewrite (uwrap_small 32) by lia.
  pose proof (config_select (pci_address b d f o) (dev s) Ha) as Hs.
  pose proof (fun x => config_stable (pci_address b d f o) x (dev s)) as Hst.
  destruct (port_in _ _ _) as [v d']. cbn [fst snd dev] in *. unfold cfg32. rewrite <- Hs. done.
Qed.

Lemma read32_spec (b d f o : Z) s : 0 <= b < 2 ^ 8 ->
  let r := pci_read32 b d f o s in r.1 = cfg32 (dev s) b d f o /\ same_config s r.2.
Proof. intros Hb. by apply config_read. Qed.

Lemma read16_spec (b d f o : Z) s : 0 <= b < 2 ^ 8 ->
  let r := pci_read16 b d f o s in r.1 = cfg16 (dev s) b d f o /\ same_config s r.2.
Proof.
  intros Hb. unfold pci_read16. pose proof (config_read b d f o s Hb) as [H1 H2].
  destruct (inl _ _) as [v s']. cbn [fst snd] in *. by rewrite H1.
Qed.

Lemma read8_spec (b d f o : Z) s : 0 <= b < 2 ^ 8 ->
  let r := pci_read8 b d f o s in r.1 = cfg8 (dev s) b d f o /\ same_config s r.2.
Proof.
  intros Hb. unfold pci_read8. pose proof (config_read b d f o s Hb) as [H1 H2].
  destruct (inl _ _) as [v s']. cbn [fst snd] in *. by rewrite H1.
Qed.

(** The function is there. *)
Definition present (d : D) (b dv f : Z) : bool := negb (cfg16 d b dv f PCI_VENDOR_ID =? 0xFFFF).

(** What the driver records of a function. *)
Definition info (d : D) (b dv f : Z) : pci_device :=
  PciDevice b dv f (cfg16 d b dv f PCI_VENDOR_ID) (cfg16 d b dv f PCI_DEVICE_ID)
    (cfg8 d b dv f PCI_CLASS) (cfg8 d b dv f PCI_SUBCLASS) (cfg8 d b dv f PCI_PROG_IF)
    (cfg8 d b dv f PCI_REVISION_ID) (cfg8 d b dv f PCI_INTERRUPT_LINE) (cfg8 d b dv f PCI_INTERRUPT_PIN)
    ((fun i => cfg32 d b dv f (u8 (PCI_BAR0 + i * 4))) <$> seqZ 0 6).

(** The functions of a device: function 0, and the others that are present when
    the header says that there are several. *)
Definition functions (d : D) (b dv : Z) : list Z :=
  if present d b dv 0 then
    0 :: (if negb (Z.land (cfg8 d b dv 0 PCI_HEADER_TYPE) 0x80 =? 0)
          then filter (fun f => present d b dv f = true) (seqZ 1 7) else [])
  else [].
(** The functions of bus 0, in order. *)
Definition bus_functions (d : D) : list pci_device :=
  seqZ 0 32 ≫= fun dv => info d 0 dv <$> functions d 0 dv.

Lemma cfg16_same s s' (b d f o : Z) : same_config s s' -> cfg16 (dev s') b d f o = cfg16 (dev s) b d f o.
Proof. intros H. unfold cfg16. by rewrite (cfg32_same s s'). Qed.
Lemma cfg8_same s s' (b d f o : Z) : same_config s s' -> cfg8 (dev s') b d f o = cfg8 (dev s) b d f o.
Proof. intros H. unfold cfg8. by rewrite (cfg32_same s s'). Qed.
Lemma present_same s s' (b d f : Z) : same_config s s' -> present (dev s') b d f = present (dev s) b d f.
Proof. intros H. unfold present. by rewrite (cfg16_same s s'). Qed.
Lemma info_same s s' (b d f : Z) : same_config s s' -> info (dev s') b d f = info (dev s) b d f.
Proof.
  intros H. unfold info. rewrite !(cfg16_same s s'), !(cfg8_same s s') by done. f_equal.
  apply list_fmap_ext. intros i x _. by apply cfg32_same.
Qed.
Lemma functions_same s s' (b d : Z) : same_config s s' -> functions (dev s') b d = functions (dev s) b d.
Proof.
  intros H. unfold functions. rewrite (present_same s s'), (cfg8_same s s') by done.
  destruct (present _ _ _ _); [|done]. f_equal. destruct (negb _); [|done].
  apply list_filter_iff. intros f. by rewrite (present_same s s').
Qed.

(** Runs the next read in the goal; [H : same_config s0 s] follows the state. *)
Ltac pci_step H :=
  match goal with
  | |- context [pci_read16 ?b ?d ?f ?o ?s] =>
      let H1 := fresh in let H2 := fresh in let v := fresh "v" in let s' := fresh "s" in
      pose proof (read16_spec b d f o s ltac:(done)) as [H1 H2];
      try rewrite (cfg16_same _ _ b d f o H) in H1;
      apply (transitivity H) in H2; clear H; rename H2 into H;
      destruct (pci_read16 b d f o s) as [v s']; cbn [fst snd] in H1, H; subst v
  | |- context [pci_read8 ?b ?d ?f ?o ?s] =>
      let H1 := fresh in let H2 := fresh in let v := fresh "v" in let s' := fresh "s" in
      pose proof (read8_spec b d f o s ltac:(done)) as [H1 H2];
      try rewrite (cfg8_same _ _ b d f o H) in H1;
      apply (transitivity H) in H2; clear H; rename H2 into H;
      destruct (pci_read8 b d f o s) as [v s']; cbn [fst snd] in H1, H; subst v
  end.

Lemma read_bars_spec (n : nat) (b d f : Z) : 0 <= b < 2 ^ 8 -> forall (i : Z) s,
  let r := read_bars n i b d f s in
  r.1 = (fun i => cfg32 (dev s) b d f (u8 (PCI_BAR0 + i * 4))) <$> seqZ i (Z.of_nat n)
  /\ same_config s r.2.
Proof.
  intros Hb. induction n as [|n IH]; intros i s; cbn [read_bars]; [done|].
  pose proof (read32_spec b d f (u8 (PCI_BAR0 + i * 4)) s Hb) as [H1 H2].
  destruct (pci_read32 _ _ _ _ _) as [v s1]. cbn [fst snd] in *. subst v.
  destruct (IH (i + 1) s1) as [E Hs]. destruct (read_bars n (i + 1) b d f s1) as [bs s2].
  cbn [fst snd] in *. split; [|by transitivity s1]. rewrite seqZ_cons by lia. rewrite fmap_cons. f_equal.
  rewrite E. replace (Z.succ i) with (i + 1) by lia. replace (Z.pred (Z.of_nat (S n))) with (Z.of_nat n) by lia.
  apply list_fmap_ext. intros j x _. by apply cfg32_same.
Qed.

Lemma get_info_spec (b d f : Z) s : 0 <= b < 2 ^ 8 ->
  let r := pci_get_device_info b d f s in r.1 = info (dev s) b d f /\ same_config s r.2.
Proof.
  intros Hb. unfold pci_get_device_info. assert (H : same_config s s) by done.
  do 8 pci_step H. pose proof (read_bars_spec 6 b d f Hb 0 s7) as [E Hs].
  destruct (read_bars 6 0 b d f s7) as [bs s8]. cbn [fst snd] in *. split; [|by transitivity s7].
  unfold info. f_equal. rewrite E. apply list_fmap_ext. intros i x _. by apply cfg32_same.
Qed.

Lemma exists_spec (b d f : Z) s : 0 <= b < 2 ^ 8 ->
  let r := pci_device_exists b d f s in r.1 = present (dev s) b d f /\ same_config s r.2.
Proof.
  intros Hb. unfold pci_device_exists. assert (H : same_config s s) by done. by pci_step H.
Qed.

Lemma take_take_app {A} (n : nat) (l k : list A) : take n (take n l ++ k) = take n (l ++ k).
Proof.
  destruct (decide (length l <= n)%nat) as [H|H]; [by rewrite (take_ge l)|].
  rewrite (take_app_le l) by lia. apply take_app_length'. rewrite length_take. lia.
Qed.

Lemma scan_functions_spec (n : nat) (b dv : Z) : 0 <= b < 2 ^ 8 -> forall (func : Z) devs s,
  0 <= func -> (length devs <= 32)%nat ->
  let r := scan_functions n func b dv devs s in
  r.1 = take 32 (devs ++ (info (dev s) b dv <$>
           filter (fun f => f = 0 \/ present (dev s) b dv f = true) (seqZ func (Z.of_nat n))))
  /\ same_config s r.2.
Proof.
  intros Hb. induction n as [|n IH]; intros func devs s Hf Hl; cbn [scan_functions].
  { cbn. rewrite app_nil_r. by rewrite take_ge. }
  unfold zlen, PCI_MAX_DEVICES. destruct (Z.ltb_spec (Z.of_nat (length devs)) 32) as [Hlt|Hge]; cbn [negb].
  2:{ split; [|done]. rewrite take_app_le by lia. by rewrite take_ge by lia. }
  rewrite seqZ_cons by lia. replace (Z.pred (Z.of_nat (S n))) with (Z.of_nat n) by lia.
  replace (Z.succ func) with (func + 1) by lia.
  set (skip := if 0 <? func then _ else _).
  assert (Hskip : skip.1 = bool_decide (~ (func = 0 \/ present (dev s) b dv func = true))
                  /\ same_config s skip.2).
  { unfold skip. destruct (Z.ltb_spec 0 func).
    - pose proof (exists_spec b dv func s Hb) as [H1 H2]. destruct (pci_device_exists _ _ _ _) as [e s'].
      cbn [fst snd] in *. subst e. split; [|done]. destruct (present _ _ _ _); case_bool_decide; naive_solver lia.
    - split; [|done]. symmetry. apply bool_decide_eq_false. intros Hn. apply Hn. left. lia. }
  clearbody skip. destruct skip as [sk s1]. cbn [fst snd] in Hskip. destruct Hskip as [-> Hs1].
  assert (Hrest : forall devs, (length devs <= 32)%nat -> forall s', same_config s s' ->
    let r := scan_functions n (func + 1) b dv devs s' in
    r.1 = take 32 (devs ++ (info (dev s) b dv <$>
           filter (fun f => f = 0 \/ present (dev s) b dv f = true) (seqZ (func + 1) (Z.of_nat n))))
    /\ same_config s r.2).
  { intros devs' Hl' s' Hs'. destruct (IH (func + 1) devs' s' ltac:(lia) Hl') as [E Hs2].
    split; [|by transitivity s']. rewrite E. do 2 f_equal.
    rewrite (list_filter_iff _ (fun f => f = 0 \/ present (dev s) b dv f = true))
      by (intros f; by rewrite (present_same s s')).
    apply list_fmap_ext. intros j x _. by apply info_same. }
  case_bool_decide as Hd.
  - rewrite filter_cons_False by done. by apply Hrest.
  - rewrite filter_cons_True by done. rewrite fmap_cons.
    pose proof (get_info_spec b dv func s1 Hb) as [H1 H2].
    destruct (pci_get_device_info b dv func s1) as [i s2]. cbn [fst snd] in *. subst i.
    rewrite (info_same s s1) by done.
    replace (devs ++ info (dev s) b dv func :: (info (dev s) b dv <$> filter
      (fun f => f = 0 \/ present (dev s) b dv f = true) (seqZ (func + 1) (Z.of_nat n))))
      with ((devs ++ [info (dev s) b dv func]) ++ (info (dev s) b dv <$> filter
      (fun f => f = 0 \/ present (dev s) b dv f = true) (seqZ (func + 1) (Z.of_nat n))))
      by (by rewrite <- app_assoc).
    apply Hrest; [rewrite length_app; cbn; lia|]. by transitivity s1.
Qed.

(** The functions a scan of [max_func] functions finds are those of the device. *)
Lemma functions_filter (d : D) (b dv : Z) :
  present d b dv 0 = true ->
  filter (fun f => f = 0 \/ present d b dv f = true)
    (seqZ 0 (Z.of_nat (if negb (Z.land (cfg8 d b dv 0 PCI_HEADER_TYPE) 0x80 =? 0) then 8 else 1)))
  = functions d b dv.
Proof.
  intros Hp. unfold functions. rewrite Hp. destruct (negb _).
  - change (Z.of_nat 8) with 8. rewrite seqZ_cons by lia. rewrite filter_cons_True by auto. f_equal.
    change (Z.succ 0) with 1. change (Z.pred 8) with 7.
    assert (Hf : forall l, Forall (fun f => f <> 0) l ->
      filter (fun f => f = 0 \/ present d b dv f = true) l = filter (fun f => present d b dv f = true) l).
    { induction l as [|f l IH]; intros Hl; [done|]. apply Forall_cons in Hl as [H0 Hl].
      destruct (decide (present d b dv f = true)).
      - rewrite !filter_cons_True by auto. f_equal. by apply IH.
      - rewrite !filter_cons_False by naive_solver. by apply IH. }
    apply Hf, Forall_forall. intros f Hin%elem_of_seqZ. lia.
  - change (Z.of_nat 1) with 1. rewrite seqZ_cons by lia. rewrite filter_cons_True by auto.
    by rewrite seqZ_nil by lia.
Qed.

Lemma scan_devices_spec (n : nat) (b : Z) : 0 <= b < 2 ^ 8 -> forall (device : Z) devs s,
  (length devs <= 32)%nat ->
  let r := scan_devices n device b devs s in
  r.1 = take 32 (devs ++ (seqZ device (Z.of_nat n) ≫= fun dv => info (dev s) b dv <$> functions (dev s) b dv))
  /\ same_config s r.2.
Proof.
  intros Hb. induction n as [|n IH]; intros device devs s Hl; cbn [scan_devices].
  { cbn. rewrite app_nil_r. by rewrite take_ge. }
  unfold zlen, PCI_MAX_DEVICES. destruct (Z.ltb_spec (Z.of_nat (length devs)) 32) as [Hlt|Hge]; cbn [negb].
  2:{ split; [|done]. rewrite take_app_le by lia. by rewrite take_ge by lia. }
  rewrite seqZ_cons by lia. replace (Z.pred (Z.of_nat (S n))) with (Z.of_nat n) by lia.
  replace (Z.succ device) with (device + 1) by lia. set (row := fun dv => _ <$> _).
  change ((device :: ?l) ≫= row) with (row device ++ (l ≫= row)).
  assert (Hrest : forall devs, (length devs <= 32)%nat -> forall s', same_config s s' ->
    let r := scan_devices n (device + 1) b devs s' in
    r.1 = take 32 (devs ++ (seqZ (device + 1) (Z.of_nat n) ≫= row)) /\ same_config s r.2).
  { intros devs' Hl' s' Hs'. destruct (IH (device + 1) devs' s' Hl') as [E Hs2].
    split; [|by transitivity s']. rewrite E. do 2 f_equal. apply list_bind_ext; [|done].
    intros dv. unfold row. rewrite (functions_same s s') by done. apply list_fmap_ext.
    intros j x _. by apply info_same. }
  pose proof (exists_spec b device 0 s Hb) as [H1 H2]. destruct (pci_device_exists b device 0 s) as [e s1].
  cbn [fst snd] in *. subst e. destruct (present (dev s) b device 0) eqn:Ep; cbn [negb].
  - pci_step H2.
    set (mf := if negb (Z.land (cfg8 (dev s) b device 0 PCI_HEADER_TYPE) 128 =? 0) then 8%nat else 1%nat).
    destruct (scan_functions_spec mf b device Hb 0 devs s0 ltac:(lia) Hl) as [Ef Hs].
    destruct (scan_functions mf 0 b device devs s0) as [devs' s2]. cbn [fst snd] in *.
    assert (Ed : devs' = take 32 (devs ++ row device)).
    { rewrite Ef. do 2 f_equal. unfold row. rewrite <- functions_filter by done. fold mf.
      rewrite (list_filter_iff _ (fun f => f = 0 \/ present (dev s) b device f = true))
        by (intros f; by rewrite (present_same s s0)).
      apply list_fmap_ext. intros j x _. by apply info_same. }
    destruct (Hrest devs') with (s' := s2) as [E Hs']; [rewrite Ed, length_take; lia|by transitivity s0|].
    split; [|done]. rewrite E, Ed, take_take_app, <- app_assoc. done.
  - assert (row device = []) as -> by (unfold row, functions; by rewrite Ep). by apply Hrest.
Qed.

(** Enumeration finds the devices: on a host bridge that behaves as
    documented, [pci_enumerate] records, in bus order, the first 32 functions
    present on bus 0 (function 0 of each device, and the other functions of
    multifunction devices), each with the identifiers, class, interrupt and BARs
    its configuration space holds, and leaves the configuration as it was. *)
Theorem pci_enumerate_correct s :
  let '(devs, s') := pci_enumerate s in
  devs = take 32 (bus_functions (dev s)) /\ same_config s s'.
Proof.
  unfold pci_enumerate. pose proof (scan_devices_spec 32 0 ltac:(lia) 0 [] s ltac:(cbn; lia)) as [E H].
  destruct (scan_devices 32 0 0 [] s) as [devs s']. done.
Qed.

End Theorems.

(** ** Example: a bus with one virtio network card in slot 3 *)

Record demo_host := DemoHost { selected : Z; space : gmap Z Z }.
#[export] Instance demo_host_ports : PortDevice demo_host := {
  port_in w port d :=
    (if (w =? 32) && (port =? PCI_CONFIG_DATA)
     then default 0xFFFFFFFF (space d !! selected d) else 0, d);
  port_out w port v d :=
    if (w =? 32) && (port =? PCI_CONFIG_ADDR) then DemoHost v (space d)
    else if (w =? 32) && (port =? PCI_CONFIG_DATA)
    then DemoHost (selected d) (<[selected d := v]> (space d)) else d
}.
#[export] Instance demo_host_pci : PciHost demo_host.
Proof. by refine {| config d a := default 0xFFFFFFFF (space d !! a) |}. Defined.

Definition demo_bus : io demo_host :=
  Io (DemoHost 0 {[ pci_address 0 3 0 0x00 := 0x10001AF4; pci_address 0 3 0 0x08 := 0x02000000;
                    pci_address 0 3 0 0x0C := 0; pci_address 0 3 0 0x10 := 0xC001 ]}) [].

Lemma pci_enumerate_correct_witness :
  (fun d => (pd_device d, vendor_id d, device_id d, zget (bar d) 0)) <$> (pci_enumerate demo_bus).1
  = [(3, PCI_VENDOR_REDHAT, PCI_DEVICE_VIRTIO_NET, 0xC001)].
Proof.
  pose proof (pci_enumerate_correct demo_bus) as H.
  destruct (pci_enumerate demo_bus) as [devs s']. destruct H as [-> _].
  vm_compute. reflexivity.
Defined.
