(* ===== verification/Virtio.v ===== *)
(** * Virtqueues ([kernel/virtio.h], [kernel/virtio_net.h])

    The descriptor table, the available ring and the used ring in byte memory,
    with the driver's operations.  The device at the other end follows the
    virtio protocol: it takes descriptors from the available ring in order and
    returns each one it has taken once through the used ring.  [vq_run] is the
    interleaving of both sides; the invariant accounts for every descriptor. *)

From S2P Require Import Prelude Mem.

Definition VIRTQ_PAGE_SIZE : Z := 4096.

(** [virtqueue_t]; the pointers are addresses.  A descriptor has 16 bytes (addr 0,
    len 8, flags 12, next 14), the rings have flags 0, idx 2 and the ring at 4,
    with entries of 2 bytes (available) and 8 bytes (used: id 0, len 4). *)
Record virtqueue := Virtq {
  size : Z; desc : Z; avail : Z; used : Z; free_head : Z; num_free : Z; last_used_idx : Z
}.

Definition desc_at (vq : virtqueue) (i : Z) : Z := desc vq + 16 * i.
Definition avail_at (vq : virtqueue) (i : Z) : Z := avail vq + 4 + 2 * i.
Definition used_at (vq : virtqueue) (i : Z) : Z := used vq + 4 + 8 * i.

(** [VIRTQ_PAGE_SIZE] is [PAGE_SIZE] of the source.  [x & ~(PAGE_SIZE - 1)] in 64 bits. *)
Definition page_mask (x : Z) : Z := Z.land (u64 x) (u64 (Z.lnot (VIRTQ_PAGE_SIZE - 1))).

Definition virtq_size (qsz : Z) : Z :=
  u32 (page_mask (16 * qsz + 2 * (3 + qsz) + VIRTQ_PAGE_SIZE - 1)
       + page_mask (2 * 3 + 8 * qsz + VIRTQ_PAGE_SIZE - 1)).

Definition virtq_init (sz mem : Z) (m : memory) : virtqueue * memory :=
  let avail_size := u32 (2 * (3 + sz)) in
  let used_offset := u32 (page_mask (16 * sz + avail_size + VIRTQ_PAGE_SIZE - 1)) in
  let vq := Virtq sz mem (mem + 16 * sz) (mem + used_offset) 0 sz 0 in
  let m := for_up (Z.to_nat sz) (fun i => i <? sz - 1)
             (fun i m => wr16 m (desc_at vq i + 14) (i + 1)) 0 m in
  let m := wr16 m (avail vq) 0 in
  let m := wr16 m (avail vq + 2) 0 in
  let m := wr16 m (used vq) 0 in
  let m := wr16 m (used vq + 2) 0 in
  (vq, m).

Definition virtq_add_buffer (vq : virtqueue) (buf len flags : Z) (m : memory) : Z * virtqueue * memory :=
  if num_free vq =? 0 then (-1, vq, m)
  else
    let head := free_head vq in
    let vq := Virtq (size vq) (desc vq) (avail vq) (used vq) (rd16 m (desc_at vq head + 14))
                (u16 (num_free vq - 1)) (last_used_idx vq) in
    let m := wr64 m (desc_at vq head) (u64 buf) in
    let m := wr32 m (desc_at vq head + 8) (u32 len) in
    let m := wr16 m (desc_at vq head + 12) (u16 flags) in
    let m := wr16 m (desc_at vq head + 14) 0 in
    let avail_idx := u16 (Z.land (rd16 m (avail vq + 2)) (size vq - 1)) in
    let m := wr16 m (avail_at vq avail_idx) head in
    let m := wr16 m (avail vq + 2) (u16 (rd16 m (avail vq + 2) + 1)) in
    (head, vq, m).

(** The descriptor, the length stored through [len] (unchanged for -1), the queue. *)
Definition virtq_get_used (vq : virtqueue) (len : Z) (m : memory) : Z * Z * virtqueue * memory :=
  if last_used_idx vq =? rd16 m (used vq + 2) then (-1, len, vq, m)
  else
    let used_idx := u16 (Z.land (last_used_idx vq) (size vq - 1)) in
    let desc_id := rd32 m (used_at vq used_idx) in
    let len := rd32 m (used_at vq used_idx + 4) in
    let m := wr16 m (desc_at vq desc_id + 14) (free_head vq) in
    let vq := Virtq (size vq) (desc vq) (avail vq) (used vq) (u16 desc_id) (u16 (num_free vq + 1))
                (u16 (last_used_idx vq + 1)) in
    (s32 desc_id, len, vq, m).

(** ** The protocol *)

(** The device: how far it has read the available ring, and what it holds. *)
Record vdevice := VDevice { seen : Z; taken : list Z }.

(** The end of the queue's memory. *)
Definition queue_end (vq : virtqueue) : Z := used vq + 6 + 8 * size vq.

Inductive vq_run : virtqueue -> memory -> vdevice -> Prop :=
| run_init (k mem : Z) (m : memory) : 0 <= k <= 15 -> 0 <= mem ->
    vq_run (virtq_init (2 ^ k) mem m).1 (virtq_init (2 ^ k) mem m).2 (VDevice 0 [])
| run_add (vq vq' : virtqueue) (m m' : memory) (d : vdevice) (buf len flags r : Z) :
    vq_run vq m d -> virtq_add_buffer vq buf len flags m = (r, vq', m') -> vq_run vq' m' d
| run_take (vq : virtqueue) (m : memory) (d : vdevice) :
    vq_run vq m d -> seen d <> rd16 m (avail vq + 2) ->
    vq_run vq m (VDevice (u16 (seen d + 1)) (taken d ++ [rd16 m (avail_at vq (seen d mod size vq))]))
| run_complete (vq : virtqueue) (m : memory) (d : vdevice) (l1 l2 : list Z) (id len : Z) :
    vq_run vq m d -> taken d = l1 ++ id :: l2 -> 0 <= len < 2 ^ 32 ->
    let idx := rd16 m (used vq + 2) in
    let m := wr32 m (used_at vq (idx mod size vq)) id in
    let m := wr32 m (used_at vq (idx mod size vq) + 4) len in
    let m := wr16 m (used vq + 2) (u16 (idx + 1)) in
    vq_run vq m (VDevice (seen d) (l1 ++ l2))
| run_get (vq vq' : virtqueue) (m m' : memory) (d : vdevice) (len0 len r : Z) :
    vq_run vq m d -> virtq_get_used vq len0 m = (r, len, vq', m') -> vq_run vq' m' d
| run_other (vq : virtqueue) (m m' : memory) (d : vdevice) :
    vq_run vq m d -> (forall x, desc vq <= x < queue_end vq -> rd8 m' x = rd8 m x) -> vq_run vq m' d.

(** ** The invariant *)

(** The list of free descriptors, linked through [next] from [h]; the link of the
    last one is not used. *)
Fixpoint chain (m : memory) (vq : virtqueue) (l : list Z) (h : Z) : Prop :=
  match l with
  | [] => True
  | i :: l' => h = i /\ chain m vq l' (rd16 m (desc_at vq i + 14))
  end.

(** [fl]: free; [av]: made available and not yet taken; [don]: returned by the
    device with their lengths and not yet collected. *)
Record vq_inv (k : Z) (vq : virtqueue) (m : memory) (d : vdevice)
    (fl av : list Z) (don : list (Z * Z)) : Prop := VqInv {
  vi_size : 0 <= k <= 15 /\ size vq = 2 ^ k;
  vi_layout : desc vq + 16 * size vq <= avail vq /\ avail vq + 6 + 2 * size vq <= used vq;
  vi_perm : fl ++ av ++ taken d ++ (fst <$> don) ≡ₚ seqZ 0 (size vq);
  vi_free : num_free vq = zlen fl /\ chain m vq fl (free_head vq);
  vi_seen : 0 <= seen d < 2 ^ 16;
  vi_avail : rd16 m (avail vq + 2) = u16 (seen d + zlen av);
  vi_ring : forall j i, av !! j = Some i ->
    rd16 m (avail_at vq ((seen d + Z.of_nat j) mod size vq)) = i;
  vi_last : 0 <= last_used_idx vq < 2 ^ 16;
  vi_used : rd16 m (used vq + 2) = u16 (last_used_idx vq + zlen don);
  vi_elems : forall j i len, don !! j = Some (i, len) ->
    rd32 m (used_at vq ((last_used_idx vq + Z.of_nat j) mod size vq)) = i /\
    rd32 m (used_at vq ((last_used_idx vq + Z.of_nat j) mod size vq) + 4) = len
}.

Section Inv.
  Context {k : Z} {vq : virtqueue} {m : memory} {d : vdevice} {fl av : list Z} {don : list (Z * Z)}.
  Context (I : vq_inv k vq m d fl av don).

Lemma inv_size_pos : 1 <= size vq <= 2 ^ 15.
Proof.
  destruct (vi_size _ _ _ _ _ _ _ I) as [Hk ->]. split.
  - change 1 with (2 ^ 0). apply Z.pow_le_mono_r; lia.
  - apply Z.pow_le_mono_r; lia.
Qed.

(** The number of descriptors is the size. *)
Lemma inv_count : zlen fl + zlen av + zlen (taken d) + zlen don = size vq.
Proof.
  pose proof (Permutation_length (vi_perm _ _ _ _ _ _ _ I)) as H.
  rewrite !length_app, length_fmap, length_seqZ in H. pose proof inv_size_pos. unfold zlen. lia.
Qed.

(** Every descriptor in one of the four places is one of the table. *)
Lemma inv_range (i : Z) : i ∈ fl ++ av ++ taken d ++ (fst <$> don) -> 0 <= i < size vq.
Proof. rewrite (vi_perm _ _ _ _ _ _ _ I), elem_of_seqZ. lia. Qed.

(** Masking an index is reducing it modulo the size. *)
Lemma inv_mask (x : Z) : Z.land x (size vq - 1) = x mod size vq.
Proof. destruct (vi_size _ _ _ _ _ _ _ I) as [Hk ->]. apply land_mask. lia. Qed.

Lemma inv_mod (x : Z) : 0 <= x mod size vq < size vq.
Proof. apply Z.mod_pos_bound. pose proof inv_size_pos. lia. Qed.

(** Wrapping to 16 bits does not change an index modulo the size. *)
Lemma inv_wrap (x y : Z) : (u16 x + y) mod size vq = (x + y) mod size vq.
Proof.
  destruct (vi_size _ _ _ _ _ _ _ I) as [Hk ->]. unfold uwrap.
  rewrite (Z.mod_eq x (2 ^ 16)) by lia. replace (2 ^ 16) with (2 ^ (16 - k) * 2 ^ k) at 1
    by (rewrite <- Z.pow_add_r by lia; f_equal; lia).
  replace (x - 2 ^ (16 - k) * 2 ^ k * (x / 2 ^ 16) + y)
    with (x + y + (- (2 ^ (16 - k) * (x / 2 ^ 16))) * 2 ^ k) by lia.
  apply Z.mod_add. apply Z.pow_nonzero; lia.
Qed.

End Inv.

(** Different positions of a window not longer than the ring are different slots. *)
Lemma slot_ne (sz x i j : Z) : 0 < sz -> 0 <= i -> i < j -> j < i + sz -> (x + i) mod sz <> (x + j) mod sz.
Proof.
  intros Hs Hi Hij Hj E. assert (H : (j - i) mod sz = 0).
  { replace (j - i) with ((x + j) - (x + i)) by lia. rewrite Zminus_mod, E, Z.sub_diag.
    by apply Z.mod_0_l; lia. }
  rewrite Z.mod_small in H by lia. lia.
Qed.

Lemma free_chain_ext (m m' : memory) (vq vq' : virtqueue) (l : list Z) : forall h,
  desc vq' = desc vq ->
  (forall i, i ∈ l -> rd16 m' (desc_at vq i + 14) = rd16 m (desc_at vq i + 14)) ->
  chain m vq l h -> chain m' vq' l h.
Proof.
  intros h Hd. revert h. induction l as [|i l IH]; intros h Hm Hc; [done|]. destruct Hc as [-> Hc].
  cbn [chain]. split; [done|]. unfold desc_at at 1. rewrite Hd. fold (desc_at vq i).
  rewrite Hm by (apply elem_of_cons; auto). apply IH; [|done]. intros j Hj. apply Hm, elem_of_cons. auto.
Qed.

Lemma rd16_wr16 (m : memory) (a v : Z) : 0 <= v < 2 ^ 16 -> rd16 (wr16 m a v) a = v.
Proof. intros H. rewrite rdN_wrN_same. by apply Z.mod_small. Qed.

(** Reads after the writes of a step; the slots are variables with their bounds. *)
Ltac vqsimp :=
  unfold desc_at, avail_at, used_at in *;
  repeat first
    [ rewrite rd16_wr16 by lia
    | rewrite rd32_wr32 by lia
    | rewrite rd64_wr64 by lia
    | rewrite rdN_wrN_disj by lia ].

(** What the descriptor table holds. *)
Definition desc_holds (vq : virtqueue) (m : memory) (i buf len flags : Z) : Prop :=
  rd64 m (desc_at vq i) = u64 buf /\ rd32 m (desc_at vq i + 8) = u32 len /\
  rd16 m (desc_at vq i + 12) = u16 flags.

(** A 16-bit ring index moved by less than its period has changed. *)
Lemma index_moved (i n : Z) : 0 <= i < 2 ^ 16 -> 0 < n < 2 ^ 16 -> u16 (i + n) <> i.
Proof.
  intros Hi Hn E. unfold uwrap in E. apply (f_equal (fun x => (x - i) mod 2 ^ 16)) in E.
  rewrite Z.sub_diag, Zminus_mod_idemp_l in E. replace (i + n - i) with n in E by lia.
  rewrite !Z.mod_small in E by lia. lia.
Qed.

(** Incrementing a 16-bit ring index. *)
Lemma index_succ (i n : Z) : u16 (u16 (i + n) + 1) = u16 (i + (n + 1)).
Proof. unfold uwrap. rewrite Zplus_mod_idemp_l. f_equal. lia. Qed.

(** The memory after the driver has made descriptor [i] available. *)
Definition add_writes (vq : virtqueue) (i buf len flags slot idx : Z) (m : memory) : memory :=
  let m := wr64 m (desc vq + 16 * i) (u64 buf) in
  let m := wr32 m (desc vq + 16 * i + 8) (u32 len) in
  let m := wr16 m (desc vq + 16 * i + 12) (u16 flags) in
  let m := wr16 m (desc vq + 16 * i + 14) 0 in
  let m := wr16 m (avail vq + 4 + 2 * slot) i in
  wr16 m (avail vq + 2) idx.

Lemma add_writes_spec (vq : virtqueue) (i buf len flags slot idx : Z) (m : memory) :
  desc vq + 16 * size vq <= avail vq -> avail vq + 6 + 2 * size vq <= used vq ->
  size vq <= 2 ^ 15 -> 0 <= i < size vq -> 0 <= slot < size vq -> 0 <= idx < 2 ^ 16 ->
  let m' := add_writes vq i buf len flags slot idx m in
  (forall j, 0 <= j < size vq -> j <> i -> rd16 m' (desc_at vq j + 14) = rd16 m (desc_at vq j + 14)) /\
  rd16 m' (avail vq + 2) = idx /\ rd16 m' (avail_at vq slot) = i /\
  (forall j, 0 <= j < size vq -> j <> slot -> rd16 m' (avail_at vq j) = rd16 m (avail_at vq j)) /\
  (forall n x, used vq <= x -> rdN n m' x = rdN n m x) /\
  desc_holds vq m' i buf len flags.
Proof.
  intros Hl1 Hl2 Hs Hi Hsl Hx. unfold desc_holds, add_writes. cbv zeta.
  assert (Hb := uwrap_range 64 buf ltac:(lia)). assert (Hln := uwrap_range 32 len ltac:(lia)).
  assert (Hf := uwrap_range 16 flags ltac:(lia)).
  split_and!.
  - intros j Hj Hne. by vqsimp.
  - by vqsimp.
  - by vqsimp.
  - intros j Hj Hne. by vqsimp.
  - intros n x Hux. by vqsimp.
  - by vqsimp.
  - by vqsimp.
  - by vqsimp.
Qed.

Lemma add_inv (k : Z) (vq : virtqueue) (m : memory) (d : vdevice) (fl av : list Z) (don : list (Z * Z))
    (buf len flags : Z) :
  vq_inv k vq m d fl av don ->
  match fl with
  | [] => virtq_add_buffer vq buf len flags m = (-1, vq, m)
  | i :: fl' => exists vq' m', virtq_add_buffer vq buf len flags m = (i, vq', m') /\
      vq_inv k vq' m' d fl' (av ++ [i]) don /\ desc_holds vq' m' i buf len flags
  end.
Proof.
  intros I. pose proof (inv_size_pos I) as Hs. pose proof (inv_count I) as Hc.
  pose proof (inv_range I) as Hr. pose proof (inv_mask I) as Hmask. pose proof (inv_mod I) as Hmod.
  pose proof (inv_wrap I) as Hwrap. unfold virtq_add_buffer.
  destruct (vi_free _ _ _ _ _ _ _ I) as [Hn Hch]. rewrite Hn.
  destruct fl as [|i fl]; [done|].
  assert (Hz : zlen (i :: fl) = zlen fl + 1) by (unfold zlen; cbn [length]; lia).
  assert (0 <= zlen fl /\ 0 <= zlen av /\ 0 <= zlen (taken d) /\ 0 <= zlen don) by (unfold zlen; lia).
  rewrite (proj2 (Z.eqb_neq _ 0)) by lia. destruct Hch as [-> Hch].
  assert (Hi : 0 <= i < size vq) by (apply Hr, elem_of_cons; auto).
  assert (Hnd : NoDup (i :: fl)).
  { pose proof (NoDup_seqZ 0 (size vq)) as N. rewrite <- (vi_perm _ _ _ _ _ _ _ I) in N.
    by apply NoDup_app in N as [N _]. }
  apply NoDup_cons in Hnd as [Hni _].
  destruct I as [[Hk Hsz] Hlay Hperm _ Hseen Hav Hring Hlast Hus Hel].
  unfold desc_at, avail_at. cbn [size desc avail used free_head num_free last_used_idx].
  assert (Hidx : forall m', m' = wr16 (wr16 (wr32 (wr64 m (desc vq + 16 * i) (u64 buf))
      (desc vq + 16 * i + 8) (u32 len)) (desc vq + 16 * i + 12) (u16 flags)) (desc vq + 16 * i + 14) 0 ->
    rd16 m' (avail vq + 2) = u16 (seen d + zlen av)).
  { intros m' ->. rewrite !rdN_wrN_disj by lia. done. }
  rewrite (Hidx _ eq_refl), Hmask.
  set (slot := u16 (u16 (seen d + zlen av) mod size vq)).
  assert (Hslot : slot = (seen d + zlen av) mod size vq).
  { unfold slot. pose proof (Hwrap (seen d + zlen av) 0) as Hw. rewrite !Z.add_0_r in Hw. rewrite Hw.
    apply uwrap_small. pose proof (Hmod (seen d + zlen av)). lia. }
  clearbody slot. pose proof (Hmod (seen d + zlen av)) as Hms. rewrite <- Hslot in Hms.
  rewrite rdN_wrN_disj by lia. rewrite (Hidx _ eq_refl).
  set (idx := u16 (u16 (seen d + zlen av) + 1)).
  assert (Hidx16 : idx = u16 (seen d + (zlen av + 1))) by apply index_succ.
  assert (Hidxr : 0 <= idx < 2 ^ 16) by (apply uwrap_range; lia). clearbody idx.
  destruct (add_writes_spec vq i buf len flags slot idx m) as (F1 & F2 & F3 & F4 & F5 & F6); [lia..|].
  fold (add_writes vq i buf len flags slot idx m). set (m' := add_writes _ _ _ _ _ _ _ m) in *.
  eexists _, _. split; [reflexivity|]. split; [|exact F6].
  assert (Hav1 : zlen (av ++ [i]) = zlen av + 1) by (unfold zlen; rewrite length_app; cbn [length]; lia).
  split; cbn [size desc avail used free_head num_free last_used_idx].
  - done.
  - done.
  - rewrite <- Hperm. rewrite <- app_assoc. cbn [app]. rewrite !(app_assoc fl av).
    symmetry. apply Permutation_middle.
  - split; [rewrite uwrap_small by lia; lia|]. apply (free_chain_ext m _ vq); [done| |done].
    intros j Hj. apply F1; [apply Hr, elem_of_cons; right; apply elem_of_app; auto|by intros ->].
  - done.
  - rewrite Hav1, F2. done.
  - intros j x Hj. apply lookup_app_Some in Hj as [Hj|[Hge Hj]].
    + pose proof (lookup_lt_Some _ _ _ Hj). unfold avail_at. cbn [avail]. fold (avail_at vq ((seen d + Z.of_nat j) mod size vq)).
      rewrite F4; [by apply Hring|apply Hmod|]. rewrite Hslot. apply slot_ne; unfold zlen in *; lia.
    + destruct (j - length av)%nat eqn:Ej; [|done]. injection Hj as <-.
      unfold avail_at. cbn [avail]. replace (seen d + Z.of_nat j) with (seen d + zlen av) by (unfold zlen; lia).
      rewrite <- Hslot. exact F3.
  - done.
  - rewrite F5 by lia. done.
  - intros j x ln Hj. unfold used_at. cbn [used].
    pose proof (Hmod (last_used_idx vq + Z.of_nat j)). rewrite !F5 by lia. by apply (Hel j).
Qed.

(** The queue stays where it is, and the driver writes only to its two parts of it. *)
Lemma add_frame (k : Z) (vq vq' : virtqueue) (m m' : memory) (d : vdevice) (fl av : list Z) (don : list (Z * Z))
    (buf len flags r : Z) :
  vq_inv k vq m d fl av don -> virtq_add_buffer vq buf len flags m = (r, vq', m') ->
  size vq' = size vq /\ desc vq' = desc vq /\ avail vq' = avail vq /\ used vq' = used vq /\
  forall x, x < desc vq \/ used vq <= x -> rd8 m' x = rd8 m x.
Proof.
  intros I. pose proof (inv_size_pos I) as Hs. pose proof (inv_mod I) as Hmod.
  pose proof (inv_mask I) as Hmask. destruct (vi_layout _ _ _ _ _ _ _ I) as [Hl1 Hl2].
  unfold virtq_add_buffer. destruct (Z.eqb_spec (num_free vq) 0) as [|Hnf].
  { intros [= <- <- <-]. done. }
  assert (Hh : 0 <= free_head vq < size vq).
  { destruct (vi_free _ _ _ _ _ _ _ I) as [Hn Hch]. destruct fl as [|i fl]; [done|].
    destruct Hch as [-> _]. apply (inv_range I), elem_of_cons. auto. }
  cbn [size desc avail used]. rewrite Hmask. set (slot := u16 (_ mod size vq)).
  assert (Hslot : 0 <= slot < size vq).
  { unfold slot. match goal with |- context [?y mod size vq] => pose proof (Hmod y) end.
    rewrite uwrap_small by lia. done. }
  clearbody slot. unfold desc_at, avail_at. cbn [desc avail]. intros [= <- <- <-]. cbn [size desc avail used].
  split_and!; try done. intros x Hx. by rewrite !rd8_wrN_out by lia.
Qed.

Lemma perm_take (i : Z) (av tk dn : list Z) : (i :: av) ++ tk ++ dn ≡ₚ av ++ (tk ++ [i]) ++ dn.
Proof. rewrite <- app_assoc. cbn [app]. rewrite !app_assoc. apply Permutation_middle. Qed.

Lemma perm_complete (i : Z) (l1 l2 dn : list Z) : (l1 ++ i :: l2) ++ dn ≡ₚ (l1 ++ l2) ++ dn ++ [i].
Proof.
  rewrite <- app_assoc. cbn [app]. rewrite <- Permutation_middle, app_assoc.
  rewrite (app_assoc (l1 ++ l2)). apply Permutation_cons_append.
Qed.

Lemma take_inv (k : Z) (vq : virtqueue) (m : memory) (d : vdevice) (fl av : list Z) (don : list (Z * Z)) :
  vq_inv k vq m d fl av don -> seen d <> rd16 m (avail vq + 2) ->
  exists av', vq_inv k vq m
    (VDevice (u16 (seen d + 1)) (taken d ++ [rd16 m (avail_at vq (seen d mod size vq))])) fl av' don.
Proof.
  intros I Hne. pose proof (inv_wrap I) as Hwrap.
  destruct I as [Hsz Hlay Hperm Hfree Hseen Hav Hring Hlast Hus Hel].
  destruct av as [|i av].
  { exfalso. apply Hne. rewrite Hav. unfold zlen. cbn [length]. rewrite uwrap_small; lia. }
  exists av. assert (Hz : zlen (i :: av) = zlen av + 1) by (unfold zlen; cbn [length]; lia).
  pose proof (Hring 0%nat i eq_refl) as H0. change (Z.of_nat 0) with 0 in H0. rewrite Z.add_0_r in H0.
  rewrite H0. split; cbn [seen taken]; try done.
  - rewrite <- Hperm. apply Permutation_app_head. symmetry. apply perm_take.
  - by apply uwrap_range.
  - rewrite Hav, Hz. unfold uwrap. rewrite Zplus_mod_idemp_l. f_equal. lia.
  - intros j x Hj. rewrite Hwrap. rewrite <- (Hring (S j) x Hj). do 3 f_equal. lia.
Qed.

(** The memory after the device has returned descriptor [id]. *)
Definition complete_writes (vq : virtqueue) (id len slot idx : Z) (m : memory) : memory :=
  let m := wr32 m (used_at vq slot) id in
  let m := wr32 m (used_at vq slot + 4) len in
  wr16 m (used vq + 2) idx.

Lemma complete_writes_spec (vq : virtqueue) (id len slot idx : Z) (m : memory) :
  desc vq + 16 * size vq <= avail vq -> avail vq + 6 + 2 * size vq <= used vq ->
  0 <= id < 2 ^ 32 -> 0 <= len < 2 ^ 32 -> 0 <= slot < size vq -> 0 <= idx < 2 ^ 16 ->
  let m' := complete_writes vq id len slot idx m in
  (forall n x, x + Z.of_nat n <= used vq -> rdN n m' x = rdN n m x) /\
  rd16 m' (used vq + 2) = idx /\ rd32 m' (used_at vq slot) = id /\ rd32 m' (used_at vq slot + 4) = len /\
  forall j, 0 <= j < size vq -> j <> slot ->
    rd32 m' (used_at vq j) = rd32 m (used_at vq j) /\ rd32 m' (used_at vq j + 4) = rd32 m (used_at vq j + 4).
Proof.
  intros Hl1 Hl2 Hi Hl Hs Hx. unfold complete_writes. cbv zeta. split_and!.
  - intros n x Hn. by vqsimp.
  - by vqsimp.
  - by vqsimp.
  - by vqsimp.
  - intros j Hj Hne. split; by vqsimp.
Qed.

Lemma complete_inv (k : Z) (vq : virtqueue) (m : memory) (d : vdevice) (fl av : list Z) (don : list (Z * Z))
    (l1 l2 : list Z) (id len : Z) :
  vq_inv k vq m d fl av don -> taken d = l1 ++ id :: l2 -> 0 <= len < 2 ^ 32 ->
  let idx := rd16 m (used vq + 2) in
  vq_inv k vq (complete_writes vq id len (idx mod size vq) (u16 (idx + 1)) m)
    (VDevice (seen d) (l1 ++ l2)) fl av (don ++ [(id, len)]).
Proof.
  intros I Ht Hlen. pose proof (inv_size_pos I) as Hs. pose proof (inv_count I) as Hc.
  pose proof (inv_range I) as Hr. pose proof (inv_mod I) as Hmod. pose proof (inv_wrap I) as Hwrap.
  destruct I as [Hsz [Hl1 Hl2] Hperm [Hn Hch] Hseen Hav Hring Hlast Hus Hel]. cbv zeta. rewrite Hus.
  assert (Hid : 0 <= id < size vq).
  { apply Hr. rewrite Ht, !elem_of_app, elem_of_cons. tauto. }
  pose proof (Hwrap (last_used_idx vq + zlen don) 0) as Hw. rewrite !Z.add_0_r in Hw. rewrite Hw.
  set (slot := (last_used_idx vq + zlen don) mod size vq). pose proof (Hmod (last_used_idx vq + zlen don)) as Hms.
  fold slot in Hms. set (idx := u16 (u16 _ + 1)).
  assert (Hi : 0 <= idx < 2 ^ 16) by (apply uwrap_range; lia).
  destruct (complete_writes_spec vq id len slot idx m) as (F1 & F2 & F3 & F4 & F5); [lia..|].
  set (m' := complete_writes vq id len slot idx m) in *.
  assert (Hdon : zlen (don ++ [(id, len)]) = zlen don + 1) by (unfold zlen; rewrite length_app; cbn [length]; lia).
  assert (Htk : zlen (taken d) = zlen l1 + zlen l2 + 1)
    by (rewrite Ht; unfold zlen; rewrite length_app; cbn [length]; lia).
  assert (0 <= zlen l1 /\ 0 <= zlen l2 /\ 0 <= zlen fl /\ 0 <= zlen av /\ 0 <= zlen don) by (unfold zlen; lia).
  split; cbn [seen taken]; try done.
  - rewrite fmap_app. cbn [fmap list_fmap fst]. rewrite <- Hperm, Ht.
    do 2 apply Permutation_app_head. symmetry. apply perm_complete.
  - split; [done|]. apply (free_chain_ext m _ vq); [done| |done]. intros j Hj. apply F1.
    assert (0 <= j < size vq) by (apply Hr, elem_of_app; auto). unfold desc_at. lia.
  - rewrite F1 by lia. done.
  - intros j x Hj. pose proof (Hmod (seen d + Z.of_nat j)). rewrite F1 by (unfold avail_at; lia). by apply Hring.
  - rewrite F2, Hdon. unfold idx, uwrap. rewrite Zplus_mod_idemp_l. f_equal. lia.
  - intros j x ln Hj. apply lookup_app_Some in Hj as [Hj|[Hge Hj]].
    + pose proof (lookup_lt_Some _ _ _ Hj).
      destruct (F5 _ (Hmod (last_used_idx vq + Z.of_nat j))) as [-> ->]; [|by apply Hel].
      apply slot_ne; unfold zlen in *; lia.
    + destruct (j - length don)%nat eqn:Ej; [|done]. injection Hj as <- <-.
      replace (last_used_idx vq + Z.of_nat j) with (last_used_idx vq + zlen don) by (unfold zlen; lia).
      by fold slot.
Qed.

Lemma get_inv (k : Z) (vq : virtqueue) (m : memory) (d : vdevice) (fl av : list Z) (don : list (Z * Z))
    (len0 : Z) :
  vq_inv k vq m d fl av don ->
  match don with
  | [] => virtq_get_used vq len0 m = (-1, len0, vq, m)
  | (id, len) :: don' => exists vq' m', virtq_get_used vq len0 m = (id, len, vq', m') /\
      vq_inv k vq' m' d (id :: fl) av don'
  end.
Proof.
  intros I. pose proof (inv_size_pos I) as Hs. pose proof (inv_count I) as Hc.
  pose proof (inv_range I) as Hr. pose proof (inv_mask I) as Hmask. pose proof (inv_mod I) as Hmod.
  pose proof (inv_wrap I) as Hwrap.
  assert (Hnd : NoDup (fl ++ av ++ taken d ++ (fst <$> don)))
    by (rewrite (vi_perm _ _ _ _ _ _ _ I); apply NoDup_seqZ).
  destruct I as [Hsz [Hl1 Hl2] Hperm [Hn Hch] Hseen Hav Hring Hlast Hus Hel]. unfold virtq_get_used.
  assert (0 <= zlen fl /\ 0 <= zlen av /\ 0 <= zlen (taken d)) by (unfold zlen; lia).
  rewrite Hus. destruct don as [|[id len] don].
  { unfold zlen. cbn [length]. rewrite uwrap_small, Z.add_0_r, Z.eqb_refl by lia. done. }
  assert (Hz : zlen ((id, len) :: don) = zlen don + 1) by (unfold zlen; cbn [length]; lia).
  assert (0 <= zlen don) by (unfold zlen; lia).
  rewrite (proj2 (Z.eqb_neq _ _)).
  2: { rewrite Hz. intros E. symmetry in E. revert E. apply index_moved; lia. }
  rewrite Hmask. pose proof (Hmod (last_used_idx vq)) as Hm0. rewrite (uwrap_small 16 (_ mod _)) by lia.
  destruct (Hel 0%nat id len eq_refl) as [E1 E2]. change (Z.of_nat 0) with 0 in E1, E2.
  rewrite Z.add_0_r in E1, E2. rewrite E1, E2.
  assert (Hid : 0 <= id < size vq).
  { apply Hr. rewrite !elem_of_app. cbn. rewrite elem_of_cons. auto. }
  assert (Hnf : (id ∉ fl)).
  { apply NoDup_app in Hnd as (_ & Hd & _). intros Hin. apply (Hd id Hin).
    rewrite !elem_of_app. cbn. rewrite elem_of_cons. auto. }
  rewrite s32_small, (uwrap_small 16 id) by lia.
  eexists _, _. split; [reflexivity|].
  split; cbn [size desc avail used free_head num_free last_used_idx]; try done.
  - rewrite <- Hperm. cbn [fmap list_fmap fst app]. rewrite !(app_assoc fl), !(app_assoc _ (taken d)).
    apply Permutation_middle.
  - split; [rewrite Hn, uwrap_small by lia; unfold zlen; cbn [length]; lia|]. cbn [chain]. split; [done|].
    destruct fl as [|f fl]; [done|]. assert (Hf : free_head vq = f) by apply Hch.
    assert (Hfr : 0 <= f < size vq) by (apply Hr, elem_of_cons; auto).
    unfold desc_at at 1. cbn [desc]. unfold desc_at at 1. rewrite rd16_wr16 by lia.
    apply (free_chain_ext m _ vq); [done| |done]. intros j Hj.
    assert (j <> id) by (by intros ->).
    assert (0 <= j < size vq) by (apply Hr, elem_of_app; auto).
    by vqsimp.
  - unfold desc_at. rewrite rdN_wrN_disj by lia. done.
  - intros j x Hj. pose proof (Hmod (seen d + Z.of_nat j)). unfold desc_at, avail_at. cbn [avail].
    rewrite rdN_wrN_disj by lia. by apply (Hring j).
  - by apply uwrap_range.
  - unfold desc_at. rewrite rdN_wrN_disj by lia. rewrite Hus, Hz. unfold uwrap.
    rewrite Zplus_mod_idemp_l. f_equal. lia.
  - intros j x ln Hj. rewrite Hwrap. replace (last_used_idx vq + 1 + Z.of_nat j)
      with (last_used_idx vq + Z.of_nat (S j)) by lia.
    pose proof (Hmod (last_used_idx vq + Z.of_nat (S j))). unfold desc_at, used_at. cbn [used].
    rewrite !rdN_wrN_disj by lia. by apply (Hel (S j)).
Qed.

Lemma get_frame (k : Z) (vq vq' : virtqueue) (m m' : memory) (d : vdevice) (fl av : list Z) (don : list (Z * Z))
    (len0 r len : Z) :
  vq_inv k vq m d fl av don -> virtq_get_used vq len0 m = (r, len, vq', m') ->
  size vq' = size vq /\ desc vq' = desc vq /\ avail vq' = avail vq /\ used vq' = used vq /\
  forall x, x < desc vq \/ avail vq <= x -> rd8 m' x = rd8 m x.
Proof.
  intros I. pose proof (get_inv k vq m d fl av don len0 I) as Hg. pose proof (inv_range I) as Hr.
  destruct (vi_layout _ _ _ _ _ _ _ I) as [Hl1 Hl2]. revert Hg. unfold virtq_get_used.
  destruct don as [|[id ln] don]; [intros E; rewrite E; by intros [= <- <- <- <-]|]. intros (vq1 & m1 & E & _). revert E.
  destruct (Z.eqb_spec (last_used_idx vq) (rd16 m (used vq + 2))).
  { intros [= E1 <- <- <-]. by intros [= <- <- <- <-]. }
  set (a := rd32 m (used_at vq (u16 _))).
  intros [= E1 _ _ _] [= <- <- <- <-]. cbn [size desc avail used]. split_and!; try done.
  assert (Hid : 0 <= id < size vq) by (apply Hr; rewrite !elem_of_app; cbn; rewrite elem_of_cons; auto).
  assert (Ha : a = id).
  { pose proof (inv_size_pos I). pose proof (rdN_range 4 m (used_at vq (u16 (Z.land (last_used_idx vq) (size vq - 1))))) as Hra.
    fold a in Hra. change (8 * Z.of_nat 4) with 32 in Hra. unfold s32 in E1. dlia. }
  intros x Hx. unfold desc_at. rewrite rd8_wrN_out by lia. done.
Qed.

Lemma other_inv (k : Z) (vq : virtqueue) (m m' : memory) (d : vdevice) (fl av : list Z) (don : list (Z * Z)) :
  vq_inv k vq m d fl av don -> (forall x, desc vq <= x < queue_end vq -> rd8 m' x = rd8 m x) ->
  vq_inv k vq m' d fl av don.
Proof.
  intros I Hx. pose proof (inv_size_pos I) as Hs. pose proof (inv_range I) as Hr. pose proof (inv_mod I) as Hmod.
  destruct I as [Hsz [Hl1 Hl2] Hperm [Hn Hch] Hseen Hav Hring Hlast Hus Hel]. unfold queue_end in Hx.
  assert (Hrd : forall n a, desc vq <= a -> a + Z.of_nat n <= used vq + 6 + 8 * size vq -> rdN n m' a = rdN n m a).
  { intros n a Ha Hb. apply rdN_ext. intros x Hxx. apply Hx. lia. }
  split; try done.
  - split; [done|]. apply (free_chain_ext m _ vq); [done| |done]. intros j Hj. apply Hrd; unfold desc_at.
    + assert (0 <= j < size vq) by (apply Hr, elem_of_app; auto). lia.
    + assert (0 <= j < size vq) by (apply Hr, elem_of_app; auto). lia.
  - rewrite Hrd by lia. done.
  - intros j x Hj. pose proof (Hmod (seen d + Z.of_nat j)). rewrite Hrd by (unfold avail_at; lia). by apply Hring.
  - rewrite Hrd by lia. done.
  - intros j x ln Hj. pose proof (Hmod (last_used_idx vq + Z.of_nat j)).
    rewrite !Hrd by (unfold used_at; lia). by apply Hel.
Qed.

(** ** Initialisation *)

Lemma page_mask_value (x : Z) : 0 <= x < 2 ^ 64 -> page_mask x = x / 4096 * 4096.
Proof.
  intros Hx. unfold page_mask. rewrite (uwrap_small 64 x) by lia.
  exact (land_align_down 12 x ltac:(lia) Hx).
Qed.

Lemma init_links (a : Z) (n : nat) (m : memory) (i : Z) :
  Z.of_nat n <= 2 ^ 15 -> 0 <= i < Z.of_nat n ->
  rd16 (foldl (fun m i => wr16 m (a + 16 * i + 14) (i + 1)) m (seqZ 0 (Z.of_nat n))) (a + 16 * i + 14) = i + 1.
Proof.
  induction n as [|n IH]; intros Hn Hi; [lia|].
  replace (Z.of_nat (S n)) with (Z.of_nat n + 1) in * by lia. rewrite seqZ_app by lia.
  rewrite Z.add_0_l, (seqZ_cons _ 1), (seqZ_nil (Z.succ _)), foldl_app by lia. cbn [foldl].
  destruct (decide (i = Z.of_nat n)) as [->|Hne].
  - by rewrite rd16_wr16 by lia.
  - rewrite rdN_wrN_disj by lia. apply IH; lia.
Qed.

Lemma chain_seq (m : memory) (vq : virtqueue) (n : nat) : forall i,
  (forall j, i <= j < i + Z.of_nat n - 1 -> rd16 m (desc_at vq j + 14) = j + 1) ->
  chain m vq (seqZ i (Z.of_nat n)) i.
Proof.
  induction n as [|n IH]; intros i Hl; [done|]. rewrite seqZ_cons by lia. cbn [chain]. split; [done|].
  replace (Z.pred (Z.of_nat (S n))) with (Z.of_nat n) by lia. destruct n as [|n]; [done|].
  rewrite Hl by lia. replace (Z.succ i) with (i + 1) by lia. apply IH. intros j Hj. apply Hl. lia.
Qed.

Lemma init_inv (k mem : Z) (m : memory) :
  0 <= k <= 15 -> 0 <= mem ->
  vq_inv k (virtq_init (2 ^ k) mem m).1 (virtq_init (2 ^ k) mem m).2 (VDevice 0 []) (seqZ 0 (2 ^ k)) [] [].
Proof.
  intros Hk Hm. assert (Hsz : 1 <= 2 ^ k <= 2 ^ 15).
  { split; [change 1 with (2 ^ 0)|]; apply Z.pow_le_mono_r; lia. }
  set (sz := 2 ^ k) in *. unfold virtq_init. cbn [fst snd].
  rewrite (uwrap_small 32 (2 * (3 + sz))) by lia. unfold VIRTQ_PAGE_SIZE.
  rewrite page_mask_value by lia. set (off := (16 * sz + 2 * (3 + sz) + 4096 - 1) / 4096 * 4096).
  assert (Hoff : 18 * sz + 6 <= off < 2 ^ 32) by (unfold off; dlia). clearbody off.
  rewrite (uwrap_small 32 off) by lia.
  rewrite (for_up_range _ _ _ (sz - 1)) by (done || lia). unfold desc_at. cbn [desc avail used].
  rewrite Z.sub_0_r. pose proof (init_links mem (Z.to_nat (sz - 1)) m) as Hlinks.
  rewrite Z2Nat.id in Hlinks by lia.
  set (m1 := foldl _ m (seqZ 0 (sz - 1))) in *.
  split; cbn [size desc avail used free_head num_free last_used_idx seen taken]; try done.
  - lia.
  - cbn. by rewrite app_nil_r.
  - split; [unfold zlen; rewrite length_seqZ; lia|]. replace (seqZ 0 sz) with (seqZ 0 (Z.of_nat (Z.to_nat sz))) by (f_equal; lia).
    apply chain_seq. intros j Hj. unfold desc_at. cbn [desc].
    rewrite !rdN_wrN_disj by lia. apply Hlinks; lia.
  - rewrite !rdN_wrN_disj by lia. by rewrite rd16_wr16.
  - by rewrite rd16_wr16.
Qed.

(** C9: Descriptors are never lost or used twice: in every interleaving of the
    driver and a device that follows the protocol, each of the descriptors is in
    exactly one place (free, available, held by the device, returned), the free
    ones are those linked from [free_head] and counted by [num_free];
    [virtq_add_buffer] takes the first of them and describes the buffer in it,
    or answers -1 when there is none, and [virtq_get_used] gives back what the
    device returned, in order, or -1 when there is nothing. *)
Theorem virtqueue_conserves (vq : virtqueue) (m : memory) (d : vdevice) :
  vq_run vq m d ->
  exists k fl av don, vq_inv k vq m d fl av don /\
  (forall buf len flags, match fl with
     | [] => virtq_add_buffer vq buf len flags m = (-1, vq, m)
     | i :: _ => exists vq' m', virtq_add_buffer vq buf len flags m = (i, vq', m')
                                /\ desc_holds vq' m' i buf len flags
     end) /\
  (forall len0, match don with
     | [] => virtq_get_used vq len0 m = (-1, len0, vq, m)
     | (id, len) :: _ => exists vq' m', virtq_get_used vq len0 m = (id, len, vq', m')
     end).
Proof.
  intros Hrun. assert (HI : exists k fl av don, vq_inv k vq m d fl av don).
  { induction Hrun as [k mem m Hk Hm|vq vq' m m' d buf len flags r _ (k & fl & av & don & I) E
      |vq m d _ (k & fl & av & don & I) Hne|vq m d l1 l2 id len _ (k & fl & av & don & I) Ht Hl
      |vq vq' m m' d len0 len r _ (k & fl & av & don & I) E|vq m m' d _ (k & fl & av & don & I) Hx].
    - do 4 eexists. by apply init_inv.
    - pose proof (add_inv k vq m d fl av don buf len flags I) as Ha. rewrite E in Ha.
      destruct fl as [|i fl]; [injection Ha as -> -> ->; by do 4 eexists|].
      destruct Ha as (vq1 & m1 & E1 & I1 & _). injection E1 as -> -> ->. by do 4 eexists.
    - destruct (take_inv k vq m d fl av don I Hne) as (av' & I'). by do 4 eexists.
    - do 4 eexists. apply (complete_inv k vq m d fl av don l1 l2 id len I Ht Hl).
    - pose proof (get_inv k vq m d fl av don len0 I) as Hg. rewrite E in Hg.
      destruct don as [|[id ln] don]; [injection Hg as -> -> -> ->; by do 4 eexists|].
      destruct Hg as (vq1 & m1 & E1 & I1). injection E1 as -> -> -> ->. by do 4 eexists.
    - do 4 eexists. by apply (other_inv k vq m m' d fl av don). }
  destruct HI as (k & fl & av & don & I). exists k, fl, av, don. split; [done|]. split.
  - intros buf len flags. pose proof (add_inv k vq m d fl av don buf len flags I) as Ha.
    destruct fl as [|i fl]; [done|]. destruct Ha as (vq' & m' & E & _ & H). by exists vq', m'.
  - intros len0. pose proof (get_inv k vq m d fl av don len0 I) as Hg.
    destruct don as [|[id ln] don]; [done|]. destruct Hg as (vq' & m' & E & _). by exists vq', m'.
Qed.

(** ** Example: a queue of two with one buffer made available *)

Definition demo_vq0 : virtqueue * memory := virtq_init (2 ^ 1) 0x10000 ∅.
Definition demo_vq1 : virtqueue * memory :=
  let '(_, vq, m) := virtq_add_buffer demo_vq0.1 0x20000 2048 2 demo_vq0.2 in (vq, m).

Lemma virtqueue_conserves_witness :
  vq_run demo_vq1.1 demo_vq1.2 (VDevice 0 []) /\
  exists k fl av don, vq_inv k demo_vq1.1 demo_vq1.2 (VDevice 0 []) fl av don.
Proof.
  assert (H : vq_run demo_vq1.1 demo_vq1.2 (VDevice 0 [])).
  { pose proof (run_init 1 0x10000 ∅ ltac:(lia) ltac:(lia)) as H0.
    fold demo_vq0 in H0. unfold demo_vq1.
    destruct (virtq_add_buffer demo_vq0.1 0x20000 2048 2 demo_vq0.2) as [[r vq] m] eqn:E.
    exact (run_add _ _ _ _ _ _ _ _ _ H0 E). }
  split; [exact H|]. destruct (virtqueue_conserves _ _ _ H) as (k & fl & av & don & I & _).
  exact (ex_intro _ k (ex_intro _ fl (ex_intro _ av (ex_intro _ don I)))).
Defined.
