(* ===== verification/VirtioNet.v ===== *)
(** * The virtio network driver and its ARP and ICMP responder ([kernel/virtio_net.h])

    The driver's state with its two virtqueues and packet buffers in memory,
    detection over PCI, sending and receiving, and the replies.  Arrays on the
    stack are lists of their size; an access outside of one is the result
    [None].  [stack] is what an array holds before it is written. *)

From S2P Require Import Prelude Mem Io Net Pci Virtio.

Definition VIRTIO_PCI_HOST_FEATURES : Z := 0x00.
Definition VIRTIO_PCI_GUEST_FEATURES : Z := 0x04.
Definition VIRTIO_PCI_QUEUE_NOTIFY : Z := 0x10.
Definition VIRTIO_PCI_STATUS : Z := 0x12.
Definition VIRTIO_PCI_CONFIG : Z := 0x14.
Definition VIRTIO_STATUS_ACKNOWLEDGE : Z := 0x01.
Definition VIRTIO_STATUS_DRIVER : Z := 0x02.
Definition VIRTIO_STATUS_DRIVER_OK : Z := 0x04.
Definition VIRTIO_NET_F_MAC : Z := 32.
Definition VIRTQ_DESC_F_WRITE : Z := 0x02.
Definition VIRTIO_NET_HDR_GSO_NONE : Z := 0.
Definition VIRTIO_NET_QUEUE_RX : Z := 0.
Definition VIRTIO_NET_QUEUE_TX : Z := 1.
Definition VIRTIO_NET_RX_BUFFERS : Z := 16.
Definition VIRTIO_NET_TX_BUFFERS : Z := 16.
Definition VIRTIO_NET_BUFFER_SIZE : Z := 2048.
Definition sizeof_virtio_net_hdr : Z := 12.

(** [virtio_net_dev], [tx_buf_idx] and [our_ip]; the buffer arrays are the
    addresses they start at. *)
Record vnet := Vnet {
  pci_dev : option nat; io_base : Z; mac : list Z;
  rx_queue : virtqueue; tx_queue : virtqueue; rx_buffers : Z; tx_buffers : Z;
  packets_rx : Z; packets_tx : Z; bytes_rx : Z; bytes_tx : Z; initialized : bool;
  tx_buf_idx : Z; our_ip : Z
}.

(** The driver, memory and the ports. *)
Record nstate (D : Type) := NState { nd : vnet; nmem : memory; nio : io D }.
Arguments NState {D}.
Arguments nd {D}.
Arguments nmem {D}.
Arguments nio {D}.

Section Driver.
  Context {D : Type} {PD : PortDevice D}.
  Implicit Types (s : io D) (st : nstate D).

Definition virtio_read8 (base offset : Z) s : Z * io D := inb (u16 (base + offset)) s.
Definition virtio_read16 (base offset : Z) s : Z * io D := inw (u16 (base + offset)) s.
Definition virtio_read32 (base offset : Z) s : Z * io D := inl (u16 (base + offset)) s.
Definition virtio_write8 (base offset val : Z) s : io D := outb (u16 (base + offset)) val s.
Definition virtio_write16 (base offset val : Z) s : io D := outw (u16 (base + offset)) val s.
Definition virtio_write32 (base offset val : Z) s : io D := outl (u16 (base + offset)) val s.

(** [for (i = 0; i < 6; i++) mac[i] = virtio_read8(io_base, VIRTIO_PCI_CONFIG + i)] *)
Fixpoint read_mac (n : nat) (i base : Z) s : list Z * io D :=
  match n with
  | O => ([], s)
  | S n' =>
      let '(b, s) := virtio_read8 base (VIRTIO_PCI_CONFIG + i) s in
      let '(bs, s) := read_mac n' (i + 1) base s in (b :: bs, s)
  end.

Definition with_pci (p : option nat) (v : vnet) : vnet :=
  Vnet p (io_base v) (mac v) (rx_queue v) (tx_queue v) (rx_buffers v) (tx_buffers v)
    (packets_rx v) (packets_tx v) (bytes_rx v) (bytes_tx v) (initialized v) (tx_buf_idx v) (our_ip v).
Definition with_base (b : Z) (v : vnet) : vnet :=
  Vnet (pci_dev v) b (mac v) (rx_queue v) (tx_queue v) (rx_buffers v) (tx_buffers v)
    (packets_rx v) (packets_tx v) (bytes_rx v) (bytes_tx v) (initialized v) (tx_buf_idx v) (our_ip v).

(** [devs] is the list [pci_enumerate] filled. *)
Definition virtio_net_init (devs : list pci_device) (v : vnet) s : Z * vnet * io D :=
  match pci_find_device PCI_VENDOR_REDHAT PCI_DEVICE_VIRTIO_NET devs with
  | None => (-1, v, s)
  | Some p =>
      let v := with_pci (Some p) v in
      match devs !! p with
      | None => (-1, v, s)
      | Some pci =>
          let bar0 := zget (bar pci) 0 in
          if Z.land bar0 0x01 =? 0 then (-2, v, s)
          else
            let v := with_base (u16 (Z.land bar0 0xFFFC)) v in
            if io_base v =? 0 then (-3, v, s)
            else
              let s := pci_enable_bus_master pci s in
              let base := io_base v in
              let s := io_wait (virtio_write8 base VIRTIO_PCI_STATUS 0 s) in
              let s := io_wait (virtio_write8 base VIRTIO_PCI_STATUS VIRTIO_STATUS_ACKNOWLEDGE s) in
              let s := io_wait (virtio_write8 base VIRTIO_PCI_STATUS
                         (Z.lor VIRTIO_STATUS_ACKNOWLEDGE VIRTIO_STATUS_DRIVER) s) in
              let '(_, s) := virtio_read32 base VIRTIO_PCI_HOST_FEATURES s in
              let s := io_wait (virtio_write32 base VIRTIO_PCI_GUEST_FEATURES VIRTIO_NET_F_MAC s) in
              let '(m, s) := read_mac 6 0 base s in
              let s := virtio_write8 base VIRTIO_PCI_STATUS
                         (Z.lor (Z.lor VIRTIO_STATUS_ACKNOWLEDGE VIRTIO_STATUS_DRIVER)
                                VIRTIO_STATUS_DRIVER_OK) s in
              (0, Vnet (pci_dev v) base m (rx_queue v) (tx_queue v) (rx_buffers v) (tx_buffers v)
                    (packets_rx v) (packets_tx v) (bytes_rx v) (bytes_tx v) true (tx_buf_idx v) (our_ip v), s)
      end
  end.

(** [for (i = 0; i < len; i++) dst[i] = src[i]] from an array into memory. *)
Definition store_bytes (n : nat) (data : list Z) (a : Z) (m : memory) : memory :=
  for_up n (fun i => i <? Z.of_nat n) (fun i m => wr8 m (a + i) (zget data i)) 0 m.

Definition virtio_net_send (data : list Z) (len : Z) st : Z * nstate D :=
  let v := nd st in
  if negb (initialized v) then (-1, st)
  else if ETH_FRAME_LEN <? len then (-2, st)
  else if num_free (tx_queue v) <? 2 then (-3, st)
  else
    let buf := tx_buffers v + VIRTIO_NET_BUFFER_SIZE * tx_buf_idx v in
    let idx := (tx_buf_idx v + 1) mod VIRTIO_NET_TX_BUFFERS in
    let m := wr8 (nmem st) buf 0 in
    let m := wr8 m (buf + 1) VIRTIO_NET_HDR_GSO_NONE in
    let m := wr16 m (buf + 2) 0 in
    let m := wr16 m (buf + 4) 0 in
    let m := wr16 m (buf + 6) 0 in
    let m := wr16 m (buf + 8) 0 in
    let m := store_bytes (Z.to_nat len) data (buf + sizeof_virtio_net_hdr) m in
    let total_len := u32 (sizeof_virtio_net_hdr + len) in
    let '(_, q, m) := virtq_add_buffer (tx_queue v) buf total_len 0 m in
    let s := virtio_write16 (io_base v) VIRTIO_PCI_QUEUE_NOTIFY VIRTIO_NET_QUEUE_TX (nio st) in
    (0, NState (Vnet (pci_dev v) (io_base v) (mac v) (rx_queue v) q (rx_buffers v) (tx_buffers v)
                  (packets_rx v) (u64 (packets_tx v + 1)) (bytes_rx v) (u64 (bytes_tx v + len))
                  (initialized v) idx (our_ip v)) m s).

(** The result, the caller's buffer, the state. *)
Definition virtio_net_recv (buf : list Z) (buf_size : Z) st : Z * list Z * nstate D :=
  let v := nd st in
  if negb (initialized v) then (-1, buf, st)
  else
    let '(desc_id, len, q, m) := virtq_get_used (rx_queue v) 0 (nmem st) in
    let v := Vnet (pci_dev v) (io_base v) (mac v) q (tx_queue v) (rx_buffers v) (tx_buffers v)
               (packets_rx v) (packets_tx v) (bytes_rx v) (bytes_tx v) (initialized v)
               (tx_buf_idx v) (our_ip v) in
    if desc_id <? 0 then (0, buf, NState v m (nio st))
    else
      let rx := rx_buffers v + VIRTIO_NET_BUFFER_SIZE * desc_id in
      let rx_data := rx + sizeof_virtio_net_hdr in
      let pkt_len := u32 (len - sizeof_virtio_net_hdr) in
      let pkt_len := if buf_size <? pkt_len then buf_size else pkt_len in
      let buf := for_up (Z.to_nat pkt_len) (fun i => i <? pkt_len)
                   (fun i b => zset b i (rd8 m (rx_data + i))) 0 buf in
      let '(_, q, m) := virtq_add_buffer (rx_queue v) rx VIRTIO_NET_BUFFER_SIZE VIRTQ_DESC_F_WRITE m in
      let s := virtio_write16 (io_base v) VIRTIO_PCI_QUEUE_NOTIFY VIRTIO_NET_QUEUE_RX (nio st) in
      (s32 pkt_len, buf,
       NState (Vnet (pci_dev v) (io_base v) (mac v) q (tx_queue v) (rx_buffers v) (tx_buffers v)
                 (u64 (packets_rx v + 1)) (packets_tx v) (u64 (bytes_rx v + pkt_len)) (bytes_tx v)
                 (initialized v) (tx_buf_idx v) (our_ip v)) m s).

Definition virtio_net_get_mac (v : vnet) : list Z := mac v.
Definition virtio_net_is_ready (v : vnet) : bool := initialized v.
Definition virtio_net_get_stats (v : vnet) : Z * Z * Z * Z :=
  (packets_rx v, packets_tx v, bytes_rx v, bytes_tx v).
Definition net_set_ip (ip : Z) (v : vnet) : vnet :=
  Vnet (pci_dev v) (io_base v) (mac v) (rx_queue v) (tx_queue v) (rx_buffers v) (tx_buffers v)
    (packets_rx v) (packets_tx v) (bytes_rx v) (bytes_tx v) (initialized v) (tx_buf_idx v) (u32 ip).

(** ** Replies *)

(** [for (i = 0; i < 6; i++) { p[a + i] = x[i]; p[b + i] = y[i]; }] *)
Definition two_macs (a b : Z) (x y : list Z) (p : list Z) : list Z :=
  for_up 6 (fun i => i <? 6) (fun i p => put8 (put8 p (a + i) (zget x i)) (b + i) (zget y i)) 0 p.

(** The packet of [net_send_arp_reply], in an array of 42 bytes. *)
Definition arp_reply (stack our_mac target_mac : list Z) (ip target_ip : Z) : list Z :=
  let p := two_macs eth_dest eth_src target_mac our_mac stack in
  let p := put16 p eth_type (htons ETH_TYPE_ARP) in
  let p := put16 p (ETH_HLEN + arp_hw_type) (htons ARP_HW_ETHER) in
  let p := put16 p (ETH_HLEN + arp_proto_type) (htons ETH_TYPE_IP) in
  let p := put8 p (ETH_HLEN + arp_hw_len) 6 in
  let p := put8 p (ETH_HLEN + arp_proto_len) 4 in
  let p := put16 p (ETH_HLEN + arp_operation) (htons ARP_OP_REPLY) in
  let p := two_macs (ETH_HLEN + arp_sender_mac) (ETH_HLEN + arp_target_mac) our_mac target_mac p in
  let p := put32 p (ETH_HLEN + arp_sender_ip) (htonl ip) in
  put32 p (ETH_HLEN + arp_target_ip) (htonl target_ip).

Definition net_send_arp_reply (stack : list Z) (target_ip : Z) (target_mac : list Z) st : nstate D :=
  (virtio_net_send (arp_reply stack (mac (nd st)) target_mac (our_ip (nd st)) target_ip)
     (ETH_HLEN + sizeof_arp_packet) st).2.

(** Offsets of the headers in the reply. *)
Definition ip_at : Z := ETH_HLEN.
Definition icmp_at : Z := ETH_HLEN + 20.

(** The packet of [net_send_ping_reply], in an array of 1514 bytes: the headers. *)
Definition ping_headers (stack our_mac dest_mac : list Z) (ip dest_ip id seq total_len : Z) : list Z :=
  let p := two_macs eth_dest eth_src dest_mac our_mac stack in
  let p := put16 p eth_type (htons ETH_TYPE_IP) in
  let p := put8 p (ip_at + ip_version_ihl) 0x45 in
  let p := put8 p (ip_at + ip_tos) 0 in
  let p := put16 p (ip_at + ip_total_len) (htons total_len) in
  let p := put16 p (ip_at + ip_id) 0 in
  let p := put16 p (ip_at + ip_flags_frag) 0 in
  let p := put8 p (ip_at + ip_ttl) 64 in
  let p := put8 p (ip_at + ip_protocol) IP_PROTO_ICMP in
  let p := put16 p (ip_at + ip_checksum_field) 0 in
  let p := put32 p (ip_at + ip_src_ip) (htonl ip) in
  let p := put32 p (ip_at + ip_dest_ip) (htonl dest_ip) in
  let p := put16 p (ip_at + ip_checksum_field) (ip_checksum (take 20 (drop (Z.to_nat ip_at) p))) in
  let p := put8 p (icmp_at + icmp_type) ICMP_ECHO_REPLY in
  let p := put8 p (icmp_at + icmp_code) 0 in
  let p := put16 p (icmp_at + icmp_checksum) 0 in
  let p := put16 p (icmp_at + icmp_id) id in
  put16 p (icmp_at + icmp_sequence) seq.

(** The headers, then the payload and its checksum, and [total_len]; [data] is
    the memory from where the payload is read on. *)
Definition ping_reply (stack our_mac dest_mac : list Z) (ip dest_ip id seq : Z) (data : list Z)
    (data_len : Z) : option (list Z * Z) :=
  let total_len := u16 (20 + 8 + data_len) in
  let p := ping_headers stack our_mac dest_mac ip dest_ip id seq total_len in
  if (zlen stack <? icmp_at + 8 + data_len) || (zlen data <? data_len) then None
  else
    let p := for_up (Z.to_nat data_len) (fun i => i <? data_len)
               (fun i p => put8 p (icmp_at + 8 + i) (zget data i)) 0 p in
    let p := put16 p (icmp_at + icmp_checksum)
               (ip_checksum (take (Z.to_nat (8 + data_len)) (drop (Z.to_nat icmp_at) p))) in
    Some (p, total_len).

Definition net_send_ping_reply (stack : list Z) (dest_ip : Z) (dest_mac : list Z) (id seq : Z)
    (data : list Z) (data_len : Z) st : option (nstate D) :=
  match ping_reply stack (mac (nd st)) dest_mac (our_ip (nd st)) dest_ip id seq data data_len with
  | None => None
  | Some (p, total_len) => Some (virtio_net_send p (ETH_HLEN + total_len) st).2
  end.

(** [packet] is the whole array of the caller, of which [len] bytes were received;
    [stack1] and [stack2] are the arrays of the two senders. *)
Definition net_process_packet (stack1 stack2 packet : list Z) (len : Z) st : option (nstate D) :=
  if len <? ETH_HLEN then Some st
  else
    let etype := ntohs (get16 packet eth_type) in
    if etype =? ETH_TYPE_ARP then
      if len <? ETH_HLEN + sizeof_arp_packet then Some st
      else if ntohs (get16 packet (ETH_HLEN + arp_operation)) =? ARP_OP_REQUEST then
        let target_ip := ntohl (get32 packet (ETH_HLEN + arp_target_ip)) in
        if target_ip =? our_ip (nd st) then
          Some (net_send_arp_reply stack1 (ntohl (get32 packet (ETH_HLEN + arp_sender_ip)))
                  (drop (Z.to_nat (ETH_HLEN + arp_sender_mac)) packet) st)
        else Some st
      else Some st
    else if etype =? ETH_TYPE_IP then
      if len <? ETH_HLEN + 20 then Some st
      else if negb (Z.shiftr (zget packet (ip_at + ip_version_ihl)) 4 =? 4) then Some st
      else
        let dest_ip := ntohl (get32 packet (ip_at + ip_dest_ip)) in
        if negb (dest_ip =? our_ip (nd st)) && negb (dest_ip =? 0xFFFFFFFF) then Some st
        else if zget packet (ip_at + ip_protocol) =? IP_PROTO_ICMP then
          let ip_hdr_len := Z.land (zget packet (ip_at + ip_version_ihl)) 0x0F * 4 in
          let icmp := ip_at + ip_hdr_len in
          if zget packet (icmp + icmp_type) =? ICMP_ECHO_REQUEST then
            let icmp_len := u32 (ntohs (get16 packet (ip_at + ip_total_len)) - ip_hdr_len) in
            let data_len := if 8 <? icmp_len then icmp_len - 8 else 0 in
            net_send_ping_reply stack2 (ntohl (get32 packet (ip_at + ip_src_ip)))
              (drop (Z.to_nat eth_src) packet) (get16 packet (icmp + icmp_id))
              (get16 packet (icmp + icmp_sequence)) (drop (Z.to_nat (icmp + 8)) packet) data_len st
          else Some st
        else Some st
    else Some st.

(** The packets waiting, at most [fuel] of them; the buffer keeps what earlier
    packets left in it. *)
Fixpoint net_poll (fuel : nat) (stack1 stack2 buffer : list Z) st : option (nstate D) :=
  match fuel with
  | O => Some st
  | S n =>
      let '(len, buffer, st) := virtio_net_recv buffer ETH_FRAME_LEN st in
      if 0 <? len then
        match net_process_packet stack1 stack2 buffer len st with
        | None => None
        | Some st => net_poll n stack1 stack2 buffer st
        end
      else Some st
  end.

End Driver.

(** ** Wire formats

    What the replies have to be, written as the network sees them. *)

Definition slice (p : list Z) (o n : Z) : list Z := take (Z.to_nat n) (drop (Z.to_nat o) p).
Definition net16 (v : Z) : list Z := [v / 2 ^ 8; v mod 2 ^ 8].
Definition net32 (v : Z) : list Z := net16 (v / 2 ^ 16) ++ net16 (v mod 2 ^ 16).

(** A header with the checksum filled in at offset [o]. *)
Definition sealed (o : Z) (l : list Z) : list Z := put16 l o (ip_checksum l).

Definition eth_header (dest src : list Z) (type : Z) : list Z := dest ++ src ++ net16 type.
Definition ip_header (total_len src dest : Z) : list Z :=
  sealed 10 ([0x45; 0] ++ net16 total_len ++ [0; 0; 0; 0; 64; IP_PROTO_ICMP; 0; 0] ++ net32 src ++ net32 dest).
Definition echo_reply (rest : list Z) : list Z := sealed 2 ([ICMP_ECHO_REPLY; 0; 0; 0] ++ rest).
Definition arp_frame (our_mac target_mac : list Z) (ip target_ip : Z) : list Z :=
  eth_header target_mac our_mac ETH_TYPE_ARP ++ net16 ARP_HW_ETHER ++ net16 ETH_TYPE_IP ++ [6; 4]
    ++ net16 ARP_OP_REPLY ++ our_mac ++ net32 ip ++ target_mac ++ net32 target_ip.

(** ** Lists and fields *)

(** Split the first [k] elements off the list [l], whose length [H] bounds. *)
Tactic Notation "explode" ident(l) ident(H) integer(k) :=
  unfold zlen in H; do k (destruct l as [|?b l]; [cbn [length] in H; lia|]).
(** Use what [bytes] says of the elements of a list that is written out. *)
Ltac explode_bytes :=
  repeat match goal with
  | H : bytes (_ :: _) |- _ => apply bytes_cons in H as [? H]
  end.

Lemma put8_app_r (h r : list Z) (o v : Z) : 0 <= o -> put8 (h ++ r) (zlen h + o) v = h ++ put8 r o v.
Proof.
  intros Ho. unfold put8, zset, zlen. rewrite insert_app_r_alt by lia. do 2 f_equal. lia.
Qed.
Lemma put16_app_r (h r : list Z) (o v : Z) : 0 <= o -> put16 (h ++ r) (zlen h + o) v = h ++ put16 r o v.
Proof.
  intros Ho. unfold put16. rewrite put8_app_r, <- Z.add_assoc, put8_app_r by lia. done.
Qed.
Lemma put16_app_l (h r : list Z) (o v : Z) :
  0 <= o -> o + 1 < zlen h -> put16 (h ++ r) o v = put16 h o v ++ r.
Proof.
  intros Ho Hl. unfold put16, put8, zset, zlen in *. rewrite insert_app_l by lia.
  rewrite insert_app_l; [done|]. rewrite length_insert. lia.
Qed.

(** The loop that copies bytes into an array behind what is there already. *)
Lemma put_loop (data : list Z) (a : Z) (n : nat) : forall (h rest : list Z) (i : Z),
  bytes data -> 0 <= i -> zlen h = a + i -> i + Z.of_nat n <= zlen data -> (n <= length rest)%nat ->
  for_up n (fun k => k <? i + Z.of_nat n) (fun k p => put8 p (a + k) (zget data k)) i (h ++ rest)
  = h ++ slice data i (Z.of_nat n) ++ drop n rest.
Proof.
  induction n as [|n IH]; intros h rest i Hb Hi Hh Hd Hr; [done|].
  destruct rest as [|x rest]; [cbn in Hr; lia|]. cbn [for_up]. rewrite (proj2 (Z.ltb_lt _ _)) by lia.
  rewrite <- Hh. replace (zlen h) with (zlen h + 0) at 1 by lia. rewrite put8_app_r by lia.
  change (put8 (x :: rest) 0 (zget data i)) with (u8 (zget data i) :: rest).
  rewrite uwrap_small by (by apply bytes_zget). replace (i + Z.of_nat (S n)) with (i + 1 + Z.of_nat n) by lia.
  rewrite cons_middle, app_assoc. rewrite IH; [|done|lia| |lia|cbn in Hr; lia].
  2:{ unfold zlen in *. rewrite length_app. cbn [length]. lia. }
  rewrite <- app_assoc. f_equal. unfold slice. cbn [app drop]. rewrite !Nat2Z.id.
  replace (Z.to_nat (i + 1)) with (S (Z.to_nat i)) by lia.
  destruct (data !! Z.to_nat i) as [y|] eqn:Ey.
  - rewrite (drop_S data y _ Ey). cbn [take app]. unfold zget. by rewrite Ey.
  - apply lookup_ge_None in Ey. unfold zlen in Hd. lia.
Qed.

Lemma two_macs_eth (x y t : list Z) (b0 b1 b2 b3 b4 b5 b6 b7 b8 b9 b10 b11 : Z) :
  6 <= zlen x -> zlen y = 6 -> bytes x -> bytes y ->
  two_macs eth_dest eth_src x y
    (b0 :: b1 :: b2 :: b3 :: b4 :: b5 :: b6 :: b7 :: b8 :: b9 :: b10 :: b11 :: t)
  = slice x 0 6 ++ y ++ t.
Proof.
  intros Hx Hy Bx By. explode x Hx 6. explode y Hy 6. explode_bytes.
  destruct y; [|cbn in Hy; lia]. cbv -[uwrap].
  by rewrite !uwrap_small by done.
Qed.

(** The bytes of a 16-bit field that is stored as it was read. *)
Definition host16 (v : Z) : list Z := [v mod 2 ^ 8; v / 2 ^ 8].


Lemma htons_bytes (v : Z) : 0 <= v < 2 ^ 16 ->
  u8 (htons v) = v / 2 ^ 8 /\ u8 (htons v / 2 ^ 8) = v mod 2 ^ 8.
Proof. intros Hv. rewrite htons_value by done. unfold uwrap. dlia. Qed.

Lemma htonl_octets (v : Z) : 0 <= v < 2 ^ 32 ->
  u8 (htonl v) = v / 2 ^ 16 / 2 ^ 8 /\ u8 (htonl v / 2 ^ 8) = (v / 2 ^ 16) mod 2 ^ 8 /\
  u8 (htonl v / 2 ^ 16) = v mod 2 ^ 16 / 2 ^ 8 /\ u8 (htonl v / 2 ^ 16 / 2 ^ 8) = (v mod 2 ^ 16) mod 2 ^ 8.
Proof.
  intros Hv. destruct (split_bytes v Hv) as (b0 & b1 & b2 & b3 & -> & H0 & H1 & H2 & H3).
  rewrite htonl_bytes by done. unfold uwrap. split_and!; dlia.
Qed.

Lemma u8_bytes (v : Z) : 0 <= v < 2 ^ 16 -> u8 v = v mod 2 ^ 8 /\ u8 (v / 2 ^ 8) = v / 2 ^ 8.
Proof. intros Hv. unfold uwrap. dlia. Qed.

Lemma ping_headers_value (stack our_mac dest_mac : list Z) (ip dest_ip id seq tl : Z) :
  42 <= zlen stack -> zlen our_mac = 6 -> 6 <= zlen dest_mac -> bytes our_mac -> bytes dest_mac ->
  0 <= ip < 2 ^ 32 -> 0 <= dest_ip < 2 ^ 32 -> 0 <= id < 2 ^ 16 -> 0 <= seq < 2 ^ 16 -> 0 <= tl < 2 ^ 16 ->
  ping_headers stack our_mac dest_mac ip dest_ip id seq tl
  = eth_header (slice dest_mac 0 6) our_mac ETH_TYPE_IP ++ ip_header tl ip dest_ip
      ++ ([ICMP_ECHO_REPLY; 0; 0; 0] ++ host16 id ++ host16 seq) ++ drop 42 stack.
Proof.
  intros Hs Hm Hd Bm Bd Hip Hdip Hid Hseq Htl. unfold ping_headers.
  explode stack Hs 42. rewrite two_macs_eth by done. explode dest_mac Hd 6. explode our_mac Hm 6.
  destruct our_mac; [|cbn in Hm; lia].
  destruct (htons_bytes tl Htl) as [T1 T2]. destruct (htonl_octets ip Hip) as (I1 & I2 & I3 & I4).
  destruct (htonl_octets dest_ip Hdip) as (D1 & D2 & D3 & D4).
  destruct (u8_bytes id Hid) as [N1 N2]. destruct (u8_bytes seq Hseq) as [S1 S2].
  cbv -[uwrap ip_checksum htons htonl Z.div Z.modulo Z.pow].
  rewrite T1, T2, I1, I2, I3, I4, D1, D2, D3, D4, N1, N2, S1, S2. reflexivity.
Qed.

Lemma slice_app_l (h r : list Z) (n : Z) : n = zlen h -> slice (h ++ r) 0 n = h.
Proof.
  intros ->. unfold slice, zlen. rewrite Nat2Z.id.
  change (Z.to_nat 0) with 0%nat. cbn [drop]. apply take_app_length.
Qed.

Lemma zlen_app (l k : list Z) : zlen (l ++ k) = zlen l + zlen k.
Proof. unfold zlen. rewrite length_app. lia. Qed.
Lemma zlen_slice (l : list Z) (o n : Z) : 0 <= o -> 0 <= n -> o + n <= zlen l -> zlen (slice l o n) = n.
Proof. intros. unfold slice, zlen in *. rewrite length_take, length_drop. lia. Qed.
Lemma bytes_slice (l : list Z) (o n : Z) : bytes l -> bytes (slice l o n).
Proof. intros H. by apply Forall_take, Forall_drop. Qed.
Lemma zlen_ip_header (tl ip dest : Z) : zlen (ip_header tl ip dest) = 20.
Proof. unfold ip_header, sealed. by rewrite zlen_put16. Qed.

Lemma ping_reply_value (stack our_mac dest_mac data : list Z) (ip dest_ip id seq n : Z) :
  zlen stack = ETH_FRAME_LEN -> zlen our_mac = 6 -> 6 <= zlen dest_mac ->
  bytes our_mac -> bytes dest_mac -> bytes data ->
  0 <= ip < 2 ^ 32 -> 0 <= dest_ip < 2 ^ 32 -> 0 <= id < 2 ^ 16 -> 0 <= seq < 2 ^ 16 ->
  0 <= n <= 1472 -> n <= zlen data ->
  ping_reply stack our_mac dest_mac ip dest_ip id seq data n
  = Some ((eth_header (slice dest_mac 0 6) our_mac ETH_TYPE_IP ++ ip_header (28 + n) ip dest_ip)
            ++ echo_reply (host16 id ++ host16 seq ++ slice data 0 n) ++ drop (42 + Z.to_nat n) stack,
          28 + n).
Proof.
  intros Hs Hm Hd Bm Bd Bdata Hip Hdip Hid Hseq Hn Hdl. unfold ping_reply.
  rewrite Hs. unfold ETH_FRAME_LEN in Hs. rewrite (uwrap_small 16 (20 + 8 + n)) by lia.
  replace (20 + 8 + n) with (28 + n) by lia.
  rewrite (proj2 (Z.ltb_ge ETH_FRAME_LEN (icmp_at + 8 + n))) by (cbv -[Z.add Z.le]; lia).
  rewrite (proj2 (Z.ltb_ge (zlen data) n)) by lia. cbn [orb]. change (icmp_at + 8) with 42.
  rewrite ping_headers_value by (done || lia). set (E := eth_header _ _ _). set (I := ip_header _ _ _).
  assert (HE : zlen E = 14).
  { unfold E, eth_header. rewrite !zlen_app, zlen_slice by lia. change (zlen (net16 _)) with 2. lia. }
  assert (HI : zlen I = 20) by apply zlen_ip_header. clearbody E I.
  set (C := [ICMP_ECHO_REPLY; 0; 0; 0] ++ host16 id ++ host16 seq).
  assert (HC : zlen C = 8) by done.
  pose proof (put_loop data 42 (Z.to_nat n) ((E ++ I) ++ C) (drop 42 stack) 0 Bdata) as HL.
  rewrite Z2Nat.id, Z.add_0_l in HL by lia. rewrite (app_assoc E), (app_assoc (E ++ I)), HL;
    [|lia|rewrite !zlen_app; lia|lia|unfold zlen in Hs; rewrite length_drop; lia].
  clear HL. rewrite <- (app_assoc (E ++ I)). rewrite (app_assoc C).
  assert (HEI : zlen (E ++ I) = 34) by (rewrite zlen_app; lia).
  assert (HCD : zlen (C ++ slice data 0 n) = 8 + n) by (rewrite zlen_app, zlen_slice; lia).
  change (icmp_at + icmp_checksum) with (34 + 2). change (Z.to_nat icmp_at) with 34%nat.
  rewrite <- HEI, put16_app_r, put16_app_l by lia.
  replace 34%nat with (length (E ++ I)) by (unfold zlen in HEI; lia). rewrite drop_app_length.
  replace (Z.to_nat (8 + n)) with (length (C ++ slice data 0 n)) by (unfold zlen in HCD; lia).
  rewrite take_app_length, drop_drop. unfold C. unfold echo_reply, sealed. rewrite <- !app_assoc.
  do 2 f_equal.
Qed.

Lemma slice_add (p : list Z) (o a b : Z) :
  0 <= o -> 0 <= a -> 0 <= b -> slice p o (a + b) = slice p o a ++ slice p (o + a) b.
Proof.
  intros. unfold slice. rewrite !Z2Nat.inj_add, <- drop_drop by lia.
  by rewrite take_take_drop.
Qed.
Lemma slice_drop (p : list Z) (o n : Z) : slice (drop (Z.to_nat o) p) 0 n = slice p o n.
Proof. done. Qed.

Lemma slice_lookup (p : list Z) (o : Z) : 0 <= o < zlen p -> slice p o 1 = [zget p o].
Proof.
  intros Ho. unfold slice, zget, zlen in *. change (Z.to_nat 1) with 1%nat.
  destruct (p !! Z.to_nat o) as [x|] eqn:E; [by rewrite (drop_S p x _ E)|].
  apply lookup_ge_None in E. lia.
Qed.

Lemma host16_get16 (p : list Z) (o : Z) :
  bytes p -> 0 <= o -> o + 2 <= zlen p -> host16 (get16 p o) = slice p o 2.
Proof.
  intros B Ho Hl. change 2 with (1 + 1). rewrite slice_add, !slice_lookup by lia.
  pose proof (bytes_zget p o B). pose proof (bytes_zget p (o + 1) B). unfold host16, get16. cbn [app].
  f_equal; [dlia|]. f_equal. dlia.
Qed.

Lemma get16_range (p : list Z) (o : Z) : bytes p -> 0 <= get16 p o < 2 ^ 16.
Proof.
  intros B. pose proof (bytes_zget p o B). pose proof (bytes_zget p (o + 1) B). unfold get16. lia.
Qed.
Lemma be32_range (p : list Z) (o : Z) : bytes p -> 0 <= be32 p o < 2 ^ 32.
Proof.
  intros B. pose proof (bytes_zget p o B). pose proof (bytes_zget p (o + 1) B).
  pose proof (bytes_zget p (o + 2) B). pose proof (bytes_zget p (o + 2 + 1) B).
  unfold be32, be16. lia.
Qed.
Lemma field16 (p : list Z) (o : Z) : bytes p -> ntohs (get16 p o) = be16 p o.
Proof. intros B. by apply ntohs_get16; apply bytes_zget. Qed.
Lemma field32 (p : list Z) (o : Z) : bytes p -> ntohl (get32 p o) = be32 p o.
Proof. intros B. by apply ntohl_get32; apply bytes_zget. Qed.

(** The checksum of a header that was filled in is 0. *)
Lemma sealed_checksum (k : nat) (l : list Z) :
  bytes l -> zlen l <= 0xFFFF -> 2 * Z.of_nat k + 1 < zlen l -> get16 l (2 * Z.of_nat k) = 0 ->
  ip_checksum (sealed (2 * Z.of_nat k) l) = 0.
Proof. apply checksum_fills. Qed.

Lemma bytes_app (l k : list Z) : bytes (l ++ k) <-> bytes l /\ bytes k.
Proof. apply Forall_app. Qed.
Lemma bytes_net16 (v : Z) : 0 <= v < 2 ^ 16 -> bytes (net16 v).
Proof. intros H. unfold net16. rewrite !bytes_cons. split_and!; [dlia..|apply Forall_nil_2]. Qed.
Lemma bytes_net32 (v : Z) : 0 <= v < 2 ^ 32 -> bytes (net32 v).
Proof. intros H. unfold net32. rewrite bytes_app. split; apply bytes_net16; dlia. Qed.

Lemma ip_header_checksum (tl src dest : Z) :
  0 <= tl < 2 ^ 16 -> 0 <= src < 2 ^ 32 -> 0 <= dest < 2 ^ 32 -> ip_checksum (ip_header tl src dest) = 0.
Proof.
  intros Ht Hs Hd. apply (sealed_checksum 5); [|by vm_compute|by vm_compute|reflexivity].
  rewrite !bytes_app. split_and!; try (by apply bytes_net16); try (by apply bytes_net32).
  - rewrite !bytes_cons. split_and!; [lia..|apply Forall_nil_2].
  - unfold IP_PROTO_ICMP. rewrite !bytes_cons. split_and!; [lia..|apply Forall_nil_2].
Qed.

Lemma echo_reply_checksum (rest : list Z) :
  bytes rest -> zlen rest <= 0xFFFB -> ip_checksum (echo_reply rest) = 0.
Proof.
  intros B Hl. apply (sealed_checksum 1); [| | |reflexivity].
  - rewrite bytes_app. split; [|done]. rewrite !bytes_cons. unfold ICMP_ECHO_REPLY.
    split_and!; [lia..|apply Forall_nil_2].
  - rewrite zlen_app. change (zlen [ICMP_ECHO_REPLY; 0; 0; 0]) with 4. lia.
  - rewrite zlen_app. change (zlen [ICMP_ECHO_REPLY; 0; 0; 0]) with 4. unfold zlen. lia.
Qed.

(** ** Answering a ping *)

Definition addr_ok (v : vnet) : Prop := zlen (mac v) = 6 /\ bytes (mac v) /\ 0 <= our_ip v < 2 ^ 32.

(** An echo request to [ip] with a header of [ihl] words whose length field is [total]. *)
Definition echo_request (pkt : list Z) (ip ihl total : Z) : Prop :=
  be16 pkt eth_type = ETH_TYPE_IP /\ zget pkt (ip_at + ip_version_ihl) = 0x40 + ihl /\
  be16 pkt (ip_at + ip_total_len) = total /\ zget pkt (ip_at + ip_protocol) = IP_PROTO_ICMP /\
  (be32 pkt (ip_at + ip_dest_ip) = ip \/ be32 pkt (ip_at + ip_dest_ip) = 0xFFFFFFFF) /\
  zget pkt (ip_at + ihl * 4 + icmp_type) = ICMP_ECHO_REQUEST.

(** The reply to it, with [n] bytes of payload: addresses exchanged, the echo
    identifier, sequence number and payload as they came. *)
Definition echo_frame (pkt our_mac : list Z) (ip ihl n : Z) : list Z :=
  (eth_header (slice pkt eth_src 6) our_mac ETH_TYPE_IP
     ++ ip_header (28 + n) ip (be32 pkt (ip_at + ip_src_ip)))
    ++ echo_reply (slice pkt (ip_at + ihl * 4 + icmp_id) (4 + n)).

Section Ping.
  Context {D : Type} {PD : PortDevice D}.
  Context (stack1 stack2 pkt : list Z) (len ihl total : Z) (st : nstate D).
  Context (Hpkt : zlen pkt = ETH_FRAME_LEN) (Bpkt : bytes pkt) (Hlen : ETH_HLEN + 20 <= len)
          (Hihl : 0 <= ihl < 16).

(** The request reaches the sender of the reply with the length it claims. *)
Lemma process_ping :
  echo_request pkt (our_ip (nd st)) ihl total ->
  let icmp_len := u32 (total - ihl * 4) in
  net_process_packet stack1 stack2 pkt len st
  = net_send_ping_reply stack2 (be32 pkt (ip_at + ip_src_ip)) (drop (Z.to_nat eth_src) pkt)
      (get16 pkt (ip_at + ihl * 4 + icmp_id)) (get16 pkt (ip_at + ihl * 4 + icmp_sequence))
      (drop (Z.to_nat (ip_at + ihl * 4 + 8)) pkt) (if 8 <? icmp_len then icmp_len - 8 else 0) st.
Proof.
  intros (Ht & Hv & Htot & Hp & Hd & Hty). unfold net_process_packet.
  rewrite !field16, !field32, Ht, Hv, Htot, Hp by done.
  change (ETH_TYPE_IP =? ETH_TYPE_ARP) with false. rewrite (proj2 (Z.ltb_ge len _)) by (unfold ETH_HLEN in *; lia).
  rewrite !Z.eqb_refl. rewrite (proj2 (Z.ltb_ge len _)) by lia. rewrite shiftr_div by lia.
  assert ((64 + ihl) / 2 ^ 4 = 4) as -> by dlia. cbn [Z.eqb Pos.eqb negb].
  rewrite land_0f. assert ((64 + ihl) mod 2 ^ 4 = ihl) as -> by dlia. rewrite Hty, Z.eqb_refl.
  destruct Hd as [->| ->].
  - by rewrite Z.eqb_refl.
  - rewrite Z.eqb_refl, andb_false_r. done.
Qed.

Lemma ping_answered :
  addr_ok (nd st) -> zlen stack2 = ETH_FRAME_LEN ->
  echo_request pkt (our_ip (nd st)) ihl total ->
  ihl * 4 + 8 <= total -> let n := total - ihl * 4 - 8 in
  ip_at + total <= ETH_FRAME_LEN -> n <= 1472 ->
  net_process_packet stack1 stack2 pkt len st
  = Some (virtio_net_send (echo_frame pkt (mac (nd st)) (our_ip (nd st)) ihl n
                             ++ drop (42 + Z.to_nat n) stack2) (42 + n) st).2.
Proof.
  intros (Hm & Bm & Hip) Hs Hreq Ht n Hb Hn. rewrite process_ping by done. cbv zeta.
  unfold ETH_FRAME_LEN, ip_at, ETH_HLEN, icmp_id, icmp_sequence, eth_src in *.
  rewrite (uwrap_small 32 (total - ihl * 4)) by lia.
  replace (if 8 <? total - ihl * 4 then total - ihl * 4 - 8 else 0) with n
    by (destruct (Z.ltb_spec 8 (total - ihl * 4)); unfold n; lia).
  unfold net_send_ping_reply. pose proof (be32_range pkt (14 + ip_src_ip) Bpkt) as Hsrc.
  assert (Hdrop : forall k, 0 <= k <= 1514 -> zlen (drop (Z.to_nat k) pkt) = 1514 - k).
  { intros k Hk. unfold zlen in *. rewrite length_drop. lia. }
  rewrite (ping_reply_value _ _ _ _ _ _ _ _ n); try done; try lia;
    try (by apply get16_range); try (by apply Forall_drop); try (rewrite Hdrop by lia; lia).
  unfold ETH_HLEN. replace (14 + (28 + n)) with (42 + n) by lia. do 2 f_equal.
  unfold echo_frame. rewrite !host16_get16, !slice_drop by (done || lia). rewrite <- app_assoc.
  unfold ip_at, ETH_HLEN, icmp_id, eth_src.
  replace (4 + n) with (2 + (2 + n)) by lia. rewrite !slice_add by lia.
  replace (14 + ihl * 4 + 4 + 2) with (14 + ihl * 4 + 6) by lia.
  replace (14 + ihl * 4 + 6 + 2) with (14 + ihl * 4 + 8) by lia. rewrite <- !app_assoc. reflexivity.
Qed.

End Ping.

Lemma zlen_echo_frame (pkt our_mac : list Z) (ip ihl n : Z) :
  zlen pkt = ETH_FRAME_LEN -> zlen our_mac = 6 -> 0 <= ihl -> 0 <= n -> ip_at + ihl * 4 + 8 + n <= ETH_FRAME_LEN ->
  zlen (echo_frame pkt our_mac ip ihl n) = 42 + n.
Proof.
  intros Hp Hm Hi Hn Hb. unfold echo_frame, eth_header, echo_reply, sealed, ip_at, icmp_id, eth_src in *.
  unfold ETH_FRAME_LEN, ETH_HLEN in *.
  rewrite !zlen_app, zlen_ip_header, zlen_put16, zlen_app, !zlen_slice, Hm by lia.
  change (zlen (net16 _)) with 2. change (zlen [ICMP_ECHO_REPLY; 0; 0; 0]) with 4. lia.
Qed.

(** C30: A ping is answered: for an echo request to this host (or broadcast) with
    a valid header whose length field stays within the buffer, exactly one frame is
    handed to the driver, with the Ethernet and IP addresses exchanged, the
    identifier, sequence number and payload echoed, and both checksums such that
    the receiver's verification yields 0.  The payload has the length the
    request claims, however few bytes were received ([len] does not bound it). *)
Theorem net_ping_correct {D} {PD : PortDevice D} (stack1 stack2 pkt : list Z) (len ihl total : Z)
    (st : nstate D) :
  addr_ok (nd st) -> zlen stack2 = ETH_FRAME_LEN -> zlen pkt = ETH_FRAME_LEN -> bytes pkt ->
  ETH_HLEN + 20 <= len -> 5 <= ihl < 16 -> echo_request pkt (our_ip (nd st)) ihl total ->
  ihl * 4 + 8 <= total <= 1500 ->
  let n := total - ihl * 4 - 8 in
  let src := be32 pkt (ip_at + ip_src_ip) in
  net_process_packet stack1 stack2 pkt len st
  = Some (virtio_net_send (echo_frame pkt (mac (nd st)) (our_ip (nd st)) ihl n
                             ++ drop (42 + Z.to_nat n) stack2) (42 + n) st).2
  /\ zlen (echo_frame pkt (mac (nd st)) (our_ip (nd st)) ihl n) = 42 + n
  /\ ip_checksum (ip_header (28 + n) (our_ip (nd st)) src) = 0
  /\ ip_checksum (echo_reply (slice pkt (ip_at + ihl * 4 + icmp_id) (4 + n))) = 0.
Proof.
  intros Ha Hs Hp Bp Hl Hi Hreq Ht n src. split.
  { apply (ping_answered stack1 stack2 pkt len ihl total st); try done; unfold ETH_FRAME_LEN, ip_at, ETH_HLEN in *; lia. }
  destruct Ha as (Hm & Bm & Hip).
  unfold ETH_FRAME_LEN, ip_at, ETH_HLEN, icmp_id in *. split_and!.
  - apply zlen_echo_frame; try done; unfold ETH_FRAME_LEN, ip_at, ETH_HLEN; lia.
  - apply ip_header_checksum; [lia|done|]. by apply be32_range.
  - apply echo_reply_checksum; [by apply bytes_slice|]. rewrite zlen_slice by lia. lia.
Qed.

(** The length field of a request is trusted: an echo request of any size
    (34 bytes are enough) whose header claims more than 1500 bytes, or less than
    the header itself, makes the reply be built outside of the arrays: the copy
    leaves the 1514 bytes of the received frame or of the reply on the stack. *)
Theorem net_ping_overflow {D} {PD : PortDevice D} (stack1 stack2 pkt : list Z) (len ihl total : Z)
    (st : nstate D) :
  zlen stack2 = ETH_FRAME_LEN -> zlen pkt = ETH_FRAME_LEN -> bytes pkt ->
  ETH_HLEN + 20 <= len -> 5 <= ihl < 16 -> echo_request pkt (our_ip (nd st)) ihl total ->
  total < ihl * 4 \/ 1500 < total ->
  net_process_packet stack1 stack2 pkt len st = None.
Proof.
  intros Hs Hp Bp Hl Hi Hreq Ht. rewrite (process_ping _ _ _ _ ihl total) by (done || lia).
  assert (Hr : 0 <= total < 2 ^ 16).
  { destruct Hreq as (_ & _ & <- & _). pose proof (bytes_zget pkt (ip_at + ip_total_len) Bp).
    pose proof (bytes_zget pkt (ip_at + ip_total_len + 1) Bp). unfold be16. lia. }
  cbv zeta. unfold net_send_ping_reply, ping_reply. set (n := if _ <? _ then _ else _).
  assert (Hn : 1492 - ihl * 4 < n).
  { unfold n. unfold uwrap. destruct (Z.ltb_spec 8 ((total - ihl * 4) mod 2 ^ 32)); dlia. }
  clearbody n. rewrite (proj2 (Z.ltb_lt (zlen (drop _ pkt)) n)); [by rewrite orb_true_r|].
  unfold zlen, ETH_FRAME_LEN, ip_at, ETH_HLEN in *. rewrite length_drop. lia.
Qed.

(** ** Answering ARP *)

Lemma arp_reply_value (stack our_mac target_mac : list Z) (ip target_ip : Z) :
  zlen stack = 42 -> zlen our_mac = 6 -> 6 <= zlen target_mac -> bytes our_mac -> bytes target_mac ->
  0 <= ip < 2 ^ 32 -> 0 <= target_ip < 2 ^ 32 ->
  arp_reply stack our_mac target_mac ip target_ip = arp_frame our_mac (slice target_mac 0 6) ip target_ip.
Proof.
  intros Hs Hm Hd Bm Bd Hip Hdip. unfold arp_reply.
  explode stack Hs 42. destruct stack; [|cbn in Hs; lia]. rewrite two_macs_eth by done.
  explode target_mac Hd 6. explode our_mac Hm 6. destruct our_mac; [|cbn in Hm; lia]. explode_bytes.
  destruct (htonl_octets ip Hip) as (I1 & I2 & I3 & I4).
  destruct (htonl_octets target_ip Hdip) as (D1 & D2 & D3 & D4).
  cbv -[uwrap htons htonl Z.div Z.modulo Z.pow].
  repeat match goal with H : 0 <= ?b < 2 ^ 8 |- context [uwrap 8 ?b] => rewrite (uwrap_small 8 b H) end.
  rewrite I1, I2, I3, I4, D1, D2, D3, D4. reflexivity.
Qed.

(** An ARP request as the network sees it, and the address it asks for. *)
Definition arp_request (pkt : list Z) (len ip : Z) : Prop :=
  ETH_HLEN + sizeof_arp_packet <= len /\ be16 pkt (ETH_HLEN + arp_operation) = ARP_OP_REQUEST /\
  be32 pkt (ETH_HLEN + arp_target_ip) = ip.

(** ARP: a request for this host's address is answered with the frame that
    names its hardware address to the sender of the request; any other ARP
    frame, and any frame that is neither ARP nor IP or too short, has no effect. *)
Theorem net_arp_correct {D} {PD : PortDevice D} (stack1 stack2 pkt : list Z) (len : Z) (st : nstate D) :
  addr_ok (nd st) -> zlen stack1 = 42 -> zlen pkt = ETH_FRAME_LEN -> bytes pkt ->
  (ETH_HLEN <= len -> be16 pkt eth_type <> ETH_TYPE_IP) ->
  (be16 pkt eth_type = ETH_TYPE_ARP -> arp_request pkt len (our_ip (nd st)) ->
   net_process_packet stack1 stack2 pkt len st
   = Some (virtio_net_send
             (arp_frame (mac (nd st)) (slice pkt (ETH_HLEN + arp_sender_mac) 6) (our_ip (nd st))
                (be32 pkt (ETH_HLEN + arp_sender_ip))) 42 st).2) /\
  (~ (be16 pkt eth_type = ETH_TYPE_ARP /\ arp_request pkt len (our_ip (nd st))) ->
   net_process_packet stack1 stack2 pkt len st = Some st).
Proof.
  intros (Hm & Bm & Hip) Hs Hp Bp Hnip. unfold net_process_packet, arp_request. rewrite !field16, !field32 by done.
  split.
  - intros Ht (Hl & Ho & Ha). rewrite Ht, Ho, Ha, !Z.eqb_refl.
    rewrite !(proj2 (Z.ltb_ge len _)) by (unfold ETH_HLEN, sizeof_arp_packet in *; lia).
    unfold net_send_arp_reply. rewrite arp_reply_value; [reflexivity|done|done| |done| |done|].
    + unfold zlen, ETH_FRAME_LEN in *. rewrite length_drop.
      change (Z.to_nat _) with 22%nat. lia.
    + by apply Forall_drop.
    + by apply be32_range.
  - intros Hn. destruct (Z.ltb_spec len ETH_HLEN) as [|Hl]; [done|]. specialize (Hnip Hl).
    rewrite (proj2 (Z.eqb_neq _ ETH_TYPE_IP)) by done.
    destruct (Z.eqb_spec (be16 pkt eth_type) ETH_TYPE_ARP); [|done].
    destruct (Z.ltb_spec len (ETH_HLEN + sizeof_arp_packet)); [done|].
    destruct (Z.eqb_spec (be16 pkt (ETH_HLEN + arp_operation)) ARP_OP_REQUEST); [|done].
    destruct (Z.eqb_spec (be32 pkt (ETH_HLEN + arp_target_ip)) (our_ip (nd st))); [|done]. tauto.
Qed.

(** ** Sending *)

Lemma rd8_store_bytes (data : list Z) (a : Z) (m : memory) (n : nat) (x : Z) :
  bytes data ->
  rd8 (store_bytes n data a m) x
  = if (a <=? x) && (x <? a + Z.of_nat n) then zget data (x - a) else rd8 m x.
Proof.
  intros B. unfold store_bytes. rewrite (for_up_range _ _ _ (Z.of_nat n)) by (done || lia). rewrite Z.sub_0_r.
  induction n as [|n IH]; [cbn [foldl seqZ]; zcases; cbn [andb]; (lia || done)|].
  replace (Z.of_nat (S n)) with (Z.of_nat n + 1) by lia. rewrite seqZ_app by lia.
  rewrite Z.add_0_l, (seqZ_cons _ 1), (seqZ_nil (Z.succ _)), foldl_app by lia. cbn [foldl].
  rewrite rd8_wr8, IH. destruct (Z.eqb_spec (a + Z.of_nat n) x) as [<-|Hne].
  - rewrite uwrap_small by (by apply bytes_zget). replace (a + Z.of_nat n - a) with (Z.of_nat n) by lia.
    zcases; cbn [andb]; (lia || done).
  - zcases; cbn [andb]; (lia || done).
Qed.

(** The TX buffers and the TX queue do not overlap. *)
Definition tx_apart (v : vnet) : Prop :=
  queue_end (tx_queue v) <= tx_buffers v
  \/ tx_buffers v + VIRTIO_NET_BUFFER_SIZE * VIRTIO_NET_TX_BUFFERS <= desc (tx_queue v).

Definition tx_buffer (v : vnet) : Z := tx_buffers v + VIRTIO_NET_BUFFER_SIZE * tx_buf_idx v.

(** What is in the buffer of a sent frame, as the device reads it. *)
Definition holds_frame (m : memory) (buf : Z) (data : list Z) (len : Z) : Prop :=
  (forall j, 0 <= j < 10 -> rd8 m (buf + j) = 0) /\
  (forall j, 0 <= j < len -> rd8 m (buf + sizeof_virtio_net_hdr + j) = zget data j).

Section Send.
  Context {D : Type} {PD : PortDevice D}.
  Context (k : Z) (d : vdevice) (fl av : list Z) (don : list (Z * Z)) (data : list Z) (len : Z) (st : nstate D).

(** The header and the frame in the buffer, everything else as it was. *)
Lemma frame_written (m : memory) (buf : Z) :
  bytes data -> 0 <= len ->
  let m' := store_bytes (Z.to_nat len) data (buf + sizeof_virtio_net_hdr)
              (wr16 (wr16 (wr16 (wr16 (wr8 (wr8 m buf 0) (buf + 1) VIRTIO_NET_HDR_GSO_NONE)
                 (buf + 2) 0) (buf + 4) 0) (buf + 6) 0) (buf + 8) 0) in
  holds_frame m' buf data len /\
  forall x, x < buf \/ buf + sizeof_virtio_net_hdr + len <= x -> rd8 m' x = rd8 m x.
Proof.
  intros B Hl. unfold holds_frame, sizeof_virtio_net_hdr. cbv zeta. split_and!.
  - intros j Hj. rewrite rd8_store_bytes by done. rewrite Z2Nat.id by lia.
    rewrite (proj2 (Z.leb_gt _ _)) by lia. cbn [andb]. rewrite !rd8_wrN, !rd8_wr8, !Zdiv_0_l.
    zcases; cbn [andb]; (lia || done).
  - intros j Hj. rewrite rd8_store_bytes by done. rewrite Z2Nat.id by lia.
    rewrite (proj2 (Z.leb_le _ _)), (proj2 (Z.ltb_lt _ _)) by lia. cbn [andb]. f_equal. lia.
  - intros x Hx. rewrite rd8_store_bytes by done. rewrite Z2Nat.id by lia.
    replace ((buf + 12 <=? x) && (x <? buf + 12 + len)) with false by (symmetry; zcases; cbn [andb]; (lia || done)).
    rewrite !rd8_wrN_out by lia. rewrite !rd8_wr8. zcases; (lia || done).
Qed.

(** C28: Sending: [virtio_net_send] answers -1, -2 or -3 without any effect when
    the driver is not initialised, the frame is longer than 1514 bytes or fewer
    than two descriptors are free; otherwise the next TX buffer holds a zeroed
    header and the frame, the first free descriptor describes that buffer and
    is made available, the queue's invariant is kept, the device is notified
    and the counters advance. *)
Theorem virtio_net_send_correct :
  vq_inv k (tx_queue (nd st)) (nmem st) d fl av don -> tx_apart (nd st) ->
  0 <= tx_buf_idx (nd st) < VIRTIO_NET_TX_BUFFERS -> 0 <= len < 2 ^ 32 -> bytes data ->
  (initialized (nd st) = false -> virtio_net_send data len st = (-1, st)) /\
  (initialized (nd st) = true -> ETH_FRAME_LEN < len -> virtio_net_send data len st = (-2, st)) /\
  (initialized (nd st) = true -> len <= ETH_FRAME_LEN -> zlen fl < 2 -> virtio_net_send data len st = (-3, st)) /\
  (initialized (nd st) = true -> len <= ETH_FRAME_LEN -> forall i fl', fl = i :: fl' -> 1 <= zlen fl' ->
   exists st', virtio_net_send data len st = (0, st') /\
     vq_inv k (tx_queue (nd st')) (nmem st') d fl' (av ++ [i]) don /\
     desc_holds (tx_queue (nd st')) (nmem st') i (tx_buffer (nd st)) (sizeof_virtio_net_hdr + len) 0 /\
     holds_frame (nmem st') (tx_buffer (nd st)) data len /\
     nio st' = virtio_write16 (io_base (nd st)) VIRTIO_PCI_QUEUE_NOTIFY VIRTIO_NET_QUEUE_TX (nio st) /\
     packets_tx (nd st') = u64 (packets_tx (nd st) + 1) /\
     bytes_tx (nd st') = u64 (bytes_tx (nd st) + len) /\
     tx_buf_idx (nd st') = (tx_buf_idx (nd st) + 1) mod VIRTIO_NET_TX_BUFFERS).
Proof.
  intros I Hap Hidx Hl B. destruct (vi_free _ _ _ _ _ _ _ I) as [Hn _]. unfold virtio_net_send. split_and!.
  - by intros ->.
  - intros -> Hlen. cbn [negb]. by rewrite (proj2 (Z.ltb_lt _ _)).
  - intros -> Hlen Hf. cbn [negb]. by rewrite (proj2 (Z.ltb_ge _ _)), (proj2 (Z.ltb_lt _ _)) by lia.
  - intros -> Hlen i fl' -> Hf. cbn [negb]. rewrite (proj2 (Z.ltb_ge _ _)) by lia.
    rewrite (proj2 (Z.ltb_ge _ _)) by (rewrite Hn; unfold zlen in *; cbn [length]; lia).
    fold (tx_buffer (nd st)). set (m1 := store_bytes _ _ _ _).
    destruct (frame_written (nmem st) (tx_buffer (nd st)) B (proj1 Hl)) as [HF Hout]. fold m1 in HF, Hout.
    assert (Hreg : tx_buffers (nd st) <= tx_buffer (nd st) /\
      tx_buffer (nd st) + sizeof_virtio_net_hdr + len <= tx_buffers (nd st) + 2048 * 16).
    { unfold tx_buffer, VIRTIO_NET_BUFFER_SIZE, VIRTIO_NET_TX_BUFFERS, sizeof_virtio_net_hdr, ETH_FRAME_LEN in *. lia. }
    pose proof (inv_size_pos I) as Hs. pose proof (vi_layout _ _ _ _ _ _ _ I) as [Hl1 Hl2].
    unfold tx_apart, VIRTIO_NET_BUFFER_SIZE, VIRTIO_NET_TX_BUFFERS in Hap.
    assert (I1 : vq_inv k (tx_queue (nd st)) m1 d (i :: fl') av don).
    { apply (other_inv k _ (nmem st)); [done|]. intros x Hx. apply Hout. lia. }
    destruct (add_inv _ _ _ _ _ _ _ (tx_buffer (nd st)) (u32 (sizeof_virtio_net_hdr + len)) 0 I1)
      as (q & m2 & E & I2 & Hh).
    destruct (add_frame _ _ _ _ _ _ _ _ _ _ _ _ _ I1 E) as (_ & _ & _ & _ & Hfr). rewrite E.
    eexists. split; [reflexivity|]. cbn [nd nmem nio tx_queue packets_tx bytes_tx tx_buf_idx].
    split_and!; try done.
    + rewrite uwrap_small in Hh; [done|]. unfold sizeof_virtio_net_hdr, ETH_FRAME_LEN in *. lia.
    + unfold queue_end in Hap. destruct HF as [HF1 HF2]. unfold sizeof_virtio_net_hdr in *.
      split; intros j Hj; unfold sizeof_virtio_net_hdr; rewrite Hfr by lia; auto.
Qed.

End Send.

(** ** Receiving *)

(** [for (i = 0; i < n; i++) b[i] = f(i)] *)
Lemma fill_loop_spec (f : Z -> Z) (b : list Z) (n : nat) :
  (n <= length b)%nat ->
  for_up n (fun i => i <? Z.of_nat n) (fun i b => zset b i (f i)) 0 b = (f <$> seqZ 0 (Z.of_nat n)) ++ drop n b.
Proof.
  intros Hn. rewrite (for_up_range _ _ _ (Z.of_nat n)) by (done || lia). rewrite Z.sub_0_r.
  induction n as [|n IH]; [done|].
  replace (Z.of_nat (S n)) with (Z.of_nat n + 1) by lia. rewrite seqZ_app by lia.
  rewrite Z.add_0_l, (seqZ_cons _ 1), (seqZ_nil (Z.succ _)), foldl_app by lia. cbn [foldl].
  rewrite IH by lia. rewrite fmap_app, <- app_assoc. unfold zset.
  rewrite insert_app_r_alt by (rewrite length_fmap, length_seqZ; lia).
  rewrite length_fmap, length_seqZ, Nat2Z.id, Nat.sub_diag. f_equal.
  destruct (b !! n) as [x|] eqn:E; [|apply lookup_ge_None in E; lia]. by rewrite (drop_S b x n E).
Qed.

(** The RX buffers and the RX queue do not overlap, and there is one per descriptor. *)
Definition rx_apart (v : vnet) : Prop :=
  size (rx_queue v) <= VIRTIO_NET_RX_BUFFERS /\
  (queue_end (rx_queue v) <= rx_buffers v
   \/ rx_buffers v + VIRTIO_NET_BUFFER_SIZE * VIRTIO_NET_RX_BUFFERS <= desc (rx_queue v)).

Definition rx_buffer (v : vnet) (i : Z) : Z := rx_buffers v + VIRTIO_NET_BUFFER_SIZE * i.

Section Recv.
  Context {D : Type} {PD : PortDevice D}.
  Context (k : Z) (d : vdevice) (fl av : list Z) (don : list (Z * Z)) (buf : list Z) (buf_size : Z) (st : nstate D).

(** What a returned length becomes: without the header, at most the caller's
    array; a length shorter than the header wraps around and is cut to the array. *)
Definition packet_len (len : Z) : Z :=
  if len <? sizeof_virtio_net_hdr then buf_size else Z.min buf_size (len - sizeof_virtio_net_hdr).

(** C29: Receiving: -1 before initialisation, 0 and no effect when the device has
    returned nothing; otherwise the bytes after the header of the buffer that was
    returned first are copied to the caller, the descriptor is made available
    again with the same buffer, the queue's invariant is kept, the device is
    notified and the counters advance. *)
Theorem virtio_net_recv_correct :
  vq_inv k (rx_queue (nd st)) (nmem st) d fl av don -> rx_apart (nd st) ->
  0 <= buf_size <= zlen buf -> buf_size <= ETH_FRAME_LEN ->
  (initialized (nd st) = false -> virtio_net_recv buf buf_size st = (-1, buf, st)) /\
  (initialized (nd st) = true -> don = [] -> virtio_net_recv buf buf_size st = (0, buf, st)) /\
  (initialized (nd st) = true -> forall id len don', don = (id, len) :: don' ->
   let n := packet_len len in
   exists st', virtio_net_recv buf buf_size st
     = (n, ((fun i => rd8 (nmem st) (rx_buffer (nd st) id + sizeof_virtio_net_hdr + i)) <$> seqZ 0 n)
             ++ drop (Z.to_nat n) buf, st') /\
     vq_inv k (rx_queue (nd st')) (nmem st') d fl (av ++ [id]) don' /\
     desc_holds (rx_queue (nd st')) (nmem st') id (rx_buffer (nd st) id) VIRTIO_NET_BUFFER_SIZE VIRTQ_DESC_F_WRITE /\
     nio st' = virtio_write16 (io_base (nd st)) VIRTIO_PCI_QUEUE_NOTIFY VIRTIO_NET_QUEUE_RX (nio st) /\
     packets_rx (nd st') = u64 (packets_rx (nd st) + 1) /\
     bytes_rx (nd st') = u64 (bytes_rx (nd st) + n)).
Proof.
  intros I [Hsz Hap] Hb Hb2. unfold virtio_net_recv. unfold ETH_FRAME_LEN in Hb2. split_and!.
  - by intros ->.
  - intros Hi ->. rewrite (get_inv _ _ _ _ _ _ _ 0 I). destruct st as [[] m s]. cbn in Hi. by subst.
  - intros -> id len don' Hdon. set (n := packet_len len). cbn [negb]. subst don.
    pose proof (inv_range I) as Hr. pose proof (inv_size_pos I) as Hs.
    destruct (vi_layout _ _ _ _ _ _ _ I) as [Hl1 Hl2].
    assert (Hid : 0 <= id < size (rx_queue (nd st)))
      by (apply Hr; rewrite !elem_of_app; cbn; rewrite elem_of_cons; auto).
    assert (Hlen : 0 <= len < 2 ^ 32).
    { destruct (vi_elems _ _ _ _ _ _ _ I 0%nat id len eq_refl) as [_ <-]. apply (rdN_range 4). }
    destruct (get_inv _ _ _ _ _ _ _ 0 I) as (q & m1 & E & I1). rewrite E.
    destruct (get_frame _ _ _ _ _ _ _ _ _ _ _ _ I E) as (F1 & F2 & F3 & F4 & F5).
    rewrite (proj2 (Z.ltb_ge id 0)) by lia. cbn [rx_buffers rx_queue].
    destruct (add_inv _ _ _ _ _ _ _ (rx_buffer (nd st) id) VIRTIO_NET_BUFFER_SIZE VIRTQ_DESC_F_WRITE I1)
      as (q2 & m2 & E2 & I2 & Hh). fold (rx_buffer (nd st) id).
    assert (Hn : (if buf_size <? u32 (len - sizeof_virtio_net_hdr) then buf_size
                  else u32 (len - sizeof_virtio_net_hdr)) = n).
    { unfold n, packet_len, sizeof_virtio_net_hdr, uwrap. destruct (Z.ltb_spec len 12).
      - rewrite (proj2 (Z.ltb_lt _ _)); [done|]. dlia.
      - rewrite Z.mod_small by lia. zcases; lia. }
    rewrite Hn, E2. assert (Hn' : 0 <= n <= buf_size).
    { unfold n, packet_len, sizeof_virtio_net_hdr. zcases; lia. }
    clearbody n. rewrite s32_small by lia.
    pose proof (fill_loop_spec (fun i => rd8 m1 (rx_buffer (nd st) id + sizeof_virtio_net_hdr + i)) buf (Z.to_nat n)) as HL.
    rewrite Z2Nat.id in HL by lia. rewrite HL by (unfold zlen in Hb; lia).
    rewrite (list_fmap_ext _ (fun i => rd8 (nmem st) (rx_buffer (nd st) id + sizeof_virtio_net_hdr + i))
      (seqZ 0 n)).
    { eexists. split; [reflexivity|split_and!; done]. }
    intros j x Hx. apply lookup_seqZ in Hx as [-> Hj]. apply F5.
    unfold queue_end, rx_buffer, VIRTIO_NET_BUFFER_SIZE, VIRTIO_NET_RX_BUFFERS, sizeof_virtio_net_hdr in *. lia.
Qed.
End Recv.

(** ** Initialisation *)

(** The accesses that bring the device up, newest first: reset, ACKNOWLEDGE,
    DRIVER, the features read ([f]) and accepted, the six bytes of the address
    read ([m]), DRIVER_OK. *)
Definition handshake (base f : Z) (m : list Z) : list io_event :=
  let st v := Out 8 (u16 (base + VIRTIO_PCI_STATUS)) v in
  let wait := Out 8 0x80 0 in
  [st 7] ++ rev (imap (fun i b => In 8 (u16 (base + (VIRTIO_PCI_CONFIG + Z.of_nat i))) b) m)
  ++ [wait; Out 32 (u16 (base + VIRTIO_PCI_GUEST_FEATURES)) VIRTIO_NET_F_MAC;
      In 32 (u16 (base + VIRTIO_PCI_HOST_FEATURES)) f; wait; st 3; wait; st 1; wait; st 0].

Definition is_virtio_net (d : pci_device) : Prop :=
  vendor_id d = PCI_VENDOR_REDHAT /\ device_id d = PCI_DEVICE_VIRTIO_NET.

Section Init.
  Context {D : Type} {PD : PortDevice D}.

Lemma read_mac_spec (n : nat) (base : Z) : forall (i : nat) (s : io D),
  let r := read_mac n (Z.of_nat i) base s in
  length r.1 = n /\ bytes r.1 /\
  trace r.2 = rev (imap (fun j b => In 8 (u16 (base + (VIRTIO_PCI_CONFIG + Z.of_nat (i + j)))) b) r.1)
              ++ trace s.
Proof.
  induction n as [|n IH]; intros i s; cbn [read_mac]; [split_and!; [done|apply Forall_nil_2|done]|].
  unfold virtio_read8, inb, port_read. destruct (port_in 8 _ (dev s)) as [b dd].
  specialize (IH (S i) (Io dd (In 8 (u16 (base + (VIRTIO_PCI_CONFIG + Z.of_nat i))) (u8 b) :: trace s))).
  replace (Z.of_nat (S i)) with (Z.of_nat i + 1) in IH by lia. cbv zeta in IH.
  destruct (read_mac n _ base _) as [bs s']. cbn [fst snd trace] in *. destruct IH as (H1 & H2 & H3). split_and!.
  - cbn [length]. lia.
  - apply bytes_cons. split; [by apply uwrap_range|done].
  - rewrite imap_cons, H3. cbn [rev]. rewrite Nat.add_0_r, <- app_assoc. cbn [app]. do 2 f_equal.
    apply imap_ext. intros j x _. cbn. do 3 f_equal. lia.
Qed.

(** C31: Bringing the device up: without a virtio network device the answer is
    -1; with one whose BAR 0 is not an I/O BAR it is -2, and -3 when the base is
    0, and no port is touched; otherwise bus mastering is enabled, the device
    goes through the handshake in the order reset, ACKNOWLEDGE, DRIVER, features,
    DRIVER_OK, and the address read from it is stored.  No virtqueue is set up:
    if none was before, every frame sent afterwards is refused with -3. *)
Theorem virtio_net_init_correct (devs : list pci_device) (v : vnet) (s : io D) :
  let '(r, v', s') := virtio_net_init devs v s in
  match list_find is_virtio_net devs with
  | None => r = -1 /\ v' = v /\ s' = s
  | Some (p, pci) =>
      pci_dev v' = Some p /\
      (Z.odd (zget (bar pci) 0) = false -> r = -2 /\ s' = s /\ initialized v' = initialized v) /\
      (Z.odd (zget (bar pci) 0) = true ->
       let base := Z.land (zget (bar pci) 0) 0xFFFC in
       io_base v' = base /\
       (base = 0 -> r = -3 /\ s' = s /\ initialized v' = initialized v) /\
       (base <> 0 ->
        r = 0 /\ initialized v' = true /\ zlen (mac v') = 6 /\ bytes (mac v') /\
        (exists f, trace s' = handshake base f (mac v') ++ trace (pci_enable_bus_master pci s)) /\
        (num_free (tx_queue v) = 0 -> forall data len m s'', len <= ETH_FRAME_LEN ->
           virtio_net_send data len (NState v' m s'') = (-3, NState v' m s''))))
  end.
Proof.
  unfold virtio_net_init, pci_find_device.
  change (list_find (fun d => vendor_id d = PCI_VENDOR_REDHAT /\ device_id d = PCI_DEVICE_VIRTIO_NET) devs)
    with (list_find is_virtio_net devs).
  destruct (list_find is_virtio_net devs) as [[p pci]|] eqn:Ef; cbn [fmap option_fmap option_map fst]; [|done].
  apply list_find_Some in Ef as (Hp & _ & _). rewrite Hp. set (b0 := zget (bar pci) 0).
  assert (Hodd : (Z.land b0 1 =? 0) = negb (Z.odd b0)).
  { change 1 with (2 ^ 1 - 1). rewrite land_mask, Zmod_odd by lia. by destruct (Z.odd b0). }
  rewrite Hodd. destruct (Z.odd b0); cbn [negb]; [|done].
  assert (Hb : u16 (Z.land b0 0xFFFC) = Z.land b0 0xFFFC).
  { rewrite Z.land_comm. apply uwrap_small, land_range; lia. }
  unfold with_base, with_pci. cbn [io_base pci_dev]. rewrite Hb. set (base := Z.land b0 0xFFFC).
  destruct (Z.eqb_spec base 0) as [Hz|Hz]; [done|].
  cbv zeta. unfold virtio_read32, inl, port_read at 1.
  match goal with |- context [port_in 32 _ (dev ?x)] => set (s1 := x) end.
  destruct (port_in 32 _ (dev s1)) as [f dd].
  match goal with |- context [read_mac 6 0 base ?x] => set (s2 := x) end.
  pose proof (read_mac_spec 6 base 0 s2) as HM. change (Z.of_nat 0) with 0 in HM.
  destruct (read_mac 6 0 base s2) as [m s3]. cbn [fst snd] in HM. destruct HM as (Hm & Bm & Htr).
  cbn [pci_dev io_base initialized mac]. split; [done|]. split; [done|]. intros _. split; [done|]. split; [done|].
  intros _. split_and!; try done.
  - unfold zlen. lia.
  - exists (u32 f). unfold virtio_write8, outb, port_write at 1. cbn [trace]. rewrite Htr.
    unfold handshake. rewrite <- !app_assoc. reflexivity.
  - intros Hn data len m' s'' Hl. unfold virtio_net_send. cbn [nd initialized negb tx_queue].
    rewrite (proj2 (Z.ltb_ge _ _)) by done. by rewrite Hn.
Qed.
End Init.

(** ** Examples: a host 10.0.2.15 with a TX queue of four *)

Definition demo_tx : virtqueue * memory := virtq_init (2 ^ 2) 0x10000 ∅.
Definition demo_vnet : vnet :=
  Vnet (Some 0%nat) 0xC000 [0x52; 0x54; 0; 0x12; 0x34; 0x56] demo_tx.1 demo_tx.1 0x40000 0x20000
    0 0 0 0 true 0 (MAKE_IP 10 0 2 15).
Definition demo_net : nstate demo_host := NState demo_vnet demo_tx.2 demo_bus.

Definition demo_stack : list Z := replicate 1514 0xCC.
(** A ping from 10.0.2.2 that claims [total] bytes. *)
Definition demo_ping (hi lo : Z) : list Z :=
  [0x52; 0x54; 0; 0x12; 0x34; 0x56; 2; 2; 2; 2; 2; 2; 8; 0; 0x45; 0; hi; lo; 0; 0; 0; 0; 64; 1; 0; 0;
   10; 0; 2; 2; 10; 0; 2; 15; 8; 0; 0; 0; 0x12; 0x34; 0; 1; 97; 98; 99] ++ replicate 1469 0.
Definition demo_arp : list Z :=
  [255; 255; 255; 255; 255; 255; 2; 2; 2; 2; 2; 2; 8; 6; 0; 1; 8; 0; 6; 4; 0; 1; 2; 2; 2; 2; 2; 2;
   10; 0; 2; 2; 0; 0; 0; 0; 0; 0; 10; 0; 2; 15] ++ replicate 1472 0.

Lemma demo_addr_ok : addr_ok demo_vnet.
Proof. split_and!; [reflexivity| |by vm_compute|by vm_compute]. apply (bool_decide_unpack _). vm_compute. exact I. Qed.
Lemma demo_ping_bytes (hi lo : Z) : 0 <= hi < 2 ^ 8 -> 0 <= lo < 2 ^ 8 -> bytes (demo_ping hi lo).
Proof.
  intros Hh Hl. unfold demo_ping. apply bytes_app. split.
  - rewrite !bytes_cons. split_and!; try lia. apply Forall_nil_2.
  - apply Forall_replicate. lia.
Qed.

(** The three bytes of payload are echoed. *)
Lemma net_ping_correct_witness :
  slice (echo_frame (demo_ping 0 31) (mac demo_vnet) (our_ip demo_vnet) 5 3) 38 7 = [0x12; 0x34; 0; 1; 97; 98; 99] /\
  net_process_packet [] demo_stack (demo_ping 0 31) 45 demo_net
  = Some (virtio_net_send (echo_frame (demo_ping 0 31) (mac demo_vnet) (our_ip demo_vnet) 5 3
                             ++ drop 45 demo_stack) 45 demo_net).2.
Proof.
  split; [vm_compute; reflexivity|].
  refine (proj1 (net_ping_correct [] demo_stack (demo_ping 0 31) 45 5 31 demo_net _ _ _ _ _ _ _ _)).
  - apply demo_addr_ok.
  - reflexivity.
  - reflexivity.
  - apply demo_ping_bytes; lia.
  - vm_compute. discriminate.
  - lia.
  - split_and!; [reflexivity..|left; vm_compute; reflexivity|reflexivity].
  - lia.
Defined.

(** A request of 42 bytes that claims 2048. *)
Lemma net_ping_overflow_witness : net_process_packet [] demo_stack (demo_ping 8 0) 42 demo_net = None.
Proof.
  apply (net_ping_overflow [] demo_stack (demo_ping 8 0) 42 5 2048 demo_net).
  - reflexivity.
  - reflexivity.
  - apply demo_ping_bytes; lia.
  - vm_compute. discriminate.
  - lia.
  - split_and!; [reflexivity..|left; vm_compute; reflexivity|reflexivity].
  - lia.
Defined.

Lemma net_arp_correct_witness :
  net_process_packet (replicate 42 0xCC) [] demo_arp 42 demo_net
  = Some (virtio_net_send (arp_frame (mac demo_vnet) [2; 2; 2; 2; 2; 2] (our_ip demo_vnet) (MAKE_IP 10 0 2 2))
            42 demo_net).2.
Proof.
  refine (proj1 (net_arp_correct (replicate 42 0xCC) [] demo_arp 42 demo_net _ _ _ _ _) _ _).
  - apply demo_addr_ok.
  - reflexivity.
  - reflexivity.
  - apply bytes_app. split; [rewrite !bytes_cons; split_and!; try lia; apply Forall_nil_2|].
    apply Forall_replicate. lia.
  - intros _. vm_compute. discriminate.
  - reflexivity.
  - split_and!; [vm_compute; discriminate|reflexivity|vm_compute; reflexivity].
Defined.

Lemma virtio_net_send_correct_witness :
  exists st', virtio_net_send [1; 2; 3] 3 demo_net = (0, st') /\ holds_frame (nmem st') 0x20000 [1; 2; 3] 3.
Proof.
  assert (I := init_inv 2 0x10000 ∅ ltac:(lia) ltac:(lia)).
  destruct (virtio_net_send_correct 2 (VDevice 0 []) (seqZ 0 (2 ^ 2)) [] [] [1; 2; 3] 3 demo_net I)
    as (_ & _ & _ & H).
  - left. vm_compute. discriminate.
  - vm_compute. split; [discriminate|reflexivity].
  - lia.
  - rewrite !bytes_cons. split_and!; try lia. apply Forall_nil_2.
  - destruct (H eq_refl ltac:(vm_compute; discriminate) 0 [1; 2; 3] eq_refl ltac:(vm_compute; discriminate))
      as (st' & E & _ & _ & F & _).
    exact (ex_intro _ st' (conj E F)).
Defined.

(** A frame of three bytes that the device has returned in the first buffer. *)
Definition demo_rx : virtqueue * memory := virtq_init (2 ^ 1) 0x10000 ∅.
Definition demo_rx1 : virtqueue * memory :=
  let '(_, q, m) := virtq_add_buffer demo_rx.1 0x40000 2048 2 demo_rx.2 in (q, m).
Definition demo_rx_mem : memory :=
  complete_writes demo_rx1.1 0 15 0 1 (wr8 (wr8 (wr8 demo_rx1.2 0x4000C 7) 0x4000D 8) 0x4000E 9).
Definition demo_rx_net : nstate demo_host :=
  NState (Vnet (Some 0%nat) 0xC000 [0x52; 0x54; 0; 0x12; 0x34; 0x56] demo_rx1.1 demo_tx.1 0x40000 0x20000
            0 0 0 0 true 0 (MAKE_IP 10 0 2 15)) demo_rx_mem demo_bus.

Lemma demo_rx_inv :
  vq_inv 1 demo_rx1.1 demo_rx_mem (VDevice 1 []) [1] [] [(0, 15)].
Proof.
  split.
  - vm_compute. split; [split; discriminate|reflexivity].
  - vm_compute. split; discriminate.
  - vm_compute. apply Permutation_swap.
  - vm_compute. done.
  - cbn. lia.
  - vm_compute. reflexivity.
  - done.
  - vm_compute. split; [discriminate|reflexivity].
  - vm_compute. reflexivity.
  - intros [|j] i len Hj; [|done]. injection Hj as <- <-. vm_compute. done.
Qed.

Lemma virtio_net_recv_correct_witness :
  exists st', virtio_net_recv [0; 0; 0; 0] 4 demo_rx_net = (3, [7; 8; 9; 0], st').
Proof.
  destruct (virtio_net_recv_correct 1 (VDevice 1 []) [1] [] [(0, 15)] [0; 0; 0; 0] 4 demo_rx_net demo_rx_inv)
    as (_ & _ & H).
  - split; [vm_compute; discriminate|]. left. vm_compute. discriminate.
  - vm_compute. split; discriminate.
  - vm_compute. discriminate.
  - destruct (H eq_refl 0 15 [] eq_refl) as (st' & E & _). exists st'. rewrite E. vm_compute. reflexivity.
Defined.

(** The device found on the example bus, and the queues of the zeroed state. *)
Definition demo_zero_vnet : vnet := Vnet None 0 [0; 0; 0; 0; 0; 0] (Virtq 0 0 0 0 0 0 0) (Virtq 0 0 0 0 0 0 0)
  0 0 0 0 0 0 false 0 0.
Lemma virtio_net_init_correct_witness :
  let '(r, v, s) := virtio_net_init (pci_enumerate demo_bus).1 demo_zero_vnet demo_bus in
  r = 0 /\ initialized v = true /\ virtio_net_send [1; 2; 3] 3 (NState v ∅ s) = (-3, NState v ∅ s).
Proof.
  pose proof (virtio_net_init_correct (pci_enumerate demo_bus).1 demo_zero_vnet demo_bus) as H.
  destruct (virtio_net_init (pci_enumerate demo_bus).1 demo_zero_vnet demo_bus) as [[r v] s].
  assert (E : exists pci, list_find is_virtio_net (pci_enumerate demo_bus).1 = Some (0%nat, pci)
    /\ zget (bar pci) 0 = 0xC001) by (eexists; split; vm_compute; reflexivity).
  destruct E as (pci & E & Hb). rewrite E, Hb in H. destruct H as (_ & _ & H). specialize (H eq_refl).
  destruct H as (_ & _ & H). destruct (H ltac:(discriminate)) as (Hr & Hi & _ & _ & _ & Hs).
  exact (conj Hr (conj Hi (Hs eq_refl [1; 2; 3] 3 ∅ s ltac:(vm_compute; discriminate)))).
Defined.
