(* ===== verification/Font.v ===== *)
(** * The bootloader's font ([boot/font.h])

    A table of 95 glyphs of 8x16 pixels, for the characters 32 to 126. *)

From S2P Require Import Prelude.

Definition FONT_WIDTH : Z := 8.
Definition FONT_HEIGHT : Z := 16.

(** The sixteen bytes of a glyph, written one after another as one number. *)
Definition glyph_rows (n : Z) : list Z :=
  (fun i => Z.land (Z.shiftr n (8 * (15 - i))) 0xFF) <$> seqZ 0 16.

Definition font_data : list (list Z) := glyph_rows <$>
  [
   0x00000000000000000000000000000000;
   0x0000183C3C3C18181800181800000000;
   0x00666666240000000000000000000000;
   0x0000006C6CFE6C6C6CFE6C6C00000000;
   0x18187CC6C2C07C060686C67C18180000;
   0x00000000C2C60C183060C68600000000;
   0x0000386C6C3876DCCCCCCC7600000000;
   0x00303030600000000000000000000000;
   0x00000C18303030303030180C00000000;
   0x000030180C0C0C0C0C0C183000000000;
   0x0000000000663CFF3C66000000000000;
   0x000000000018187E1818000000000000;
   0x00000000000000000018181830000000;
   0x00000000000000FE0000000000000000;
   0x00000000000000000000181800000000;
   0x0000000002060C183060C08000000000;
   0x0000386CC6C6D6D6C6C66C3800000000;
   0x00001838781818181818187E00000000;
   0x00007CC6060C183060C0C6FE00000000;
   0x00007CC606063C060606C67C00000000;
   0x00000C1C3C6CCCFE0C0C0C1E00000000;
   0x0000FEC0C0C0FC060606C67C00000000;
   0x00003860C0C0FCC6C6C6C67C00000000;
   0x0000FEC606060C183030303000000000;
   0x00007CC6C6C67CC6C6C6C67C00000000;
   0x00007CC6C6C67E0606060C7800000000;
   0x00000000181800000018180000000000;
   0x00000000181800000018183000000000;
   0x000000060C18306030180C0600000000;
   0x00000000007E00007E00000000000000;
   0x0000006030180C060C18306000000000;
   0x00007CC6C60C18181800181800000000;
   0x0000007CC6C6DEDEDEDCC07C00000000;
   0x000010386CC6C6FEC6C6C6C600000000;
   0x0000FC6666667C66666666FC00000000;
   0x00003C66C2C0C0C0C0C2663C00000000;
   0x0000F86C6666666666666CF800000000;
   0x0000FE6662687868606266FE00000000;
   0x0000FE6662687868606060F000000000;
   0x00003C66C2C0C0DEC6C6663A00000000;
   0x0000C6C6C6C6FEC6C6C6C6C600000000;
   0x00003C18181818181818183C00000000;
   0x00001E0C0C0C0C0CCCCCCC7800000000;
   0x0000E666666C78786C6666E600000000;
   0x0000F06060606060606266FE00000000;
   0x0000C6EEFEFED6C6C6C6C6C600000000;
   0x0000C6E6F6FEDECEC6C6C6C600000000;
   0x00007CC6C6C6C6C6C6C6C67C00000000;
   0x0000FC6666667C60606060F000000000;
   0x00007CC6C6C6C6C6C6D6DE7C0C0E0000;
   0x0000FC6666667C6C666666E600000000;
   0x00007CC6C660380C06C6C67C00000000;
   0x0000FFDB991818181818183C00000000;
   0x0000C6C6C6C6C6C6C6C6C67C00000000;
   0x0000C6C6C6C6C6C6C66C381000000000;
   0x0000C6C6C6C6D6D6D6FEEE6C00000000;
   0x0000C6C66C7C38387C6CC6C600000000;
   0x0000C3C3C3663C181818183C00000000;
   0x0000FEC6860C183060C2C6FE00000000;
   0x00003C30303030303030303C00000000;
   0x00000080C06030180C06020000000000;
   0x00003C0C0C0C0C0C0C0C0C3C00000000;
   0x10386CC6000000000000000000000000;
   0x00000000000000000000000000FF0000;
   0x30301800000000000000000000000000;
   0x0000000000780C7CCCCCCC7600000000;
   0x0000E06060786C666666667C00000000;
   0x00000000007CC6C0C0C0C67C00000000;
   0x00001C0C0C3C6CCCCCCCCC7600000000;
   0x00000000007CC6FEC0C0C67C00000000;
   0x0000386C6460F060606060F000000000;
   0x000000000076CCCCCCCCCC7C0CCC7800;
   0x0000E060606C7666666666E600000000;
   0x00001818003818181818183C00000000;
   0x00000606000E06060606060666663C00;
   0x0000E06060666C78786C66E600000000;
   0x00003818181818181818183C00000000;
   0x0000000000E6FFDBDBDBDBDB00000000;
   0x0000000000DC66666666666600000000;
   0x00000000007CC6C6C6C6C67C00000000;
   0x0000000000DC66666666667C6060F000;
   0x000000000076CCCCCCCCCC7C0C0C1E00;
   0x0000000000DC7666606060F000000000;
   0x00000000007CC660380CC67C00000000;
   0x0000103030FC30303030361C00000000;
   0x0000000000CCCCCCCCCCCC7600000000;
   0x0000000000C3C3C3C3663C1800000000;
   0x0000000000C6C6C6D6D6FE6C00000000;
   0x0000000000C66C3838386CC600000000;
   0x0000000000C6C6C6C6C6C67E060CF800;
   0x0000000000FECC183060C6FE00000000;
   0x00000E18181870181818180E00000000;
   0x00001818181800181818181800000000;
   0x0000701818180E181818187000000000;
   0x000076DC000000000000000000000000].

(** The table has a row of 16 bytes for each of its 95 characters. *)
Lemma font_data_shape :
  length font_data = 95%nat /\ Forall (fun g => length g = 16%nat /\ Forall (fun b => 0 <= b < 2 ^ 8) g) font_data.
Proof.
  split; [reflexivity|]. apply Forall_fmap, Forall_true. intros n. unfold glyph_rows, compose.
  rewrite length_fmap, length_seqZ. split; [done|]. apply Forall_fmap, Forall_true. intros i. unfold compose.
  rewrite land_ff. apply Z.mod_pos_bound. lia.
Qed.
