(* ===== verification/Graphics.v ===== *)
(** * The bootloader's graphics ([boot/graphics.h])

    Rectangles, text and widgets on the framebuffer of the graphics output
    protocol, in the 32-bit arithmetic of the source.  Colour 0 is transparent
    for text.  Strings are lists of unsigned bytes; a literal has no terminating
    0, a buffer does. *)

From S2P Require Import Prelude Text Framebuffer Font.

(** The colours; the kernel has a table of its own with some of the names. *)
Definition GFX_BLACK : Z := 0x00000000.
Definition GFX_WHITE : Z := 0x00FFFFFF.
Definition GFX_RED : Z := 0x000000FF.
Definition COLOR_BG_DARK : Z := 0x001E1E2E.
Definition COLOR_BG_PANEL : Z := 0x00313244.
Definition COLOR_BG_BUTTON : Z := 0x00454545.
Definition COLOR_BG_HOVER : Z := 0x00585858.
Definition COLOR_ACCENT : Z := 0x00F5A97F.
Definition COLOR_ACCENT2 : Z := 0x00A6E3A1.
Definition COLOR_TEXT : Z := 0x00CDD6F4.
Definition COLOR_TEXT_DIM : Z := 0x00A6ADC8.

Definition RGB (r g b : Z) : Z := u32 (Z.lor (Z.lor b (Z.shiftl g 8)) (Z.shiftl r 16)).

Implicit Types fb : fbuf.

(** ** Shapes *)

(** The bodies of these three are those of [put_pixel], [clear_screen] and
    [fill_rect] of the kernel. *)
Definition gfx_pixel (x y color : Z) fb : fbuf := put_pixel x y color fb.
Definition gfx_clear (color : Z) fb : fbuf := clear_screen color fb.
Definition gfx_fill_rect (x y w h color : Z) fb : fbuf := fill_rect x y w h color fb.

(** [i * pitch + x + w - 1] and the index of column [x + w - 1] of row [i] agree
    modulo 2^32. *)
Definition gfx_rect (x y w h color : Z) fb : fbuf :=
  let fb := for_up (Z.to_nat (fb_width fb)) (fun i => (i <? u32 (x + w)) && (i <? fb_width fb))
    (fun i fb =>
       let fb := if y <? fb_height fb then store i y color fb else fb in
       if u32 (y + h - 1) <? fb_height fb then store i (u32 (y + h - 1)) color fb else fb) x fb in
  for_up (Z.to_nat (fb_height fb)) (fun i => (i <? u32 (y + h)) && (i <? fb_height fb))
    (fun i fb =>
       let fb := if x <? fb_width fb then store x i color fb else fb in
       if u32 (x + w - 1) <? fb_width fb then store (u32 (x + w - 1)) i color fb else fb) y fb.

Definition gfx_rounded_rect (x y w h r color : Z) fb : fbuf :=
  let fb := gfx_fill_rect (u32 (x + r)) y (u32 (w - 2 * r)) h color fb in
  let fb := gfx_fill_rect x (u32 (y + r)) r (u32 (h - 2 * r)) color fb in
  let fb := gfx_fill_rect (u32 (x + w - r)) (u32 (y + r)) r (u32 (h - 2 * r)) color fb in
  for_up (Z.to_nat r) (fun py => py <? r)
    (fun py fb =>
       for_up (Z.to_nat r) (fun px => px <? r)
         (fun px fb =>
            let dx := u32 (r - px - 1) in
            let dy := u32 (r - py - 1) in
            if u32 (dx * dx + dy * dy) <=? u32 (r * r) then
              let fb := gfx_pixel (u32 (x + px)) (u32 (y + py)) color fb in
              let fb := gfx_pixel (u32 (x + w - 1 - px)) (u32 (y + py)) color fb in
              let fb := gfx_pixel (u32 (x + px)) (u32 (y + h - 1 - py)) color fb in
              gfx_pixel (u32 (x + w - 1 - px)) (u32 (y + h - 1 - py)) color fb
            else fb) 0 fb) 0 fb.

Definition gfx_hline (x y w color : Z) fb : fbuf :=
  if fb_height fb <=? y then fb
  else for_up (Z.to_nat (fb_width fb)) (fun i => (i <? u32 (x + w)) && (i <? fb_width fb))
         (fun i fb => store i y color fb) x fb.
Definition gfx_vline (x y h color : Z) fb : fbuf :=
  if fb_width fb <=? x then fb
  else for_up (Z.to_nat (fb_height fb)) (fun i => (i <? u32 (y + h)) && (i <? fb_height fb))
         (fun i fb => store x i color fb) y fb.

(** ** Text *)

Definition gfx_char (x y c fg bg : Z) fb : fbuf :=
  let c := if (c <? 32) || (126 <? c) then 63 else c in
  let glyph := default [] (font_data !! Z.to_nat (c - 32)) in
  for_up 16 (fun cy => cy <? FONT_HEIGHT)
    (fun cy fb =>
       let row := zget glyph cy in
       for_up 8 (fun cx => cx <? FONT_WIDTH)
         (fun cx fb =>
            let color := if negb (Z.land row (Z.shiftr 0x80 cx) =? 0) then fg else bg in
            if negb (color =? 0) then gfx_pixel (u32 (x + cx)) (u32 (y + cy)) color fb else fb) 0 fb) 0 fb.

Fixpoint gfx_string (x y : Z) (str : list Z) (fg bg : Z) fb : fbuf :=
  match str with
  | [] => fb
  | c :: str' =>
      if c =? 0 then fb
      else if c =? 10 then gfx_string 0 (u32 (y + (FONT_HEIGHT + 2))) str' fg bg fb
      else gfx_string (u32 (x + FONT_WIDTH)) y str' fg bg (gfx_char x y c fg bg fb)
  end.

Definition gfx_text (x y : Z) (str : list Z) (color : Z) fb : fbuf := gfx_string x y str color 0 fb.

Fixpoint text_width_loop (str : list Z) (w : Z) : Z :=
  match str with
  | [] => w
  | c :: str' =>
      if c =? 0 then w
      else text_width_loop str' (if negb (c =? 10) then u32 (w + FONT_WIDTH) else w)
  end.
Definition gfx_text_width (str : list Z) : Z := text_width_loop str 0.

Definition gfx_text_centered (y : Z) (str : list Z) (color : Z) fb : fbuf :=
  let w := gfx_text_width str in
  let x := u32 (fb_width fb - w) / 2 in
  gfx_text x y str color fb.

(** ** Widgets *)

Definition gfx_button (x y w h : Z) (label : list Z) (bg fg : Z) (selected : bool) fb : fbuf :=
  let text_w := gfx_text_width label in
  let text_x := u32 (x + u32 (w - text_w) / 2) in
  let text_y := u32 (y + u32 (h - FONT_HEIGHT) / 2) in
  let fb := gfx_rounded_rect x y w h 8 bg fb in
  let fb := if selected then
      let fb := gfx_rect x y w h COLOR_ACCENT fb in
      gfx_rect (u32 (x + 1)) (u32 (y + 1)) (u32 (w - 2)) (u32 (h - 2)) COLOR_ACCENT fb
    else fb in
  gfx_text text_x text_y label fg fb.

Definition gfx_panel (x y w h : Z) (title : list Z) (bg title_bg : Z) fb : fbuf :=
  let fb := gfx_rounded_rect x y w h 12 bg fb in
  let fb := gfx_fill_rect (u32 (x + 12)) y (u32 (w - 24)) 30 title_bg fb in
  let fb := gfx_fill_rect x (u32 (y + 12)) 12 18 title_bg fb in
  let fb := gfx_fill_rect (u32 (x + w - 12)) (u32 (y + 12)) 12 18 title_bg fb in
  let title_x := u32 (x + u32 (w - gfx_text_width title) / 2) in
  gfx_text title_x (u32 (y + 8)) title GFX_WHITE fb.

(** [None]: a division by zero. *)
Definition gfx_progress (x y w h value max bg fg : Z) fb : option fbuf :=
  if max =? 0 then None
  else
    let fill_w := u32 (value * u32 (w - 4)) / max in
    let fb := gfx_rounded_rect x y w h (h / 2) bg fb in
    Some (if 0 <? fill_w
          then gfx_rounded_rect (u32 (x + 2)) (u32 (y + 2)) fill_w (u32 (h - 4)) (u32 (h - 4) / 2) fg fb
          else fb).

(** ** Numbers *)

(** [while (num > 0) { tmp[i++] = '0' + num % 10; num /= 10; }] *)
Fixpoint tmp_loop (fuel : nat) (num i : Z) (tmp : list Z) : list Z * Z :=
  match fuel with
  | O => (tmp, i)
  | S f =>
      if 0 <? num then tmp_loop f (num / 10) (i + 1) (zset tmp i (48 + num mod 10)) else (tmp, i)
  end.
(** [while (i > 0) buf[j++] = tmp[--i]; buf[j] = 0;] *)
Fixpoint buf_loop (i : nat) (j : Z) (tmp buf : list Z) : list Z :=
  match i with
  | O => zset buf j 0
  | S i' => buf_loop i' (j + 1) tmp (zset buf j (zget tmp (Z.of_nat i')))
  end.
(** A 64-bit number has at most 20 digits. *)
Definition int_to_str (num : Z) (buf : list Z) : list Z :=
  if num =? 0 then zset (zset buf 0 48) 1 0
  else
    let '(tmp, i) := tmp_loop 20 num 0 (replicate 32 0) in
    buf_loop (Z.to_nat i) 0 tmp buf.

Definition gfx_label_value (x y : Z) (label : list Z) (value : Z) (unit : option (list Z))
    (label_color value_color : Z) fb : fbuf :=
  let fb := gfx_text x y label label_color fb in
  let label_w := gfx_text_width label in
  let buf := int_to_str value (replicate 32 0) in
  let fb := gfx_text (u32 (x + label_w)) y buf value_color fb in
  match unit with
  | Some unit => gfx_text (u32 (x + label_w + gfx_text_width buf)) y unit label_color fb
  | None => fb
  end.

(** ** Memory safety *)

Lemma u32_nonneg (v : Z) : 0 <= u32 v.
Proof. by apply (uwrap_range 32). Qed.

Create HintDb gfx.
#[export] Hint Resolve u32_nonneg : gfx.
#[export] Hint Extern 1 (0 <= _) => lia : gfx.

(** Two calls that draw, one after the other. *)
Lemma draws_then fb f g : draws fb f -> draws f g -> draws fb g.
Proof. intros H1 H2. by transitivity f. Qed.

(** Peel the outermost call off a picture, with the lemma that it draws. *)
Ltac peel lem := eapply draws_then; [|apply lem; auto with gfx].
Ltac gdraw1 :=
  match goal with
  | |- draws ?f ?f => reflexivity
  | |- draws _ (fill_rect _ _ _ _ _ _) => peel fill_rect_draws
  | |- draws _ (gfx_fill_rect _ _ _ _ _ _) => peel fill_rect_draws
  | |- draws _ (clear_screen _ _) => peel clear_screen_draws
  | |- draws _ (gfx_clear _ _) => peel clear_screen_draws
  | |- draws _ (put_pixel _ _ _ _) => peel put_pixel_draws
  | |- draws _ (gfx_pixel _ _ _ _) => peel put_pixel_draws
  end.

(** A store behind the tests of its coordinates. *)
Lemma store_if_draws (b : bool) (x y color : Z) fb :
  (b = true -> on_screen fb x y) -> draws fb (if b then store x y color fb else fb).
Proof. intros H. destruct b; [|done]. apply store_draws. by apply H. Qed.

Lemma gfx_rect_draws (x y w h color : Z) fb : 0 <= x -> 0 <= y -> draws fb (gfx_rect x y w h color fb).
Proof.
  intros Hx Hy. unfold gfx_rect. cbv zeta.
  match goal with |- draws _ (for_up _ _ _ _ ?f) => transitivity f end.
  - apply for_up_draws. intros i f Hi Hc (Hw & Hh & _). apply andb_prop in Hc as [_ Hc%Z.ltb_lt].
    eapply draws_then; [|apply store_if_draws]; [apply store_if_draws|]; intros Hb%Z.ltb_lt; unfold on_screen.
    + rewrite Hw. lia.
    + pose proof (u32_nonneg (y + h - 1)). destruct (y <? fb_height f); cbn; cbn in Hb; rewrite ?Hw; lia.
  - apply for_up_draws. intros i f Hi Hc (Hw & Hh & _). apply andb_prop in Hc as [_ Hc%Z.ltb_lt].
    eapply draws_then; [|apply store_if_draws]; [apply store_if_draws|]; intros Hb%Z.ltb_lt; unfold on_screen.
    + rewrite Hh. lia.
    + pose proof (u32_nonneg (x + w - 1)). destruct (x <? fb_width f); cbn; cbn in Hb; rewrite ?Hh; lia.
Qed.

Lemma gfx_rounded_rect_draws (x y w h r color : Z) fb :
  0 <= x -> 0 <= y -> draws fb (gfx_rounded_rect x y w h r color fb).
Proof.
  intros Hx Hy. unfold gfx_rounded_rect, gfx_fill_rect, gfx_pixel. cbv zeta.
  match goal with |- draws _ (for_up _ _ _ _ ?f) => transitivity f end; [by repeat gdraw1|].
  apply for_up_draws. intros py f _ _ _. apply for_up_draws. intros px g _ _ _.
  destruct (_ <=? _); [|done]. by repeat gdraw1.
Qed.

Lemma gfx_line_draws (x y w color : Z) fb :
  0 <= x -> 0 <= y -> draws fb (gfx_hline x y w color fb) /\ draws fb (gfx_vline x y w color fb).
Proof.
  intros Hx Hy. unfold gfx_hline, gfx_vline.
  split; [destruct (Z.leb_spec (fb_height fb) y)|destruct (Z.leb_spec (fb_width fb) x)]; try done;
    apply for_up_draws; intros i f Hi Hc (Hw & Hh & _); apply andb_prop in Hc as [_ Hc%Z.ltb_lt];
    apply store_draws; unfold on_screen; rewrite Hw, Hh; lia.
Qed.

Lemma gfx_char_draws (x y c fg bg : Z) fb : draws fb (gfx_char x y c fg bg fb).
Proof.
  apply for_up_draws. intros cy f _ _ _. apply for_up_draws. intros cx g _ _ _. cbv zeta.
  destruct (negb _); [|done]. unfold gfx_pixel. apply put_pixel_draws; auto with gfx.
Qed.

Lemma gfx_string_draws (str : list Z) (fg bg : Z) : forall (x y : Z) fb, draws fb (gfx_string x y str fg bg fb).
Proof.
  induction str as [|c str IH]; intros x y fb; cbn [gfx_string]; [done|].
  destruct (c =? 0); [done|]. destruct (c =? 10); [apply IH|].
  eapply draws_then; [apply gfx_char_draws|apply IH].
Qed.
Lemma gfx_text_draws (x y : Z) (str : list Z) (color : Z) fb : draws fb (gfx_text x y str color fb).
Proof. apply gfx_string_draws. Qed.
Lemma gfx_text_centered_draws (y : Z) (str : list Z) (color : Z) fb : draws fb (gfx_text_centered y str color fb).
Proof. apply gfx_text_draws. Qed.

Ltac gdraw2 :=
  match goal with
  | |- draws _ (gfx_text _ _ _ _ _) => peel gfx_text_draws
  | |- draws _ (gfx_text_centered _ _ _ _) => peel gfx_text_centered_draws
  | |- draws _ (gfx_rounded_rect _ _ _ _ _ _ _) => peel gfx_rounded_rect_draws
  | |- draws _ (gfx_rect _ _ _ _ _ _) => peel gfx_rect_draws
  | |- draws _ (if ?b then _ else _) => destruct b
  | _ => gdraw1
  end.

Lemma gfx_button_draws (x y w h : Z) (label : list Z) (bg fg : Z) (sel : bool) fb :
  0 <= x -> 0 <= y -> draws fb (gfx_button x y w h label bg fg sel fb).
Proof. intros Hx Hy. unfold gfx_button. cbv zeta. destruct sel; by repeat gdraw2. Qed.

Lemma gfx_panel_draws (x y w h : Z) (title : list Z) (bg title_bg : Z) fb :
  0 <= x -> 0 <= y -> draws fb (gfx_panel x y w h title bg title_bg fb).
Proof. intros Hx Hy. unfold gfx_panel. cbv zeta. by repeat gdraw2. Qed.

Lemma gfx_progress_draws (x y w h value max bg fg : Z) fb :
  0 <= x -> 0 <= y -> max <> 0 ->
  exists fb', gfx_progress x y w h value max bg fg fb = Some fb' /\ draws fb fb'.
Proof.
  intros Hx Hy Hm. unfold gfx_progress. rewrite (proj2 (Z.eqb_neq _ _) Hm). eexists. split; [reflexivity|].
  by repeat gdraw2.
Qed.

Lemma gfx_label_value_draws (x y : Z) (label : list Z) (value : Z) (unit : option (list Z)) (lc vc : Z) fb :
  draws fb (gfx_label_value x y label value unit lc vc fb).
Proof. unfold gfx_label_value. cbv zeta. destruct unit; by repeat gdraw2. Qed.

(** ** Pictures

    [painted C S fb fb']: the points of [S] have the colour [C] gives them, all
    others are as before.  Pictures compose, and a loop paints what its rounds
    paint; no decision of [S] is needed. *)

Definition painted (C : Z -> Z -> Z) (S : Z -> Z -> Prop) fb fb' : Prop :=
  same_geometry fb fb' /\ forall a b, on_screen fb a b ->
    (S a b -> load fb' a b = u32 (C a b)) /\
    (load fb' a b = load fb a b \/ (S a b /\ load fb' a b = u32 (C a b))).

Section Painted.
  Context (C : Z -> Z -> Z).

Lemma painted_none (S : Z -> Z -> Prop) fb :
  (forall a b, on_screen fb a b -> ~ S a b) -> painted C S fb fb.
Proof. intros H. split; [done|]. intros a b Hab. split; [|by left]. by intros []%H. Qed.

Lemma painted_seq (S T U : Z -> Z -> Prop) fb f g :
  painted C S fb f -> painted C T f g ->
  (forall a b, on_screen fb a b -> U a b <-> S a b \/ T a b) -> painted C U fb g.
Proof.
  intros [Hg HS] [Hg' HT] HU. split.
  { destruct Hg as (? & ? & ?), Hg' as (? & ? & ?). split_and!; congruence. }
  intros a b Hab. destruct (HS a b Hab) as [S1 S2].
  destruct (HT a b (proj2 (geometry_on fb f a b Hg) Hab)) as [T1 T2]. rewrite (HU a b Hab). split.
  - intros [H|H]; [|auto]. destruct T2 as [->|[_ ->]]; auto.
  - destruct T2 as [->|[Ht ->]]; [|by right; auto]. destruct S2 as [->|[Hs ->]]; [by left|right; auto].
Qed.

Lemma painted_or (S T : Z -> Z -> Prop) fb f g :
  painted C S fb f -> painted C T f g -> painted C (fun a b => S a b \/ T a b) fb g.
Proof. intros H1 H2. eapply painted_seq; [exact H1|exact H2|done]. Qed.

(** A loop over [ks] whose round [k] paints [S k]. *)
Lemma painted_loop (S : Z -> Z -> Z -> Prop) (body : Z -> fbuf -> fbuf) (ks : list Z) : forall fb,
  (forall k f, k ∈ ks -> same_geometry fb f -> painted C (S k) f (body k f)) ->
  painted C (fun a b => exists k, k ∈ ks /\ S k a b) fb (foldl (fun f k => body k f) fb ks).
Proof.
  induction ks as [|k ks IH]; intros fb Hb; cbn [foldl].
  { apply painted_none. intros a b _ (k & Hk & _). by apply not_elem_of_nil in Hk. }
  pose proof (Hb k fb (list_elem_of_here _ _) ltac:(done)) as H1. eapply painted_seq; [exact H1| |].
  - apply IH. intros k' f Hk Hg. apply Hb; [by right|].
    destruct (proj1 H1) as (? & ? & ?), Hg as (? & ? & ?). split_and!; congruence.
  - intros a b Hab. setoid_rewrite elem_of_cons. naive_solver.
Qed.

(** The same picture, described differently. *)
Lemma painted_iff (S T : Z -> Z -> Prop) fb f :
  painted C S fb f -> (forall a b, on_screen fb a b -> T a b <-> S a b) -> painted C T fb f.
Proof.
  intros [Hg HS] H. split; [done|]. intros a b Hab. rewrite (H a b Hab). by apply HS.
Qed.

Lemma painted_pixel (x y : Z) fb :
  fb_ok fb -> 0 <= x -> 0 <= y -> painted C (fun a b => a = x /\ b = y) fb (gfx_pixel x y (C x y) fb).
Proof.
  intros Hok Hx Hy. unfold gfx_pixel, put_pixel.
  destruct (Z.ltb_spec x (fb_width fb)); [destruct (Z.ltb_spec y (fb_height fb))|]; cbn [andb];
    try (apply painted_none; intros a b [Ha Hb]; lia).
  split; [done|]. intros a b Hab. rewrite load_store; [|done| |done]; [|by split].
  destruct (bool_decide_reflect ((x, y) = (a, b))) as [E|E].
  - injection E as -> ->. auto.
  - split; [|by left]. intros [-> ->]. done.
Qed.

End Painted.

(** A painted point has its colour, and only painted points change. *)
Lemma painted_load (C : Z -> Z -> Z) (S : Z -> Z -> bool) fb fb' (a b : Z) :
  painted C (fun a b => S a b = true) fb fb' -> on_screen fb a b ->
  load fb' a b = if S a b then u32 (C a b) else load fb a b.
Proof.
  intros [_ H] Hab. destruct (H a b Hab) as [H1 H2]. destruct (S a b); [auto|].
  destruct H2 as [H2|[H2 _]]; done.
Qed.

Lemma fill_rect_painted (x y w h color : Z) fb :
  fb_ok fb -> 0 <= x -> 0 <= y ->
  painted (fun _ _ => color) (fun a b => x <= a < u32 (x + w) /\ y <= b < u32 (y + h)) fb
    (gfx_fill_rect x y w h color fb).
Proof.
  intros Hok Hx Hy. unfold gfx_fill_rect. rewrite fill_rect_plots by done.
  set (ps := rect _ _ _ _). split; [apply plots_geometry|]. intros a b Hab.
  assert (Hin : (a, b) ∈ ps <-> x <= a < u32 (x + w) /\ y <= b < u32 (y + h)).
  { unfold ps. rewrite elem_of_rect. destruct Hab as [Ha Hb]. lia. }
  rewrite load_plots; [|done| |done]. 1: rewrite <- Hin.
  - destruct (bool_decide_reflect ((a, b) ∈ ps)); naive_solver.
  - apply Forall_forall. intros [c d] Hcd%elem_of_rect. cbn. split; lia.
Qed.

(** ** The rounded rectangle *)

(** How far [a] reaches into the first or last [r] of the [w] columns from [x]. *)
Definition inset (x w r a : Z) : Z := Z.max 0 (Z.max (x + r - 1 - a) (a - (x + w - r))).
Definition in_rounded (x y w h r a b : Z) : bool :=
  (x <=? a) && (a <? x + w) && (y <=? b) && (b <? y + h) &&
  (inset x w r a * inset x w r a + inset y h r b * inset y h r b <=? r * r).

Section Rounded.
  Context (x y w h r color : Z).
  Context (Hx : 0 <= x) (Hy : 0 <= y) (Hr : 0 <= r < 2 ^ 15) (Hw : 2 * r <= w) (Hh : 2 * r <= h).
  Context (Hxw : x + w < 2 ^ 32) (Hyh : y + h < 2 ^ 32).

(** The four points of round [(px, py)] of the corner loops. *)
Definition corner_points (px py a b : Z) : Prop :=
  (r - px - 1) * (r - px - 1) + (r - py - 1) * (r - py - 1) <= r * r /\
  (a = x + px \/ a = x + w - 1 - px) /\ (b = y + py \/ b = y + h - 1 - py).

Lemma corner_round (px py : Z) fb :
  fb_ok fb -> 0 <= px < r -> 0 <= py < r ->
  painted (fun _ _ => color) (corner_points px py) fb
    (let dx := u32 (r - px - 1) in
     let dy := u32 (r - py - 1) in
     if u32 (dx * dx + dy * dy) <=? u32 (r * r) then
       let fb := gfx_pixel (u32 (x + px)) (u32 (y + py)) color fb in
       let fb := gfx_pixel (u32 (x + w - 1 - px)) (u32 (y + py)) color fb in
       let fb := gfx_pixel (u32 (x + px)) (u32 (y + h - 1 - py)) color fb in
       gfx_pixel (u32 (x + w - 1 - px)) (u32 (y + h - 1 - py)) color fb
     else fb).
Proof.
  intros Hok Hpx Hpy. cbv zeta. rewrite !(uwrap_small 32 (r - _ - 1)) by lia.
  rewrite !(uwrap_small 32 (_ * _)) by nia. rewrite (uwrap_small 32 (_ + _ * _)) by nia.
  rewrite !(uwrap_small 32) by lia. unfold corner_points.
  destruct (Z.leb_spec ((r - px - 1) * (r - px - 1) + (r - py - 1) * (r - py - 1)) (r * r)) as [Hle|Hgt].
  2: { apply painted_none. intros a b _. lia. }
  assert (Hpix : forall u v f, fb_ok f -> 0 <= u -> 0 <= v ->
    painted (fun _ _ => color) (fun a b => a = u /\ b = v) f (gfx_pixel u v color f) /\ fb_ok (gfx_pixel u v color f)).
  { intros u v f Hf Hu Hv. pose proof (painted_pixel (fun _ _ => color) u v f Hf Hu Hv) as H.
    split; [exact H|]. apply (geometry_ok f); [apply H|done]. }
  destruct (Hpix (x + px) (y + py) fb Hok ltac:(lia) ltac:(lia)) as [P1 K1].
  destruct (Hpix (x + w - 1 - px) (y + py) _ K1 ltac:(lia) ltac:(lia)) as [P2 K2].
  destruct (Hpix (x + px) (y + h - 1 - py) _ K2 ltac:(lia) ltac:(lia)) as [P3 K3].
  destruct (Hpix (x + w - 1 - px) (y + h - 1 - py) _ K3 ltac:(lia) ltac:(lia)) as [P4 _].
  eapply painted_seq; [|exact P4|].
  - exact (painted_or _ _ _ _ _ _ (painted_or _ _ _ _ _ _ P1 P2) P3).
  - intros a b _. cbv beta. clear -Hle. split; [intros (_ & Ha & Hb)|intros H; split; [done|]]; clear Hle; lia.
Qed.

Lemma corner_loops fb : fb_ok fb ->
  painted (fun _ _ => color)
    (fun a b => exists py, py ∈ seqZ 0 r /\ exists px, px ∈ seqZ 0 r /\ corner_points px py a b) fb
    (for_up (Z.to_nat r) (fun py => py <? r)
      (fun py fb =>
         for_up (Z.to_nat r) (fun px => px <? r)
           (fun px fb =>
              let dx := u32 (r - px - 1) in
              let dy := u32 (r - py - 1) in
              if u32 (dx * dx + dy * dy) <=? u32 (r * r) then
                let fb := gfx_pixel (u32 (x + px)) (u32 (y + py)) color fb in
                let fb := gfx_pixel (u32 (x + w - 1 - px)) (u32 (y + py)) color fb in
                let fb := gfx_pixel (u32 (x + px)) (u32 (y + h - 1 - py)) color fb in
                gfx_pixel (u32 (x + w - 1 - px)) (u32 (y + h - 1 - py)) color fb
              else fb) 0 fb) 0 fb).
Proof.
  intros Hok. rewrite (for_up_range _ _ _ r) by (done || lia). rewrite Z.sub_0_r.
  apply painted_loop. intros py f Hpy%elem_of_seqZ Hg.
  rewrite (for_up_range _ _ _ r) by (done || lia). rewrite Z.sub_0_r.
  apply painted_loop. intros px g Hpx%elem_of_seqZ Hg'.
  apply corner_round; [|lia|lia]. apply (geometry_ok f); [done|]. by apply (geometry_ok fb).
Qed.

(** Which points the three rectangles and the corners make up. *)
Lemma rounded_cover (a b : Z) :
  in_rounded x y w h r a b = true <->
  ((x + r <= a < x + w - r /\ y <= b < y + h) \/ (x <= a < x + r /\ y + r <= b < y + h - r)
   \/ (x + w - r <= a < x + w /\ y + r <= b < y + h - r))
  \/ exists py, py ∈ seqZ 0 r /\ exists px, px ∈ seqZ 0 r /\ corner_points px py a b.
Proof.
  unfold in_rounded. rewrite !andb_true_iff, !Z.leb_le, !Z.ltb_lt. unfold corner_points. split.
  - intros ((((H1 & H2) & H3) & H4) & H5).
    destruct (decide (x + r <= a < x + w - r)) as [Ha|Ha]; [left; lia|].
    destruct (decide (y + r <= b < y + h - r)) as [Hb|Hb]; [left; lia|]. right.
    exists (Z.min (b - y) (y + h - 1 - b)). split; [apply elem_of_seqZ; lia|].
    exists (Z.min (a - x) (x + w - 1 - a)). split; [apply elem_of_seqZ; lia|].
    replace (r - Z.min (a - x) (x + w - 1 - a) - 1) with (inset x w r a) by (unfold inset; lia).
    replace (r - Z.min (b - y) (y + h - 1 - b) - 1) with (inset y h r b) by (unfold inset; lia).
    split; [done|]. lia.
  - intros [H|(py & Hpy%elem_of_seqZ & px & Hpx%elem_of_seqZ & Hd & Ha & Hb)].
    + assert (Hi : inset x w r a = 0 /\ 0 <= inset y h r b <= r \/ inset y h r b = 0 /\ 0 <= inset x w r a <= r)
        by (unfold inset; lia).
      split; [lia|]. nia.
    + assert (Ei : inset x w r a = r - px - 1) by (unfold inset; lia).
      assert (Ej : inset y h r b = r - py - 1) by (unfold inset; lia).
      rewrite Ei, Ej. lia.
Qed.

Lemma rounded_painted fb : fb_ok fb ->
  painted (fun _ _ => color) (fun a b => in_rounded x y w h r a b = true) fb (gfx_rounded_rect x y w h r color fb).
Proof.
  intros Hok. unfold gfx_rounded_rect. cbv zeta.
  assert (Hfill : forall a b c d f, fb_ok f -> 0 <= a -> 0 <= b ->
    painted (fun _ _ => color) (fun u v => a <= u < u32 (a + c) /\ b <= v < u32 (b + d)) f (gfx_fill_rect a b c d color f)
    /\ fb_ok (gfx_fill_rect a b c d color f)).
  { intros a b c d f Hf Ha Hb. pose proof (fill_rect_painted a b c d color f Hf Ha Hb) as H.
    split; [exact H|]. apply (geometry_ok f); [apply H|done]. }
  destruct (Hfill (u32 (x + r)) y (u32 (w - 2 * r)) h fb Hok (u32_nonneg _) Hy) as [P1 K1].
  destruct (Hfill x (u32 (y + r)) r (u32 (h - 2 * r)) _ K1 Hx (u32_nonneg _)) as [P2 K2].
  destruct (Hfill (u32 (x + w - r)) (u32 (y + r)) r (u32 (h - 2 * r)) _ K2 (u32_nonneg _) (u32_nonneg _)) as [P3 K3].
  eapply painted_seq; [|exact (corner_loops _ K3)|].
  - exact (painted_or _ _ _ _ _ _ (painted_or _ _ _ _ _ _ P1 P2) P3).
  - intros a b _. rewrite rounded_cover.
    rewrite !(uwrap_small 32) by (rewrite ?uwrap_small; lia). apply Morphisms_Prop.or_iff_morphism; [lia|done].
Qed.
End Rounded.

(** [gfx_rounded_rect] paints exactly the rounded rectangle: on the screen, a
    pixel gets the colour if it lies in the rectangle and not farther than the
    radius into its corners, and keeps its colour otherwise. *)
Theorem gfx_rounded_rect_correct (x y w h r color : Z) fb (a b : Z) :
  fb_ok fb -> 0 <= x -> 0 <= y -> 0 <= r < 2 ^ 15 -> 2 * r <= w -> 2 * r <= h ->
  x + w < 2 ^ 32 -> y + h < 2 ^ 32 -> on_screen fb a b ->
  load (gfx_rounded_rect x y w h r color fb) a b
  = if in_rounded x y w h r a b then u32 color else load fb a b.
Proof.
  intros Hok Hx Hy Hr Hw Hh Hxw Hyh Hab.
  apply (painted_load (fun _ _ => color) (in_rounded x y w h r)); [|done]. by apply rounded_painted.
Qed.

(** ** Text *)

Definition font_bit (c cx cy : Z) : bool :=
  let c := if (c <? 32) || (126 <? c) then 63 else c in
  negb (Z.land (zget (default [] (font_data !! Z.to_nat (c - 32))) cy) (Z.shiftr 0x80 cx) =? 0).

Lemma painted_color (C C' : Z -> Z -> Z) (S : Z -> Z -> Prop) fb f :
  painted C S fb f -> (forall a b, S a b -> C' a b = C a b) -> painted C' S fb f.
Proof.
  intros [Hg H] E. split; [done|]. intros a b Hab. destruct (H a b Hab) as [H1 H2]. split.
  - intros Hs. rewrite E by done. auto.
  - destruct H2 as [->|[Hs ->]]; [by left|]. right. by rewrite E.
Qed.

(** A character: the set bits of its glyph in [fg], the others in [bg], colour 0
    left out. *)
Definition char_color (x y c fg bg a b : Z) : Z := if font_bit c (a - x) (b - y) then fg else bg.
Lemma gfx_char_painted (x y c fg bg : Z) fb :
  fb_ok fb -> 0 <= x -> 0 <= y -> x + 8 <= 2 ^ 32 -> y + 16 <= 2 ^ 32 ->
  painted (char_color x y c fg bg)
    (fun a b => (x <= a < x + 8 /\ y <= b < y + 16) /\ char_color x y c fg bg a b <> 0) fb (gfx_char x y c fg bg fb).
Proof.
  intros Hok Hx Hy Hx8 Hy16. unfold gfx_char. cbv zeta.
  rewrite (for_up_range _ _ _ 16) by (done || lia).
  eapply painted_iff; [apply (painted_loop _ (fun cy a b => exists cx, cx ∈ seqZ 0 8 /\
    (a = x + cx /\ b = y + cy /\ char_color x y c fg bg a b <> 0)))|].
  - intros cy f Hcy%elem_of_seqZ Hg. rewrite (for_up_range _ _ _ 8) by (done || lia).
    apply painted_loop. intros cx g Hcx%elem_of_seqZ Hg'. rewrite !(uwrap_small 32) by lia.
    assert (Hk : fb_ok g) by (apply (geometry_ok f); [done|]; by apply (geometry_ok fb)).
    pose proof (painted_pixel (char_color x y c fg bg) (x + cx) (y + cy) g Hk ltac:(lia) ltac:(lia)) as Hp.
    unfold char_color at 2 in Hp. unfold font_bit in Hp.
    replace (x + cx - x) with cx in Hp by lia. replace (y + cy - y) with cy in Hp by lia.
    assert (Ec : forall a b, a = x + cx /\ b = y + cy -> char_color x y c fg bg a b
      = if font_bit c cx cy then fg else bg).
    { intros a b [-> ->]. unfold char_color. by replace (x + cx - x) with cx by lia;
        replace (y + cy - y) with cy by lia. }
    fold (font_bit c cx cy). fold (font_bit c cx cy) in Hp.
    destruct (Z.eqb_spec (if font_bit c cx cy then fg else bg) 0) as [E|E]; cbn [negb].
    + apply painted_none. intros a b _ (Ha & Hb & Hc). apply Hc. rewrite Ec by done. done.
    + eapply painted_iff; [exact Hp|]. intros a b _. cbv beta. split; [tauto|].
      intros [-> ->]. split_and!; [done..|]. by rewrite Ec.
  - intros a b _. cbv beta. rewrite Z.sub_0_r. split.
    + intros [Hab Hc]. exists (b - y). split; [apply elem_of_seqZ; lia|].
      exists (a - x). split; [apply elem_of_seqZ; lia|]. split_and!; [lia|lia|done].
    + intros (cy & Hcy%elem_of_seqZ & cx & Hcx%elem_of_seqZ & Ha & Hb & Hc). split; [lia|done].
Qed.

(** The pixels a line of text at [(x, y)] covers. *)
Definition text_bit (x y : Z) (str : list Z) (a b : Z) : bool :=
  (x <=? a) && (a <? x + 8 * zlen str) && (y <=? b) && (b <? y + 16)
  && font_bit (zget str ((a - x) / 8)) ((a - x) mod 8) (b - y).

Lemma text_bit_cons (x y c : Z) (str : list Z) (a b : Z) :
  text_bit x y (c :: str) a b = true <->
  ((x <= a < x + 8 /\ y <= b < y + 16) /\ font_bit c (a - x) (b - y) = true)
  \/ text_bit (x + 8) y str a b = true.
Proof.
  unfold text_bit, zlen. cbn [length]. rewrite !andb_true_iff, !Z.leb_le, !Z.ltb_lt.
  destruct (decide (a < x + 8)) as [Ha|Ha].
  - split; [intros H|intros [H|H]]; [left| |lia]; destruct H as [H Hf].
    + rewrite Z.div_small, Z.mod_small in Hf by lia. split; [lia|done].
    + rewrite Z.div_small, Z.mod_small by lia. split; [lia|done].
  - replace (a - x) with (a - (x + 8) + 1 * 8) by lia. rewrite Z.div_add, Z.mod_add by lia.
    destruct (decide (0 <= a - (x + 8))) as [H0|H0]; [|lia].
    assert (Hq : 0 <= (a - (x + 8)) / 8) by (apply Z.div_pos; lia).
    replace (zget (c :: str) ((a - (x + 8)) / 8 + 1)) with (zget str ((a - (x + 8)) / 8)).
    + split; [intros [H Hf]; right|intros [H|[H Hf]]; [lia|]]; (split; [lia|done]).
    + unfold zget. by replace (Z.to_nat ((a - (x + 8)) / 8 + 1)) with (S (Z.to_nat ((a - (x + 8)) / 8))) by lia.
Qed.

Lemma gfx_text_painted (color : Z) (str : list Z) : color <> 0 -> Forall (fun c => c <> 0 /\ c <> 10) str ->
  forall (x y : Z) fb, fb_ok fb -> 0 <= x -> 0 <= y -> x + 8 * zlen str < 2 ^ 32 -> y + 16 <= 2 ^ 32 ->
  painted (fun _ _ => color) (fun a b => text_bit x y str a b = true) fb (gfx_text x y str color fb).
Proof.
  intros Hcol. unfold gfx_text. induction str as [|c str IH]; intros Hs x y fb Hok Hx Hy Hxl Hyl.
  { apply painted_none. intros a b _. unfold text_bit, zlen. cbn. zcases; cbn; (lia || done). }
  apply Forall_cons in Hs as [[H0 H10] Hs]. cbn [gfx_string].
  rewrite (proj2 (Z.eqb_neq c 0)), (proj2 (Z.eqb_neq c 10)) by done.
  unfold zlen in Hxl. cbn [length] in Hxl. rewrite uwrap_small by (unfold FONT_WIDTH; lia).
  pose proof (gfx_char_painted x y c color 0 fb Hok Hx Hy ltac:(lia) Hyl) as Hp.
  assert (Hk : fb_ok (gfx_char x y c color 0 fb)) by (apply (geometry_ok fb); [apply Hp|done]).
  eapply painted_seq.
  - eapply painted_color; [exact Hp|]. intros a b [_ Hc]. unfold char_color in *.
    by destruct (font_bit c (a - x) (b - y)).
  - apply IH; [done|exact Hk|unfold FONT_WIDTH, zlen; lia..].
  - intros a b _. change (x + FONT_WIDTH) with (x + 8). rewrite text_bit_cons.
    apply Morphisms_Prop.or_iff_morphism; [|done]. unfold char_color.
    destruct (font_bit c (a - x) (b - y)); naive_solver.
Qed.

(** [gfx_text] paints exactly the glyphs: after drawing a line of text, the
    pixels on the screen covered by the set bits of the characters' glyphs, 8
    columns each, have the colour, and every other pixel is unchanged. *)
Theorem gfx_text_correct (x y : Z) (str : list Z) (color : Z) fb (a b : Z) :
  fb_ok fb -> color <> 0 -> Forall (fun c => c <> 0 /\ c <> 10) str ->
  0 <= x -> 0 <= y -> x + 8 * zlen str < 2 ^ 32 -> y + 16 <= 2 ^ 32 -> on_screen fb a b ->
  load (gfx_text x y str color fb) a b = if text_bit x y str a b then u32 color else load fb a b.
Proof.
  intros Hok Hc Hs Hx Hy Hxl Hyl Hab.
  apply (painted_load (fun _ _ => color) (text_bit x y str)); [|done]. by apply gfx_text_painted.
Qed.

(** ** Numbers *)

Lemma digits_loop_acc (fuel : nat) : forall (n : Z) (acc : list Z),
  digits_loop 10 dec_digit fuel n acc = digits_loop 10 dec_digit fuel n [] ++ acc.
Proof.
  induction fuel as [|fuel IH]; intros n acc; cbn [digits_loop]; [done|].
  destruct (0 <? n); [|done]. rewrite IH, (IH _ [_]). by rewrite <- app_assoc.
Qed.

(** The digits in [tmp], the last one first. *)
Lemma tmp_loop_spec (fuel : nat) : forall (n : Z) (i : nat) (tmp : list Z),
  (i + fuel <= length tmp)%nat ->
  let ds := digits_loop 10 dec_digit fuel n [] in
  let r := tmp_loop fuel n (Z.of_nat i) tmp in
  length r.1 = length tmp /\ r.2 = Z.of_nat (i + length ds) /\
  take (i + length ds) r.1 = take i tmp ++ rev ds.
Proof.
  induction fuel as [|fuel IH]; intros n i tmp Hi; cbn [digits_loop tmp_loop].
  { cbn. rewrite Nat.add_0_r, app_nil_r. done. }
  destruct (0 <? n).
  2: { cbn. rewrite Nat.add_0_r, app_nil_r. done. }
  rewrite digits_loop_acc. replace (Z.of_nat i + 1) with (Z.of_nat (S i)) by lia.
  destruct (IH (n / 10) (S i) (zset tmp (Z.of_nat i) (48 + n mod 10))) as (H1 & H2 & H3).
  { unfold zset. rewrite length_insert. lia. }
  set (ds := digits_loop _ _ _ _ _) in *. set (r := tmp_loop _ _ _ _) in *.
  unfold zset in H1, H3. rewrite length_insert in H1. rewrite Nat2Z.id in H3.
  rewrite length_app. cbn [length]. replace (i + (length ds + 1))%nat with (S i + length ds)%nat by lia.
  split_and!; [done|done|]. rewrite H3, rev_app_distr. cbn [rev app].
  rewrite (take_S_r _ _ (48 + n mod 10)) by (apply list_lookup_insert_eq; lia).
  rewrite take_insert_ge by lia. by rewrite <- app_assoc.
Qed.

Lemma buf_loop_spec (tmp : list Z) (i : nat) : forall (j : nat) (buf : list Z),
  (i <= length tmp)%nat -> (j + i < length buf)%nat ->
  buf_loop i (Z.of_nat j) tmp buf = take j buf ++ rev (take i tmp) ++ 0 :: drop (S (j + i)) buf.
Proof.
  induction i as [|i IH]; intros j buf Ht Hb; cbn [buf_loop].
  - unfold zset. rewrite Nat2Z.id, Nat.add_0_r. cbn. by rewrite insert_take_drop by lia.
  - replace (Z.of_nat j + 1) with (Z.of_nat (S j)) by lia.
    rewrite IH; [|lia|unfold zset; rewrite length_insert; lia].
    destruct (lookup_lt_is_Some_2 tmp i ltac:(lia)) as [d Hd].
    unfold zset, zget. rewrite !Nat2Z.id, Hd. cbn [default].
    rewrite (take_S_r _ _ d) by (apply list_lookup_insert_eq; lia).
    rewrite take_insert_ge by lia. rewrite (take_S_r tmp i d) by done.
    rewrite rev_app_distr. cbn [rev app]. rewrite <- !app_assoc. cbn [app].
    rewrite drop_insert_lt by lia. by replace (S (S j + i)) with (S (j + S i)) by lia.
Qed.

(** [int_to_str] writes the decimal numeral of a 64-bit number and its
    terminating 0 at the start of the buffer, and nothing else, when the buffer
    has room for 21 characters. *)
Theorem int_to_str_correct (num : Z) (buf : list Z) :
  0 <= num < 2 ^ 64 -> (21 <= length buf)%nat ->
  int_to_str num buf = dec num ++ 0 :: drop (S (length (dec num))) buf /\
  cstr (int_to_str num buf) = dec num.
Proof.
  intros Hn Hb. assert (E : int_to_str num buf = dec num ++ 0 :: drop (S (length (dec num))) buf).
  2: { split; [exact E|]. rewrite E. by apply cstr_app_0, dec_nonzero. }
  unfold int_to_str. destruct (Z.eqb_spec num 0) as [->|H0].
  { destruct buf as [|b0 [|b1 buf]]; cbn in Hb; [lia..|]. done. }
  assert (Hds : digits_loop 10 dec_digit 20 num [] = dec num).
  { unfold dec. rewrite (digits_loop_numeral 10 dec_digit ltac:(lia) 19); [by rewrite app_nil_r|].
    change (Z.of_nat 20) with 20. change (10 ^ 20) with 100000000000000000000. lia. }
  destruct (tmp_loop_spec 20 num 0 (replicate 32 0)) as (H1 & H2 & H3); [rewrite length_replicate; lia|].
  change (Z.of_nat 0) with 0 in *. rewrite Hds in H2, H3. rewrite length_replicate in H1.
  destruct (tmp_loop 20 num 0 (replicate 32 0)) as [tmp i]. cbn [fst snd] in *. rewrite H2.
  cbn [Nat.add take app] in *. rewrite Nat2Z.id.
  pose proof (numeral_length 10 dec_digit 19 num) as Hl. fold (dec num) in Hl.
  change 0 with (Z.of_nat 0) at 1. rewrite buf_loop_spec by lia. rewrite H3, !take_0. cbn [app]. by rewrite rev_involutive.
Qed.

(** ** Examples *)

Definition demo_gfx : fbuf := Fb ∅ 64 40 64.
Lemma demo_gfx_ok : fb_ok demo_gfx.
Proof. split; cbn; lia. Qed.

Lemma gfx_rounded_rect_correct_witness :
  load (gfx_rounded_rect 2 2 20 16 4 GFX_WHITE demo_gfx) 2 2 = 0 /\
  load (gfx_rounded_rect 2 2 20 16 4 GFX_WHITE demo_gfx) 3 4 = GFX_WHITE.
Proof.
  split; rewrite (gfx_rounded_rect_correct 2 2 20 16 4 GFX_WHITE demo_gfx) by
    (apply demo_gfx_ok || lia || split; cbn; lia); vm_compute; reflexivity.
Defined.

Lemma gfx_text_correct_witness :
  load (gfx_text 8 4 (lit "Up") COLOR_ACCENT demo_gfx) 9 6 = COLOR_ACCENT.
Proof.
  rewrite (gfx_text_correct 8 4 (lit "Up") COLOR_ACCENT demo_gfx) by
    (apply demo_gfx_ok || done || (unfold zlen; cbn; lia) || (repeat constructor; done) || split; cbn; lia).
  vm_compute. reflexivity.
Defined.

Lemma int_to_str_correct_witness : cstr (int_to_str 1024 (replicate 64 7)) = lit "1024".
Proof. apply (int_to_str_correct 1024 (replicate 64 7)); [lia|rewrite length_replicate; lia]. Defined.
