(* ===== verification/BootInfo.v ===== *)
(** * Boot information ([include/bootinfo.h])

    The structure the bootloader passes to the kernel.  The memory map is an
    array of [memory_map_entry_t] in memory; the kernel indexes it with the size
    of that structure. *)

From S2P Require Import Prelude Mem PageAlloc Pmm.

Definition BOOTINFO_MAGIC : Z := 0x53494D504C454F53.

Record framebuffer_info := FramebufferInfo {
  fbi_base : Z; fbi_size : Z; fbi_width : Z; fbi_height : Z; fbi_pitch : Z; fbi_bpp : Z;
  red_mask_size : Z; red_mask_shift : Z; green_mask_size : Z; green_mask_shift : Z;
  blue_mask_size : Z; blue_mask_shift : Z
}.
Record boot_info := BootInfo {
  magic : Z; version : Z; framebuffer : framebuffer_info;
  mmap_entries : Z; mmap_entry_size : Z; mmap : Z;
  acpi_rsdp : Z; kernel_physical_base : Z; kernel_virtual_base : Z; kernel_size : Z
}.

(** [sizeof(memory_map_entry_t)], and [mmap[i]] of the array at [a]. *)
Definition MMAP_STRIDE : Z := 40.
Definition entry_at (m : memory) (a : Z) : memory_map_entry :=
  MemoryMapEntry (rd32 m a) (rd32 m (a + 4)) (rd64 m (a + 8)) (rd64 m (a + 16)) (rd64 m (a + 24)) (rd64 m (a + 32)).
Definition mmap_list (m : memory) (bi : boot_info) : list memory_map_entry :=
  (fun i => entry_at m (mmap bi + MMAP_STRIDE * i)) <$> seqZ 0 (mmap_entries bi).
(** The argument [boot_info->mmap] of [pmm_init]. *)
Definition mmap_array (m : memory) (bi : boot_info) : option (list memory_map_entry) :=
  if mmap bi =? 0 then None else Some (mmap_list m bi).

Lemma entry_at_ok (m : memory) (a : Z) : entry_ok (entry_at m a).
Proof. split; apply (rd64_range m). Qed.
Lemma mmap_list_ok (m : memory) (bi : boot_info) : Forall entry_ok (mmap_list m bi).
Proof. apply Forall_fmap, Forall_true. intros i. apply entry_at_ok. Qed.
Lemma mmap_list_length (m : memory) (bi : boot_info) : length (mmap_list m bi) = Z.to_nat (mmap_entries bi).
Proof. unfold mmap_list. by rewrite length_fmap, length_seqZ. Qed.
