(* ===== verification/Efi.v ===== *)
(** * The firmware ([boot/efi.h])

    The types and constants of the UEFI header, and the boot and runtime services
    the loader calls.  The services are not part of the sources: [Firmware] is
    their signature, with the state of the firmware passed explicitly, and
    [FirmwareLaws] states what the UEFI specification documents of the memory
    map, of leaving the boot services and of the keyboard. *)

From S2P Require Import Prelude Mem PageAlloc Pmm BootInfo.

(** ** Status codes *)

Definition EFI_SUCCESS : Z := 0.
Definition EFI_ERROR_MASK : Z := 0x8000000000000000.
(** [((INTN)(s)) < 0] *)
Definition EFI_ERROR (s : Z) : bool := 2 ^ 63 <=? u64 s.
Definition EFI_LOAD_ERROR : Z := Z.lor EFI_ERROR_MASK 1.
Definition EFI_INVALID_PARAMETER : Z := Z.lor EFI_ERROR_MASK 2.
Definition EFI_UNSUPPORTED : Z := Z.lor EFI_ERROR_MASK 3.
Definition EFI_BUFFER_TOO_SMALL : Z := Z.lor EFI_ERROR_MASK 5.
Definition EFI_NOT_READY : Z := Z.lor EFI_ERROR_MASK 6.
Definition EFI_OUT_OF_RESOURCES : Z := Z.lor EFI_ERROR_MASK 9.
Definition EFI_NOT_FOUND : Z := Z.lor EFI_ERROR_MASK 14.

(** ** Types *)

Inductive EFI_MEMORY_TYPE :=
  | EfiReservedMemoryType | EfiLoaderCode | EfiLoaderData | EfiBootServicesCode | EfiBootServicesData
  | EfiRuntimeServicesCode | EfiRuntimeServicesData | EfiConventionalMemory | EfiUnusableMemory
  | EfiACPIReclaimMemory | EfiACPIMemoryNVS | EfiMemoryMappedIO | EfiMemoryMappedIOPortSpace
  | EfiPalCode | EfiPersistentMemory | EfiMaxMemoryType.
Definition memory_type_code (t : EFI_MEMORY_TYPE) : Z :=
  match t with
  | EfiReservedMemoryType => 0 | EfiLoaderCode => 1 | EfiLoaderData => 2 | EfiBootServicesCode => 3
  | EfiBootServicesData => 4 | EfiRuntimeServicesCode => 5 | EfiRuntimeServicesData => 6
  | EfiConventionalMemory => 7 | EfiUnusableMemory => 8 | EfiACPIReclaimMemory => 9
  | EfiACPIMemoryNVS => 10 | EfiMemoryMappedIO => 11 | EfiMemoryMappedIOPortSpace => 12
  | EfiPalCode => 13 | EfiPersistentMemory => 14 | EfiMaxMemoryType => 15
  end.
Inductive EFI_RESET_TYPE := EfiResetCold | EfiResetWarm | EfiResetShutdown | EfiResetPlatformSpecific.
Inductive EFI_ALLOCATE_TYPE := AllocateAnyPages | AllocateMaxAddress | AllocateAddress | MaxAllocateType.
Record EFI_INPUT_KEY := InputKey { ScanCode : Z; UnicodeChar : Z }.

(** [gop->Mode] with [gop->Mode->Info]: the fields the loader reads. *)
Record gop_mode := GopMode {
  FrameBufferBase : Z; FrameBufferSize : Z;
  HorizontalResolution : Z; VerticalResolution : Z; PixelsPerScanLine : Z
}.
(** The fields of [EFI_SYSTEM_TABLE] the loader shows. *)
Record system_table := SystemTable { FirmwareVendor : list Z; Revision : Z }.

(** [EFI_MEMORY_DESCRIPTOR]: the fields lie where those of [memory_map_entry_t]
    do, [PhysicalStart] being aligned to 8. *)
Definition desc_Type (m : memory) (d : Z) : Z := rd32 m d.
Definition desc_NumberOfPages (m : memory) (d : Z) : Z := rd64 m (d + 24).

(** The variables of the caller that [GetMemoryMap] writes. *)
Record map_vars := MapVars { mmap_size : Z; map_key : Z; desc_size : Z; desc_ver : Z }.
Definition with_size (n : Z) (v : map_vars) : map_vars := MapVars n (map_key v) (desc_size v) (desc_ver v).

(** ** The services *)

Class Firmware (F : Type) := {
  (** status, variables, firmware and memory after the call *)
  GetMemoryMap : Z -> map_vars -> F -> memory -> Z * map_vars * F * memory;
  (** status and address *)
  AllocatePool : EFI_MEMORY_TYPE -> Z -> F -> Z * Z * F;
  FreePool : Z -> F -> F;
  AllocatePages : EFI_ALLOCATE_TYPE -> EFI_MEMORY_TYPE -> Z -> Z -> F -> Z * Z * F;
  ExitBootServices : Z -> F -> Z * F;
  (** status and the interface, [None] for NULL *)
  LocateProtocol : F -> Z * option gop_mode * F;
  Stall : Z -> F -> F;
  SetWatchdogTimer : F -> F;
  (** [None]: the call does not return *)
  ResetSystem : EFI_RESET_TYPE -> F -> option F;
  ConInReset : F -> F;
  ReadKeyStroke : F -> Z * EFI_INPUT_KEY * F;
  ClearScreen : F -> F;
  OutputString : list Z -> F -> F
}.

(** ** What the specification documents *)

(** A map of descriptors laid out in memory, [size] bytes apart. *)
Definition map_at (m : memory) (buf size : Z) (es : list memory_map_entry) : Prop :=
  forall (i : nat) e, es !! i = Some e -> entry_at m (buf + size * Z.of_nat i) = e.

Class FirmwareLaws (F : Type) `{Firmware F} := {
  (** The size of a descriptor; the current memory map and its key. *)
  fw_desc_size : Z;
  fw_map : F -> list memory_map_entry;
  fw_key : F -> Z;
  (** What the next polls of the keyboard find. *)
  fw_polls : F -> list (option EFI_INPUT_KEY);
  (** Whether the boot services are still there. *)
  fw_boot : F -> bool;
  fw_bytes (f : F) : Z := fw_desc_size * zlen (fw_map f);
  calm (f f' : F) : Prop := fw_polls f' = fw_polls f /\ fw_boot f' = fw_boot f;
  fw_desc_size_ok : 40 <= fw_desc_size < 2 ^ 32;
  fw_map_length f : 0 < zlen (fw_map f) < 2 ^ 16;
  (** A buffer that is too small: the required size is returned. *)
  GetMemoryMap_small buf v f m : mmap_size v < fw_bytes f ->
    exists key, GetMemoryMap buf v f m
      = (EFI_BUFFER_TOO_SMALL, MapVars (fw_bytes f) key fw_desc_size (desc_ver v), f, m);
  (** A buffer that is large enough: it is filled with the map. *)
  GetMemoryMap_ok buf v f m : fw_bytes f <= mmap_size v -> buf <> 0 ->
    exists m', GetMemoryMap buf v f m
      = (EFI_SUCCESS, MapVars (fw_bytes f) (fw_key f) fw_desc_size (desc_ver v), f, m') /\
    map_at m' buf fw_desc_size (fw_map f) /\
    forall a, ~ (buf <= a < buf + fw_bytes f) -> rd8 m' a = rd8 m a;
  (** The boot services end only for the key of the current map; otherwise they
      are still there. *)
  ExitBootServices_law key f : fw_boot f = true -> let '(status, f') := ExitBootServices key f in
    (status = EFI_SUCCESS /\ key = fw_key f /\ fw_map f' = fw_map f /\ fw_boot f' = false)
    \/ (EFI_ERROR status = true /\ calm f f');
  (** A successful allocation returns the address of a buffer. *)
  AllocatePool_law t n f : let '(status, a, f') := AllocatePool t n f in
    calm f f' /\ (EFI_ERROR status = false -> 0 < a /\ a + n <= 2 ^ 64);
  AllocatePages_law t k n a f : calm f (AllocatePages t k n a f).2;
  FreePool_law a f : calm f (FreePool a f);
  LocateProtocol_law f : calm f (LocateProtocol f).2;
  Stall_law n f : calm f (Stall n f);
  SetWatchdogTimer_law f : calm f (SetWatchdogTimer f);
  ConInReset_law f : calm f (ConInReset f);
  (** A poll of the keyboard takes the next event. *)
  ReadKeyStroke_law f : match fw_polls f with
    | None :: ps => exists k f', ReadKeyStroke f = (EFI_NOT_READY, k, f')
                      /\ fw_polls f' = ps /\ fw_boot f' = fw_boot f
    | Some k :: ps => exists f', ReadKeyStroke f = (EFI_SUCCESS, k, f')
                      /\ fw_polls f' = ps /\ fw_boot f' = fw_boot f
    | [] => True
    end
}.
