(* ===== verification/Kernel.v ===== *)
(** * Start of the kernel ([kernel/kernel.c])

    [kernel_main] brings the components up one after another and enters the
    shell.  Its state collects theirs; the addresses of tables and stubs that the
    linker fixes are parameters.  The theorem shows that every component it starts
    is then in a state that satisfies its invariant, so that the theorems of the
    other files apply from there on; paging, system calls and the scheduler are
    not started. *)

From S2P Require Import Prelude Mem PageAlloc Pmm Heap Vmm Gdt Process Io Pic Keyboard Idt History Text Framebuffer Console Shell Commands BootInfo.

(** The state of the kernel: what the shell works on, the IDT, the keyboard, the
    boot information and whether interrupts are enabled. *)
Record kernel (D : Type) := Kernel {
  k_sys : sys console D; k_idt : idt_state; k_kbd : keyboard;
  g_boot_info : option boot_info; interrupts : bool
}.
Arguments Kernel {D}.
Arguments k_sys {D}.
Arguments k_idt {D}.
Arguments k_kbd {D}.
Arguments g_boot_info {D}.
Arguments interrupts {D}.

(** Addresses fixed by the linker, and the stack pointer in [kernel_main]. *)
Record layout := Layout {
  tss_addr : Z; gdt_addr : Z; idt_addr : Z; isr : Z -> Z; irq : Z -> Z; current_rsp : Z
}.

(** ** Messages *)

Section Messages.
  Context {C : Type} `{ConsoleOps C}.
  Implicit Types c : C.

Definition rule : list Z :=
  lit "================================================================================".
Definition say (color : Z) (msg : list Z) c : C := console_print msg (con_set_color color c).
Definition status (msg : list Z) c : C := say COLOR_WHITE msg (say COLOR_GREEN (lit "  [OK] ") c).
Definition phase (msg : list Z) c : C := con_set_color COLOR_WHITE (say COLOR_YELLOW msg c).

Definition print_header c : C :=
  let c := say COLOR_CYAN (rule ++ nl) c in
  let c := say COLOR_WHITE (lit "                      SimpleOS Kernel v0.2 - Full Featured" ++ nl) c in
  say COLOR_CYAN (rule ++ nl ++ nl) c.

Definition summary c : C :=
  let c := say COLOR_CYAN (rule ++ nl) c in
  let c := say COLOR_WHITE (lit "                           System Initialization Complete" ++ nl) c in
  let c := say COLOR_CYAN (rule ++ nl ++ nl) c in
  let c := say COLOR_WHITE (lit "Features enabled:" ++ nl) c in
  let c := console_print (lit "  - CPU Scheduling:    Priority-based preemptive scheduler" ++ nl) c in
  let c := console_print (lit "  - Memory Management: PMM (bitmap) + VMM (4-level paging) + Heap" ++ nl) c in
  let c := console_print (lit "  - Device Drivers:    PIT Timer, PS/2 Keyboard" ++ nl) c in
  let c := console_print (lit "  - System Calls:      SYSCALL/SYSRET with 6 basic calls" ++ nl) c in
  let c := console_print (lit "  - Interrupt Handling: GDT/IDT/PIC, exceptions + 16 IRQs" ++ nl ++ nl) c in
  let c := say COLOR_GREEN (lit "Kernel ready. Launching shell..." ++ nl ++ nl) c in
  con_set_color COLOR_WHITE c.
End Messages.

(** ** The phases *)

Section Main.
  Context {D : Type} {PD : PortDevice D}.
  Implicit Types (s : sys console D) (k : kernel D).

Definition with_procs (p : pstate pmm) s : sys console D := Sys (con s) (hist s) (tim s) p (hp s) (ports s).
Definition with_heap (h : heap) s : sys console D := Sys (con s) (hist s) (tim s) (ps s) h (ports s).
Definition on_cpu (f : gdt_state -> gdt_state) s : sys console D :=
  let p := ps s in
  with_procs (PState (processes p) (current_process p) (next_pid p) (vm p) (f (cpu p))) s.
Definition on_frames (f : pmm -> pmm) s : sys console D :=
  let p := ps s in let v := vm p in
  with_procs (PState (processes p) (current_process p) (next_pid p)
    (Vmm (kernel_pml4 v) (cr3 v) (vmem v) (f (frames v)) (flushed v)) (cpu p)) s.

(** The framebuffer, the screen and the header. *)
Definition start_screen (f : framebuffer_info) s : sys console D :=
  let fb := Fb (pixels (scr (con s))) (fbi_width f) (fbi_height f) (fbi_pitch f / 4) in
  let fb := clear_screen COLOR_DARK_BG fb in
  let fb := draw_logo (u32 (fb_width fb / 2 - 30)) 20 fb in
  let s := print (fun c => with_cursor 0 90 (with_scr fb c)) s in
  print print_header s.

(** Phase 1. *)
Definition start_interrupts (l : layout) s (i : idt_state) : sys console D * idt_state :=
  let s := print (phase (lit "Phase 1: Interrupt Handling" ++ nl)) s in
  let s := on_cpu (gdt_init (tss_addr l) (gdt_addr l)) s in
  let s := on_cpu (gdt_set_tss_stack (current_rsp l)) s in
  let s := print (status (lit "GDT initialized (kernel segments + TSS)" ++ nl)) s in
  let s := with_ports (pic_disable (pic_init (ports s))) s in
  let s := print (status (lit "PIC initialized (IRQs remapped to INT 32-47)" ++ nl)) s in
  let i := idt_init (isr l) (irq l) (idt_addr l) i in
  (print (status (lit "IDT initialized (256 interrupt vectors)" ++ nl ++ nl)) s, i).

(** Phase 2: the heap is the megabyte from 4 MB on. *)
Definition heap_base : Z := 0x400000.
Definition heap_bytes : Z := 1024 * 1024.
Definition start_memory (m : memory) (bi : boot_info) s : sys console D :=
  let s := print (phase (lit "Phase 2: Memory Management" ++ nl)) s in
  let s := on_frames (pmm_init (mmap_array m bi) (mmap_entries bi)) s in
  let s := print (status (lit "PMM initialized: ")) s in
  let s := print (print_dec (u64 (pmm_get_free_pages (frames (vm (ps s))) * 4) / 1024)) s in
  let s := print (console_print (lit " MB free" ++ nl)) s in
  let s := print (status (lit "Using UEFI page tables (custom VMM disabled for stability)" ++ nl)) s in
  let s := with_heap (heap_init heap_base heap_bytes (hp s)) s in
  let s := print (status (lit "Kernel heap initialized: ")) s in
  let s := print (print_dec (heap_bytes / 1024)) s in
  print (console_print (lit " KB" ++ nl ++ nl)) s.

(** Phases 3 and 4; [None]: a division by 0 in [timer_init]. *)
Definition start_devices s (kb : keyboard) : option (sys console D * keyboard) :=
  let s := print (phase (lit "Phase 3: System Call Interface" ++ nl)) s in
  let s := print (status (lit "System calls disabled (requires custom GDT)" ++ nl ++ nl)) s in
  let s := print (phase (lit "Phase 4: Device Drivers" ++ nl)) s in
  match timer_init TIMER_FREQUENCY (ports s) with
  | None => None
  | Some i =>
      let s := with_ports i s in
      let s := print (status (lit "PIT Timer initialized (100 Hz)" ++ nl)) s in
      let '(kb, i) := keyboard_init kb (ports s) in
      let s := with_ports i s in
      Some (print (status (lit "PS/2 Keyboard driver initialized" ++ nl ++ nl)) s, kb)
  end.

(** Phase 5. *)
Definition start_processes s : sys console D :=
  let s := print (phase (lit "Phase 5: CPU Scheduling" ++ nl)) s in
  let s := with_procs (process_init (ps s)) s in
  print (status (lit "Process subsystem initialized" ++ nl ++ nl)) s.

(** [kernel_main] up to [shell_run], with the memory the loader leaves; [None]:
    the processor is halted for ever (a division by 0 in [timer_init] would also be
    [None], but its argument is 100). *)
Definition kernel_main (l : layout) (m : memory) (boot : option boot_info) k : option (kernel D) :=
  match boot with
  | None => None
  | Some bi =>
      if negb (magic bi =? BOOTINFO_MAGIC) then None
      else
        let s := start_screen (framebuffer bi) (k_sys k) in
        let '(s, i) := start_interrupts l s (k_idt k) in
        let s := start_memory m bi s in
        match start_devices s (k_kbd k) with
        | None => None
        | Some (s, kb) =>
            let s := start_processes s in
            let s := print summary s in
            Some (Kernel (shell_init s) i kb (Some bi) true)
        end
  end.

End Main.

(** ** The console during the start *)

(** [c'] results from [c] by drawing, and is well formed if [c] is. *)
Definition grows (c c' : console) : Prop := console_ok c -> draws (scr c) (scr c') /\ console_ok c'.

Lemma grows_refl (c : console) : grows c c.
Proof. by intros H. Qed.
Lemma grows_print (msg : list Z) (c c' : console) : grows c c' -> grows c (console_print msg c').
Proof.
  intros Hg Hc. destruct (Hg Hc) as [D1 K1]. destruct (print_safe msg c' K1) as (D2 & K2 & _).
  split; [by transitivity (scr c')|done].
Qed.
Lemma grows_color (color : Z) (c c' : console) : grows c c' -> grows c (con_set_color color c').
Proof. intros Hg Hc. destruct (Hg Hc) as [D1 [H1 H2 H3 H4 H5]]. split; [done|]. by split. Qed.
Lemma grows_dec (n : Z) (c c' : console) : grows c c' -> grows c (print_dec n c').
Proof. unfold print_dec. intros Hg. destruct (n =? 0); by apply grows_print. Qed.

(** A sequence of messages. *)
Ltac draw :=
  unfold status, phase, say;
  repeat match goal with
  | |- grows _ (console_print _ _) => apply grows_print
  | |- grows _ (con_set_color _ _) => apply grows_color
  | |- grows _ (print_dec _ _) => apply grows_dec
  end;
  apply grows_refl.

Section Start.
  Context {D : Type} {PD : PortDevice D}.
  Implicit Types s : sys console D.

(** Each phase only draws on the console, *)
Lemma interrupts_draw (l : layout) s i : grows (con s) (con (start_interrupts l s i).1).
Proof. cbn -[console_print con_set_color]. draw. Qed.
Lemma memory_draws (m : memory) (bi : boot_info) s : grows (con s) (con (start_memory m bi s)).
Proof. cbn -[console_print con_set_color print_dec]. draw. Qed.
Lemma processes_draw s : grows (con s) (con (start_processes s)).
Proof. cbn -[console_print con_set_color]. draw. Qed.

(** What the phases do to the rest of the state: the last device is started with
    two lines enabled. *)
Lemma devices_started {PIC : Pic8259 D} {INI : Pic8259Init D} s (kb : keyboard) :
  ready (dev (ports s)) -> (forall i, 0 <= i < 16 -> masked (dev (ports s)) i = true) ->
  exists s' kb', start_devices s kb = Some (s', kb') /\ grows (con s) (con s') /\
    hist s' = hist s /\ ps s' = ps s /\ hp s' = hp s /\ ready (dev (ports s')) /\
    (forall i, 0 <= i < 16 -> masked (dev (ports s')) i = negb ((i =? 0) || (i =? 1))) /\
    buffer_head kb' = 0 /\ buffer_tail kb' = 0 /\ key_buffer kb' = key_buffer kb /\
    pit_divisor (trace (ports s')) = Some (PIT_FREQUENCY / TIMER_FREQUENCY).
Proof.
  intros Hr Hm. destruct (timer_init_divisor TIMER_FREQUENCY (ports s) ltac:(by vm_compute)) as (st & Et & _ & Ediv).
  specialize (Ediv ltac:(by vm_compute)). unfold start_devices, timer_init. change (TIMER_FREQUENCY =? 0) with false. cbv iota zeta.
  cbn [ports print]. set (pit := outb PIT_CHANNEL0 _ _).
  assert (Hpit : ready (dev pit) /\ forall q, mask (dev pit) q = mask (dev (ports s)) q).
  { assert (Hport : forall p, p = PIT_COMMAND \/ p = PIT_CHANNEL0 ->
      p ∉ [PIC1_COMMAND; PIC1_DATA; PIC2_COMMAND; PIC2_DATA]).
    { intros p Hp. rewrite !not_elem_of_cons. unfold PIT_COMMAND, PIT_CHANNEL0 in Hp.
      unfold PIC1_COMMAND, PIC1_DATA, PIC2_COMMAND, PIC2_DATA. split_and!; try lia. apply not_elem_of_nil. }
    unfold pit. edestruct other_ready as [R1 M1]; [exact Hr|exact (Hport PIT_COMMAND (or_introl eq_refl))|].
    edestruct other_ready as [R2 M2]; [exact R1|exact (Hport PIT_CHANNEL0 (or_intror eq_refl))|].
    edestruct other_ready as [R3 M3]; [exact R2|exact (Hport PIT_CHANNEL0 (or_intror eq_refl))|].
    split; [exact R3|]. intros q. rewrite M3, M2, M1. done. }
  destruct Hpit as [Rp Mp]. assert (Hst : pic_enable_irq 0 pit = st) by exact (f_equal (default st) Et).
  clearbody pit. rewrite <- Hst in Ediv.
  destruct (pic_irq_mask_correct pit 0 Rp ltac:(lia)) as (R1 & _ & M1).
  destruct (pic_irq_mask_correct (pic_enable_irq 0 pit) 1 R1 ltac:(lia)) as (R2 & _ & M2).
  unfold keyboard_init. eexists _, _. split; [reflexivity|]. split.
  { cbn -[console_print con_set_color]. draw. }
  cbn [hist ps hp ports con print with_ports buffer_head buffer_tail key_buffer].
  split_and!; try done; [|by rewrite pit_divisor_enable]. intros i Hi. rewrite (proj1 (M2 i Hi)), (proj1 (M1 i Hi)). unfold masked. rewrite Mp.
  fold (masked (dev (ports s)) i). rewrite (Hm i Hi). by destruct (i =? 0), (i =? 1).
Qed.

End Start.

(** ** The state the shell starts in *)

(** The zeroed sections of the kernel image. *)
Record bss_ok {D} (k : kernel D) : Prop := BssOk {
  bss_bitmap : zlen (bitmap (frames (vm (ps (k_sys k))))) = PMM_BITMAP_SIZE;
  bss_procs : length (processes (ps (k_sys k))) = MAX_PROCESSES;
  bss_lines : length (history_entries (hist (k_sys k))) = 16%nat /\
              Forall (fun e => length e = 128%nat) (history_entries (hist (k_sys k)));
  bss_idt : length (idt (k_idt k)) = 256%nat
}.

(** Boot information a loader may pass: a memory map and a screen with room for
    the header. *)
Record boot_ok (bi : boot_info) : Prop := BootOk {
  bo_magic : magic bi = BOOTINFO_MAGIC;
  bo_map : mmap bi <> 0 /\ 0 < mmap_entries bi <= 256;
  bo_width : 8 <= fbi_width (framebuffer bi) < 2 ^ 31;
  bo_height : 100 <= fbi_height (framebuffer bi) < 2 ^ 31
}.

(** What holds when the shell is entered. *)
Record kernel_ok {D} `{Pic8259 D} (l : layout) (m : memory) (bi : boot_info) (k : kernel D) : Prop := KernelOk {
  ko_console : console_ok (con (k_sys k));
  ko_frames : pmm_inv (frames (vm (ps (k_sys k)))) /\
    forall q, 0 <= q < PMM_MAX_PAGES ->
      page_used (frames (vm (ps (k_sys k)))) q
      = (q <? FIRST_PAGE) || negb (existsb (entry_covers q) (mmap_list m bi));
  ko_heap : heap_start (hp (k_sys k)) = heap_base /\
    exists n, heap_inv (hp (k_sys k)) [(n, true)] /\ heap_bytes - HEADER - 16 < n <= heap_bytes - HEADER;
  ko_procs : ptable_ok (ps (k_sys k)) /\ current_process (ps (k_sys k)) = None /\
    forall p, state (proc (ps (k_sys k)) p) = PROC_UNUSED;
  ko_history : history_ok (hist (k_sys k)) /\ lines (hist (k_sys k)) = [];
  ko_cpu : seg_cs (cpu (ps (k_sys k))) = 0x08 /\ tr (cpu (ps (k_sys k))) = 0x28 /\
    rsp0 (tss (cpu (ps (k_sys k)))) = u64 (current_rsp l);
  ko_idt : idtr (k_idt k) = (4095, idt_addr l) /\ forall n, 0 <= n < 256 ->
    let e := idt_at n (k_idt k) in
    (gate_present e = true <-> n ∈ fst <$> exceptions \/ 32 <= n < 48) /\
    (n ∈ fst <$> exceptions -> gate_offset e = isr l n /\ selector e = 0x08) /\
    (32 <= n < 48 -> gate_offset e = irq l (n - 32) /\ selector e = 0x08);
  ko_lines : ready (dev (ports (k_sys k))) /\
    forall i, 0 <= i < 16 -> masked (dev (ports (k_sys k))) i = negb ((i =? 0) || (i =? 1));
  ko_timer : pit_divisor (trace (ports (k_sys k))) = Some (PIT_FREQUENCY / TIMER_FREQUENCY);
  ko_keys : buffer_head (k_kbd k) = 0 /\ buffer_tail (k_kbd k) = 0;
  ko_run : interrupts k = true /\ g_boot_info k = Some bi
}.

(** [kernel_main] leaves paging to the firmware's tables: neither the manager's PML4 nor CR3
    nor a table changes. *)
Definition paging_kept {D} (k k' : kernel D) : Prop :=
  let v := vm (ps (k_sys k)) in let v' := vm (ps (k_sys k')) in
  kernel_pml4 v' = kernel_pml4 v /\ cr3 v' = cr3 v /\ vmem v' = vmem v /\ flushed v' = flushed v.

Lemma irq_gates (n : Z) : n ∈ Z.add 32 <$> irqs <-> 32 <= n < 48.
Proof.
  change irqs with (seqZ 0 16). rewrite list_elem_of_fmap. split.
  - intros (i & -> & Hi%elem_of_seqZ). lia.
  - intros Hn. exists (n - 32). split; [lia|]. apply elem_of_seqZ. lia.
Qed.

Section Boot.
  Context {D : Type} {PD : PortDevice D} {PIC : Pic8259 D} {INI : Pic8259Init D}.
  Implicit Types (s : sys console D) (k : kernel D).

Lemma draw_logo_draws (x y : Z) (fb : fbuf) : 0 <= x -> 0 <= y -> draws fb (draw_logo x y fb).
Proof.
  intros Hx Hy. unfold draw_logo. cbv zeta.
  assert (Hu : forall v, 0 <= u32 v) by (intros v; apply (uwrap_range 32 v); lia).
  do 4 (etransitivity; [|apply fill_rect_draws; auto]). by apply fill_rect_draws.
Qed.

Lemma screen_started (f : framebuffer_info) s :
  8 <= fbi_width f < 2 ^ 31 -> 100 <= fbi_height f < 2 ^ 31 ->
  draws (Fb (pixels (scr (con s))) (fbi_width f) (fbi_height f) (fbi_pitch f / 4)) (scr (con (start_screen f s)))
  /\ console_ok (con (start_screen f s)).
Proof.
  intros Hw Hh. unfold start_screen. set (fb := Fb _ _ _ _).
  assert (Hd : draws fb (draw_logo (u32 (fb_width (clear_screen COLOR_DARK_BG fb) / 2 - 30)) 20
                          (clear_screen COLOR_DARK_BG fb))).
  { transitivity (clear_screen COLOR_DARK_BG fb); [apply clear_screen_draws|].
    apply draw_logo_draws; [|lia]. by apply uwrap_range. }
  set (fb1 := draw_logo _ _ _) in *. cbn [con print].
  set (c := with_cursor 0 90 (with_scr fb1 (con s))).
  assert (Hc : console_ok c).
  { destruct Hd as [(Gw & Gh & _) _]. split; cbn; rewrite ?Gw, ?Gh; cbn; lia. }
  assert (Hg : grows c (print_header c)) by (unfold print_header; draw).
  destruct (Hg Hc) as [D2 K2]. split; [by transitivity fb1|done].
Qed.

(** The rest of the state after the first phases. *)
Lemma interrupts_started (l : layout) s i :
  let r := start_interrupts l s i in
  hist r.1 = hist s /\ hp r.1 = hp s /\ ports r.1 = pic_disable (pic_init (ports s)) /\
  ps r.1 = PState (processes (ps s)) (current_process (ps s)) (next_pid (ps s)) (vm (ps s))
             (gdt_set_tss_stack (current_rsp l) (gdt_init (tss_addr l) (gdt_addr l) (cpu (ps s)))) /\
  r.2 = idt_init (isr l) (irq l) (idt_addr l) i.
Proof. by split_and!. Qed.
Lemma memory_started (m : memory) (bi : boot_info) s :
  let r := start_memory m bi s in
  hist r = hist s /\ hp r = heap_init heap_base heap_bytes (hp s) /\ ports r = ports s /\
  processes (ps r) = processes (ps s) /\ cpu (ps r) = cpu (ps s) /\
  vm (ps r) = let v := vm (ps s) in
    Vmm (kernel_pml4 v) (cr3 v) (vmem v) (pmm_init (mmap_array m bi) (mmap_entries bi) (frames v)) (flushed v).
Proof. by split_and!. Qed.

(** The run of [kernel_main] on valid boot information. *)
Lemma kernel_main_spec (l : layout) (m : memory) (bi : boot_info) k :
  bss_ok k -> boot_ok bi -> (forall n, 0 <= isr l n < 2 ^ 64) -> (forall n, 0 <= irq l n < 2 ^ 64) ->
  exists k', kernel_main l m (Some bi) k = Some k' /\ kernel_ok l m bi k' /\ paging_kept k k'.
Proof.
  intros [Hbm Hpr Hln Hidt] [Hmag (Hmap & Hent) Hw Hh] Hisr Hirq.
  unfold kernel_main. rewrite Hmag, Z.eqb_refl. cbn [negb].
  destruct (screen_started (framebuffer bi) (k_sys k) Hw Hh) as [_ K0].
  set (s0 := start_screen (framebuffer bi) (k_sys k)) in *.
  pose proof (interrupts_draw l s0 (k_idt k)) as G1.
  destruct (interrupts_started l s0 (k_idt k)) as (A1 & A2 & A3 & A4 & A5).
  destruct (start_interrupts l s0 (k_idt k)) as [s1 i1]. cbn [fst snd] in *.
  pose proof (memory_draws m bi s1) as G2. destruct (memory_started m bi s1) as (B1 & B2 & B3 & B4 & B5 & B6).
  set (s2 := start_memory m bi s1) in *.
  destruct (pic_init_correct (ports s0)) as (_ & _ & Rd & Md). rewrite <- A3, <- B3 in Rd, Md.
  destruct (devices_started s2 (k_kbd k) Rd Md) as (s3 & kb & -> & G3 & C1 & C2 & C3 & C4 & C5 & C6 & C7 & _ & C8).
  eexists. split; [reflexivity|].
  pose proof (processes_draw s3) as G4.
  assert (K4 : console_ok (con (start_processes s3))) 
    by exact (proj2 (G4 (proj2 (G3 (proj2 (G2 (proj2 (G1 K0)))))))).
  assert (G5 : grows (con (start_processes s3)) (con (shell_init (print summary (start_processes s3))))).
  { cbn [con print shell_init with_hist]. unfold summary, shell_print_banner. draw. }
  split; [split; cbn [k_sys k_idt k_kbd g_boot_info interrupts]|].
  - exact (proj2 (G5 K4)).
  - change (frames (vm (ps (shell_init _)))) with (frames (vm (ps s3))). rewrite C2, B6, A4.
    unfold mmap_array. rewrite (proj2 (Z.eqb_neq _ _)) by done.
    pose proof (pmm_init_spec (mmap_list m bi) (mmap_entries bi)) as Hs.
    rewrite (take_ge (mmap_list m bi)) in Hs by (by rewrite mmap_list_length).
    apply Hs; [done|done|apply mmap_list_ok].
  - change (hp (shell_init _)) with (hp s3). rewrite C3, B2.
    split; [reflexivity|]. apply heap_init_spec; [done|by vm_compute|by vm_compute].
  - change (ps (shell_init _)) with (process_init (ps s3)). split_and!.
    + apply process_init_ok. by rewrite C2, B4, A4.
    + done.
    + apply process_init_unused.
  - change (hist (shell_init _)) with (history_init (hist s3)). rewrite C1, B1, A1.
    split; [|done]. split; cbn; [done|lia..].
  - change (ps (shell_init _)) with (process_init (ps s3)). cbn [cpu process_init]. by rewrite C2, B5, A4.
  - rewrite A5.
    pose proof (fun n => idt_gates (isr l) (irq l) (idt_addr l) (k_idt k) n Hidt Hisr Hirq) as Hg. cbv zeta in Hg.
    split; [exact (proj1 (Hg 0 ltac:(lia)))|]. intros n Hn. destruct (Hg n Hn) as (_ & _ & Hp & He & Hi).
    rewrite irq_gates in Hp, Hi. split_and!; [done| |]; intros H; [destruct (He H)|destruct (Hi H)]; tauto.
  - change (ports (shell_init _)) with (ports s3). by split.
  - exact C8.
  - done.
  - done.
  - unfold paging_kept. cbn [k_sys]. change (vm (ps (shell_init _))) with (vm (ps s3)). by rewrite C2, B6, A4.
Qed.

(** C12: What [kernel_main] starts: for boot information with a memory map and a screen,
    whatever was in the device registers and on the screen, it reaches the shell with the
    console on the screen, the physical pages of the map free, one free heap block, an empty
    process table and history, the segments and the kernel stack loaded, the gates of the
    exceptions and of the sixteen interrupt lines installed and no others, the PIT programmed
    for 100 Hz, exactly the timer and the keyboard unmasked and interrupts on.  It starts
    neither paging (the firmware's tables stay in use), nor system calls, nor the scheduler,
    and no process exists.  With invalid boot information it halts. *)
Theorem kernel_main_correct (l : layout) (m : memory) (bi : boot_info) k :
  bss_ok k -> boot_ok bi -> (forall n, 0 <= isr l n < 2 ^ 64) -> (forall n, 0 <= irq l n < 2 ^ 64) ->
  (exists k', kernel_main l m (Some bi) k = Some k' /\ kernel_ok l m bi k' /\ paging_kept k k') /\
  kernel_main l m None k = None /\
  forall bad, magic bad <> BOOTINFO_MAGIC -> kernel_main l m (Some bad) k = None.
Proof.
  intros Hb Hi H1 H2. split; [by apply kernel_main_spec|]. split; [done|].
  intros bad Hm. unfold kernel_main. by rewrite (proj2 (Z.eqb_neq _ _)).
Qed.

End Boot.

(** ** The heap and the physical pages *)

Definition alloc_many (n : nat) (p : pmm) : pmm := Nat.iter n (fun p => (pmm_alloc_page p).2) p.

Lemma alloc_next (p : pmm) (t : Z) :
  pmm_inv p -> FIRST_PAGE <= t < PMM_MAX_PAGES -> (forall q, FIRST_PAGE <= q < t -> page_used p q = true) ->
  page_used p t = false ->
  (pmm_alloc_page p).1 = t * 4096 /\ pmm_inv (pmm_alloc_page p).2 /\
  forall q, 0 <= q -> page_used (pmm_alloc_page p).2 q = (q =? t) || page_used p q.
Proof.
  intros Hi Ht Hb Hf. pose proof (pmm_alloc_page_correct p Hi) as H.
  destruct (pmm_alloc_page p) as [a r]. cbn [fst snd].
  destruct H as [Hr [(_ & _ & Hall)|(u & -> & Hu & Hfu & Hall & Hq & _)]].
  - rewrite (Hall t Ht) in Hf. done.
  - assert (u = t) as ->.
    { destruct (Z.lt_trichotomy u t) as [L|[E|L]]; [|done|].
      - rewrite (Hb u) in Hfu by lia. done.
      - rewrite (Hall t) in Hf by lia. done. }
    by split_and!.
Qed.

Lemma alloc_many_next (p : pmm) (n : nat) :
  pmm_inv p -> FIRST_PAGE + Z.of_nat n < PMM_MAX_PAGES ->
  (forall q, FIRST_PAGE <= q <= FIRST_PAGE + Z.of_nat n -> page_used p q = false) ->
  forall j, (j <= n)%nat ->
  pmm_inv (alloc_many j p) /\
  forall q, 0 <= q -> page_used (alloc_many j p) q
    = (FIRST_PAGE <=? q) && (q <? FIRST_PAGE + Z.of_nat j) || page_used p q.
Proof.
  intros Hi Hn Hf. change FIRST_PAGE with 512 in *. induction j as [|j IH]; intros Hj.
  { split; [done|]. intros q Hq. cbn [alloc_many Nat.iter]. zcases; cbn [andb orb]; (lia || done). }
  destruct (IH ltac:(lia)) as [I1 U1]. clear IH.
  destruct (alloc_next (alloc_many j p) (512 + Z.of_nat j) I1) as (_ & I2 & U2).
  - change FIRST_PAGE with 512. lia.
  - change FIRST_PAGE with 512. intros q Hq. rewrite U1 by lia.
    rewrite (proj2 (Z.leb_le _ _)), (proj2 (Z.ltb_lt _ _)) by lia. done.
  - rewrite U1 by lia. rewrite (proj2 (Z.ltb_ge _ _)) by lia. rewrite andb_false_r. apply Hf. lia.
  - change (alloc_many (S j) p) with (pmm_alloc_page (alloc_many j p)).2. split; [done|].
    intros q Hq. rewrite U2, U1, orb_assoc by lia. f_equal. zcases; cbn [andb orb]; (lia || done).
Qed.

(** C40: The heap is not reserved: in the state [kernel_main] ends in, when the
    memory map offers the memory from 2 MB to past 4 MB, the physical memory
    manager hands out the first page of the heap as its 513th page, although the
    heap keeps its blocks there. *)
Theorem kernel_heap_unreserved {D} `{Pic8259 D} (l : layout) (m : memory) (bi : boot_info) (k : kernel D) :
  kernel_ok l m bi k ->
  (forall q, 512 <= q <= 1024 -> existsb (entry_covers q) (mmap_list m bi) = true) ->
  let p := frames (vm (ps (k_sys k))) in
  (pmm_alloc_page (alloc_many 512 p)).1 = heap_start (hp (k_sys k)) /\
  exists n, heap_inv (hp (k_sys k)) [(n, true)].
Proof.
  intros Hk Hmap p. destruct (ko_frames _ _ _ _ Hk) as [Hi Hu]. destruct (ko_heap _ _ _ _ Hk) as [-> (n & Hh & _)].
  split; [|by exists n]. fold p in Hi, Hu.
  assert (Hf : forall q, FIRST_PAGE <= q <= FIRST_PAGE + Z.of_nat 512 -> page_used p q = false).
  { change FIRST_PAGE with 512 in *. change PMM_MAX_PAGES with 65536 in *.
    intros q Hq. rewrite Hu by lia. rewrite (proj2 (Z.ltb_ge _ _)) by lia. by rewrite Hmap by lia. }
  destruct (alloc_many_next p 512 Hi ltac:(by vm_compute) Hf 512 ltac:(lia)) as [I1 U1].
  change FIRST_PAGE with 512 in *. apply (alloc_next _ 1024 I1).
  - by vm_compute.
  - change FIRST_PAGE with 512. intros q Hq. rewrite U1 by lia.
    rewrite (proj2 (Z.leb_le _ _)), (proj2 (Z.ltb_lt _ _)) by lia. done.
  - rewrite U1 by lia. apply Hf. lia.
Qed.

(** ** Example: 8 MB from 1 MB on, a small screen *)

Definition demo_layout : layout := Layout 0x110000 0x111000 0x112000 demo_isr (fun n => demo_isr (n + 32)) 0x180000.
Definition demo_ram : memory :=
  wr64 (wr64 (wr32 ∅ 0x9000 MEMORY_CONVENTIONAL) 0x9008 0x100000) 0x9018 2048.
Definition demo_info : boot_info :=
  BootInfo BOOTINFO_MAGIC 1 (FramebufferInfo 0x80000000 0x10000 64 128 256 32 8 16 8 8 8 0)
    1 40 0x9000 0 0x100000 0x100000 0x20000.
Definition demo_kernel : kernel demo_8259 :=
  Kernel (Sys (Console (Fb ∅ 0 0 0) 0 0 COLOR_WHITE) (History (replicate 16 (replicate 128 0)) 0 0 (-1))
            (Timer 0 None) demo_boot_ps (Heap ∅ 0 0 0) (Io (Demo8259 0 0 0 0) []))
    (Idt (replicate 256 idt_zero) (0, 0)) demo_keyboard None false.

Lemma demo_bss_ok : bss_ok demo_kernel.
Proof.
  split; [apply pmm_bss_len|reflexivity| |reflexivity].
  split; [reflexivity|]. apply Forall_replicate. reflexivity.
Qed.
Lemma demo_boot_ok : boot_ok demo_info.
Proof. split; [reflexivity| |cbn; lia|cbn; lia]. split; [done|cbn; lia]. Qed.

Lemma demo_isr_range (n : Z) : 0 <= demo_isr n < 2 ^ 64.
Proof. unfold demo_isr. dlia. Qed.

Lemma demo_starts : exists k, kernel_main demo_layout demo_ram (Some demo_info) demo_kernel = Some k
  /\ kernel_ok demo_layout demo_ram demo_info k /\ paging_kept demo_kernel k.
Proof. apply kernel_main_spec; [apply demo_bss_ok|apply demo_boot_ok|apply demo_isr_range|intros n; apply demo_isr_range]. Qed.

Lemma kernel_main_correct_witness :
  exists k, kernel_main demo_layout demo_ram (Some demo_info) demo_kernel = Some k
    /\ kernel_ok demo_layout demo_ram demo_info k /\ paging_kept demo_kernel k.
Proof.
  exact (proj1 (kernel_main_correct demo_layout demo_ram demo_info demo_kernel demo_bss_ok demo_boot_ok
    demo_isr_range (fun n => demo_isr_range (n + 32)))).
Defined.

Lemma kernel_heap_unreserved_witness :
  exists k : kernel demo_8259, (pmm_alloc_page (alloc_many 512 (frames (vm (ps (k_sys k)))))).1 = heap_start (hp (k_sys k)).
Proof.
  destruct demo_starts as (k & _ & Hk & _). exists k.
  apply (kernel_heap_unreserved demo_layout demo_ram demo_info k Hk).
  intros q Hq. change ((256 <=? q) && (q <? 2304) || false = true). zcases; cbn; (lia || reflexivity).
Defined.
