(* ===== verification/Boot.v ===== *)
(** * The bootloader ([boot/main.c])

    The menu of the UEFI application, the loading of the kernel and the handover
    of the memory map.  Every firmware call passes the firmware's state; the
    framebuffer is kept apart from the other memory.  The theorems compose with
    those of the kernel: what the loader jumps with is what [kernel_main] needs. *)

From S2P Require Import Prelude Mem PageAlloc Pmm Heap Process Io Pic Text Framebuffer Console BootInfo Font Graphics Efi Shell Kernel.

(** ** Helpers *)

(** [while (src[i] && i < max - 1) { dst[i] = (char)src[i]; i++; } dst[i] = 0;]
    with [max - 1] in [n]. *)
Fixpoint wstr_to_str_loop (n : nat) (src : list Z) (i : Z) (dst : list Z) : list Z :=
  match n, src with
  | S n', c :: src' => if c =? 0 then zset dst i 0 else wstr_to_str_loop n' src' (i + 1) (zset dst i (u8 c))
  | _, _ => zset dst i 0
  end.
Definition wstr_to_str (dst src : list Z) (max : Z) : list Z :=
  wstr_to_str_loop (Z.to_nat (max - 1)) src 0 dst.

Lemma wstr_loop_spec (n : nat) : forall (src dst : list Z) (i : nat), (i + n < length dst)%nat ->
  let w := take n (cstr src) in
  wstr_to_str_loop n src (Z.of_nat i) dst = take i dst ++ (uwrap 8 <$> w) ++ 0 :: drop (S (i + length w)) dst.
Proof.
  cbv zeta. assert (Hend : forall (dst : list Z) (i : nat), (i < length dst)%nat ->
    zset dst (Z.of_nat i) 0 = take i dst ++ 0 :: drop (S (i + 0)) dst).
  { intros dst i Hi. unfold zset. rewrite Nat2Z.id, Nat.add_0_r. by rewrite insert_take_drop. }
  induction n as [|n IH]; intros src dst i Hi; cbn [wstr_to_str_loop take].
  { destruct src; apply Hend; lia. }
  destruct src as [|c src]; [apply Hend; lia|]. cbn [cstr]. destruct (c =? 0); [apply Hend; lia|].
  replace (Z.of_nat i + 1) with (Z.of_nat (S i)) by lia.
  rewrite IH by (unfold zset; rewrite length_insert; lia). unfold zset. rewrite Nat2Z.id.
  rewrite (take_S_r _ _ (u8 c)) by (apply list_lookup_insert_eq; lia).
  rewrite take_insert_ge, drop_insert_lt by lia. cbn [fmap list_fmap length take]. rewrite <- app_assoc. cbn [app].
  do 4 f_equal. by rewrite Nat.add_succ_r.
Qed.

(** [wstr_to_str] stays inside a buffer of [max] bytes and leaves the low bytes of
    the first [max - 1] characters there as a string. *)
Lemma wstr_to_str_correct (dst src : list Z) (max : Z) :
  0 < max <= zlen dst ->
  wstr_to_str dst src max
  = (uwrap 8 <$> take (Z.to_nat (max - 1)) (cstr src))
    ++ 0 :: drop (S (length (take (Z.to_nat (max - 1)) (cstr src)))) dst.
Proof.
  intros H. unfold zlen in H. unfold wstr_to_str. change 0 with (Z.of_nat 0) at 1.
  rewrite wstr_loop_spec by lia. by rewrite take_0.
Qed.

(** ** State *)

(** [gfx.framebuffer] to [gfx.pitch] are in [screen]; [junk] is what the stack
    holds in variables without an initialiser. *)
Record boot (F : Type) := Boot {
  fw : F; ram : memory; screen : fbuf; gop : option gop_mode;
  total_memory_mb : Z; usable_memory_mb : Z; memory_entries : Z;
  binfo : boot_info; junk : map_vars
}.
Arguments Boot {F}.
Arguments fw {F}.
Arguments ram {F}.
Arguments screen {F}.
Arguments gop {F}.
Arguments total_memory_mb {F}.
Arguments usable_memory_mb {F}.
Arguments memory_entries {F}.
Arguments binfo {F}.
Arguments junk {F}.

(** ** The menu *)

Record MENU_ITEM := MenuItem { label : list Z; description : list Z; action : Z }.
Definition menu_items : list MENU_ITEM :=
  [MenuItem (lit "Boot SimpleOS") (lit "Load and execute the SimpleOS kernel") 0;
   MenuItem (lit "UEFI Shell") (lit "Exit to the UEFI interactive shell") 1;
   MenuItem (lit "Reboot System") (lit "Restart the computer") 2;
   MenuItem (lit "Shutdown") (lit "Power off the computer") 3].
Definition MENU_COUNT : Z := 4.
Definition menu_item (i : Z) : MENU_ITEM := default (MenuItem [] [] (-1)) (menu_items !! Z.to_nat i).

(** The gradient: every fourth pair of lines; [i] stays below the height, so the
    divisor is not 0. *)
Fixpoint gradient_loop (fuel : nat) (i : Z) (fb : fbuf) : fbuf :=
  match fuel with
  | O => fb
  | S f =>
      if i <? fb_height fb then
        let color := RGB (u32 (20 + u32 (i * 10) / fb_height fb)) (u32 (20 + u32 (i * 15) / fb_height fb))
                       (u32 (35 + u32 (i * 20) / fb_height fb)) in
        let fb := gfx_hline 0 i (fb_width fb) color fb in
        let fb := gfx_hline 0 (u32 (i + 1)) (fb_width fb) color fb in
        gradient_loop f (u32 (i + 4)) fb
      else fb
  end.

Definition draw_button (menu_x menu_y btn_w btn_h selected i : Z) (fb : fbuf) : fbuf :=
  let btn_bg := if i =? u32 selected then COLOR_BG_HOVER else COLOR_BG_BUTTON in
  gfx_button menu_x (u32 (menu_y + i * (btn_h + 10))) btn_w btn_h (label (menu_item i)) btn_bg GFX_WHITE
    (i =? u32 selected) fb.

Section Screens.
  Context {F : Type} (st : system_table).
  Implicit Types b : boot F.

(** [None]: a division by zero in [gfx_progress]. *)
Definition draw_ui (selected : Z) b : option fbuf :=
  let fb := gfx_clear COLOR_BG_DARK (screen b) in
  let width := fb_width fb in
  let height := fb_height fb in
  let fb := gradient_loop (Z.to_nat height) 0 fb in
  (* header *)
  let fb := gfx_fill_rect 0 0 width 60 (RGB 30 30 50) fb in
  let fb := gfx_text_centered 20 (lit "SimpleOS Bootloader") GFX_WHITE fb in
  let fb := gfx_text (u32 (width - 100)) 22 (lit "v0.3 GUI") COLOR_TEXT_DIM fb in
  (* system information *)
  let panel_w := 500 in
  let panel_h := 200 in
  let panel_x := 50 in
  let panel_y := 100 in
  let fb := gfx_panel panel_x panel_y panel_w panel_h (lit "System Information") COLOR_BG_PANEL (RGB 60 60 90) fb in
  let info_x := u32 (panel_x + 30) in
  let info_y := u32 (panel_y + 50) in
  let buf := wstr_to_str (replicate 64 0) (FirmwareVendor st) 32 in
  let fb := gfx_text info_x info_y (lit "Firmware:") COLOR_TEXT_DIM fb in
  let fb := gfx_text (u32 (info_x + 100)) info_y buf GFX_WHITE fb in
  let info_y := u32 (info_y + 24) in
  let fb := gfx_text info_x info_y (lit "UEFI:") COLOR_TEXT_DIM fb in
  let buf := int_to_str (Z.shiftr (Revision st) 16) buf in
  let fb := gfx_text (u32 (info_x + 100)) info_y buf GFX_WHITE fb in
  let fb := gfx_text (u32 (info_x + 100 + gfx_text_width buf)) info_y (lit ".") GFX_WHITE fb in
  let buf := int_to_str (Z.land (Revision st) 0xFFFF) buf in
  let fb := gfx_text (u32 (info_x + 108 + gfx_text_width buf)) info_y buf GFX_WHITE fb in
  let info_y := u32 (info_y + 24) in
  let fb := gfx_text info_x info_y (lit "Display:") COLOR_TEXT_DIM fb in
  let buf := int_to_str width buf in
  let fb := gfx_text (u32 (info_x + 100)) info_y buf COLOR_ACCENT2 fb in
  let fb := gfx_text (u32 (info_x + 100 + gfx_text_width buf)) info_y (lit " x ") COLOR_TEXT_DIM fb in
  let buf := int_to_str height buf in
  let fb := gfx_text (u32 (info_x + 130 + gfx_text_width buf)) info_y buf COLOR_ACCENT2 fb in
  let info_y := u32 (info_y + 24) in
  let fb := gfx_text info_x info_y (lit "Memory:") COLOR_TEXT_DIM fb in
  let buf := int_to_str (usable_memory_mb b) buf in
  let fb := gfx_text (u32 (info_x + 100)) info_y buf COLOR_ACCENT fb in
  let fb := gfx_text (u32 (info_x + 100 + gfx_text_width buf)) info_y (lit " MB usable / ") COLOR_TEXT_DIM fb in
  let buf := int_to_str (total_memory_mb b) buf in
  let fb := gfx_text (u32 (info_x + 225)) info_y buf GFX_WHITE fb in
  let fb := gfx_text (u32 (info_x + 225 + gfx_text_width buf)) info_y (lit " MB total") COLOR_TEXT_DIM fb in
  (* memory bar *)
  let bar_x := u32 (panel_x + 30) in
  let bar_y := u32 (panel_y + panel_h - 35) in
  let bar_w := u32 (panel_w - 60) in
  match gfx_progress bar_x bar_y bar_w 20 (u32 (usable_memory_mb b)) (u32 (total_memory_mb b))
          (RGB 60 60 80) COLOR_ACCENT fb with
  | None => None
  | Some fb =>
      (* menu *)
      let info_w := 350 in
      let info_h := 280 in
      let info_x := u32 (width - info_w - 50) in
      let info_y := 100 in
      let fb := gfx_panel info_x info_y info_w info_h (lit "Boot Menu") COLOR_BG_PANEL (RGB 60 60 90) fb in
      let menu_x := u32 (info_x + 25) in
      let menu_y := u32 (info_y + 50) in
      let btn_w := u32 (info_w - 50) in
      let btn_h := 40 in
      let fb := for_up 4 (fun i => i <? MENU_COUNT) (draw_button menu_x menu_y btn_w btn_h selected) 0 fb in
      let fb := if (0 <=? selected) && (selected <? MENU_COUNT)
        then gfx_text (u32 (info_x + 25)) (u32 (info_y + info_h - 35)) (description (menu_item selected)) COLOR_TEXT_DIM fb
        else fb in
      (* footer *)
      let footer_y := u32 (height - 40) in
      let fb := gfx_fill_rect 0 footer_y width 40 (RGB 25 25 40) fb in
      let fb := gfx_text 30 (u32 (footer_y + 12)) (lit "Use") COLOR_TEXT_DIM fb in
      let fb := gfx_text 60 (u32 (footer_y + 12)) (lit " UP/DOWN ") COLOR_ACCENT fb in
      let fb := gfx_text 140 (u32 (footer_y + 12)) (lit "to navigate,") COLOR_TEXT_DIM fb in
      let fb := gfx_text 260 (u32 (footer_y + 12)) (lit " ENTER ") COLOR_ACCENT fb in
      let fb := gfx_text 320 (u32 (footer_y + 12)) (lit "to select") COLOR_TEXT_DIM fb in
      Some (gfx_text (u32 (width - 200)) (u32 (footer_y + 12)) (lit "SimpleOS (c) 2026") COLOR_TEXT_DIM fb)
  end.

Definition draw_boot_screen (message : list Z) (progress : Z) (fb : fbuf) : option fbuf :=
  let center_x := fb_width fb / 2 in
  let center_y := fb_height fb / 2 in
  let fb := gfx_clear COLOR_BG_DARK fb in
  let fb := gfx_text_centered (u32 (center_y - 60)) (lit "SimpleOS") GFX_WHITE fb in
  let fb := gfx_text_centered (u32 (center_y - 35)) message COLOR_TEXT_DIM fb in
  let bar_w := 300 in
  let bar_x := u32 (center_x - bar_w / 2) in
  let bar_y := u32 (center_y + 10) in
  match gfx_progress bar_x bar_y bar_w 24 progress 100 COLOR_BG_PANEL COLOR_ACCENT2 fb with
  | None => None
  | Some fb =>
      let pct := int_to_str progress (replicate 8 0) in
      let len := zlen (cstr pct) in
      let pct := zset (zset pct len 37) (len + 1) 0 in
      let pct_x := u32 (center_x - gfx_text_width pct / 2) in
      Some (gfx_text pct_x (u32 (bar_y + 35)) pct COLOR_TEXT fb)
  end.

End Screens.

(** ** The firmware calls *)

Section Loader.
  Context {F : Type} {FW : Firmware F}.
  (** [kernel_data] of the generated header, of [KERNEL_SIZE] bytes. *)
  Context (kernel_data : list Z) (st : system_table).
  Implicit Types b : boot F.

Definition with_fw (f : F) b : boot F :=
  Boot f (ram b) (screen b) (gop b) (total_memory_mb b) (usable_memory_mb b) (memory_entries b) (binfo b) (junk b).
Definition with_ram (m : memory) b : boot F :=
  Boot (fw b) m (screen b) (gop b) (total_memory_mb b) (usable_memory_mb b) (memory_entries b) (binfo b) (junk b).
Definition with_screen (s : fbuf) b : boot F :=
  Boot (fw b) (ram b) s (gop b) (total_memory_mb b) (usable_memory_mb b) (memory_entries b) (binfo b) (junk b).
Definition with_binfo (bi : boot_info) b : boot F :=
  Boot (fw b) (ram b) (screen b) (gop b) (total_memory_mb b) (usable_memory_mb b) (memory_entries b) bi (junk b).

Definition gfx_init b : Z * boot F :=
  let '(status, g, f) := LocateProtocol (fw b) in
  let b := Boot f (ram b) (screen b) g (total_memory_mb b) (usable_memory_mb b) (memory_entries b) (binfo b) (junk b) in
  if EFI_ERROR status then (status, b)
  else match g with
  | None => (status, b)
  | Some g => (EFI_SUCCESS, with_screen (Fb (pixels (screen b)) (HorizontalResolution g) (VerticalResolution g)
                                           (PixelsPerScanLine g)) b)
  end.

(** [while ((status = ReadKeyStroke(&key)) == EFI_NOT_READY);] in at most [fuel]
    polls. *)
Fixpoint poll_key (fuel : nat) (f : F) : option (EFI_INPUT_KEY * F) :=
  match fuel with
  | O => None
  | S n =>
      let '(status, key, f) := ReadKeyStroke f in
      if status =? EFI_NOT_READY then poll_key n f else Some (key, f)
  end.
Definition wait_key (fuel : nat) b : option (EFI_INPUT_KEY * boot F) :=
  match poll_key fuel (ConInReset (fw b)) with
  | None => None
  | Some (key, f) => Some (key, with_fw f b)
  end.

Definition delay_ms (ms : Z) b : boot F := with_fw (Stall (u64 (ms * 1000)) (fw b)) b.

(** ** The memory of the machine *)

(** The loop over the descriptors, with the two counters of pages. *)
Fixpoint count_pages (n : nat) (m : memory) (mmap size i total usable : Z) : Z * Z :=
  match n with
  | O => (total, usable)
  | S n' =>
      let desc := u64 (mmap + u64 (i * size)) in
      let total := u64 (total + desc_NumberOfPages m desc) in
      let usable :=
        if (desc_Type m desc =? memory_type_code EfiConventionalMemory)
           || (desc_Type m desc =? memory_type_code EfiBootServicesCode)
           || (desc_Type m desc =? memory_type_code EfiBootServicesData)
        then u64 (usable + desc_NumberOfPages m desc) else usable in
      count_pages n' m mmap size (i + 1) total usable
  end.

(** [None]: a division by zero, for a descriptor size of 0. *)
Definition gather_memory_info b : option (boot F) :=
  let '(status, v, f, m) := GetMemoryMap 0 (with_size 0 (junk b)) (fw b) (ram b) in
  let b := with_ram m (with_fw f b) in
  if negb (status =? EFI_BUFFER_TOO_SMALL) then Some b
  else
    let v := with_size (u64 (mmap_size v + u64 (desc_size v * 4))) v in
    let '(status, mmap, f) := AllocatePool EfiLoaderData (mmap_size v) (fw b) in
    let b := with_fw f b in
    if EFI_ERROR status then Some b
    else
      let '(status, v, f, m) := GetMemoryMap mmap v (fw b) (ram b) in
      let b := with_ram m (with_fw f b) in
      if EFI_ERROR status then Some (with_fw (FreePool mmap (fw b)) b)
      else if desc_size v =? 0 then None
      else
        let entries := mmap_size v / desc_size v in
        let '(total, usable) := count_pages (Z.to_nat entries) (ram b) mmap (desc_size v) 0 0 0 in
        Some (Boot (FreePool mmap (fw b)) (ram b) (screen b) (gop b) (u64 (total * 4096) / (1024 * 1024))
                (u64 (usable * 4096) / (1024 * 1024)) entries (binfo b) (junk b)).

(** ** Loading the kernel *)

(** [for (i = 0; i < kernel_size; i++) dst[i] = src[i];] *)
Fixpoint load_bytes (src : list Z) (dst : Z) (m : memory) : memory :=
  match src with
  | [] => m
  | c :: src' => load_bytes src' (dst + 1) (wr8 m dst c)
  end.

(** The copy of the image to [kernel_addr], and the boot information. *)
Definition install_kernel (kernel_addr : Z) b : boot F :=
  let b := with_ram (load_bytes kernel_data kernel_addr (ram b)) b in
  let bi := binfo b in
  let fi := match gop b with
    | None => framebuffer bi
    | Some g =>
        FramebufferInfo (FrameBufferBase g) (FrameBufferSize g) (HorizontalResolution g) (VerticalResolution g)
          (u32 (PixelsPerScanLine g * 4)) 32 8 16 8 8 8 0
    end in
  with_binfo (BootInfo BOOTINFO_MAGIC 1 fi (mmap_entries bi) (mmap_entry_size bi) (mmap bi) (acpi_rsdp bi)
                kernel_addr kernel_addr (zlen kernel_data)) b.

(** The status, the entry point when the status is a success, and the state. *)
Definition prepare_kernel b : Z * Z * boot F :=
  let pages_needed := u64 (zlen kernel_data + 4095) / 4096 in
  let '(status, kernel_addr, f) := AllocatePages AllocateAddress EfiLoaderData pages_needed 0x100000 (fw b) in
  let '(status, kernel_addr, f) :=
    if EFI_ERROR status then AllocatePages AllocateAnyPages EfiLoaderData pages_needed 0 f
    else (status, kernel_addr, f) in
  if EFI_ERROR status then (status, 0, with_fw f b)
  else (EFI_SUCCESS, kernel_addr, install_kernel kernel_addr (with_fw f b)).

(** [boot_info.mmap], [mmap_entries] and [mmap_entry_size]. *)
Definition set_map (a n size : Z) b : boot F :=
  let bi := binfo b in
  with_binfo (BootInfo (magic bi) (version bi) (framebuffer bi) n size a (acpi_rsdp bi)
                (kernel_physical_base bi) (kernel_virtual_base bi) (kernel_size bi)) b.

(** The loader returns a status, jumps to the kernel, or divides by zero. *)
Inductive boot_result :=
  | BootError (status : Z) (b : boot F)
  | BootJump (entry : Z) (b : boot F)
  | BootFault.

(** The second attempt: the map is fetched again into the same buffer. *)
Definition boot_kernel_retry (kernel_entry mmap_buf : Z) (v : map_vars) b : boot_result :=
  let '(_, v, f, m) := GetMemoryMap 0 (with_size 0 v) (fw b) (ram b) in
  let b := with_ram m (with_fw f b) in
  let v := with_size (u64 (mmap_size v + u64 (desc_size v * 16))) v in
  let '(status, v, f, m) := GetMemoryMap mmap_buf v (fw b) (ram b) in
  let b := with_ram m (with_fw f b) in
  if EFI_ERROR status then BootError status b
  else if desc_size v =? 0 then BootFault
  else
    let b := set_map (mmap (binfo b)) (mmap_size v / desc_size v) (mmap_entry_size (binfo b)) b in
    let '(status, f) := ExitBootServices (map_key v) (fw b) in
    let b := with_fw f b in
    if EFI_ERROR status then BootError status b else BootJump kernel_entry b.

Definition boot_kernel (kernel_entry : Z) b : boot_result :=
  let '(status, v, f, m) := GetMemoryMap 0 (with_size 0 (junk b)) (fw b) (ram b) in
  let b := with_ram m (with_fw f b) in
  if negb (status =? EFI_BUFFER_TOO_SMALL) then BootError status b
  else
    let v := with_size (u64 (mmap_size v + u64 (desc_size v * 16))) v in
    let '(status, mmap_buf, f) := AllocatePool EfiLoaderData (mmap_size v) (fw b) in
    let b := with_fw f b in
    if EFI_ERROR status then BootError status b
    else
      let '(status, v, f, m) := GetMemoryMap mmap_buf v (fw b) (ram b) in
      let b := with_ram m (with_fw f b) in
      if EFI_ERROR status then BootError status (with_fw (FreePool mmap_buf (fw b)) b)
      else if desc_size v =? 0 then BootFault
      else
        let b := set_map mmap_buf (mmap_size v / desc_size v) (desc_size v) b in
        let '(status, f) := ExitBootServices (map_key v) (fw b) in
        let b := with_fw f b in
        if EFI_ERROR status then boot_kernel_retry kernel_entry mmap_buf v b
        else BootJump kernel_entry b.

(** ** The entry point *)

(** How a run of the loader ends: [Reset] and [Jump] do not return; [Polling] is a
    run that waits for a key beyond the polls it is given. *)
Inductive outcome :=
  | Return (status : Z) (b : boot F)
  | Reset (t : EFI_RESET_TYPE) (b : boot F)
  | Jump (entry : Z) (b : boot F)
  | Fault
  | Polling.

(** One action of the menu: it goes on, with [running], or ends the run. *)
Inductive step := Continue (running : bool) (b : boot F) | Done (o : outcome).

Definition draw_centered (y : Z) (msg : list Z) (color : Z) b : boot F :=
  with_screen (gfx_text_centered y msg color (screen b)) b.
Definition with_boot_screen (msg : list Z) (progress : Z) b (k : boot F -> step) : step :=
  match draw_boot_screen msg progress (screen b) with
  | None => Done Fault
  | Some s => k (with_screen s b)
  end.

Definition boot_action (fuel : nat) b : step :=
  with_boot_screen (lit "Preparing kernel...") 0 b (fun b =>
  let b := delay_ms 200 b in
  with_boot_screen (lit "Loading kernel...") 20 b (fun b =>
  let '(status, kernel_entry, b) := prepare_kernel b in
  if EFI_ERROR status then
    let b := with_screen (gfx_clear COLOR_BG_DARK (screen b)) b in
    let h := fb_height (screen b) in
    let b := draw_centered (u32 (h / 2 - 20)) (lit "Failed to load kernel!") GFX_RED b in
    let b := draw_centered (u32 (h / 2 + 10)) (lit "Press any key to return...") COLOR_TEXT_DIM b in
    match wait_key fuel b with
    | None => Done Polling
    | Some (_, b) => Continue true b
    end
  else
    with_boot_screen (lit "Preparing boot info...") 50 b (fun b =>
    let b := delay_ms 200 b in
    with_boot_screen (lit "Exiting UEFI services...") 80 b (fun b =>
    let b := delay_ms 200 b in
    with_boot_screen (lit "Jumping to kernel...") 100 b (fun b =>
    let b := delay_ms 100 b in
    match boot_kernel kernel_entry b with
    | BootError _ b => Continue true b
    | BootJump entry b => Done (Jump entry b)
    | BootFault => Done Fault
    end))))).

Definition reset_action (msg : list Z) (t : EFI_RESET_TYPE) b : step :=
  let b := with_screen (gfx_clear COLOR_BG_DARK (screen b)) b in
  let b := draw_centered (fb_height (screen b) / 2) msg COLOR_ACCENT b in
  let b := delay_ms 500 b in
  match ResetSystem t (fw b) with
  | None => Done (Reset t b)
  | Some f => Continue true (with_fw f b)
  end.

Definition menu_action (fuel : nat) (a : Z) b : step :=
  if a =? 0 then boot_action fuel b
  else if a =? 1 then Continue false b
  else if a =? 2 then reset_action (lit "Rebooting...") EfiResetCold b
  else if a =? 3 then reset_action (lit "Shutting down...") EfiResetShutdown b
  else Continue true b.

(** The default case of the switch over the scan code. *)
Definition menu_default (fuel : nat) (key : EFI_INPUT_KEY) (selected : Z) b : step :=
  let s :=
    if (UnicodeChar key =? 0x0D) || (UnicodeChar key =? 32)
    then menu_action fuel (action (menu_item selected)) b else Continue true b in
  match s with
  | Done o => Done o
  | Continue running b => Continue (if ScanCode key =? 0x17 then false else running) b
  end.

(** One round of the menu, and the loop of at most [rounds] rounds. *)
Definition menu_round (fuel : nat) (selected : Z) b : Z * step :=
  match draw_ui st selected b with
  | None => (selected, Done Fault)
  | Some s =>
      match wait_key fuel (with_screen s b) with
      | None => (selected, Done Polling)
      | Some (key, b) =>
          if ScanCode key =? 0x01 then (if 0 <? selected then selected - 1 else selected, Continue true b)
          else if ScanCode key =? 0x02 then
            (if selected <? MENU_COUNT - 1 then selected + 1 else selected, Continue true b)
          else (selected, menu_default fuel key selected b)
      end
  end.
Fixpoint menu_loop (rounds fuel : nat) (selected : Z) b : outcome :=
  match rounds with
  | O => Polling
  | S n =>
      match menu_round fuel selected b with
      | (_, Done o) => o
      | (selected, Continue true b) => menu_loop n fuel selected b
      | (_, Continue false b) => Return EFI_SUCCESS (with_screen (gfx_clear GFX_BLACK (screen b)) b)
      end
  end.

Definition efi_main (rounds fuel : nat) b : outcome :=
  let b := with_fw (SetWatchdogTimer (fw b)) b in
  let '(status, b) := gfx_init b in
  if EFI_ERROR status then
    let b := with_fw (OutputString (lit "Graphics not available!" ++ [13; 10]) (ClearScreen (fw b))) b in
    match wait_key fuel b with
    | None => Polling
    | Some (_, b) => Return EFI_SUCCESS b
    end
  else
    match gather_memory_info b with
    | None => Fault
    | Some b => menu_loop rounds fuel 0 b
    end.

End Loader.

(** ** The screens are drawn inside the framebuffer *)

Lemma gradient_draws (fuel : nat) : forall (i : Z) (fb : fbuf), 0 <= i -> draws fb (gradient_loop fuel i fb).
Proof.
  induction fuel as [|fuel IH]; intros i fb Hi; cbn [gradient_loop]; [done|].
  destruct (i <? fb_height fb); [|done]. cbv zeta.
  set (f := gfx_hline 0 i _ _ _).
  assert (D1 : draws fb f) by (apply gfx_line_draws; lia).
  eapply draws_then; [exact D1|]. eapply draws_then; [|apply IH, u32_nonneg].
  apply gfx_line_draws; [lia|apply u32_nonneg].
Qed.

Lemma buttons_draw (fuel : nat) (cond : Z -> bool) (x y w h sel i : Z) (fb : fbuf) :
  0 <= x -> draws fb (for_up fuel cond (draw_button x y w h sel) i fb).
Proof. intros Hx. apply for_up_draws. intros k f _ _ _. apply gfx_button_draws; [done|apply u32_nonneg]. Qed.

Ltac gdraw3 :=
  match goal with
  | |- draws _ (gfx_panel _ _ _ _ _ _ _ _) => peel gfx_panel_draws
  | |- draws _ (gradient_loop _ _ _) => peel gradient_draws
  | |- draws _ (for_up _ _ (draw_button _ _ _ _ _) _ _) => peel buttons_draw
  | _ => gdraw2
  end.

(** The fuel of the gradient is enough. *)
Lemma gradient_fuel (n : nat) : forall (k : nat) (i : Z) (fb : fbuf),
  0 <= i -> fb_height fb < 2 ^ 32 - 4 -> fb_height fb - i <= Z.of_nat n ->
  gradient_loop (n + k) i fb = gradient_loop n i fb.
Proof.
  induction n as [|n IH]; intros k i fb Hi Hh Hn.
  - destruct k; cbn [gradient_loop Nat.add]; [done|]. by rewrite (proj2 (Z.ltb_ge _ _)) by lia.
  - cbn [gradient_loop Nat.add]. destruct (Z.ltb_spec i (fb_height fb)); [|done]. cbv zeta.
    set (c := RGB _ _ _). set (f := gfx_hline 0 i _ c fb).
    assert (D1 : draws fb f) by (apply gfx_line_draws; lia).
    set (g := gfx_hline 0 (u32 (i + 1)) _ c f).
    assert (D2 : draws f g) by (apply gfx_line_draws; [lia|apply u32_nonneg]).
    destruct D1 as [(_ & H1 & _) _], D2 as [(_ & H2 & _) _].
    rewrite (uwrap_small 32 (i + 4)) by lia. apply IH; rewrite ?H2, ?H1; lia.
Qed.

Lemma boot_screen_draws (message : list Z) (progress : Z) (fb : fbuf) :
  exists fb', draw_boot_screen message progress fb = Some fb' /\ draws fb fb'.
Proof.
  unfold draw_boot_screen. cbv zeta. set (pic := gfx_text_centered _ message _ _).
  assert (D1 : draws fb pic) by (subst pic; by repeat gdraw3). clearbody pic.
  match goal with |- context [gfx_progress ?x ?y ?w ?h ?v ?m ?bg ?fg pic] =>
    destruct (gfx_progress_draws x y w h v m bg fg pic) as (bar & -> & D2); [lia||apply u32_nonneg..|done|] end.
  eexists. split; [reflexivity|]. gdraw3. by transitivity pic.
Qed.

Lemma ui_draws {F} (st : system_table) (selected : Z) (b : boot F) :
  match draw_ui st selected b with
  | Some fb => draws (screen b) fb /\ u32 (total_memory_mb b) <> 0
  | None => u32 (total_memory_mb b) = 0
  end.
Proof.
  unfold draw_ui. cbv zeta. set (pic := gfx_text _ _ (lit " MB total") _ _).
  assert (D1 : draws (screen b) pic).
  { subst pic. by repeat gdraw3. }
  clearbody pic. destruct (Z.eqb_spec (u32 (total_memory_mb b)) 0) as [E|E].
  { unfold gfx_progress. rewrite E. done. }
  match goal with |- context [gfx_progress ?x ?y ?w ?h ?v ?m ?bg ?fg pic] =>
    destruct (gfx_progress_draws x y w h v m bg fg pic) as (bar & -> & D2); [lia||apply u32_nonneg..|done|] end.
  split; [|done]. eapply draws_then; [exact D1|]. eapply draws_then; [exact D2|]. clear D1 D2.
  by repeat gdraw3.
Qed.

(** The screens are drawn inside the framebuffer: [draw_ui] changes nothing
    but pixels on the screen, whatever the size of the screen and the selection,
    and divides by zero exactly when the megabytes of memory, as 32 bits, are 0;
    [draw_boot_screen] changes nothing but pixels on the screen. *)
Theorem draw_ui_safe {F} (st : system_table) (selected : Z) (b : boot F) :
  match draw_ui st selected b with
  | Some fb => draws (screen b) fb /\ u32 (total_memory_mb b) <> 0
  | None => u32 (total_memory_mb b) = 0
  end /\
  forall message progress fb, exists fb', draw_boot_screen message progress fb = Some fb' /\ draws fb fb'.
Proof. split; [apply ui_draws|apply boot_screen_draws]. Qed.

(** ** Loading *)

Lemma load_bytes_spec (src : list Z) : forall (dst : Z) (m : memory) (a : Z),
  rd8 (load_bytes src dst m) a
  = if (dst <=? a) && (a <? dst + zlen src) then u8 (zget src (a - dst)) else rd8 m a.
Proof.
  unfold zlen. induction src as [|c src IH]; intros dst m a; cbn [load_bytes length].
  { zcases; cbn [andb]; (lia || done). }
  rewrite IH, rd8_wr8. destruct (Z.eqb_spec dst a) as [->|Hne].
  - rewrite Z.sub_diag. zcases; cbn [andb]; (lia || done).
  - replace (zget (c :: src) (a - dst)) with (if dst <=? a then zget src (a - (dst + 1)) else zget (c :: src) (a - dst)).
    + zcases; cbn [andb]; (lia || done).
    + destruct (Z.leb_spec dst a); [|done]. unfold zget.
      by replace (Z.to_nat (a - dst)) with (S (Z.to_nat (a - (dst + 1)))) by lia.
Qed.

(** What the loader is asked to load is at [a]. *)
Definition image_at (m : memory) (a : Z) (image : list Z) : Prop :=
  forall (i : nat) c, image !! i = Some c -> rd8 m (a + Z.of_nat i) = u8 c.

Lemma load_bytes_image (src : list Z) (dst : Z) (m : memory) : image_at (load_bytes src dst m) dst src.
Proof.
  intros i c Hi. rewrite load_bytes_spec. pose proof (lookup_lt_Some _ _ _ Hi) as Hl. unfold zlen.
  rewrite (proj2 (Z.leb_le _ _)), (proj2 (Z.ltb_lt _ _)) by lia. cbn [andb]. unfold zget.
  replace (Z.to_nat (dst + Z.of_nat i - dst)) with i by lia. by rewrite Hi.
Qed.

Section Prepare.
  Context {F : Type} {FW : Firmware F} (kernel_data : list Z).
  Implicit Types b : boot F.

(** The kernel is installed at [a]: the image is there, the rest of the memory is
    as before, and the boot information describes image and screen. *)
Record installed (a : Z) b b' : Prop := Installed {
  in_image : image_at (ram b') a kernel_data;
  in_rest : forall x, ~ (a <= x < a + zlen kernel_data) -> rd8 (ram b') x = rd8 (ram b) x;
  in_magic : magic (binfo b') = BOOTINFO_MAGIC /\ version (binfo b') = 1;
  in_kernel : kernel_physical_base (binfo b') = a /\ kernel_virtual_base (binfo b') = a /\
              kernel_size (binfo b') = zlen kernel_data;
  in_screen : forall g, gop b = Some g ->
    let i := framebuffer (binfo b') in
    fbi_base i = FrameBufferBase g /\ fbi_width i = HorizontalResolution g /\
    fbi_height i = VerticalResolution g /\ fbi_pitch i = u32 (PixelsPerScanLine g * 4) /\ fbi_bpp i = 32;
  in_same : screen b' = screen b /\ gop b' = gop b /\ total_memory_mb b' = total_memory_mb b
}.

Lemma install_kernel_spec (a : Z) b : installed a b (install_kernel kernel_data a b) /\
  fw (install_kernel kernel_data a b) = fw b.
Proof.
  split; [|done]. split; try done.
  - apply load_bytes_image.
  - intros x Hx. cbn [install_kernel ram with_binfo with_ram]. rewrite load_bytes_spec.
    destruct (Z.leb_spec a x); [|done]. destruct (Z.ltb_spec x (a + zlen kernel_data)); [lia|done].
  - intros g Hg. cbn. by rewrite Hg.
Qed.

(** The pages for the image: at 1 MB, or anywhere if that fails. *)
Definition kernel_pages b : Z * Z * F :=
  let n := u64 (zlen kernel_data + 4095) / 4096 in
  let r := AllocatePages AllocateAddress EfiLoaderData n 0x100000 (fw b) in
  if EFI_ERROR r.1.1 then AllocatePages AllocateAnyPages EfiLoaderData n 0 r.2 else r.

Lemma prepare_kernel_spec b :
  prepare_kernel kernel_data b
  = let '(status, a, f) := kernel_pages b in
    if EFI_ERROR status then (status, 0, with_fw f b)
    else (EFI_SUCCESS, a, install_kernel kernel_data a (with_fw f b)).
Proof.
  unfold prepare_kernel, kernel_pages. destruct (AllocatePages AllocateAddress _ _ _ _) as [[s1 a1] f1].
  cbn [fst snd]. by destruct (EFI_ERROR s1).
Qed.
End Prepare.

(** [prepare_kernel] loads the kernel: if an allocation succeeds, at 1 MB or
    else anywhere, the image is copied to the pages granted, no other memory
    changes, and the boot information holds magic number, location, size and
    screen; if both fail, the status of the second is returned and neither
    memory nor boot information changes. *)
Theorem prepare_kernel_correct {F} `{Firmware F} (kernel_data : list Z) (b : boot F) :
  let '(status, entry, b') := prepare_kernel kernel_data b in
  let '(granted, a, f) := kernel_pages kernel_data b in
  fw b' = f /\
  if EFI_ERROR granted then status = granted /\ ram b' = ram b /\ binfo b' = binfo b
  else status = EFI_SUCCESS /\ entry = a /\ installed kernel_data a b b'.
Proof.
  rewrite prepare_kernel_spec. destruct (kernel_pages kernel_data b) as [[s a] f].
  destruct (EFI_ERROR s); [done|]. destruct (install_kernel_spec kernel_data a (with_fw f b)) as [Hi _].
  split; [done|]. split; [done|]. split; [done|]. by destruct Hi; split.
Qed.

(** ** Leaving the firmware *)

Section Handover.
  Context {F : Type} {FW : Firmware F} {LAWS : FirmwareLaws F}.
  Implicit Types (f : F) (b : boot F).

Lemma fw_bytes_range f : 40 <= fw_bytes f < 2 ^ 48.
Proof. unfold fw_bytes. pose proof fw_desc_size_ok. pose proof (fw_map_length f). nia. Qed.

Lemma fw_bytes_max f : fw_bytes f <= fw_desc_size * 2 ^ 16.
Proof. unfold fw_bytes. pose proof fw_desc_size_ok. pose proof (fw_map_length f). nia. Qed.

Lemma ask_size (v : map_vars) f (m : memory) :
  exists key, GetMemoryMap 0 (with_size 0 v) f m
    = (EFI_BUFFER_TOO_SMALL, MapVars (fw_bytes f) key fw_desc_size (desc_ver v), f, m).
Proof.
  pose proof (fw_bytes_range f). apply (GetMemoryMap_small 0 (with_size 0 v) f m). cbn. lia.
Qed.

(** The number of descriptors computed from the size. *)
Lemma entries_value f : fw_bytes f / fw_desc_size = zlen (fw_map f).
Proof. unfold fw_bytes. rewrite Z.mul_comm. apply Z.div_mul. pose proof fw_desc_size_ok. lia. Qed.

(** The buffer is asked for with room for [k] more descriptors. *)
Lemma grown_size f (k : Z) : 0 <= k <= 16 ->
  u64 (fw_bytes f + u64 (fw_desc_size * k)) = fw_desc_size * (zlen (fw_map f) + k).
Proof.
  intros Hk. pose proof (fw_bytes_range f). pose proof fw_desc_size_ok.
  rewrite (uwrap_small 64 (fw_desc_size * k)) by nia. rewrite uwrap_small by nia. unfold fw_bytes. lia.
Qed.

(** The state of the loader agrees up to firmware, memory and memory map. *)
Record handed (b b' : boot F) : Prop := Handed {
  ha_screen : screen b' = screen b; ha_gop : gop b' = gop b;
  ha_magic : magic (binfo b') = magic (binfo b);
  ha_framebuffer : framebuffer (binfo b') = framebuffer (binfo b);
  ha_total : total_memory_mb b' = total_memory_mb b
}.

(** The map of the firmware is in memory where the boot information says. *)
Record map_handed (b' : boot F) (m : memory) : Prop := MapHanded {
  mh_boot : fw_boot (fw b') = false;
  mh_buffer : 0 < mmap (binfo b');
  mh_map : map_at (ram b') (mmap (binfo b')) fw_desc_size (fw_map (fw b'));
  mh_entries : mmap_entries (binfo b') = zlen (fw_map (fw b'));
  mh_size : mmap_entry_size (binfo b') = fw_desc_size;
  mh_rest : forall a, ~ (mmap (binfo b') <= a < mmap (binfo b') + fw_desc_size * 2 ^ 16) -> rd8 (ram b') a = rd8 m a
}.

(** What [boot_kernel] ends in: an error with the firmware still usable, or the
    jump; never a division by zero. *)
Definition boot_result_ok (entry : Z) (b : boot F) (r : boot_result) : Prop :=
  match r with
  | BootError status b' => EFI_ERROR status = true /\ fw_boot (fw b') = true /\ handed b b'
  | BootJump e b' => e = entry /\ handed b b' /\ map_handed b' (ram b)
  | BootFault => False
  end.

Lemma retry_ok (entry buf : Z) (v : map_vars) (b0 b : boot F) :
  fw_boot (fw b) = true -> handed b0 b -> 0 < buf -> mmap (binfo b) = buf ->
  mmap_entry_size (binfo b) = fw_desc_size ->
  (forall a, ~ (buf <= a < buf + fw_desc_size * 2 ^ 16) -> rd8 (ram b) a = rd8 (ram b0) a) ->
  boot_result_ok entry b0 (boot_kernel_retry entry buf v b).
Proof.
  intros Hb [h1 h2 h3 h4 h5] Hbuf Hm Hs Hr. unfold boot_kernel_retry.
  destruct (ask_size v (fw b) (ram b)) as [key ->]. cbn [mmap_size desc_size]. rewrite grown_size by lia.
  cbn [fw ram with_ram with_fw]. pose proof fw_desc_size_ok as Hd. pose proof (fw_map_length (fw b)) as Hl.
  match goal with |- context [GetMemoryMap buf ?v _ _] =>
    destruct (GetMemoryMap_ok buf v (fw b) (ram b)) as (m' & -> & Hmap & Hrest);
      [cbn [mmap_size with_size]; unfold fw_bytes; nia|lia|] end.
  change (EFI_ERROR EFI_SUCCESS) with false. cbn [desc_size mmap_size map_key].
  rewrite (proj2 (Z.eqb_neq fw_desc_size 0)) by lia. rewrite entries_value.
  cbn [fw with_ram with_fw set_map with_binfo].
  pose proof (ExitBootServices_law (fw_key (fw b)) (fw b) Hb) as Hx.
  destruct (ExitBootServices (fw_key (fw b)) (fw b)) as [status f'].
  destruct Hx as [(-> & _ & Hfm & Hfb)|(He & _ & Hfb)].
  - change (EFI_ERROR EFI_SUCCESS) with false. split; [done|]. split; [by split|].
    split; cbn [fw ram binfo mmap mmap_entries mmap_entry_size with_fw with_binfo with_ram];
      rewrite ?Hm, ?Hs, ?Hfm; try done.
    intros a Ha. change (~ (buf <= a < buf + fw_desc_size * 2 ^ 16)) in Ha. rewrite Hrest; [by apply Hr|]. pose proof (fw_bytes_max (fw b)). unfold fw_bytes in *. lia.
  - rewrite He. split; [done|]. split; [by rewrite <- Hb|]. by split.
Qed.

Lemma boot_kernel_ok (entry : Z) (b : boot F) :
  fw_boot (fw b) = true -> boot_result_ok entry b (boot_kernel entry b).
Proof.
  intros Hb. unfold boot_kernel. destruct (ask_size (junk b) (fw b) (ram b)) as [key ->].
  rewrite Z.eqb_refl. cbn [negb mmap_size desc_size]. rewrite grown_size by lia.
  cbn [fw ram with_ram with_fw mmap_size with_size]. pose proof fw_desc_size_ok as Hd.
  pose proof (AllocatePool_law EfiLoaderData (fw_desc_size * (zlen (fw_map (fw b)) + 16)) (fw b)) as Ha.
  destruct (AllocatePool _ _ _) as [[s1 buf] f1]. destruct Ha as [[_ Hb1] Hbuf]. rewrite Hb in Hb1.
  destruct (EFI_ERROR s1) eqn:E1; [by split|]. destruct (Hbuf eq_refl) as [Hpos _]. clear Hbuf.
  cbn [fw ram with_fw]. set (v := with_size _ _).
  destruct (decide (fw_bytes f1 <= mmap_size v)) as [Hfit|Hfit].
  2: { destruct (GetMemoryMap_small buf v f1 (ram b) (proj1 (Z.nle_gt _ _) Hfit)) as [key' ->].
       change (EFI_ERROR EFI_BUFFER_TOO_SMALL) with true. cbn [fw ram with_fw with_ram].
       split; [done|]. split; [|by split]. change (fw_boot (FreePool buf f1) = true). by rewrite (proj2 (FreePool_law buf f1)). }
  destruct (GetMemoryMap_ok buf v f1 (ram b) Hfit ltac:(lia)) as (m' & -> & Hmap & Hrest).
  change (EFI_ERROR EFI_SUCCESS) with false. cbn [desc_size mmap_size map_key].
  rewrite (proj2 (Z.eqb_neq fw_desc_size 0)) by lia. rewrite entries_value.
  pose proof (fw_map_length f1) as Hl.
  assert (Hr : forall a, ~ (buf <= a < buf + fw_desc_size * 2 ^ 16) -> rd8 m' a = rd8 (ram b) a).
  { intros a Ha. apply Hrest. pose proof (fw_bytes_max f1). unfold fw_bytes in *. lia. }
  cbn [fw with_ram with_fw set_map with_binfo]. pose proof (ExitBootServices_law (fw_key f1) f1 Hb1) as Hx.
  destruct (ExitBootServices (fw_key f1) f1) as [status f2].
  destruct Hx as [(-> & _ & Hfm & Hfb)|(He & _ & Hfb)].
  - change (EFI_ERROR EFI_SUCCESS) with false. split; [done|]. split; [by split|].
    split; cbn [fw ram binfo mmap mmap_entries mmap_entry_size with_fw with_binfo with_ram];
      rewrite ?Hfm; done.
  - rewrite He. apply retry_ok; try done. cbn [fw with_fw]. by rewrite Hfb.
Qed.

(** The firmware lets the loader go: the buffer is granted, the map grows by at
    most the 16 descriptors there is room for, and the key is accepted. *)
Record willing (b : boot F) (buf : Z) (f1 : F) : Prop := Willing {
  wi_pool : exists s, AllocatePool EfiLoaderData (fw_desc_size * (zlen (fw_map (fw b)) + 16)) (fw b) = (s, buf, f1)
              /\ EFI_ERROR s = false;
  wi_room : zlen (fw_map f1) <= zlen (fw_map (fw b)) + 16;
  wi_exit : (ExitBootServices (fw_key f1) f1).1 = EFI_SUCCESS
}.

Lemma boot_kernel_jumps (entry : Z) (b : boot F) (buf : Z) (f1 : F) :
  fw_boot (fw b) = true -> willing b buf f1 ->
  exists b', boot_kernel entry b = BootJump entry b' /\ mmap (binfo b') = buf /\ fw_map (fw b') = fw_map f1 /\
    forall a, ~ (buf <= a < buf + fw_bytes f1) -> rd8 (ram b') a = rd8 (ram b) a.
Proof.
  intros Hb [(s1 & Ha & E1) Hroom Hexit]. unfold boot_kernel.
  destruct (ask_size (junk b) (fw b) (ram b)) as [key ->].
  rewrite Z.eqb_refl. cbn [negb mmap_size desc_size]. rewrite grown_size by lia.
  cbn [fw ram with_ram with_fw mmap_size with_size]. pose proof fw_desc_size_ok as Hd.
  pose proof (AllocatePool_law EfiLoaderData (fw_desc_size * (zlen (fw_map (fw b)) + 16)) (fw b)) as HL.
  rewrite Ha in *. destruct HL as [[_ Hb1] Hbuf]. destruct (Hbuf E1) as [Hpos _]. rewrite E1.
  cbn [fw ram with_fw]. set (v := with_size _ _).
  destruct (GetMemoryMap_ok buf v f1 (ram b)) as (m' & -> & Hmap & Hrest);
    [unfold fw_bytes; cbn [v mmap_size with_size]; nia|lia|].
  change (EFI_ERROR EFI_SUCCESS) with false. cbn [desc_size mmap_size map_key].
  rewrite (proj2 (Z.eqb_neq fw_desc_size 0)) by lia.
  cbn [fw with_ram with_fw set_map with_binfo]. rewrite Hb in Hb1.
  pose proof (ExitBootServices_law (fw_key f1) f1 Hb1) as Hx.
  destruct (ExitBootServices (fw_key f1) f1) as [status f2]. cbn [fst] in Hexit. subst status.
  destruct Hx as [(_ & _ & Hfm & _)|(He & _)]; [|done].
  change (EFI_ERROR EFI_SUCCESS) with false. eexists. split; [reflexivity|]. by split_and!.
Qed.

(** ** What the kernel reads *)

Lemma rdN_add (n k : nat) (m : memory) : forall a,
  rdN (n + k) m a = rdN n m a + 2 ^ (8 * Z.of_nat n) * rdN k m (a + Z.of_nat n).
Proof.
  induction n as [|n IH]; intros a; [cbn [Nat.add rdN]; rewrite Z.add_0_r; cbn; lia|].
  cbn [Nat.add rdN]. rewrite IH. replace (a + 1 + Z.of_nat n) with (a + Z.of_nat (S n)) by lia.
  replace (8 * Z.of_nat (S n)) with (8 + 8 * Z.of_nat n) by lia. rewrite Z.pow_add_r by lia. ring.
Qed.
Lemma rd64_halves (m : memory) (a : Z) : rd64 m a = rd32 m a + 2 ^ 32 * rd32 m (a + 4).
Proof. apply (rdN_add 4 4). Qed.

Lemma map_at_list (m : memory) (bi : boot_info) (es : list memory_map_entry) :
  map_at m (mmap bi) MMAP_STRIDE es -> mmap_entries bi = zlen es -> mmap_list m bi = es.
Proof.
  intros Hm Hn. apply list_eq. intros i. unfold mmap_list. rewrite list_lookup_fmap, Hn.
  destruct (es !! i) as [e|] eqn:E.
  - pose proof (lookup_lt_Some _ _ _ E). rewrite lookup_seqZ_lt by (unfold zlen; lia). cbn.
    by rewrite <- (Hm i e E).
  - apply lookup_ge_None in E. rewrite lookup_seqZ_ge by (unfold zlen; lia). done.
Qed.

End Handover.


(** C39: The kernel reads the map with a stride of its own: the array it indexes is
    the firmware's map if a descriptor has 40 bytes; with descriptors of 48
    bytes its second entry takes the type of the second descriptor for the
    physical address and the virtual address for the number of pages. *)
Theorem kernel_map_stride {F} `{FirmwareLaws F} (b' : boot F) (m : memory) :
  map_handed b' m ->
  (fw_desc_size = 40 -> mmap_list (ram b') (binfo b') = fw_map (fw b')) /\
  (fw_desc_size = 48 -> forall e, fw_map (fw b') !! 1%nat = Some e ->
    exists k, mmap_list (ram b') (binfo b') !! 1%nat = Some k /\
      physical_start k = mm_type e + 2 ^ 32 * mm_pad e /\ num_pages k = virtual_start e).
Proof.
  intros [_ _ Hm He _ _]. split; intros E.
  - rewrite E in Hm. by apply map_at_list.
  - intros e H1. pose proof (lookup_lt_Some _ _ _ H1). pose proof (Hm 1%nat e H1) as Hat. rewrite E in Hat.
    exists (entry_at (ram b') (mmap (binfo b') + MMAP_STRIDE * 1)). split.
    { unfold mmap_list. rewrite list_lookup_fmap, lookup_seqZ_lt by (unfold zlen in He; lia). done. }
    subst e. unfold MMAP_STRIDE. cbn [entry_at physical_start num_pages mm_type mm_pad virtual_start].
    rewrite rd64_halves. split; [f_equal; [|f_equal]|]; f_equal; lia.
Qed.

(** ** The memory of the machine *)

Definition sum_pages (es : list memory_map_entry) : Z := foldr (fun e s => num_pages e + s) 0 es.

Lemma u64_add_l (a c : Z) : u64 (u64 a + c) = u64 (a + c).
Proof. unfold uwrap. by rewrite Zplus_mod_idemp_l. Qed.
Lemma u64_mul_l (a c : Z) : u64 (u64 a * c) = u64 (a * c).
Proof. unfold uwrap. by rewrite Zmult_mod_idemp_l. Qed.

(** The loop adds up the pages of the map, and those of the usable entries. *)
Lemma count_pages_spec (m : memory) (buf size : Z) (es : list memory_map_entry) : forall (i T U : Z),
  0 <= buf -> 0 <= size -> 0 <= i -> buf + size * (i + zlen es) <= 2 ^ 64 -> 40 <= size ->
  (forall (j : nat) e, es !! j = Some e -> entry_at m (buf + size * (i + Z.of_nat j)) = e) ->
  count_pages (length es) m buf size i (u64 T) (u64 U)
  = (u64 (T + sum_pages es), u64 (U + sum_pages (filter (fun e => entry_usable e = true) es))).
Proof.
  induction es as [|e es IH]; intros i T U Hb Hs Hi Hend H40 Hm; cbn [count_pages length].
  { cbn. by rewrite !Z.add_0_r. }
  pose proof (Hm 0%nat e eq_refl) as He. rewrite Z.add_0_r in He.
  unfold zlen in Hend. cbn [length] in Hend.
  rewrite (uwrap_small 64 (i * size)) by nia. rewrite (uwrap_small 64 (buf + i * size)) by nia.
  rewrite (Z.mul_comm i size). set (d := buf + size * i) in *.
  change (desc_NumberOfPages m d) with (num_pages (entry_at m d)).
  change (desc_Type m d) with (mm_type (entry_at m d)). rewrite He.
  change (_ || _) with (entry_usable e). rewrite !u64_add_l.
  assert (Hm' : forall (j : nat) e', es !! j = Some e' -> entry_at m (buf + size * (i + 1 + Z.of_nat j)) = e').
  { intros j e' Hj. rewrite <- (Hm (S j) e' Hj). f_equal. lia. }
  destruct (entry_usable e) eqn:Eu.
  - rewrite (IH (i + 1) (T + num_pages e) (U + num_pages e)) by (done || unfold zlen; lia || nia).
    rewrite filter_cons_True by done. cbn [sum_pages foldr]. f_equal; f_equal; unfold sum_pages; lia.
  - rewrite (IH (i + 1) (T + num_pages e) U) by (done || unfold zlen; lia || nia).
    rewrite filter_cons_False by (by rewrite Eu). cbn [sum_pages foldr]. f_equal; f_equal; unfold sum_pages; lia.
Qed.

Section Memory.
  Context {F : Type} {FW : Firmware F} {LAWS : FirmwareLaws F}.
  Implicit Types (f : F) (b : boot F).

(** The firmware grants the buffer with room for [k] more descriptors, and the map
    still fits. *)
Definition pool_granted (k : Z) f (buf : Z) f1 : Prop :=
  (exists s, AllocatePool EfiLoaderData (fw_desc_size * (zlen (fw_map f) + k)) f = (s, buf, f1)
     /\ EFI_ERROR s = false) /\ zlen (fw_map f1) <= zlen (fw_map f) + k.

Lemma gather_memory_spec b (buf : Z) f1 :
  pool_granted 4 (fw b) buf f1 ->
  exists m, gather_memory_info b
    = Some (Boot (FreePool buf f1) m (screen b) (gop b)
        (u64 (sum_pages (fw_map f1) * 4096) / 2 ^ 20)
        (u64 (sum_pages (filter (fun e => entry_usable e = true) (fw_map f1)) * 4096) / 2 ^ 20)
        (zlen (fw_map f1)) (binfo b) (junk b)).
Proof.
  intros [(s1 & Ha & E1) Hroom]. unfold gather_memory_info.
  destruct (ask_size (junk b) (fw b) (ram b)) as [key ->].
  rewrite Z.eqb_refl. cbn [negb mmap_size desc_size]. rewrite grown_size by lia.
  cbn [fw ram with_ram with_fw mmap_size with_size]. pose proof fw_desc_size_ok as Hd.
  pose proof (AllocatePool_law EfiLoaderData (fw_desc_size * (zlen (fw_map (fw b)) + 4)) (fw b)) as HL.
  rewrite Ha in *. destruct HL as [_ Hbuf]. destruct (Hbuf E1) as [Hpos Hend]. rewrite E1.
  cbn [fw ram with_fw]. set (v := with_size _ _).
  destruct (GetMemoryMap_ok buf v f1 (ram b)) as (m' & -> & Hmap & Hrest);
    [unfold fw_bytes; cbn [v mmap_size with_size]; nia|lia|].
  change (EFI_ERROR EFI_SUCCESS) with false. cbn [desc_size mmap_size map_key].
  rewrite (proj2 (Z.eqb_neq fw_desc_size 0)) by lia.
  rewrite entries_value. cbn [ram with_ram]. replace (Z.to_nat (zlen (fw_map f1))) with (length (fw_map f1))
    by (unfold zlen; lia).
  change 0 with (u64 0) at 2 3. rewrite count_pages_spec by (lia || nia || (intros j e Hj; by apply Hmap)).
  rewrite !u64_mul_l, !Z.add_0_l. by exists m'.
Qed.
End Memory.

(** ** The menu *)

(** What a key does to the selection, and whether it does nothing else. *)
Definition navigate (selected : Z) (key : EFI_INPUT_KEY) : Z :=
  if ScanCode key =? 0x01 then Z.max 0 (selected - 1)
  else if ScanCode key =? 0x02 then Z.min (MENU_COUNT - 1) (selected + 1)
  else selected.
Definition navigates (key : EFI_INPUT_KEY) : bool :=
  (ScanCode key =? 0x01) || (ScanCode key =? 0x02)
  || negb ((UnicodeChar key =? 0x0D) || (UnicodeChar key =? 32) || (ScanCode key =? 0x17)).

(** The polls for keys pressed one after another, each after some empty polls. *)
Definition presses (ks : list (nat * EFI_INPUT_KEY)) : list (option EFI_INPUT_KEY) :=
  ks ≫= fun k => replicate k.1 None ++ [Some k.2].

(** The calls of the firmware that ask for no memory and give none back. *)
Inductive idle_call {F} `{Firmware F} : F -> F -> Prop :=
| ic_watchdog f : idle_call f (SetWatchdogTimer f)
| ic_locate f : idle_call f (LocateProtocol f).2
| ic_stall n f : idle_call f (Stall n f)
| ic_reset f : idle_call f (ConInReset f)
| ic_key f : idle_call f (ReadKeyStroke f).2.
Abbreviation idles := (rtc idle_call).

Lemma idles_call {F} `{Firmware F} (f1 f2 f3 : F) : idle_call f1 f2 -> idles f2 f3 -> idles f1 f3.
Proof. apply rtc_l. Qed.

Section Menu.
  Context {F : Type} {FW : Firmware F} {LAWS : FirmwareLaws F} (kernel_data : list Z) (st : system_table).
  Implicit Types (f : F) (b : boot F).

Lemma poll_key_spec (n : nat) : forall (fuel : nat) (k : EFI_INPUT_KEY) (ps : list (option EFI_INPUT_KEY)) f,
  fw_polls f = replicate n None ++ Some k :: ps -> (n < fuel)%nat ->
  exists f', poll_key fuel f = Some (k, f') /\ fw_polls f' = ps /\ fw_boot f' = fw_boot f /\ idles f f'.
Proof.
  induction n as [|n IH]; intros fuel k ps f Hp Hf; destruct fuel as [|fuel]; try lia; cbn [poll_key];
    pose proof (ReadKeyStroke_law f) as HR; rewrite Hp in HR; cbn [replicate app] in HR;
    pose proof (ic_key f) as Hc.
  - destruct HR as (f' & E & H1 & H2). rewrite E in *. change (EFI_SUCCESS =? EFI_NOT_READY) with false.
    exists f'. split_and!; try done. by apply rtc_once.
  - destruct HR as (k' & f' & E & H1 & H2). rewrite E in *. rewrite Z.eqb_refl.
    destruct (IH fuel k ps f' H1 ltac:(lia)) as (f'' & -> & H3 & H4 & H5). exists f''. rewrite H4.
    split_and!; try done. by eapply idles_call.
Qed.

(** The loader's own state apart from firmware and screen. *)
Record same_loader b b' : Prop := SameLoader {
  sl_ram : ram b' = ram b; sl_gop : gop b' = gop b; sl_binfo : binfo b' = binfo b; sl_junk : junk b' = junk b;
  sl_total : total_memory_mb b' = total_memory_mb b; sl_screen : draws (screen b) (screen b');
  sl_boot : fw_boot (fw b') = fw_boot (fw b); sl_fw : idles (fw b) (fw b')
}.

Lemma same_loader_refl b : same_loader b b.
Proof. by split. Qed.

Lemma same_loader_trans b b' b'' : same_loader b b' -> same_loader b' b'' -> same_loader b b''.
Proof. intros [] []. split; try congruence; [by transitivity (screen b')|by etransitivity]. Qed.

Lemma wait_key_spec (fuel n : nat) (k : EFI_INPUT_KEY) (ps : list (option EFI_INPUT_KEY)) b :
  fw_polls (fw b) = replicate n None ++ Some k :: ps -> (n < fuel)%nat ->
  exists b', wait_key fuel b = Some (k, b') /\ fw_polls (fw b') = ps /\ same_loader b b' .
Proof.
  intros Hp Hf. unfold wait_key. destruct (ConInReset_law (fw b)) as [HP HB].
  destruct (poll_key_spec n fuel k ps (ConInReset (fw b)) ltac:(by rewrite HP) Hf) as (f' & -> & H1 & H2 & H3).
  eexists. split; [reflexivity|]. split; [done|]. split; try done; [cbn; by rewrite H2|].
  eapply idles_call; [apply ic_reset|done].
Qed.

(** A round of the menu that waits for its key. *)
Lemma round_waits (fuel n : nat) (k : EFI_INPUT_KEY) (ps : list (option EFI_INPUT_KEY)) (selected : Z) b :
  u32 (total_memory_mb b) <> 0 -> fw_polls (fw b) = replicate n None ++ Some k :: ps -> (n < fuel)%nat ->
  exists b', fw_polls (fw b') = ps /\ same_loader b b' /\
    menu_round kernel_data st fuel selected b =
      if ScanCode k =? 0x01 then (if 0 <? selected then selected - 1 else selected, Continue true b')
      else if ScanCode k =? 0x02 then
        (if selected <? MENU_COUNT - 1 then selected + 1 else selected, Continue true b')
      else (selected, menu_default kernel_data fuel k selected b').
Proof.
  intros Ht Hp Hf. unfold menu_round. pose proof (ui_draws st selected b) as Hd.
  destruct (draw_ui st selected b) as [s|]; [|done]. destruct Hd as [Hd _].
  destruct (wait_key_spec fuel n k ps (with_screen s b) Hp Hf) as (b' & -> & H1 & H2).
  exists b'. split; [done|]. split; [|done]. eapply same_loader_trans; [|exact H2]. by split.
Qed.

Lemma menu_navigates (rounds fuel : nat) (ks : list (nat * EFI_INPUT_KEY)) :
  forall (ps : list (option EFI_INPUT_KEY)) (selected : Z) b,
  0 <= selected < MENU_COUNT -> u32 (total_memory_mb b) <> 0 ->
  Forall (fun k => navigates k.2 = true /\ (k.1 < fuel)%nat) ks -> fw_polls (fw b) = presses ks ++ ps ->
  let selected' := foldl (fun s k => navigate s k.2) selected ks in
  0 <= selected' < MENU_COUNT /\
  exists b', fw_polls (fw b') = ps /\ same_loader b b' /\
    menu_loop kernel_data st (length ks + rounds) fuel selected b
    = menu_loop kernel_data st rounds fuel selected' b'.
Proof.
  cbv zeta. induction ks as [|[n k] ks IH]; intros ps selected b Hs Ht Hk Hp.
  { split; [done|]. exists b. split; [done|]. split; [apply same_loader_refl|done]. }
  apply Forall_cons in Hk as [[Hn Hf] Hk]. cbn [fst snd] in *.
  change (presses ((n, k) :: ks)) with ((replicate n None ++ [Some k]) ++ presses ks) in Hp.
  rewrite <- !app_assoc in Hp. cbn [app] in Hp.
  destruct (round_waits fuel n k _ selected b Ht Hp Hf) as (b1 & H1 & H2 & HR).
  assert (Hnav : 0 <= navigate selected k < MENU_COUNT)
    by (unfold navigate, MENU_COUNT in *; destruct (_ =? _); [|destruct (_ =? _)]; lia).
  cbn [foldl snd]. destruct (IH ps (navigate selected k) b1 Hnav) as [Hs' (b2 & H3 & H4 & H5)];
    [by rewrite (sl_total _ _ H2)|done|done|].
  split; [done|]. exists b2. split; [done|]. split; [by apply (same_loader_trans _ b1)|]. rewrite <- H5.
  cbn [length Nat.add menu_loop]. rewrite HR. unfold navigate, navigates, MENU_COUNT in *.
  destruct (ScanCode k =? 1); [|destruct (ScanCode k =? 2)]; cbn [orb] in Hn.
  - replace (if 0 <? selected then selected - 1 else selected) with (Z.max 0 (selected - 1)) by (zcases; lia). done.
  - replace (if selected <? 4 - 1 then selected + 1 else selected) with (Z.min (4 - 1) (selected + 1)) by (zcases; lia).
    done.
  - unfold menu_default. destruct (_ || (UnicodeChar k =? 32)); [done|].
    by destruct (ScanCode k =? 23).
Qed.
End Menu.

(** ** From the menu to the shell *)

Section Start.
  Context {F : Type} {FW : Firmware F} {LAWS : FirmwareLaws F} (kernel_data : list Z) (st : system_table) (g : gop_mode).
  Implicit Types (f : F) (b : boot F).

(** A machine the kernel can be started on, along the run of the loader: each request for memory
    is made once, with calls in between that ask for none.  (The sizes of the requests, the place
    of the image and the number of map entries the kernel accepts are those of the code; the size
    of a descriptor is left open.) *)
Definition image_pages : Z := u64 (zlen kernel_data + 4095) / 4096.

(** The last request: a buffer for the map, apart from the image; the map then has at most 256
    entries, and the boot services end for its key. *)
Definition lets_go f : Prop := exists buf f1,
  pool_granted 16 f buf f1 /\
  (buf + fw_desc_size * (zlen (fw_map f) + 16) <= 0x100000 \/ 0x100000 + zlen kernel_data <= buf) /\
  zlen (fw_map f1) <= 256 /\ (ExitBootServices (fw_key f1) f1).1 = EFI_SUCCESS.
(** The pages for the image are free at 1 MB. *)
Definition loads f : Prop := exists f1,
  AllocatePages AllocateAddress EfiLoaderData image_pages 0x100000 f = (EFI_SUCCESS, 0x100000, f1) /\
  forall f2, idles f1 f2 -> lets_go f2.
(** The buffer for the memory information; the machine has at least 1 MB. *)
Definition reports_memory f : Prop := exists buf f1,
  pool_granted 4 f buf f1 /\ 256 <= sum_pages (fw_map f1) < 2 ^ 40 /\
  forall f2, idles (FreePool buf f1) f2 -> loads f2.
(** From the state the loader is started in: a screen of a usual size, and then the requests. *)
Record bootable f : Prop := Bootable {
  bt_screen : (LocateProtocol (SetWatchdogTimer f)).1 = (EFI_SUCCESS, Some g);
  bt_size : 8 <= HorizontalResolution g < 2 ^ 31 /\ 100 <= VerticalResolution g < 2 ^ 31;
  bt_memory : reports_memory (LocateProtocol (SetWatchdogTimer f)).2
}.

Lemma boot_screen_step (msg : list Z) (p : Z) b (k : boot F -> step) :
  exists b', with_boot_screen msg p b k = k b' /\ same_loader b b' /\ fw b' = fw b.
Proof.
  unfold with_boot_screen. destruct (boot_screen_draws msg p (screen b)) as (s & -> & Hd).
  eexists. split; [reflexivity|]. split; [by split|done].
Qed.
Ltac screen_step b b' S :=
  match goal with |- context [with_boot_screen ?m ?p b ?k] =>
    destruct (boot_screen_step m p b k) as (b' & -> & S & _) end.
Lemma delay_same (ms : Z) b : same_loader b (delay_ms ms b).
Proof. split; try done; [apply Stall_law|]. apply rtc_once, ic_stall. Qed.

(** What the kernel is entered with: the map of the firmware is handed over, and is what the
    kernel reads if a descriptor has the size of its entries. *)
Record entered (b' : boot F) : Prop := Entered {
  en_image : image_at (ram b') 0x100000 kernel_data;
  en_boot : fw_boot (fw b') = false;
  en_info : boot_ok (binfo b');
  en_screen : fbi_base (framebuffer (binfo b')) = FrameBufferBase g;
  en_handed : map_at (ram b') (mmap (binfo b')) fw_desc_size (fw_map (fw b')) /\
    mmap_entries (binfo b') = zlen (fw_map (fw b')) /\ mmap_entry_size (binfo b') = fw_desc_size;
  en_map : fw_desc_size = MMAP_STRIDE -> mmap_list (ram b') (binfo b') = fw_map (fw b')
}.

Lemma handover_entered (b : boot F) :
  8 <= HorizontalResolution g < 2 ^ 31 /\ 100 <= VerticalResolution g < 2 ^ 31 ->
  lets_go (fw b) -> fw_boot (fw b) = true -> magic (binfo b) = BOOTINFO_MAGIC ->
  image_at (ram b) 0x100000 kernel_data ->
  (let i := framebuffer (binfo b) in fbi_base i = FrameBufferBase g /\
     fbi_width i = HorizontalResolution g /\ fbi_height i = VerticalResolution g) ->
  exists b', boot_kernel 0x100000 b = BootJump 0x100000 b' /\ entered b'.
Proof.
  intros [Hsw Hsh] (buf & f1 & [Ha Hroom] & Hapart & Hmax & Hexit) Hb Hm Himg (Hfb & Hfw & Hfh).
  assert (Hw : willing b buf f1) by by split.
  destruct (boot_kernel_jumps 0x100000 b buf f1 Hb Hw) as (b' & E & Hmm & Hfm & Hrest).
  exists b'. split; [exact E|]. pose proof (boot_kernel_ok 0x100000 b Hb) as Hok. rewrite E in Hok.
  destruct Hok as (_ & [h1 h2 h3 h4 h5] & [m1 m2 m3 m4 m5 m6]). pose proof (fw_map_length (fw b')) as Hlen.
  split; try done.
  - intros i c Hi. rewrite Hrest; [by apply Himg|]. pose proof (lookup_lt_Some _ _ _ Hi) as Hl.
    pose proof fw_desc_size_ok. unfold fw_bytes. unfold zlen in *. nia.
  - split; [by rewrite h3|rewrite m4, Hfm in *; lia|by rewrite h4, Hfw|by rewrite h4, Hfh].
  - by rewrite h4.
  - intros E40. rewrite E40 in m3. by apply map_at_list.
Qed.

Lemma boot_action_enters (fuel : nat) b :
  8 <= HorizontalResolution g < 2 ^ 31 /\ 100 <= VerticalResolution g < 2 ^ 31 ->
  (forall f, idles (fw b) f -> loads f) -> fw_boot (fw b) = true -> gop b = Some g ->
  exists b', boot_action kernel_data fuel b = Done (Jump 0x100000 b') /\ entered b'.
Proof.
  intros Hsize Hloads Hb Hg. unfold boot_action.
  screen_step b b1 S1.
  pose proof (same_loader_trans _ _ _ S1 (delay_same 200 b1)) as S2. set (b2 := delay_ms 200 b1) in *. clearbody b2.
  screen_step b2 b3 S3.
  apply (same_loader_trans _ _ _ S2) in S3. clear b1 b2 S1 S2. rewrite prepare_kernel_spec.
  unfold kernel_pages. fold image_pages. destruct (Hloads (fw b3) (sl_fw _ _ S3)) as (f1 & Hp & Hgo).
  pose proof (AllocatePages_law AllocateAddress EfiLoaderData image_pages 0x100000 (fw b3)) as [_ HB].
  rewrite Hp in *. cbn [fst snd] in *. change (EFI_ERROR EFI_SUCCESS) with false. cbv iota.
  change (EFI_ERROR EFI_SUCCESS) with false. cbv iota.
  destruct (install_kernel_spec kernel_data 0x100000 (with_fw f1 b3)) as [[I1 _ [I3 _] _ I5 (I6 & I7 & _)] I8].
  set (b4 := install_kernel _ _ _) in *. clearbody b4. cbn [fw gop with_fw] in *.
  screen_step b4 b5 S5.
  pose proof (same_loader_trans _ _ _ S5 (delay_same 200 b5)) as S6. set (b6 := delay_ms 200 b5) in *. clearbody b6.
  screen_step b6 b7 S7.
  apply (same_loader_trans _ _ _ S6) in S7.
  pose proof (same_loader_trans _ _ _ S7 (delay_same 200 b7)) as S8. set (b8 := delay_ms 200 b7) in *. clearbody b8.
  screen_step b8 b9 S9.
  apply (same_loader_trans _ _ _ S8) in S9.
  pose proof (same_loader_trans _ _ _ S9 (delay_same 100 b9)) as [T1 T2 T3 T4 T5 T6 T7 T8].
  set (b10 := delay_ms 100 b9) in *. clearbody b10.
  destruct (I5 g ltac:(by rewrite (sl_gop _ _ S3))) as (G1 & G2 & G3 & _). rewrite I8 in T8.
  destruct (handover_entered b10 Hsize (Hgo _ T8)) as (b' & -> & He).
  - rewrite T7, I8, HB, (sl_boot _ _ S3). done.
  - by rewrite T3.
  - by rewrite T1.
  - by rewrite T3.
  - by exists b'.
Qed.

(** The first part of [efi_main]: up to the menu. *)
Lemma efi_main_menu (rounds fuel : nat) b :
  bootable (fw b) ->
  exists b', efi_main kernel_data st rounds fuel b = menu_loop kernel_data st rounds fuel 0 b' /\
    fw_polls (fw b') = fw_polls (fw b) /\ fw_boot (fw b') = fw_boot (fw b) /\ gop b' = Some g /\
    u32 (total_memory_mb b') <> 0 /\ forall f, idles (fw b') f -> loads f.
Proof.
  intros [Hg _ Hmem]. unfold efi_main, gfx_init. cbn [fw with_fw]. destruct (SetWatchdogTimer_law (fw b)) as [P1 B1].
  set (f1 := SetWatchdogTimer (fw b)) in *.
  destruct (LocateProtocol_law f1) as [P2 B2]. destruct (LocateProtocol f1) as [r f2]. cbn [fst snd] in *. subst r.
  change (EFI_ERROR EFI_SUCCESS) with false. cbv iota beta. set (b1 := with_screen _ _).
  assert (Hf : fw b1 = f2) by done. assert (Hgb : gop b1 = Some g) by done. clearbody b1.
  destruct Hmem as (buf & f3 & [(s3 & Ha & E3) Hroom] & Hp & Hloads).
  pose proof (AllocatePool_law EfiLoaderData (fw_desc_size * (zlen (fw_map f2) + 4)) f2) as HL.
  rewrite Ha in HL. destruct HL as [[P3 B3] _]. destruct (FreePool_law buf f3) as [P4 B4].
  destruct (gather_memory_spec b1 buf f3) as [m ->].
  { rewrite Hf. split; [by exists s3|lia]. }
  eexists. split; [reflexivity|]. cbn [fw gop total_memory_mb].
  split_and!; [congruence|congruence|done| |done]. rewrite (uwrap_small 64) by lia.
  assert (1 <= sum_pages (fw_map f3) * 4096 / 2 ^ 20 < 2 ^ 32)
    by (split; [apply Z.div_le_lower_bound; lia|apply Z.div_lt_upper_bound; lia]).
  rewrite uwrap_small; lia.
Qed.

Lemma menu_enters (ks : list (nat * EFI_INPUT_KEY)) (n fuel : nat) (key : EFI_INPUT_KEY)
    (ps : list (option EFI_INPUT_KEY)) b :
  8 <= HorizontalResolution g < 2 ^ 31 /\ 100 <= VerticalResolution g < 2 ^ 31 ->
  (forall f, idles (fw b) f -> loads f) ->
  fw_boot (fw b) = true -> gop b = Some g -> u32 (total_memory_mb b) <> 0 ->
  Forall (fun k => navigates k.2 = true /\ (k.1 < fuel)%nat) ks -> (n < fuel)%nat ->
  foldl (fun s k => navigate s k.2) 0 ks = 0 ->
  ScanCode key <> 1 -> ScanCode key <> 2 -> UnicodeChar key = 0x0D ->
  fw_polls (fw b) = presses ks ++ replicate n None ++ Some key :: ps ->
  exists b', menu_loop kernel_data st (length ks + 1) fuel 0 b = Jump 0x100000 b' /\ entered b'.
Proof.
  intros Hsize Hloads Hb Hg Ht Hks Hn Hsel H1 H2 Hcr Hp.
  destruct (menu_navigates kernel_data st 1 fuel ks _ 0 b ltac:(unfold MENU_COUNT; lia) Ht Hks Hp)
    as (_ & b1 & Hp1 & S1 & ->). rewrite Hsel. cbn [menu_loop].
  destruct (round_waits kernel_data st fuel n key ps 0 b1) as (b2 & _ & S2 & ->);
    [by rewrite (sl_total _ _ S1)|done|done|].
  rewrite (proj2 (Z.eqb_neq _ _) H1), (proj2 (Z.eqb_neq _ _) H2). unfold menu_default. rewrite Hcr, Z.eqb_refl.
  cbn [orb]. change (action (menu_item 0)) with 0. cbn [menu_action Z.eqb].
  pose proof (same_loader_trans _ _ _ S1 S2) as S3.
  destruct (boot_action_enters fuel b2 Hsize) as (b' & -> & He);
    [|by rewrite (sl_boot _ _ S3)|by rewrite (sl_gop _ _ S3)|by exists b'].
  intros f Hf. apply Hloads. etransitivity; [exact (sl_fw _ _ S3)|done].
Qed.
End Start.

(** C10: From the boot menu to the shell.  Let the firmware have a screen of a usual size and grant
    the three requests for memory that the loader makes on its way (a buffer for the memory
    information, the pages of the image at 1 MB, a buffer for the map), each time it gets there
    through calls that ask for no memory, with a map of at most 256 entries and of at most 4 and 16
    entries more than when its size was asked for, and accept the key of the current map.  When
    the keys pressed in the menu lead back to the first item and Enter follows, the loader enters
    the kernel at 1 MB with its image in memory, the boot services ended, and boot information that
    describes the screen and the firmware's map with the size of its descriptors; started with it,
    [kernel_main] reaches the shell in the state that [kernel_ok] describes, whatever the size of a
    descriptor.  The map that the kernel reads is the firmware's if that size is 40 bytes. *)
Theorem efi_main_starts_kernel {F} `{FirmwareLaws F} {D} {PD : PortDevice D} {PIC : Pic8259 D} {INI : Pic8259Init D}
    (kernel_data : list Z) (st : system_table) (g : gop_mode) (b : boot F)
    (ks : list (nat * EFI_INPUT_KEY)) (n fuel : nat) (key : EFI_INPUT_KEY) (ps : list (option EFI_INPUT_KEY)) :
  bootable kernel_data g (fw b) -> fw_boot (fw b) = true ->
  Forall (fun k => navigates k.2 = true /\ (k.1 < fuel)%nat) ks -> (n < fuel)%nat ->
  foldl (fun s k => navigate s k.2) 0 ks = 0 ->
  ScanCode key <> 1 -> ScanCode key <> 2 -> UnicodeChar key = 0x0D ->
  fw_polls (fw b) = presses ks ++ replicate n None ++ Some key :: ps ->
  exists b', efi_main kernel_data st (length ks + 1) fuel b = Jump 0x100000 b' /\ entered kernel_data g b' /\
    forall (l : layout) (k : kernel D), bss_ok k ->
      (forall i, 0 <= isr l i < 2 ^ 64) -> (forall i, 0 <= irq l i < 2 ^ 64) ->
      exists k', kernel_main l (ram b') (Some (binfo b')) k = Some k' /\ kernel_ok l (ram b') (binfo b') k'.
Proof.
  intros BT Hb Hks Hn Hsel H1 H2 Hcr Hp.
  destruct (efi_main_menu kernel_data st g (length ks + 1) fuel b BT) as (b1 & -> & P1 & B1 & G1 & T1 & L1).
  destruct (menu_enters kernel_data st g ks n fuel key ps b1 (bt_size _ _ _ BT) L1) as (b' & -> & He); try done;
    [by rewrite B1|by rewrite P1|].
  exists b'. split; [done|]. split; [done|]. intros l k Hk Hisr Hirq.
  destruct (kernel_main_spec l (ram b') (binfo b') k Hk (en_info _ _ _ He) Hisr Hirq) as (k' & E & Hok & _).
  by exists k'.
Qed.

(** The menu follows the keys: arrow keys move the selection one item up or
    down and stop at the ends, other keys leave it, and the selection is always
    one of the four items; every such key is taken in one round, and nothing but
    the pixels on the screen and the firmware's state changes. *)
Theorem menu_selection_correct {F} `{FirmwareLaws F} (kernel_data : list Z) (st : system_table) (rounds fuel : nat)
    (ks : list (nat * EFI_INPUT_KEY)) (ps : list (option EFI_INPUT_KEY)) (selected : Z) (b : boot F) :
  0 <= selected < MENU_COUNT -> u32 (total_memory_mb b) <> 0 ->
  Forall (fun k => navigates k.2 = true /\ (k.1 < fuel)%nat) ks -> fw_polls (fw b) = presses ks ++ ps ->
  let selected' := foldl (fun s k => navigate s k.2) selected ks in
  0 <= selected' < MENU_COUNT /\
  exists b', fw_polls (fw b') = ps /\ same_loader b b' /\
    menu_loop kernel_data st (length ks + rounds) fuel selected b
    = menu_loop kernel_data st rounds fuel selected' b'.
Proof. apply menu_navigates. Qed.

(** The memory shown is that of the map: when the firmware grants the buffer and
    the map fits, [gather_memory_info] releases the buffer and sets the number of
    entries and the megabytes of all and of the usable pages, modulo 2^64 bytes. *)
Theorem gather_memory_info_correct {F} `{FirmwareLaws F} (b : boot F) (buf : Z) (f1 : F) :
  pool_granted 4 (fw b) buf f1 ->
  exists m, gather_memory_info b
    = Some (Boot (FreePool buf f1) m (screen b) (gop b)
        (u64 (sum_pages (fw_map f1) * 4096) / 2 ^ 20)
        (u64 (sum_pages (filter (fun e => entry_usable e = true) (fw_map f1)) * 4096) / 2 ^ 20)
        (zlen (fw_map f1)) (binfo b) (junk b)).
Proof. apply gather_memory_spec. Qed.

(** ** A firmware that satisfies the laws

    Two regions of memory, descriptors of [size] bytes, a screen, and a list of
    key presses. *)

Definition write_entry (m : memory) (a : Z) (e : memory_map_entry) : memory :=
  wr64 (wr64 (wr64 (wr64 (wr32 (wr32 m a (mm_type e)) (a + 4) (mm_pad e)) (a + 8) (physical_start e))
    (a + 16) (virtual_start e)) (a + 24) (num_pages e)) (a + 32) (attribute e).
Fixpoint write_map (m : memory) (buf size : Z) (es : list memory_map_entry) : memory :=
  match es with
  | [] => m
  | e :: es' => write_entry (write_map m (buf + size) size es') buf e
  end.

Definition entry_wf (e : memory_map_entry) : Prop :=
  0 <= mm_type e < 2 ^ 32 /\ 0 <= mm_pad e < 2 ^ 32 /\ 0 <= physical_start e < 2 ^ 64 /\
  0 <= virtual_start e < 2 ^ 64 /\ 0 <= num_pages e < 2 ^ 64 /\ 0 <= attribute e < 2 ^ 64.

Lemma rd8_write_entry (m : memory) (a : Z) (e : memory_map_entry) (x : Z) :
  x < a \/ a + 40 <= x -> rd8 (write_entry m a e) x = rd8 m x.
Proof. intros H. unfold write_entry. by rewrite !rd8_wrN_out by lia. Qed.

Lemma entry_at_write (m : memory) (a : Z) (e : memory_map_entry) :
  entry_wf e -> entry_at (write_entry m a e) a = e.
Proof.
  intros (H1 & H2 & H3 & H4 & H5 & H6). unfold entry_at, write_entry. destruct e. cbn in *.
  f_equal; rewrite ?rdN_wrN_disj by lia; rewrite rdN_wrN_same; by apply Z.mod_small.
Qed.

Lemma entry_at_ext (m m' : memory) (a : Z) :
  (forall x, a <= x < a + 40 -> rd8 m' x = rd8 m x) -> entry_at m' a = entry_at m a.
Proof. intros H. unfold entry_at. f_equal; apply rdN_ext; intros x Hx; apply H; lia. Qed.

Lemma map_at_write (m : memory) (size : Z) (es : list memory_map_entry) : forall buf,
  40 <= size -> Forall entry_wf es -> map_at (write_map m buf size es) buf size es.
Proof.
  induction es as [|e es IH]; intros buf Hs Hes [|i] e' Hi; try done; cbn [write_map];
    apply Forall_cons in Hes as [He Hes]; cbn in Hi.
  - injection Hi as <-. replace (buf + size * Z.of_nat 0) with buf by lia. by apply entry_at_write.
  - rewrite <- (IH (buf + size) Hs Hes i e' Hi). replace (buf + size * Z.of_nat (S i)) with (buf + size + size * Z.of_nat i) by lia.
    apply entry_at_ext. intros x Hx. apply rd8_write_entry. nia.
Qed.

Lemma rd8_write_map (m : memory) (size : Z) (es : list memory_map_entry) : forall buf x,
  40 <= size -> ~ (buf <= x < buf + size * zlen es) -> rd8 (write_map m buf size es) x = rd8 m x.
Proof.
  unfold zlen. induction es as [|e es IH]; intros buf x Hs Hx; cbn [write_map length] in *; [done|].
  rewrite rd8_write_entry by nia. apply IH; nia.
Qed.

(** The firmware has 256 pages at 1 MB and a number of pool buffers to give. *)
Record demo_fw (size : Z) :=
  DemoFw { df_polls : list (option EFI_INPUT_KEY); df_boot : bool; df_pages : bool; df_pool : nat }.
Arguments DemoFw {size}.
Arguments df_polls {size}.
Arguments df_boot {size}.
Arguments df_pages {size}.
Arguments df_pool {size}.

Definition demo_regions : list memory_map_entry :=
  [MemoryMapEntry 7 0 0x100000 0 2048 0; MemoryMapEntry 7 0 0x1000000 0x5000 512 0].
Definition demo_gop : gop_mode := GopMode 0x80000000 0x10000 640 480 640.

#[export] Instance demo_firmware (size : Z) : Firmware (demo_fw size) := {
  GetMemoryMap buf v f m :=
    if mmap_size v <? size * 2 then (EFI_BUFFER_TOO_SMALL, MapVars (size * 2) 0 size (desc_ver v), f, m)
    else if buf =? 0 then (EFI_INVALID_PARAMETER, v, f, m)
    else (EFI_SUCCESS, MapVars (size * 2) 1 size (desc_ver v), f, write_map m buf size demo_regions);
  AllocatePool t n f :=
    match df_pool f with
    | S k => if n <? 2 ^ 16 then (EFI_SUCCESS, 0x800000, DemoFw (df_polls f) (df_boot f) (df_pages f) k)
             else (EFI_OUT_OF_RESOURCES, 0, f)
    | O => (EFI_OUT_OF_RESOURCES, 0, f)
    end;
  FreePool a f := DemoFw (df_polls f) (df_boot f) (df_pages f) (S (df_pool f));
  AllocatePages t k n a f :=
    if df_pages f && (n <=? 256) && (a =? 0x100000)
    then (EFI_SUCCESS, a, DemoFw (df_polls f) (df_boot f) false (df_pool f)) else (EFI_OUT_OF_RESOURCES, 0, f);
  ExitBootServices key f :=
    if key =? 1 then (EFI_SUCCESS, DemoFw (df_polls f) false (df_pages f) (df_pool f)) else (EFI_INVALID_PARAMETER, f);
  LocateProtocol f := (EFI_SUCCESS, Some demo_gop, f);
  Stall n f := f;
  SetWatchdogTimer f := f;
  ResetSystem t f := None;
  ConInReset f := f;
  ReadKeyStroke f := match df_polls f with
    | Some k :: ps => (EFI_SUCCESS, k, DemoFw ps (df_boot f) (df_pages f) (df_pool f))
    | None :: ps => (EFI_NOT_READY, InputKey 0 0, DemoFw ps (df_boot f) (df_pages f) (df_pool f))
    | [] => (EFI_NOT_READY, InputKey 0 0, f)
    end;
  ClearScreen f := f;
  OutputString s f := f
}.

Lemma demo_regions_wf : Forall entry_wf demo_regions.
Proof. repeat constructor; cbn; lia. Qed.

Definition demo_laws (size : Z) (Hs : 40 <= size < 2 ^ 32) : FirmwareLaws (demo_fw size).
Proof.
  refine {| fw_desc_size := size; fw_map := fun _ => demo_regions; fw_key := fun _ => 1;
            fw_polls := df_polls; fw_boot := df_boot |}; try done.
  - intros buf v f m Hv. exists 0. unfold zlen in *. cbn [demo_regions length] in *.
    change (Z.of_nat 2) with 2 in *. cbn [GetMemoryMap demo_firmware]. by rewrite (proj2 (Z.ltb_lt _ _) Hv).
  - intros buf v f m Hv Hb. exists (write_map m buf size demo_regions). unfold zlen in *.
    cbn [GetMemoryMap demo_firmware]. change (Z.of_nat (length demo_regions)) with 2 in *.
    rewrite (proj2 (Z.ltb_ge _ _) Hv), (proj2 (Z.eqb_neq _ _) Hb). split; [done|]. split.
    + apply map_at_write; [lia|apply demo_regions_wf].
    + intros a Ha. apply rd8_write_map; [lia|]. exact Ha.
  - intros key f Hf. cbn [ExitBootServices demo_firmware]. destruct (Z.eqb_spec key 1); [left|right]; by split_and!.
  - intros t n f. cbn [AllocatePool demo_firmware]. destruct (df_pool f); [done|].
    destruct (Z.ltb_spec n (2 ^ 16)); (split; [done|]).
    + intros _. lia.
    + done.
  - intros t k n a f. cbn [AllocatePages demo_firmware]. by destruct (_ && _ && _).
  - intros f. cbn [ReadKeyStroke demo_firmware]. destruct (df_polls f) as [|[k|] ps]; eauto.
Defined.

#[export] Instance demo_laws_40 : FirmwareLaws (demo_fw 40) := demo_laws 40 ltac:(lia).
#[export] Instance demo_laws_48 : FirmwareLaws (demo_fw 48) := demo_laws 48 ltac:(lia).

(** ** Examples *)

Definition demo_st : system_table := SystemTable [69; 68; 75; 50; 0] 0x20046.
Definition demo_image : list Z := [0xFC; 0x48; 0x89; 0xCC].
Definition demo_boot (size : Z) (polls : list (option EFI_INPUT_KEY)) : boot (demo_fw size) :=
  Boot (DemoFw polls true true 1) ∅ (Fb ∅ 0 0 0) (Some demo_gop) 10 10 2
    (BootInfo 0 0 (FramebufferInfo 0 0 0 0 0 0 0 0 0 0 0 0) 0 0 0 0 0 0 0) (MapVars 0 0 0 0).
Definition key_down : EFI_INPUT_KEY := InputKey 2 0.
Definition key_up : EFI_INPUT_KEY := InputKey 1 0.
Definition key_enter : EFI_INPUT_KEY := InputKey 0 0x0D.

(** Calls that ask for no memory change the polls only. *)
Lemma demo_idles (size : Z) (f f' : demo_fw size) :
  idles f f' -> exists ps, f' = DemoFw ps (df_boot f) (df_pages f) (df_pool f).
Proof.
  induction 1 as [f|f f1 f2 Hc _ IH]; [exists (df_polls f); by destruct f|].
  destruct IH as [ps ->]. exists ps. destruct Hc; try done.
  cbn [ReadKeyStroke demo_firmware]. by destruct (df_polls f) as [|[k|] ps'].
Qed.

Lemma demo_bootable (ps : list (option EFI_INPUT_KEY)) :
  bootable (F := demo_fw 48) (LAWS := demo_laws_48) demo_image demo_gop (DemoFw ps true true 1).
Proof.
  split; [reflexivity|by vm_compute|]. exists 0x800000, (DemoFw ps true true 0).
  split; [split; [exists EFI_SUCCESS; split; reflexivity|unfold zlen; cbn; lia]|]. split; [by vm_compute|].
  intros f2 H2. destruct (demo_idles _ _ _ H2) as [ps2 ->]. exists (DemoFw ps2 true false 1). split; [reflexivity|].
  intros f3 H3. destruct (demo_idles _ _ _ H3) as [ps3 ->]. exists 0x800000, (DemoFw ps3 true false 0).
  split; [split; [exists EFI_SUCCESS; split; reflexivity|unfold zlen; cbn; lia]|].
  split; [right; unfold zlen; cbn; lia|]. split; [unfold zlen; cbn; lia|reflexivity].
Qed.

Ltac demo_willing :=
  split;
  [ exists EFI_SUCCESS; split; reflexivity
  | unfold zlen; cbn; lia
  | reflexivity ].
Lemma demo_willing_48 (polls : list (option EFI_INPUT_KEY)) :
  willing (demo_boot 48 polls) 0x800000 (DemoFw polls true true 0).
Proof. demo_willing. Qed.


(** With descriptors of 48 bytes, the second region, at 16 MB, is read as [0x5000]
    pages from address 7 on. *)
Lemma kernel_map_stride_witness : exists (b' : boot (demo_fw 48)) k,
  boot_kernel 0x100000 (demo_boot 48 []) = BootJump 0x100000 b' /\
  mmap_list (ram b') (binfo b') !! 1%nat = Some k /\ physical_start k = 7 /\ num_pages k = 0x5000.
Proof.
  destruct (@boot_kernel_jumps _ _ demo_laws_48 0x100000 (demo_boot 48 []) 0x800000 (DemoFw [] true true 0) eq_refl
    (demo_willing_48 [])) as (b' & E & _).
  pose proof (@boot_kernel_ok _ _ demo_laws_48 0x100000 (demo_boot 48 []) eq_refl) as Hok. rewrite E in Hok.
  destruct Hok as (_ & _ & Hm).
  destruct (proj2 (@kernel_map_stride _ _ demo_laws_48 b' _ Hm) eq_refl (MemoryMapEntry 7 0 0x1000000 0x5000 512 0) eq_refl)
    as (k & Hk & Hp & Hn).
  exists b', k. split; [exact E|]. split; [exact Hk|]. split; [exact Hp|exact Hn].
Defined.

Lemma gather_memory_info_correct_witness :
  exists m, gather_memory_info (demo_boot 40 [])
    = Some (Boot (DemoFw [] true true 1) m (Fb ∅ 0 0 0) (Some demo_gop) 10 10 2 (binfo (demo_boot 40 [])) (MapVars 0 0 0 0)).
Proof.
  destruct (@gather_memory_info_correct _ _ demo_laws_40 (demo_boot 40 []) 0x800000 (DemoFw [] true true 0)) as [m E].
  - split; [exists EFI_SUCCESS; split; reflexivity|]. unfold zlen. cbn. lia.
  - exists m. rewrite E. reflexivity.
Defined.

Lemma menu_selection_correct_witness : exists b',
  menu_loop demo_image demo_st 2 5 0 (demo_boot 40 (presses [(3%nat, key_down); (0%nat, key_down)]))
  = menu_loop demo_image demo_st 0 5 2 b'.
Proof.
  destruct (@menu_selection_correct _ _ demo_laws_40 demo_image demo_st 0 5 [(3%nat, key_down); (0%nat, key_down)] [] 0
    (demo_boot 40 (presses [(3%nat, key_down); (0%nat, key_down)]))) as (_ & b' & _ & _ & E).
  - unfold MENU_COUNT. lia.
  - done.
  - repeat constructor; cbn; lia.
  - by rewrite app_nil_r.
  - exists b'. exact E.
Defined.

Lemma efi_main_starts_kernel_witness : exists b' k',
  efi_main demo_image demo_st 3 5 (demo_boot 48 (presses [(1%nat, key_down); (0%nat, key_up); (2%nat, key_enter)]))
  = Jump 0x100000 b' /\
  kernel_main demo_layout (ram b') (Some (binfo b')) demo_kernel = Some k'.
Proof.
  destruct (@efi_main_starts_kernel _ _ demo_laws_48 _ _ _ _ demo_image demo_st demo_gop
    (demo_boot 48 (presses [(1%nat, key_down); (0%nat, key_up); (2%nat, key_enter)]))
    [(1%nat, key_down); (0%nat, key_up)] 2 5 key_enter [] (demo_bootable _) eq_refl) as (b' & E & _ & Hk).
  - repeat constructor; cbn; lia.
  - lia.
  - reflexivity.
  - done.
  - done.
  - reflexivity.
  - reflexivity.
  - destruct (Hk demo_layout demo_kernel demo_bss_ok demo_isr_range (fun n => demo_isr_range (n + 32)))
      as (k' & Hk' & _).
    exists b', k'. split; [exact E|exact Hk'].
Defined.
