(* ===== verification/Abi.v ===== *)
(** * The structures shared with hardware, firmware and between the programs

    Every structure of the sources with its members in the order of their
    declaration.  The theorems show that the layouts are sound, that loader and
    kernel agree on the memory map, that the firmware's services are where the
    UEFI specification has them, and that the byte offsets the other files of
    this library use are the ones of the declarations. *)

From Stdlib Require Import String.
From S2P Require Import Prelude Mem Layout PageAlloc Pmm Heap Process Gdt Idt Isr BootInfo Efi Net Virtio VirtioNet.

#[local] Open Scope string_scope.
#[local] Open Scope Z_scope.

Abbreviation u8_t := (CInt 1).
Abbreviation u16_t := (CInt 2).
Abbreviation u32_t := (CInt 4).
Abbreviation u64_t := (CInt 8).
Abbreviation ptr_t := (CInt 8).

(** [boot/efi.h] *)

Definition EFI_GUID_layout : ctype := CStruct false [
  ("Data1", u32_t); ("Data2", u16_t); ("Data3", u16_t); ("Data4", CArray 8 u8_t)].

Definition EFI_TABLE_HEADER_layout : ctype := CStruct false [
  ("Signature", u64_t); ("Revision", u32_t); ("HeaderSize", u32_t); ("CRC32", u32_t); ("Reserved", u32_t)].

Definition EFI_MEMORY_DESCRIPTOR_layout : ctype := CStruct false [
  ("Type", u32_t); ("PhysicalStart", u64_t); ("VirtualStart", u64_t); ("NumberOfPages", u64_t);
  ("Attribute", u64_t)].

Definition EFI_INPUT_KEY_layout : ctype := CStruct false [
  ("ScanCode", u16_t); ("UnicodeChar", u16_t)].

Definition EFI_SIMPLE_TEXT_INPUT_PROTOCOL_layout : ctype := CStruct false [
  ("Reset", ptr_t); ("ReadKeyStroke", ptr_t); ("WaitForKey", u64_t)].

Definition SIMPLE_TEXT_OUTPUT_MODE_layout : ctype := CStruct false [
  ("MaxMode", u32_t); ("Mode", u32_t); ("Attribute", u32_t); ("CursorColumn", u32_t); ("CursorRow", u32_t);
  ("CursorVisible", u8_t)].

Definition EFI_SIMPLE_TEXT_OUTPUT_PROTOCOL_layout : ctype := CStruct false [
  ("Reset", ptr_t); ("OutputString", ptr_t); ("TestString", ptr_t); ("QueryMode", ptr_t);
  ("SetMode", ptr_t); ("SetAttribute", ptr_t); ("ClearScreen", ptr_t); ("SetCursorPosition", ptr_t);
  ("EnableCursor", ptr_t); ("Mode", ptr_t)].

Definition EFI_PIXEL_BITMASK_layout : ctype := CStruct false [
  ("RedMask", u32_t); ("GreenMask", u32_t); ("BlueMask", u32_t); ("ReservedMask", u32_t)].

Definition EFI_GRAPHICS_OUTPUT_MODE_INFORMATION_layout : ctype := CStruct false [
  ("Version", u32_t); ("HorizontalResolution", u32_t); ("VerticalResolution", u32_t);
  ("PixelFormat", u32_t); ("PixelInformation", EFI_PIXEL_BITMASK_layout); ("PixelsPerScanLine", u32_t)].

Definition EFI_GRAPHICS_OUTPUT_PROTOCOL_MODE_layout : ctype := CStruct false [
  ("MaxMode", u32_t); ("Mode", u32_t); ("Info", ptr_t); ("SizeOfInfo", u64_t); ("FrameBufferBase", u64_t);
  ("FrameBufferSize", u64_t)].

Definition EFI_GRAPHICS_OUTPUT_BLT_PIXEL_layout : ctype := CStruct false [
  ("Blue", u8_t); ("Green", u8_t); ("Red", u8_t); ("Reserved", u8_t)].

Definition EFI_GRAPHICS_OUTPUT_PROTOCOL_layout : ctype := CStruct false [
  ("QueryMode", ptr_t); ("SetMode", ptr_t); ("Blt", ptr_t); ("Mode", ptr_t)].

Definition EFI_BOOT_SERVICES_layout : ctype := CStruct false [
  ("Hdr", EFI_TABLE_HEADER_layout); ("RaiseTPL", ptr_t); ("RestoreTPL", ptr_t); ("AllocatePages", ptr_t);
  ("FreePages", ptr_t); ("GetMemoryMap", ptr_t); ("AllocatePool", ptr_t); ("FreePool", ptr_t);
  ("CreateEvent", ptr_t); ("SetTimer", ptr_t); ("WaitForEvent", ptr_t); ("SignalEvent", ptr_t);
  ("CloseEvent", ptr_t); ("CheckEvent", ptr_t); ("InstallProtocolInterface", ptr_t);
  ("ReinstallProtocolInterface", ptr_t); ("UninstallProtocolInterface", ptr_t); ("HandleProtocol", ptr_t);
  ("Reserved", ptr_t); ("RegisterProtocolNotify", ptr_t); ("LocateHandle", ptr_t);
  ("LocateDevicePath", ptr_t); ("InstallConfigurationTable", ptr_t); ("LoadImage", ptr_t);
  ("StartImage", ptr_t); ("Exit", ptr_t); ("UnloadImage", ptr_t); ("ExitBootServices", ptr_t);
  ("GetNextMonotonicCount", ptr_t); ("Stall", ptr_t); ("SetWatchdogTimer", ptr_t);
  ("ConnectController", ptr_t); ("DisconnectController", ptr_t); ("OpenProtocol", ptr_t);
  ("CloseProtocol", ptr_t); ("OpenProtocolInformation", ptr_t); ("ProtocolsPerHandle", ptr_t);
  ("LocateHandleBuffer", ptr_t); ("LocateProtocol", ptr_t); ("InstallMultipleProtocolInterfaces", ptr_t);
  ("UninstallMultipleProtocolInterfaces", ptr_t); ("CalculateCrc32", ptr_t); ("CopyMem", ptr_t);
  ("SetMem", ptr_t); ("CreateEventEx", ptr_t)].

Definition EFI_RUNTIME_SERVICES_layout : ctype := CStruct false [
  ("Hdr", EFI_TABLE_HEADER_layout); ("GetTime", ptr_t); ("SetTime", ptr_t); ("GetWakeupTime", ptr_t);
  ("SetWakeupTime", ptr_t); ("SetVirtualAddressMap", ptr_t); ("ConvertPointer", ptr_t);
  ("GetVariable", ptr_t); ("GetNextVariableName", ptr_t); ("SetVariable", ptr_t);
  ("GetNextHighMonotonicCount", ptr_t); ("ResetSystem", ptr_t); ("UpdateCapsule", ptr_t);
  ("QueryCapsuleCapabilities", ptr_t); ("QueryVariableInfo", ptr_t)].

Definition EFI_SYSTEM_TABLE_layout : ctype := CStruct false [
  ("Hdr", EFI_TABLE_HEADER_layout); ("FirmwareVendor", ptr_t); ("FirmwareRevision", u32_t);
  ("ConsoleInHandle", u64_t); ("ConIn", ptr_t); ("ConsoleOutHandle", u64_t); ("ConOut", ptr_t);
  ("StandardErrorHandle", u64_t); ("StdErr", ptr_t); ("RuntimeServices", ptr_t); ("BootServices", ptr_t);
  ("NumberOfTableEntries", u64_t); ("ConfigurationTable", ptr_t)].

(** [include/bootinfo.h] *)

Definition memory_map_entry_t_layout : ctype := CStruct false [
  ("type", u32_t); ("pad", u32_t); ("physical_start", u64_t); ("virtual_start", u64_t);
  ("num_pages", u64_t); ("attribute", u64_t)].

Definition framebuffer_info_t_layout : ctype := CStruct false [
  ("base", u64_t); ("size", u64_t); ("width", u32_t); ("height", u32_t); ("pitch", u32_t); ("bpp", u32_t);
  ("red_mask_size", u8_t); ("red_mask_shift", u8_t); ("green_mask_size", u8_t); ("green_mask_shift", u8_t);
  ("blue_mask_size", u8_t); ("blue_mask_shift", u8_t); ("reserved", CArray 2 u8_t)].

Definition boot_info_t_layout : ctype := CStruct false [
  ("magic", u64_t); ("version", u64_t); ("framebuffer", framebuffer_info_t_layout);
  ("mmap_entries", u64_t); ("mmap_entry_size", u64_t); ("mmap", ptr_t); ("acpi_rsdp", u64_t);
  ("kernel_physical_base", u64_t); ("kernel_virtual_base", u64_t); ("kernel_size", u64_t);
  ("reserved", CArray 8 u64_t)].

(** [kernel/mm/heap.c] *)

Definition heap_block_t_layout : ctype := CStruct false [
  ("size", u64_t); ("free", u32_t); ("next", ptr_t); ("prev", ptr_t)].

(** [kernel/mm/vmm.h] *)

Definition page_table_t_layout : ctype := CStruct false [
  ("entries", CArray 512 u64_t)].

Definition page_directory_t_layout : ctype := CStruct false [
  ("entries", CArray 512 u64_t)].

Definition page_directory_ptr_t_layout : ctype := CStruct false [
  ("entries", CArray 512 u64_t)].

Definition pml4_t_layout : ctype := CStruct false [
  ("entries", CArray 512 u64_t)].

(** [kernel/proc/process.h] *)

Definition context_t_layout : ctype := CStruct false [
  ("r15", u64_t); ("r14", u64_t); ("r13", u64_t); ("r12", u64_t); ("rbp", u64_t); ("rbx", u64_t);
  ("rip", u64_t)].

Definition process_t_layout : ctype := CStruct false [
  ("pid", u64_t); ("state", u32_t); ("priority", u32_t); ("context", ptr_t); ("kernel_stack", u64_t);
  ("kernel_stack_top", u64_t); ("page_table", ptr_t); ("brk", u64_t); ("time_slice", u64_t);
  ("total_time", u64_t); ("wake_time", u64_t); ("parent", ptr_t); ("exit_code", u32_t); ("next", ptr_t);
  ("prev", ptr_t); ("name", CArray 32 u8_t)].

(** [kernel/cpu/gdt.h] *)

Definition gdt_entry_t_layout : ctype := CStruct true [
  ("limit_low", u16_t); ("base_low", u16_t); ("base_mid", u8_t); ("access", u8_t); ("granularity", u8_t);
  ("base_high", u8_t)].

Definition gdt_ptr_t_layout : ctype := CStruct true [
  ("limit", u16_t); ("base", u64_t)].

Definition tss_t_layout : ctype := CStruct true [
  ("reserved0", u32_t); ("rsp0", u64_t); ("rsp1", u64_t); ("rsp2", u64_t); ("reserved1", u64_t);
  ("ist1", u64_t); ("ist2", u64_t); ("ist3", u64_t); ("ist4", u64_t); ("ist5", u64_t); ("ist6", u64_t);
  ("ist7", u64_t); ("reserved2", u64_t); ("reserved3", u16_t); ("iomap_base", u16_t)].

(** [kernel/cpu/idt.h] *)

Definition idt_entry_t_layout : ctype := CStruct true [
  ("offset_low", u16_t); ("selector", u16_t); ("ist", u8_t); ("type_attr", u8_t); ("offset_mid", u16_t);
  ("offset_high", u32_t); ("reserved", u32_t)].

Definition idt_ptr_t_layout : ctype := CStruct true [
  ("limit", u16_t); ("base", u64_t)].

Definition interrupt_frame_t_layout : ctype := CStruct false [
  ("r15", u64_t); ("r14", u64_t); ("r13", u64_t); ("r12", u64_t); ("r11", u64_t); ("r10", u64_t);
  ("r9", u64_t); ("r8", u64_t); ("rbp", u64_t); ("rdi", u64_t); ("rsi", u64_t); ("rdx", u64_t);
  ("rcx", u64_t); ("rbx", u64_t); ("rax", u64_t); ("interrupt_number", u64_t); ("error_code", u64_t);
  ("rip", u64_t); ("cs", u64_t); ("rflags", u64_t); ("rsp", u64_t); ("ss", u64_t)].

(** [kernel/syscall/syscall.h] *)

Definition syscall_context_t_layout : ctype := CStruct false [
  ("r15", u64_t); ("r14", u64_t); ("r13", u64_t); ("r12", u64_t); ("r11", u64_t); ("r10", u64_t);
  ("r9", u64_t); ("r8", u64_t); ("rbp", u64_t); ("rdi", u64_t); ("rsi", u64_t); ("rdx", u64_t);
  ("rcx", u64_t); ("rbx", u64_t); ("rax", u64_t)].

(** [kernel/net.h] *)

Definition eth_header_t_layout : ctype := CStruct true [
  ("dest", CArray 6 u8_t); ("src", CArray 6 u8_t); ("type", u16_t)].

Definition arp_packet_t_layout : ctype := CStruct true [
  ("hw_type", u16_t); ("proto_type", u16_t); ("hw_len", u8_t); ("proto_len", u8_t); ("operation", u16_t);
  ("sender_mac", CArray 6 u8_t); ("sender_ip", u32_t); ("target_mac", CArray 6 u8_t); ("target_ip", u32_t)].

Definition ip_header_t_layout : ctype := CStruct true [
  ("version_ihl", u8_t); ("tos", u8_t); ("total_len", u16_t); ("id", u16_t); ("flags_frag", u16_t);
  ("ttl", u8_t); ("protocol", u8_t); ("checksum", u16_t); ("src_ip", u32_t); ("dest_ip", u32_t)].

Definition icmp_header_t_layout : ctype := CStruct true [
  ("type", u8_t); ("code", u8_t); ("checksum", u16_t); ("id", u16_t); ("sequence", u16_t)].

Definition udp_header_t_layout : ctype := CStruct true [
  ("src_port", u16_t); ("dest_port", u16_t); ("length", u16_t); ("checksum", u16_t)].

(** [kernel/virtio.h] *)

Definition virtq_desc_t_layout : ctype := CStruct true [
  ("addr", u64_t); ("len", u32_t); ("flags", u16_t); ("next", u16_t)].

Definition virtq_avail_t_layout : ctype := CStruct true [
  ("flags", u16_t); ("idx", u16_t); ("ring", CArray 0 u16_t)].

Definition virtq_used_elem_t_layout : ctype := CStruct true [
  ("id", u32_t); ("len", u32_t)].

Definition virtq_used_t_layout : ctype := CStruct true [
  ("flags", u16_t); ("idx", u16_t); ("ring", CArray 0 virtq_used_elem_t_layout)].

Definition virtqueue_t_layout : ctype := CStruct false [
  ("size", u16_t); ("desc", ptr_t); ("avail", ptr_t); ("used", ptr_t); ("free_head", u16_t);
  ("num_free", u16_t); ("last_used_idx", u16_t)].

Definition virtio_net_config_t_layout : ctype := CStruct true [
  ("mac", CArray 6 u8_t); ("status", u16_t); ("max_virtqueue_pairs", u16_t)].

Definition virtio_net_hdr_t_layout : ctype := CStruct true [
  ("flags", u8_t); ("gso_type", u8_t); ("hdr_len", u16_t); ("gso_size", u16_t); ("csum_start", u16_t);
  ("csum_offset", u16_t); ("num_buffers", u16_t)].

(** [kernel/pci.h] *)

Definition pci_device_t_layout : ctype := CStruct false [
  ("bus", u8_t); ("device", u8_t); ("function", u8_t); ("vendor_id", u16_t); ("device_id", u16_t);
  ("class_code", u8_t); ("subclass", u8_t); ("prog_if", u8_t); ("revision", u8_t);
  ("interrupt_line", u8_t); ("interrupt_pin", u8_t); ("bar", CArray 6 u32_t); ("valid", u32_t)].

(** [kernel/virtio_net.h] *)

Definition virtio_net_device_t_layout : ctype := CStruct false [
  ("pci_dev", ptr_t); ("io_base", u16_t); ("mac", CArray 6 u8_t); ("rx_queue", virtqueue_t_layout);
  ("tx_queue", virtqueue_t_layout); ("rx_buffers", CArray 16 (CArray 2048 u8_t));
  ("tx_buffers", CArray 16 (CArray 2048 u8_t)); ("packets_rx", u64_t); ("packets_tx", u64_t);
  ("bytes_rx", u64_t); ("bytes_tx", u64_t); ("initialized", u32_t)].

Definition abi_structs : list (string * ctype) := [
  ("EFI_GUID", EFI_GUID_layout);
  ("EFI_TABLE_HEADER", EFI_TABLE_HEADER_layout);
  ("EFI_MEMORY_DESCRIPTOR", EFI_MEMORY_DESCRIPTOR_layout);
  ("EFI_INPUT_KEY", EFI_INPUT_KEY_layout);
  ("EFI_SIMPLE_TEXT_INPUT_PROTOCOL", EFI_SIMPLE_TEXT_INPUT_PROTOCOL_layout);
  ("SIMPLE_TEXT_OUTPUT_MODE", SIMPLE_TEXT_OUTPUT_MODE_layout);
  ("EFI_SIMPLE_TEXT_OUTPUT_PROTOCOL", EFI_SIMPLE_TEXT_OUTPUT_PROTOCOL_layout);
  ("EFI_PIXEL_BITMASK", EFI_PIXEL_BITMASK_layout);
  ("EFI_GRAPHICS_OUTPUT_MODE_INFORMATION", EFI_GRAPHICS_OUTPUT_MODE_INFORMATION_layout);
  ("EFI_GRAPHICS_OUTPUT_PROTOCOL_MODE", EFI_GRAPHICS_OUTPUT_PROTOCOL_MODE_layout);
  ("EFI_GRAPHICS_OUTPUT_BLT_PIXEL", EFI_GRAPHICS_OUTPUT_BLT_PIXEL_layout);
  ("EFI_GRAPHICS_OUTPUT_PROTOCOL", EFI_GRAPHICS_OUTPUT_PROTOCOL_layout);
  ("EFI_BOOT_SERVICES", EFI_BOOT_SERVICES_layout);
  ("EFI_RUNTIME_SERVICES", EFI_RUNTIME_SERVICES_layout);
  ("EFI_SYSTEM_TABLE", EFI_SYSTEM_TABLE_layout);
  ("memory_map_entry_t", memory_map_entry_t_layout);
  ("framebuffer_info_t", framebuffer_info_t_layout);
  ("boot_info_t", boot_info_t_layout);
  ("heap_block_t", heap_block_t_layout);
  ("page_table_t", page_table_t_layout);
  ("page_directory_t", page_directory_t_layout);
  ("page_directory_ptr_t", page_directory_ptr_t_layout);
  ("pml4_t", pml4_t_layout);
  ("context_t", context_t_layout);
  ("process_t", process_t_layout);
  ("gdt_entry_t", gdt_entry_t_layout);
  ("gdt_ptr_t", gdt_ptr_t_layout);
  ("tss_t", tss_t_layout);
  ("idt_entry_t", idt_entry_t_layout);
  ("idt_ptr_t", idt_ptr_t_layout);
  ("interrupt_frame_t", interrupt_frame_t_layout);
  ("syscall_context_t", syscall_context_t_layout);
  ("eth_header_t", eth_header_t_layout);
  ("arp_packet_t", arp_packet_t_layout);
  ("ip_header_t", ip_header_t_layout);
  ("icmp_header_t", icmp_header_t_layout);
  ("udp_header_t", udp_header_t_layout);
  ("virtq_desc_t", virtq_desc_t_layout);
  ("virtq_avail_t", virtq_avail_t_layout);
  ("virtq_used_elem_t", virtq_used_elem_t_layout);
  ("virtq_used_t", virtq_used_t_layout);
  ("virtqueue_t", virtqueue_t_layout);
  ("virtio_net_config_t", virtio_net_config_t_layout);
  ("virtio_net_hdr_t", virtio_net_hdr_t_layout);
  ("pci_device_t", pci_device_t_layout);
  ("virtio_net_device_t", virtio_net_device_t_layout)].

(** ** Theorems *)

(** A structure whose members lie in it one after another, aligned unless it is packed. *)
Definition laid_out (t : ctype) : Prop :=
  match t with
  | CStruct packed _ => sound_layout packed 0 (size_of t) (members_of t) /\ size_of t mod align_of t = 0
  | _ => False
  end.

(** The members of every structure of the sources lie inside of it, in order and without
    overlap, and are aligned unless it is packed; an array of the structure keeps the
    alignment. *)
Theorem abi_layouts_sound : Forall (fun st => laid_out st.2) abi_structs.
Proof.
  assert (Hall : forallb (fun st => match st.2 with
    | CStruct packed ms => sane ms && (0 <? align_of st.2) | _ => false end) abi_structs = true)
    by (vm_compute; reflexivity).
  rewrite forallb_forall in Hall. rewrite Forall_forall. intros [n t] Hin. apply list_elem_of_In in Hin.
  specialize (Hall _ Hin). cbn [snd] in *. destruct t as [| |packed ms]; try discriminate Hall.
  apply andb_true_iff in Hall as [Hs Ha]. apply Z.ltb_lt in Ha. by apply struct_sound.
Qed.

(** The firmware's descriptors and the kernel's entries: an array of [EFI_MEMORY_DESCRIPTOR]
    is read by the kernel, as an array of [memory_map_entry_t], with the same fields, the
    kernel's [pad] being the padding of the descriptor. *)
Theorem memory_map_shared (m : memory) (a : Z) :
  let e := entry_at m a in
  size_of EFI_MEMORY_DESCRIPTOR_layout = MMAP_STRIDE /\ size_of memory_map_entry_t_layout = MMAP_STRIDE /\
  read_members EFI_MEMORY_DESCRIPTOR_layout m a
  = [mm_type e; physical_start e; virtual_start e; num_pages e; attribute e] /\
  read_members memory_map_entry_t_layout m a
  = [mm_type e; mm_pad e; physical_start e; virtual_start e; num_pages e; attribute e] /\
  desc_Type m a = mm_type e /\ desc_NumberOfPages m a = num_pages e.
Proof. split_and!; try reflexivity; cbn; by rewrite Z.add_0_r. Qed.

(** The offsets that the models of the components use are those of the declared structures. *)
Theorem models_use_abi_offsets (h : heap) (b : Z) (m : memory) (a : Z) (vq : virtqueue) (i : Z) :
  (size_of heap_block_t_layout = HEADER /\
   read_members heap_block_t_layout (hmem h) b = [blk_size b h; blk_free b h; blk_next b h; blk_prev b h]) /\
  (let f := frame_at m a in
   read_members interrupt_frame_t_layout m a
   = [f_r15 f; f_r14 f; f_r13 f; f_r12 f; f_r11 f; f_r10 f; f_r9 f; f_r8 f; f_rbp f; f_rdi f; f_rsi f; f_rdx f;
      f_rcx f; f_rbx f; f_rax f; f_interrupt_number f; f_error_code f; f_rip f; f_cs f; f_rflags f; f_rsp f;
      f_ss f]) /\
  (offsets virtq_desc_t_layout = [("addr", 0); ("len", 8); ("flags", 12); ("next", 14)] /\
   desc_at vq i = desc vq + size_of virtq_desc_t_layout * i /\
   offset_of virtq_avail_t_layout "idx" = Some 2 /\ offset_of virtq_used_t_layout "idx" = Some 2 /\
   Some (avail_at vq i) = (fun o => avail vq + o + size_of u16_t * i) <$> offset_of virtq_avail_t_layout "ring" /\
   Some (used_at vq i) = (fun o => used vq + o + size_of virtq_used_elem_t_layout * i)
     <$> offset_of virtq_used_t_layout "ring" /\
   offsets virtq_used_elem_t_layout = [("id", 0); ("len", 4)]) /\
  (offsets eth_header_t_layout = [("dest", eth_dest); ("src", eth_src); ("type", eth_type)] /\
   size_of eth_header_t_layout = ETH_HLEN /\
   offsets arp_packet_t_layout
   = [("hw_type", arp_hw_type); ("proto_type", arp_proto_type); ("hw_len", arp_hw_len);
      ("proto_len", arp_proto_len); ("operation", arp_operation); ("sender_mac", arp_sender_mac);
      ("sender_ip", arp_sender_ip); ("target_mac", arp_target_mac); ("target_ip", arp_target_ip)] /\
   size_of arp_packet_t_layout = sizeof_arp_packet /\
   offsets ip_header_t_layout
   = [("version_ihl", ip_version_ihl); ("tos", ip_tos); ("total_len", ip_total_len); ("id", ip_id);
      ("flags_frag", ip_flags_frag); ("ttl", ip_ttl); ("protocol", ip_protocol);
      ("checksum", ip_checksum_field); ("src_ip", ip_src_ip); ("dest_ip", ip_dest_ip)] /\
   offsets icmp_header_t_layout
   = [("type", icmp_type); ("code", icmp_code); ("checksum", icmp_checksum); ("id", icmp_id);
      ("sequence", icmp_sequence)] /\
   size_of virtio_net_hdr_t_layout = sizeof_virtio_net_hdr) /\
  (size_of tss_t_layout = sizeof_tss /\ size_of page_table_t_layout = PAGE_SIZE /\
   size_of pml4_t_layout = PAGE_SIZE).
Proof. split_and!; try reflexivity; cbn; by rewrite ?Z.add_0_r. Qed.

(** [context_t] is not what [context_switch] saves: it loads RBP from the place of the member
    [rbx] and RBX from that of [rbp]. *)
Theorem context_layout_differs (new : Z) (r : regs) (m : memory) :
  let '(_, r', m') := context_switch new r m in
  offset_of context_t_layout "rbp" = Some 32 /\ offset_of context_t_layout "rbx" = Some 40 /\
  rbp r' = rd64 m' (new + 40) /\ rbx r' = rd64 m' (new + 32).
Proof. unfold context_switch. by destruct (push_words _ _ _). Qed.

(** The slots of the services the loader calls are at the offsets of the UEFI specification. *)
Theorem efi_slots :
  offset_of EFI_SYSTEM_TABLE_layout <$> ["ConIn"; "ConOut"; "RuntimeServices"; "BootServices"]
  = [Some 48; Some 64; Some 88; Some 96] /\
  offset_of EFI_BOOT_SERVICES_layout
    <$> ["AllocatePages"; "GetMemoryMap"; "AllocatePool"; "FreePool"; "ExitBootServices"; "Stall";
         "SetWatchdogTimer"; "LocateProtocol"]
  = [Some 40; Some 56; Some 64; Some 72; Some 232; Some 248; Some 256; Some 320] /\
  offset_of EFI_RUNTIME_SERVICES_layout "ResetSystem" = Some 104 /\
  offset_of EFI_GRAPHICS_OUTPUT_PROTOCOL_layout "Mode" = Some 24 /\
  offset_of EFI_GRAPHICS_OUTPUT_PROTOCOL_MODE_layout <$> ["Info"; "FrameBufferBase"; "FrameBufferSize"]
  = [Some 8; Some 24; Some 32] /\
  offset_of EFI_GRAPHICS_OUTPUT_MODE_INFORMATION_layout
    <$> ["HorizontalResolution"; "VerticalResolution"; "PixelsPerScanLine"]
  = [Some 4; Some 8; Some 32].
Proof. split_and!; vm_compute; reflexivity. Qed.
